(* ===== verification/_CoqProject ===== *)
-Q . S2P
Prelude.v
Words.v
Message.v
Interfaces.v
Storage.v
StorageSpec.v
StorageHealth.v
Config.v
Metrics.v
Session.v
World.v
Router.v
RouterSpec.v
Handlers.v
HandlersSpec.v
Cleanup.v
Routing.v
Replies.v
Acks.v
Offline.v
Registration.v
Idle.v
Redelivery.v
Forward.v
Server.v
ServerSpec.v
Concurrency.v
EventLoop.v
Reachable.v
Typed.v
Main.v
Startup.v
Client.v
ClientSpec.v
Scenarios.v
