(* ===== verification/Prelude.v ===== *)
(** * A verification library for the asynchronous message broker

    The broker is a ZeroMQ ROUTER server in C++: clients register under a name, send each
    other messages and replies, and acknowledge them; what cannot be delivered, or is not
    acknowledged in time, is kept in an SQLite database and delivered later.  This library
    is a shallow embedding of its sources in Rocq, operation by operation under the names
    of the code, with the theorems that say what the operations do.

    ** How the program is modelled

    A C++ call returns, throws, or does not come back ([result], with [Stuck] for a
    deadlock, [std::terminate], a failed assertion or a bad memory access); a computation
    over a state [S] is [M S A], a function from a state to a result and a state, so that
    what was done before an exception stays done.  The combinators of this file
    ([bind], [try_catch], [finally], [for_each], [while_fuel], [lock_guard]) are the control
    structures the sources use.  Integers are [Z] with their wrap-around written out;
    bytes are [list byte]; a [std::string] is a [string].  Two kinds of reasoning are
    shared by all files: [keeps I F m] and [wp F m s Q E] (an invariant, and what may stop
    a call), and [preserves R m] (a relation between the states before and after,
    whatever the outcome).

    ** The parts, and where they are

    - [Words.v]: machine words, bytes in memory, C strings.
    - [Message.v]: [Message] and its wire format ([include/message.hpp], [src/message.cpp]).
    - [Interfaces.v]: [IStorage] ([include/interfaces.hpp]) as a class of operations, and the
      laws its callers rely on, against an abstract store: [IStorageLaws], what holds
      whatever fails, and [IStorageHealth], what the calls answer when nothing does.
    - [Storage.v], [StorageSpec.v], [StorageHealth.v]: [Storage] ([include/storage.hpp],
      [src/storage.cpp]), the tables and statements, and the proofs that it implements the
      two classes.
    - [Config.v]: the command line ([include/config.hpp]).
    - [Metrics.v]: [MetricsManager] ([include/metrics.hpp], [src/metrics.cpp]).
    - [Session.v]: [Session] ([include/session.hpp], [src/session.cpp]).
    - [World.v]: the state the handlers share, [SendToClient] and
      [ScheduleSendProcessing] ([src/server.cpp]), shared pointers and their scopes.
    - [Router.v], [RouterSpec.v], [Cleanup.v], [Offline.v], [Redelivery.v]: [Router]
      ([include/router.hpp], [src/router.cpp]): the registry and its invariant, the two
      timers' work, the loops over stored messages and replies.
    - [Handlers.v], [HandlersSpec.v], [Routing.v], [Replies.v], [Acks.v], [Registration.v],
      [Forward.v], [Idle.v]: the message handlers and [RouteMessage]
      ([include/message_handler.hpp], [src/message_handler.cpp]): messages, replies, ACKs,
      registrations, and what a registration finds in the store.
    - [Server.v], [ServerSpec.v], [EventLoop.v]: [Server] ([include/server.hpp],
      [src/server.cpp]): the socket, the send queue, the handlers of the io context, [Stop].
    - [Reachable.v], [Typed.v]: every sequence of events of a server: what can stop it, and the
      types of what moves through it.
    - [Concurrency.v]: the send queue again, with its threads, at the grain of the mutexes.
    - [Main.v], [Startup.v]: [main] and the signal handler ([src/main.cpp]), the constructor of
      [Server], [InitExposer].
    - [Client.v], [ClientSpec.v]: the example client ([examples/universal_client.cpp]).
    - [Scenarios.v]: the whole model run on concrete inputs: the witnesses of the theorems
      about worlds, end-to-end runs, and the behaviours that go wrong.

    They interact as the classes do: [Server] reads a pair of frames, decodes it
    ([Message]) and hands it to [RouteMessage]; the handler calls the registry ([Router]),
    the store ([IStorage]) and the session of the destination ([Session::SendMessage]),
    which serialises and calls [SendToClient], that is, appends to the send queue and
    posts a handler; [ProcessPendingSends] takes the queue to the socket and calls the
    session back when a send fails.  [Router], [Handlers] and [Server] are proved against the
    classes [IStorageLaws] and [IStorageHealth]; [Storage] is an instance of both
    ([Storage_IStorage], [StorageSpec.v], [StorageHealth.v]).  [Session] is proved against
    [SessionEnv], which [World] implements.

    ** What the theorems show

    - Wire format: [Serialize] and [Deserialize] are inverse both ways, [Deserialize] is total
      with its errors characterised, and every field has its place.
    - Store: [Storage] refines the abstract store, never loses a message or takes a DELIVERED
      one back, keeps its correlations unique and tied to messages, loads exactly what is
      pending, and reopens without change; every statement is free to fail.
    - Registry and handlers: [RouteMessage] keeps the registry consistent; each handler has
      its outcome stated branch by branch, twice where it matters: what it may leave whatever
      the store does, and what it does when the store is well ([st_well]).  One handler at a
      time, no call gets stuck and no message waits in a session.  A reply to a message that
      asked for an ACK takes the message's correlation over, so that no ACK finds it.
    - Store and forward: a registration gives the client everything that waited for it, each
      message once.  The outcomes of the delivery loops are about the very list the load
      answered with, and on a well store that list is complete.
    - Redelivery and cleanup: what the two timers do, and the deadlock of the cleanup.
    - Event loop: the receive loop is a reference that takes frames two by two; a pass over
      the send queue gives each message one turn; [serve_outcome] is the invariant of every
      run, changes of the store by steps of the contract included, and the complete list of
      what can stop one, errors of the socket's reads among them; [serve_typed] is that whatever a run
      stores, queues or sends is a message the codec reads back.
    - Concurrency: no message is lost or sent twice and no wake-up is lost, in any
      interleaving of the threads; the sequential [ProcessPendingSends] is the run of one
      uninterrupted thread.
    - Process: the command line and its exceptions, the signal handler, what [main] exits
      with ([main_serves] puts it together with the runs of [Reachable.v]).
    - Client: it agrees with the broker on the wire, acknowledges before it replies, sends the
      message a command names, and what its [main] leaves.

    ** Bounds and fuel

    Loops over a list are structural.  A [while] is [while_fuel]: the loop that drains the
    socket has the number of frames there plus one, those that drain a queue the queue's
    length, and each comes with the theorem that it never runs out ([receive_loop_routed],
    [Stop_outcome], the lemmas of [Session.v]).  Ten digits print an [int]
    ([dec]) and twenty a [uint64_t] ([decimal] of [Client.v]).

    ** Not modelled

    - What is only output: log lines, [PrintBanner], [PrintHelp], what the client prints.
    - ZeroMQ, Boost.Asio, SQLite, Prometheus, [fcntl], the random numbers: parameters of
      the definitions that use them ([Socket] with arbitrary lists of what its sends and its
      reads answer, [SqlEngine]
      and the [faults] of a connection, [Platform], [HashOrder] for the order of an
      [unordered_map], [Host] for byte order and build switches).
    - Handlers that run at once, outside the send queue: [World] runs one handler at a time.
      [Concurrency.v] covers what [SendToClient], the posted handlers, [OnZmqEvent] and [Stop]
      do to the queue; the races of [IsOnline] with a failing send, and of a replaced session
      with its callback, are shown by runs of [Scenarios.v].
    - [SetupSignalHandlers] (which signals are caught), the wait on the condition variable,
      and the threads themselves: what they do before the main thread wakes up is an
      arbitrary computation in [main_outcome], and a run of [serve] in [main_serves].
    - The unit tests and mocks; [metrics_stub.cpp] is empty.

    ** What is left

    More of the concurrency at the level of sessions (a handler against a failing send, two
    handlers on one client); bounds on the send queue and on what one event may append to
    it. *)

From Stdlib Require Import ZArith Lia.
From stdpp Require Export base numbers option list strings gmap.

Declare Scope broker_scope.
Delimit Scope broker_scope with broker.
Open Scope Z_scope.

(** ** Outcomes

    A C++ call returns, throws, or never comes back.  [exn] lists the exception
    classes the sources throw or catch, all of them derived from
    [std::exception]; [stuck] lists the ways in which a call does not come back
    to its caller: it blocks on a mutex its own thread holds, it reaches
    [std::terminate] or an assertion, or it reads memory it must not. *)
Inductive exn : Type :=
| runtime_error (what : string)
| invalid_argument (what : string)
| out_of_range (what : string)
| ConfigError (what : string)
| HelpRequested
| zmq_error.

Inductive stuck : Type :=
| Deadlock
| Terminate
| AssertionFailed
| OutOfBounds
| UseAfterFree
| OutOfFuel.

Inductive result (A : Type) : Type :=
| Ret (a : A)
| Throw (e : exn)
| Stuck (f : stuck).
Arguments Ret {A} a.
Arguments Throw {A} e.
Arguments Stuck {A} f.

#[export] Instance exn_eq_dec : EqDecision exn.
Proof. solve_decision. Defined.
#[export] Instance stuck_eq_dec : EqDecision stuck.
Proof. solve_decision. Defined.
#[export] Instance result_eq_dec {A} `{EqDecision A} : EqDecision (result A).
Proof. solve_decision. Defined.

Definition rbind {A B} (m : result A) (k : A -> result B) : result B :=
  match m with
  | Ret a => k a
  | Throw e => Throw e
  | Stuck f => Stuck f
  end.

Notation "x <-? m ;; k" := (rbind m (fun x => k))
  (at level 100, m at next level, right associativity) : broker_scope.

(** The blocked and aborted outcomes a property may have to exclude. *)
Definition is_stuck {A} (r : result A) : bool :=
  match r with Stuck _ => true | _ => false end.

(** ** Stateful computations

    [M S A]: a computation over the state [S]; the state survives an exception,
    as the objects of the program do. *)
Definition M (S A : Type) : Type := S -> result A * S.

Section Monad.
Context {S : Type}.

Definition ret {A} (a : A) : M S A := fun s => (Ret a, s).
Definition throw {A} (e : exn) : M S A := fun s => (Throw e, s).
Definition hang {A} (f : stuck) : M S A := fun s => (Stuck f, s).

Definition bind {A B} (m : M S A) (k : A -> M S B) : M S B :=
  fun s => match m s with
           | (Ret a, s') => k a s'
           | (Throw e, s') => (Throw e, s')
           | (Stuck f, s') => (Stuck f, s')
           end.

(** [try m catch (const std::exception&) h] *)
Definition try_catch {A} (m : M S A) (h : exn -> M S A) : M S A :=
  fun s => match m s with
           | (Throw e, s') => h e s'
           | other => other
           end.

(** A scope whose exit, normal or by an exception, runs [fin] (a destructor). *)
Definition finally {A} (m : M S A) (fin : M S unit) : M S A :=
  fun s => match m s with
           | (Stuck f, s') => (Stuck f, s')
           | (r, s') => match fin s' with
                        | (Ret _, s'') => (r, s'')
                        | (Throw e, s'') => (Stuck Terminate, s'')
                        | (Stuck f, s'') => (Stuck f, s'')
                        end
           end.

Definition gets {A} (f : S -> A) : M S A := fun s => (Ret (f s), s).
Definition modify (f : S -> S) : M S unit := fun s => (Ret tt, f s).
Definition lift {A} (r : result A) : M S A := fun s => (r, s).
End Monad.

Notation "x <- m ;; k" := (bind m (fun x => k))
  (at level 100, m at next level, right associativity) : broker_scope.
Notation "m ;;; k" := (bind m (fun _ => k))
  (at level 100, right associativity) : broker_scope.
Open Scope broker_scope.

(** [for (x : l) body], where [body] says whether the loop goes on. *)
Inductive ctl : Type := Continue | Break.

Fixpoint for_each {S A} (l : list A) (body : A -> M S ctl) : M S unit :=
  match l with
  | [] => ret tt
  | x :: l' =>
      c <- body x ;;
      match c with
      | Continue => for_each l' body
      | Break => ret tt
      end
  end.

(** [while (cond) body], with fuel: a loop that needs more is [OutOfFuel]. *)
Fixpoint while_fuel {S} (n : nat) (cond : M S bool) (body : M S ctl) : M S unit :=
  b <- cond ;;
  if (b : bool) then
    match n with
    | O => hang OutOfFuel
    | Datatypes.S n' =>
        c <- body ;;
        match c with
        | Continue => while_fuel n' cond body
        | Break => ret tt
        end
    end
  else ret tt.

(** [std::lock_guard] on a non-recursive mutex: a thread that locks a mutex it holds
    waits for ever; the guard releases it on return and on an exception. *)
Definition lock_guard {S A} (held : S -> bool) (set : bool -> S -> S) (m : M S A) : M S A :=
  fun s =>
    if held s then (Stuck Deadlock, s)
    else match m (set true s) with
         | (Stuck f, s') => (Stuck f, s')
         | (r, s') => (r, set false s')
         end.

(** ** What a computation leads to

    [wp F m s Q E]: run from [s], [m] returns into [Q], or throws into [E], or does
    not come back for a reason in [F]. *)
Definition wp {S A} (F : stuck -> Prop) (m : M S A) (s : S) (Q : A -> S -> Prop)
    (E : S -> Prop) : Prop :=
  match m s with
  | (Ret a, s') => Q a s'
  | (Throw _, s') => E s'
  | (Stuck f, _) => F f
  end.

Section Wp.
Context {S : Type} (F : stuck -> Prop).

Lemma wp_conseq {A} (m : M S A) s (Q Q' : A -> S -> Prop) (E E' : S -> Prop) :
  wp F m s Q E -> (forall a s', Q a s' -> Q' a s') -> (forall s', E s' -> E' s') ->
  wp F m s Q' E'.
Proof. unfold wp. destruct (m s) as [[]?]; auto. Qed.

Lemma wp_and {A} (m : M S A) s (Q Q' : A -> S -> Prop) (E E' : S -> Prop) :
  wp F m s Q E -> wp F m s Q' E' ->
  wp F m s (fun a s' => Q a s' /\ Q' a s') (fun s' => E s' /\ E' s').
Proof. unfold wp. by destruct (m s) as [[]?]. Qed.

Lemma wp_bind {A B} (m : M S A) (k : A -> M S B) s Q E :
  wp F m s (fun a s' => wp F (k a) s' Q E) E -> wp F (bind m k) s Q E.
Proof. unfold wp, bind. by destruct (m s) as [[]?]. Qed.

Lemma wp_ret {A} (a : A) s (Q : A -> S -> Prop) E : Q a s -> wp F (ret a) s Q E.
Proof. done. Qed.

Lemma wp_throw {A} e s (Q : A -> S -> Prop) (E : S -> Prop) : E s -> wp F (throw e) s Q E.
Proof. done. Qed.

Lemma wp_gets {A} (f : S -> A) s (Q : A -> S -> Prop) E : Q (f s) s -> wp F (gets f) s Q E.
Proof. done. Qed.

Lemma wp_modify f s (Q : unit -> S -> Prop) E : Q tt (f s) -> wp F (modify f) s Q E.
Proof. done. Qed.

Lemma wp_try_catch {A} (m : M S A) h s Q E :
  wp F m s Q (fun s' => forall e, wp F (h e) s' Q E) -> wp F (try_catch m h) s Q E.
Proof. unfold wp, try_catch. destruct (m s) as [[]?]; auto. intros H. apply H. Qed.

Lemma wp_finally {A} (m : M S A) fin s (Q : A -> S -> Prop) (E : S -> Prop) :
  F Terminate ->
  wp F m s (fun a s' => wp F fin s' (fun _ => Q a) (fun _ => True))
           (fun s' => wp F fin s' (fun _ => E) (fun _ => True)) ->
  wp F (finally m fin) s Q E.
Proof.
  unfold wp, finally. intros HT. destruct (m s) as [[] s']; auto;
    destruct (fin s') as [[] ?]; auto.
Qed.

Lemma wp_lock_guard {A} held set (m : M S A) s Q (E : S -> Prop) :
  held s = false ->
  wp F m (set true s) (fun a s' => Q a (set false s')) (fun s' => E (set false s')) ->
  wp F (lock_guard held set m) s Q E.
Proof.
  intros H. unfold wp, lock_guard. rewrite H. by destruct (m (set true s)) as [[]?].
Qed.

Lemma wp_for_each {A} (I : S -> Prop) (E : S -> Prop) (l : list A) body s :
  I s -> (forall x s', x ∈ l -> I s' -> wp F (body x) s' (fun _ => I) E) ->
  wp F (for_each l body) s (fun _ => I) E.
Proof.
  revert s. induction l as [|x l IH]; intros s Hs Hb; cbn; [done|]. apply wp_bind.
  eapply wp_conseq; [apply Hb; [set_solver|done] | | done].
  intros [] s' Hs'; [|done]. apply IH; [done|]. intros y s1 Hy. apply Hb. set_solver.
Qed.
End Wp.

(** ** Two-state invariants

    [preserves R m]: whatever the outcome, the state after [m] is related to the
    state before by [R].  With [R] a preorder this composes through every
    combinator, so a property of a whole handler is a property of its calls. *)
Definition preserves {S A} (R : S -> S -> Prop) (m : M S A) : Prop :=
  forall s, R s (snd (m s)).

Section Preserves.
Context {S : Type} (R : S -> S -> Prop) `{!PreOrder R}.

Lemma preserves_ret {A} (a : A) : preserves R (ret a).
Proof. intros s. reflexivity. Qed.

Lemma preserves_throw {A} e : preserves R (@throw S A e).
Proof. intros s. reflexivity. Qed.

Lemma preserves_hang {A} f : preserves R (@hang S A f).
Proof. intros s. reflexivity. Qed.

Lemma preserves_lift {A} (r : result A) : preserves R (@lift S A r).
Proof. intros s. reflexivity. Qed.

Lemma preserves_gets {A} (f : S -> A) : preserves R (gets f).
Proof. intros s. reflexivity. Qed.

Lemma preserves_modify f : (forall s, R s (f s)) -> preserves R (modify f).
Proof. intros H s. apply H. Qed.

Lemma preserves_bind {A B} (m : M S A) (k : A -> M S B) :
  preserves R m -> (forall a, preserves R (k a)) -> preserves R (bind m k).
Proof.
  intros Hm Hk s. unfold bind. specialize (Hm s).
  destruct (m s) as [[a|e|f] s'] eqn:E; simpl in *; try done.
  transitivity s'; [done | apply Hk].
Qed.

Lemma preserves_try_catch {A} (m : M S A) h :
  preserves R m -> (forall e, preserves R (h e)) -> preserves R (try_catch m h).
Proof.
  intros Hm Hh s. unfold try_catch. specialize (Hm s).
  destruct (m s) as [[a|e|f] s'] eqn:E; simpl in *; try done.
  transitivity s'; [done | apply Hh].
Qed.

Lemma preserves_finally {A} (m : M S A) fin :
  preserves R m -> preserves R fin -> preserves R (finally m fin).
Proof.
  intros Hm Hf s. unfold finally. specialize (Hm s).
  destruct (m s) as [[a|e|f] s'] eqn:E; simpl in *; try done;
    specialize (Hf s'); destruct (fin s') as [[]?] eqn:E'; simpl in *;
    by transitivity s'.
Qed.

Lemma preserves_for_each {A} (l : list A) body :
  (forall x, preserves R (body x)) -> preserves R (for_each l body).
Proof.
  intros Hb. induction l as [|x l IH]; simpl; [apply preserves_ret|].
  apply preserves_bind; [done|]. intros []; [done | apply preserves_ret].
Qed.

Lemma preserves_while_fuel n cond body :
  preserves R cond -> preserves R body -> preserves R (while_fuel n cond body).
Proof.
  intros Hc Hb. induction n as [|n IH]; simpl;
    (apply preserves_bind; [done|]; intros []; [|apply preserves_ret]).
  - apply preserves_hang.
  - apply preserves_bind; [done|]. intros []; [done | apply preserves_ret].
Qed.

Lemma preserves_lock_guard {A} held set (m : M S A) :
  (forall b s, R s (set b s)) -> preserves R m -> preserves R (lock_guard held set m).
Proof.
  intros Hset Hm s. unfold lock_guard. destruct (held s); [done|].
  transitivity (set true s); [done|]. specialize (Hm (set true s)).
  destruct (m (set true s)) as [[a|e|f] s']; cbn in *; [|  |done]; by transitivity s'.
Qed.
End Preserves.

(** ** One-state invariants

    [keeps I F m]: from a state satisfying [I], the computation ends in a state
    satisfying [I], by a return or by an exception, and if it does not come back
    it is for a reason in [F]. *)
Definition keeps {S A} (I : S -> Prop) (F : stuck -> Prop) (m : M S A) : Prop :=
  forall s, I s -> wp F m s (fun _ => I) I.

Section Keeps.
Context {S : Type} (I : S -> Prop) (F : stuck -> Prop).

Lemma keeps_pure {A} (a : A) : keeps I F (ret a).
Proof. intros s Hs. exact Hs. Qed.

Lemma keeps_throw {A} e : keeps I F (@throw S A e).
Proof. intros s Hs. exact Hs. Qed.

Lemma keeps_lift {A} (r : result A) : is_stuck r = false -> keeps I F (@lift S A r).
Proof. intros Hr s Hs. unfold lift, wp. by destruct r. Qed.

Lemma keeps_gets {A} (f : S -> A) : keeps I F (gets f).
Proof. intros s Hs. exact Hs. Qed.

Lemma keeps_modify f : (forall s, I s -> I (f s)) -> keeps I F (modify f).
Proof. intros H s Hs. by apply H. Qed.

Lemma keeps_stuck {A} (F' : stuck -> Prop) (m : M S A) :
  (forall f, F' f -> F f) -> keeps I F' m -> keeps I F m.
Proof.
  intros HF Hm s Hs. specialize (Hm s Hs). unfold wp in *. destruct (m s) as [[]?]; auto.
Qed.

Lemma keeps_bind {A B} (m : M S A) (k : A -> M S B) :
  keeps I F m -> (forall a, keeps I F (k a)) -> keeps I F (bind m k).
Proof.
  intros Hm Hk s Hs. eapply wp_bind, wp_conseq; [by apply Hm | | done].
  intros a s' Hs'. by apply Hk.
Qed.

Lemma keeps_try_catch {A} (m : M S A) h :
  keeps I F m -> (forall e, keeps I F (h e)) -> keeps I F (try_catch m h).
Proof.
  intros Hm Hh s Hs. eapply wp_try_catch, wp_conseq; [by apply Hm | done |].
  intros s' Hs' e. by apply Hh.
Qed.

Lemma keeps_finally {A} (m : M S A) fin :
  F Terminate -> keeps I F m -> keeps I F fin -> keeps I F (finally m fin).
Proof.
  intros HT Hm Hf s Hs. eapply wp_finally, wp_conseq; [done | by apply Hm | |].
  - intros a s' Hs'. eapply wp_conseq; [by apply Hf | done | done].
  - intros s' Hs'. eapply wp_conseq; [by apply Hf | done | done].
Qed.

Lemma keeps_finally_returns {A} (m : M S A) fin :
  keeps I F m -> (forall s, I s -> exists s', fin s = (Ret tt, s') /\ I s') ->
  keeps I F (finally m fin).
Proof.
  intros Hm Hf s Hs. specialize (Hm s Hs). unfold wp, finally in *.
  destruct (m s) as [[a|e|f] s']; [| |done]; by destruct (Hf s' Hm) as (s2 & -> & Hs2).
Qed.

Lemma keeps_for_each {A} (l : list A) body :
  (forall x, x ∈ l -> keeps I F (body x)) -> keeps I F (for_each l body).
Proof. intros Hb s Hs. apply wp_for_each; [done|]. intros x s' Hx. by apply Hb. Qed.
End Keeps.

(** [solve_preserves tac]: the combinator rules, [tac] for the calls they end in. *)
Ltac preserves_step :=
  lazymatch goal with
  | |- preserves _ (ret _) => refine (preserves_ret _ _)
  | |- preserves _ (throw _) => refine (preserves_throw _ _)
  | |- preserves _ (hang _) => refine (preserves_hang _ _)
  | |- preserves _ (lift _) => refine (preserves_lift _ _)
  | |- preserves _ (gets _) => refine (preserves_gets _ _)
  | |- preserves _ (bind _ _) => refine (preserves_bind _ _ _ _ _); [ | intros ? ]
  | |- preserves _ (try_catch _ _) =>
      refine (preserves_try_catch _ _ _ _ _); [ | intros ? ]
  | |- preserves _ (finally _ _) => refine (preserves_finally _ _ _ _ _)
  | |- preserves _ (for_each _ _) => refine (preserves_for_each _ _ _ _); intros ?
  | |- preserves _ (while_fuel _ _ _) => refine (preserves_while_fuel _ _ _ _ _ _)
  | |- preserves _ (lock_guard _ _ _) => refine (preserves_lock_guard _ _ _ _ _ _)
  | |- preserves _ (let _ := _ in _) => cbv zeta
  | |- preserves _ (match ?x with _ => _ end) => destruct x
  end.

Ltac solve_preserves tac := repeat first [ solve [tac] | preserves_step ].

Ltac keeps_step :=
  lazymatch goal with
  | |- keeps _ _ (ret _) => apply keeps_pure
  | |- keeps _ _ (throw _) => apply keeps_throw
  | |- keeps _ _ (gets _) => apply keeps_gets
  | |- keeps _ _ (bind _ _) => apply keeps_bind; [ | intros ? ]
  | |- keeps _ _ (try_catch _ _) => apply keeps_try_catch; [ | intros ? ]
  | |- keeps _ _ (for_each _ _) => apply keeps_for_each; intros ? ?
  | |- keeps _ _ (let _ := _ in _) => cbv zeta
  | |- keeps _ _ (match ?x with _ => _ end) => destruct x
  end.

Ltac solve_keeps tac := repeat first [ solve [tac] | keeps_step ].
