(* ===== verification/Words.v ===== *)
(** Machine words, bytes in memory and C strings.

    The broker keeps [uint8_t], [uint16_t], [uint64_t] and [int] values, copies
    them byte by byte into wire buffers, and hands its strings to SQLite as
    NUL-terminated C strings.  A w-bit integer is a [Z] with its wrap-around
    written out ([u8], [u16], [u64], [s32], [s64]); a [std::vector<uint8_t>] is a
    [list byte]; a [std::string] is a [string], its characters being bytes. *)
From Stdlib Require Import ZArith Lia.
From Stdlib Require Export Strings.Byte.
From S2P Require Import Prelude.
Open Scope Z_scope.

(** ** Conversions between integer types *)
Definition u8 (z : Z) : Z := z mod 2 ^ 8.
Definition u16 (z : Z) : Z := z mod 2 ^ 16.
Definition u64 (z : Z) : Z := z mod 2 ^ 64.
Definition s32 (z : Z) : Z := (z + 2 ^ 31) mod 2 ^ 32 - 2 ^ 31.
Definition s64 (z : Z) : Z := (z + 2 ^ 63) mod 2 ^ 64 - 2 ^ 63.

Lemma u8_id z : 0 <= z < 2 ^ 8 -> u8 z = z.
Proof. apply Z.mod_small. Qed.

Lemma u16_id z : 0 <= z < 2 ^ 16 -> u16 z = z.
Proof. apply Z.mod_small. Qed.

Lemma u8_range z : 0 <= u8 z < 2 ^ 8.
Proof. by apply Z.mod_pos_bound. Qed.

Lemma u64_range z : 0 <= u64 z < 2 ^ 64.
Proof. by apply Z.mod_pos_bound. Qed.

Lemma s32_range z : - 2 ^ 31 <= s32 z < 2 ^ 31.
Proof. unfold s32. pose proof (Z.mod_pos_bound (z + 2 ^ 31) (2 ^ 32)). lia. Qed.
Lemma s32_id z : - 2 ^ 31 <= z < 2 ^ 31 -> s32 z = z.
Proof. intros H. unfold s32. rewrite Z.mod_small; lia. Qed.

Lemma s64_id z : - 2 ^ 63 <= z < 2 ^ 63 -> s64 z = z.
Proof. intros H. unfold s64. rewrite Z.mod_small; lia. Qed.

Lemma u64_id z : 0 <= z < 2 ^ 64 -> u64 z = z.
Proof. apply Z.mod_small. Qed.

Lemma s64_range z : - 2 ^ 63 <= s64 z < 2 ^ 63.
Proof. unfold s64. pose proof (Z.mod_pos_bound (z + 2 ^ 63) (2 ^ 64)). lia. Qed.

(** A [uint64_t] survives the trip through a signed SQLite column. *)
Lemma u64_s64 z : 0 <= z < 2 ^ 64 -> u64 (s64 z) = z.
Proof.
  intros H. unfold u64, s64. rewrite Zminus_mod_idemp_l.
  replace (z + 2 ^ 63 - 2 ^ 63) with z by lia. by apply Z.mod_small.
Qed.

Lemma s64_inj a b : 0 <= a < 2 ^ 64 -> 0 <= b < 2 ^ 64 -> s64 a = s64 b -> a = b.
Proof. intros Ha Hb E. rewrite <- (u64_s64 a), <- (u64_s64 b), E; done. Qed.

(** ** Bytes *)
#[export] Instance byte_eq_dec : EqDecision byte := Byte.byte_eq_dec.

Definition Z_of_byte (b : byte) : Z := Z.of_N (Byte.to_N b).

Definition byte_of_Z (z : Z) : byte :=
  match Byte.of_N (Z.to_N (u8 z)) with
  | Some b => b
  | None => x00
  end.

Lemma Z_of_byte_range b : 0 <= Z_of_byte b < 2 ^ 8.
Proof. unfold Z_of_byte. pose proof (Byte.to_N_bounded b). lia. Qed.

Lemma Z_of_byte_of_Z z : Z_of_byte (byte_of_Z z) = u8 z.
Proof.
  unfold byte_of_Z, Z_of_byte. pose proof (u8_range z) as Hr.
  destruct (Byte.of_N (Z.to_N (u8 z))) as [b|] eqn:E.
  - apply Byte.to_of_N in E. rewrite E. lia.
  - apply Byte.of_N_None_iff in E. lia.
Qed.

Lemma byte_of_Z_of_byte b : byte_of_Z (Z_of_byte b) = b.
Proof.
  unfold byte_of_Z, Z_of_byte. pose proof (Byte.to_N_bounded b).
  rewrite u8_id by lia. rewrite N2Z.id, Byte.of_to_N. done.
Qed.

Lemma byte_of_Z_u8 z : byte_of_Z (u8 z) = byte_of_Z z.
Proof. unfold byte_of_Z. rewrite (u8_id (u8 z)) by apply u8_range. done. Qed.

(** ** Little-endian encodings *)
Fixpoint le_bytes (n : nat) (z : Z) : list byte :=
  match n with
  | O => []
  | Datatypes.S n' => byte_of_Z z :: le_bytes n' (z / 2 ^ 8)
  end.

Fixpoint le_value (l : list byte) : Z :=
  match l with
  | [] => 0
  | b :: l' => Z_of_byte b + 2 ^ 8 * le_value l'
  end.

Lemma length_le_bytes n z : length (le_bytes n z) = n.
Proof. revert z. induction n; intros z; simpl; auto. Qed.

Lemma le_value_range l : 0 <= le_value l < 2 ^ (8 * Z.of_nat (length l)).
Proof.
  induction l as [|b l IH]; simpl; [lia|].
  pose proof (Z_of_byte_range b).
  replace (8 * Z.of_nat (Datatypes.S (length l)))
    with (8 + 8 * Z.of_nat (length l)) by lia.
  rewrite Z.pow_add_r by lia. nia.
Qed.

Lemma le_value_bytes n z :
  le_value (le_bytes n z) = z mod 2 ^ (8 * Z.of_nat n).
Proof.
  revert z. induction n as [|n IH]; intros z; simpl.
  { by rewrite Z.mod_1_r. }
  rewrite IH, Z_of_byte_of_Z. unfold u8.
  replace (8 * Z.of_nat (Datatypes.S n)) with (8 + 8 * Z.of_nat n) by lia.
  rewrite Z.pow_add_r, Z.rem_mul_r by lia. lia.
Qed.

Lemma le_bytes_value l : le_bytes (length l) (le_value l) = l.
Proof.
  induction l as [|b l IH]; simpl; [done|].
  pose proof (Z_of_byte_range b) as Hb. f_equal.
  - rewrite <- byte_of_Z_u8. unfold u8.
    rewrite Z.mul_comm, Z_mod_plus_full, Z.mod_small by lia.
    apply byte_of_Z_of_byte.
  - rewrite Z.mul_comm, Z.div_add by lia.
    by rewrite Z.div_small, Z.add_0_l.
Qed.

Lemma le_bytes_value_n n l : length l = n -> le_bytes n (le_value l) = l.
Proof. intros <-. apply le_bytes_value. Qed.

(** ** Memory representation

    [std::memcpy] and [reinterpret_cast<const uint8_t*>] see an integer as the
    host stores it. *)
Inductive endian : Type := LittleEndian | BigEndian.

Definition mem_bytes (e : endian) (n : nat) (z : Z) : list byte :=
  match e with
  | LittleEndian => le_bytes n z
  | BigEndian => rev (le_bytes n z)
  end.

Definition mem_value (e : endian) (l : list byte) : Z :=
  match e with
  | LittleEndian => le_value l
  | BigEndian => le_value (rev l)
  end.

(** Network order: the most significant byte first. *)
Definition be_bytes (n : nat) (z : Z) : list byte := rev (le_bytes n z).

(** [__builtin_bswap16], [__builtin_bswap64]: the bytes in the opposite order. *)
Definition bswap (n : nat) (z : Z) : Z := le_value (rev (le_bytes n z)).

(** [htons] / [ntohs]: swap on a little-endian host, nothing on a big-endian one. *)
Definition htons (e : endian) (z : Z) : Z :=
  match e with LittleEndian => bswap 2 z | BigEndian => z end.
Definition ntohs (e : endian) (z : Z) : Z := htons e z.

Lemma length_mem_bytes e n z : length (mem_bytes e n z) = n.
Proof. destruct e; simpl; rewrite ?length_rev; apply length_le_bytes. Qed.

Lemma mem_value_bytes e n z :
  mem_value e (mem_bytes e n z) = z mod 2 ^ (8 * Z.of_nat n).
Proof. destruct e; simpl; rewrite ?rev_involutive; apply le_value_bytes. Qed.

Lemma mem_bytes_value e n l : length l = n -> mem_bytes e n (mem_value e l) = l.
Proof.
  intros <-. destruct e; simpl; [apply le_bytes_value|].
  rewrite <- (length_rev l), le_bytes_value. apply rev_involutive.
Qed.

Lemma mem_value_range e l : 0 <= mem_value e l < 2 ^ (8 * Z.of_nat (length l)).
Proof. destruct e; simpl; [|rewrite <- (length_rev l)]; apply le_value_range. Qed.

Lemma bswap_range n z : 0 <= bswap n z < 2 ^ (8 * Z.of_nat n).
Proof.
  unfold bswap. pose proof (le_value_range (rev (le_bytes n z))) as H.
  by rewrite length_rev, length_le_bytes in H.
Qed.

Lemma bswap_involutive n z :
  bswap n (bswap n z) = z mod 2 ^ (8 * Z.of_nat n).
Proof.
  unfold bswap.
  rewrite (le_bytes_value_n n) by (rewrite length_rev; apply length_le_bytes).
  rewrite rev_involutive. apply le_value_bytes.
Qed.

(** Swapped on a little-endian host, the bytes in memory are in network order. *)
Lemma mem_bytes_bswap n z : mem_bytes LittleEndian n (bswap n z) = be_bytes n z.
Proof.
  simpl. unfold bswap, be_bytes. apply le_bytes_value_n.
  rewrite length_rev. apply length_le_bytes.
Qed.

Lemma mem_bytes_htons e z : mem_bytes e 2 (htons e z) = be_bytes 2 z.
Proof. destruct e; [apply mem_bytes_bswap | done]. Qed.

Lemma mem_value_ntohs e z :
  ntohs e (mem_value e (mem_bytes e 2 (htons e z))) = u16 z.
Proof.
  rewrite mem_value_bytes. destruct e; unfold ntohs, htons.
  - rewrite Z.mod_small by apply bswap_range. apply bswap_involutive.
  - done.
Qed.

Lemma ntohs_range e l : length l = 2%nat -> 0 <= ntohs e (mem_value e l) < 2 ^ 16.
Proof.
  intros Hl. pose proof (mem_value_range e l) as H. rewrite Hl in H.
  destruct e; unfold ntohs, htons; [apply bswap_range | done].
Qed.

Lemma htons_ntohs e l : length l = 2%nat ->
  mem_bytes e 2 (htons e (ntohs e (mem_value e l))) = l.
Proof.
  intros Hl. pose proof (mem_value_range e l) as H. rewrite Hl in H.
  destruct e; unfold ntohs, htons.
  - rewrite bswap_involutive, Z.mod_small by done. by apply mem_bytes_value.
  - by apply mem_bytes_value.
Qed.

(** ** Strings *)
Definition bytes_of_string (s : string) : list byte := String.list_byte_of_string s.
Definition string_of_bytes (l : list byte) : string := String.string_of_list_byte l.
Definition str_size (s : string) : Z := Z.of_nat (String.length s).

Lemma string_of_bytes_of_string s : string_of_bytes (bytes_of_string s) = s.
Proof. apply String.string_of_list_byte_of_string. Qed.

Lemma bytes_of_string_of_bytes l : bytes_of_string (string_of_bytes l) = l.
Proof. apply String.list_byte_of_string_of_list_byte. Qed.

Lemma length_bytes_of_string s : length (bytes_of_string s) = String.length s.
Proof.
  unfold bytes_of_string, String.list_byte_of_string. rewrite length_map.
  induction s as [|a s IH]; simpl; auto.
Qed.

Lemma length_string_of_bytes l : String.length (string_of_bytes l) = length l.
Proof. by rewrite <- length_bytes_of_string, bytes_of_string_of_bytes. Qed.

(** [s.c_str()] read up to its terminator, as [sqlite3_bind_text] with length
    [-1] and the construction of a [std::string] from a [const char*] read it. *)
Fixpoint c_str (s : string) : string :=
  match s with
  | EmptyString => EmptyString
  | String a s' =>
      if Ascii.eqb a Ascii.zero then EmptyString else String a (c_str s')
  end.

Definition no_nul (s : string) : bool := bool_decide (c_str s = s).

Lemma c_str_idem s : c_str (c_str s) = c_str s.
Proof.
  induction s as [|a s IH]; simpl; [done|].
  destruct (Ascii.eqb a Ascii.zero) eqn:E; [done|]. simpl. by rewrite E, IH.
Qed.

Lemma c_str_id s : no_nul s = true -> c_str s = s.
Proof. unfold no_nul. by rewrite bool_decide_eq_true. Qed.

Lemma c_str_length s : (String.length (c_str s) <= String.length s)%nat.
Proof.
  induction s as [|a s IH]; simpl; [lia|].
  destruct (Ascii.eqb a Ascii.zero); simpl; lia.
Qed.

Create Rewrite HintDb words.
#[export] Hint Rewrite c_str_idem length_mem_bytes length_le_bytes
  string_of_bytes_of_string bytes_of_string_of_bytes length_bytes_of_string
  length_string_of_bytes : words.

#[global] Arguments bswap : simpl never.
#[global] Arguments mem_bytes : simpl never.
#[global] Arguments mem_value : simpl never.
#[global] Arguments byte_of_Z : simpl never.
#[global] Arguments Z_of_byte : simpl never.
#[global] Arguments u8 : simpl never.
#[global] Arguments u64 : simpl never.
#[global] Arguments s32 : simpl never.
#[global] Arguments s64 : simpl never.
