(* ===== verification/Message.v ===== *)
(** The wire message of [include/message.hpp] and [src/message.cpp].

    [Message] is the class's record of fields; [MessageType] its enumeration
    ([enum class : uint8_t], so an object may hold a value no enumerator names:
    [MT_other]).  [Serialize] and [Deserialize] are translated statement by
    statement over byte lists, with the byte order of the host and the
    [_GLIBCXX_ASSERTIONS] build switch as arguments, because the code copies
    integers through memory and forms [&data[pos]].  The theorems show the two
    are inverse in both directions, which errors [Deserialize] reports, that it
    never reads outside its buffer, and where the bytes of each field are. *)
From Stdlib Require Import ZArith Lia Strings.Byte.
From stdpp Require Import pretty.
From S2P Require Import Prelude Words.
Open Scope Z_scope.

(** ** Data *)
Inductive MessageType : Type :=
| MT_Register
| MT_Message
| MT_Reply
| MT_Ack
| MT_Unregister
| MT_other (v : Z).

#[export] Instance MessageType_eq_dec : EqDecision MessageType.
Proof. solve_decision. Defined.

(** [static_cast<MessageType>(uint8_t)] *)
Definition MessageType_of_u8 (v : Z) : MessageType :=
  match v with
  | 1 => MT_Register
  | 2 => MT_Message
  | 3 => MT_Reply
  | 4 => MT_Ack
  | 5 => MT_Unregister
  | _ => MT_other v
  end.

(** [static_cast<uint8_t>(MessageType)] *)
Definition u8_of_MessageType (t : MessageType) : Z :=
  match t with
  | MT_Register => 1
  | MT_Message => 2
  | MT_Reply => 3
  | MT_Ack => 4
  | MT_Unregister => 5
  | MT_other v => v
  end.

Definition FlagNone : Z := 0.
Definition FlagNeedsReply : Z := Z.shiftl 1 0.
Definition FlagNeedsAck : Z := Z.shiftl 1 1.

Record Message : Type := mkMessage {
  type_ : MessageType;
  flags_ : Z;
  correlation_id_ : Z;
  sender_ : string;
  destination_ : string;
  payload_ : list byte;
}.

#[export] Instance Message_eq_dec : EqDecision Message.
Proof. solve_decision. Defined.

Lemma Message_eta m :
  mkMessage (type_ m) (flags_ m) (correlation_id_ m) (sender_ m) (destination_ m)
    (payload_ m) = m.
Proof. by destruct m. Qed.

(** [Message() = default] *)
Definition Message_default : Message :=
  mkMessage MT_Message FlagNone 0 EmptyString EmptyString [].

Definition SetType (t : MessageType) (m : Message) : Message :=
  mkMessage t (flags_ m) (correlation_id_ m) (sender_ m) (destination_ m) (payload_ m).
Definition SetFlags (f : Z) (m : Message) : Message :=
  mkMessage (type_ m) f (correlation_id_ m) (sender_ m) (destination_ m) (payload_ m).
Definition SetCorrelationId (c : Z) (m : Message) : Message :=
  mkMessage (type_ m) (flags_ m) c (sender_ m) (destination_ m) (payload_ m).
Definition SetSender (s : string) (m : Message) : Message :=
  mkMessage (type_ m) (flags_ m) (correlation_id_ m) s (destination_ m) (payload_ m).
Definition SetDestination (d : string) (m : Message) : Message :=
  mkMessage (type_ m) (flags_ m) (correlation_id_ m) (sender_ m) d (payload_ m).
Definition SetPayload (p : list byte) (m : Message) : Message :=
  mkMessage (type_ m) (flags_ m) (correlation_id_ m) (sender_ m) (destination_ m) p.

(** ** Flags *)
Definition HasFlag (m : Message) (flag : Z) : bool :=
  negb (Z.land (flags_ m) flag =? 0).
Definition SetFlag (flag : Z) (m : Message) : Message :=
  SetFlags (u8 (Z.lor (flags_ m) flag)) m.
(** [flags_ &= ~flag]: [~] acts on the promoted [int]. *)
Definition ClearFlag (flag : Z) (m : Message) : Message :=
  SetFlags (u8 (Z.land (flags_ m) (Z.lnot flag))) m.
Definition NeedsReply (m : Message) : bool := HasFlag m FlagNeedsReply.
Definition SetNeedsReply (value : bool) (m : Message) : Message :=
  if value then SetFlag FlagNeedsReply m else ClearFlag FlagNeedsReply m.
Definition NeedsAck (m : Message) : bool := HasFlag m FlagNeedsAck.
Definition SetNeedsAck (value : bool) (m : Message) : Message :=
  if value then SetFlag FlagNeedsAck m else ClearFlag FlagNeedsAck m.

(** ** Serialization *)
Definition PROTOCOL_VERSION : Z := 1.
Definition HEADER_SIZE : Z := 15.

Definition HostToNetwork16 (e : endian) (host : Z) : Z := htons e host.
Definition NetworkToHost16 (e : endian) (net : Z) : Z := ntohs e net.
Definition HostToNetwork64 (host : Z) : Z := bswap 8 host.
Definition NetworkToHost64 (net : Z) : Z := bswap 8 net.

Definition Serialize (e : endian) (m : Message) : result (list byte) :=
  if 255 <? str_size (sender_ m) then
    Throw (runtime_error "Sender name too long (max 255 bytes)")
  else if 255 <? str_size (destination_ m) then
    Throw (runtime_error "Destination name too long (max 255 bytes)")
  else if 65535 <? Z.of_nat (length (payload_ m)) then
    Throw (runtime_error "Payload too large (max 65535 bytes)")
  else
    let buffer := [byte_of_Z PROTOCOL_VERSION] in
    let buffer := buffer ++ [byte_of_Z (u8_of_MessageType (type_ m))] in
    let buffer := buffer ++ [byte_of_Z (flags_ m)] in
    let net_corr := HostToNetwork64 (correlation_id_ m) in
    let buffer := buffer ++ mem_bytes e 8 net_corr in
    let buffer := buffer ++ [byte_of_Z (str_size (sender_ m))] in
    let buffer := buffer ++ [byte_of_Z (str_size (destination_ m))] in
    let net_payload_len := HostToNetwork16 e (u16 (Z.of_nat (length (payload_ m)))) in
    let buffer := buffer ++ mem_bytes e 2 net_payload_len in
    let buffer := buffer ++ bytes_of_string (sender_ m) in
    let buffer := buffer ++ bytes_of_string (destination_ m) in
    let buffer := buffer ++ payload_ m in
    Ret buffer.

(** [data[i]] read as a value. *)
Definition vec_index (assertions : bool) (data : list byte) (i : nat) : result byte :=
  match nth_error data i with
  | Some b => Ret b
  | None => Stuck (if assertions then AssertionFailed else OutOfBounds)
  end.

(** [&data[i]]: with [_GLIBCXX_ASSERTIONS] the subscript itself is checked; without,
    it is pointer arithmetic, and one past the end is an address. *)
Definition vec_addr (assertions : bool) (data : list byte) (i : nat) : result nat :=
  if (i <? length data)%nat then Ret i
  else if assertions then Stuck AssertionFailed
  else if (i =? length data)%nat then Ret i
  else Stuck OutOfBounds.

(** [n] bytes read from the address [p]. *)
Definition vec_read (data : list byte) (p n : nat) : result (list byte) :=
  if (p + n <=? length data)%nat then Ret (firstn n (skipn p data))
  else Stuck OutOfBounds.

Definition Deserialize (assertions : bool) (e : endian) (data : list byte)
    : result Message :=
  if Z.of_nat (length data) <? HEADER_SIZE then
    Throw (runtime_error "Message too short")
  else
    let pos := 0%nat in
    version <-? vec_index assertions data pos ;;
    let pos := S pos in
    if negb (Z_of_byte version =? PROTOCOL_VERSION) then
      Throw (runtime_error ("Unsupported protocol version: "
                            ++ pretty (Z_of_byte version))%string)
    else
      ty <-? vec_index assertions data pos ;;
      let pos := S pos in
      fl <-? vec_index assertions data pos ;;
      let pos := S pos in
      p <-? vec_addr assertions data pos ;;
      corr <-? vec_read data p 8 ;;
      let net_corr := mem_value e corr in
      let pos := (pos + 8)%nat in
      sender_len <-? vec_index assertions data pos ;;
      let pos := S pos in
      dest_len <-? vec_index assertions data pos ;;
      let pos := S pos in
      p <-? vec_addr assertions data pos ;;
      len <-? vec_read data p 2 ;;
      let payload_len := NetworkToHost16 e (mem_value e len) in
      let pos := (pos + 2)%nat in
      if negb (Z.of_nat (length data) =?
               HEADER_SIZE + Z_of_byte sender_len + Z_of_byte dest_len + payload_len)
      then Throw (runtime_error "Message size mismatch")
      else
        p <-? vec_addr assertions data pos ;;
        sender <-? vec_read data p (Z.to_nat (Z_of_byte sender_len)) ;;
        let pos := (pos + Z.to_nat (Z_of_byte sender_len))%nat in
        p <-? vec_addr assertions data pos ;;
        dest <-? vec_read data p (Z.to_nat (Z_of_byte dest_len)) ;;
        let pos := (pos + Z.to_nat (Z_of_byte dest_len))%nat in
        payload <-? vec_read data pos (Z.to_nat payload_len) ;;
        Ret (mkMessage (MessageType_of_u8 (Z_of_byte ty)) (Z_of_byte fl)
               (NetworkToHost64 net_corr)
               (string_of_bytes sender) (string_of_bytes dest) payload).

(** ** Printing *)
Definition ToString (m : Message) : string :=
  (let type_name :=
     match type_ m with
     | MT_Register => "Register"
     | MT_Message => "Message"
     | MT_Reply => "Reply"
     | MT_Ack => "Ack"
     | MT_Unregister => "Unregister"
     | MT_other v => pretty v
     end in
   "Message{type=" ++ type_name ++ ", flags=" ++ pretty (flags_ m)
   ++ ", corr_id=" ++ pretty (correlation_id_ m)
   ++ ", sender=" ++ sender_ m ++ ", dest=" ++ destination_ m
   ++ ", payload_size=" ++ pretty (Z.of_nat (length (payload_ m))) ++ "}")%string.

(** ** Well-formed messages

    What a [Message] object can hold at all: every field in the range of its C++
    type, and an unnamed enumeration value only when no enumerator has it. *)
Definition wf_type (t : MessageType) : Prop :=
  match t with
  | MT_other v => 0 <= v < 2 ^ 8 /\ ~ 1 <= v <= 5
  | _ => True
  end.

Record wf_message (m : Message) : Prop := {
  wf_type_ : wf_type (type_ m);
  wf_flags_ : 0 <= flags_ m < 2 ^ 8;
  wf_correlation_ : 0 <= correlation_id_ m < 2 ^ 64;
}.

(** The limits [Serialize] enforces. *)
Definition fits (m : Message) : Prop :=
  str_size (sender_ m) <= 255 /\ str_size (destination_ m) <= 255 /\
  Z.of_nat (length (payload_ m)) <= 65535.

Lemma u8_of_MessageType_range t : wf_type t -> 0 <= u8_of_MessageType t < 2 ^ 8.
Proof. destruct t; simpl; lia. Qed.

Lemma MessageType_of_u8_of t : wf_type t -> MessageType_of_u8 (u8_of_MessageType t) = t.
Proof.
  destruct t as [| | | | |v]; try done. simpl. intros [Hr Hn].
  destruct v as [|p|p]; try done.
  do 3 (try (destruct p as [p|p|]; try (done || lia))).
Qed.

Lemma MessageType_of_u8_cases v :
  (v = 1 \/ v = 2 \/ v = 3 \/ v = 4 \/ v = 5) \/
  (~ 1 <= v <= 5 /\ MessageType_of_u8 v = MT_other v).
Proof.
  destruct (decide (1 <= v <= 5)); [left; lia | right; split; [done|]].
  destruct v as [|p|p]; try done.
  do 3 (try (destruct p as [p|p|]; try (done || lia))).
Qed.

Lemma u8_of_MessageType_of v : u8_of_MessageType (MessageType_of_u8 v) = v.
Proof.
  destruct (MessageType_of_u8_cases v) as [ [-> | [-> | [-> | [-> | -> ] ] ] ] | [_ ->]]; done.
Qed.

Lemma wf_MessageType_of_u8 v : 0 <= v < 2 ^ 8 -> wf_type (MessageType_of_u8 v).
Proof.
  intros Hv.
  destruct (MessageType_of_u8_cases v) as [ [-> | [-> | [-> | [-> | -> ] ] ] ] | [Hn ->]]; done.
Qed.

(** ** The layout of the buffer *)
Definition header (e : endian) (m : Message) : list byte :=
  [byte_of_Z PROTOCOL_VERSION; byte_of_Z (u8_of_MessageType (type_ m));
   byte_of_Z (flags_ m)]
  ++ mem_bytes e 8 (HostToNetwork64 (correlation_id_ m))
  ++ [byte_of_Z (str_size (sender_ m)); byte_of_Z (str_size (destination_ m))]
  ++ be_bytes 2 (u16 (Z.of_nat (length (payload_ m)))).

Definition body (m : Message) : list byte :=
  bytes_of_string (sender_ m) ++ bytes_of_string (destination_ m) ++ payload_ m.

Lemma Serialize_fits e m : fits m -> Serialize e m = Ret (header e m ++ body m).
Proof.
  intros (Hs & Hd & Hp). unfold Serialize.
  do 3 (rewrite (proj2 (Z.ltb_ge _ _)) by lia).
  unfold header, body, HostToNetwork16. rewrite mem_bytes_htons.
  by rewrite <- !app_assoc.
Qed.

Lemma Serialize_Ret e m data :
  Serialize e m = Ret data -> fits m /\ data = header e m ++ body m.
Proof.
  intros H. assert (fits m) as Hf.
  { unfold Serialize in H. unfold fits.
    do 3 (case_match; [done|]). rewrite Z.ltb_ge in *. lia. }
  rewrite (Serialize_fits e m Hf) in H. by simplify_eq.
Qed.

Lemma length_header e m : length (header e m) = 15%nat.
Proof. unfold header, be_bytes. by rewrite !length_app, length_mem_bytes. Qed.

(** ** One equation for [Deserialize] *)
Lemma vec_read_ok data p n :
  (p + n <= length data)%nat -> vec_read data p n = Ret (firstn n (skipn p data)).
Proof. intros H. unfold vec_read. by rewrite (proj2 (Nat.leb_le _ _)) by lia. Qed.

Lemma vec_addr_ok a data i : (i < length data)%nat -> vec_addr a data i = Ret i.
Proof. intros H. unfold vec_addr. by rewrite (proj2 (Nat.ltb_lt _ _)) by lia. Qed.

Lemma vec_addr_end a data :
  vec_addr a data (length data) =
    if a then Stuck AssertionFailed else Ret (length data).
Proof. unfold vec_addr. rewrite Nat.ltb_irrefl, Nat.eqb_refl. by destruct a. Qed.

(** The three fields after a buffer's first [n] bytes. *)
Lemma read_fields a (data : list byte) n sl dl pl (mk : list byte -> list byte -> list byte -> Message) :
  (length data = n + (sl + dl + pl))%nat ->
  (p <-? vec_addr a data n ;;
   sender <-? vec_read data p sl ;;
   p <-? vec_addr a data (n + sl) ;;
   dest <-? vec_read data p dl ;;
   payload <-? vec_read data (n + sl + dl) pl ;;
   Ret (mk sender dest payload)) =
  if a && (dl + pl =? 0)%nat then Stuck AssertionFailed
  else Ret (mk (firstn sl (skipn n data)) (firstn dl (skipn (n + sl) data))
               (skipn (n + sl + dl) data)).
Proof.
  intros Hlen.
  destruct (decide (dl + pl = 0)%nat) as [H0|H0].
  - rewrite (proj2 (Nat.eqb_eq _ _) H0), andb_true_r.
    replace (n + sl)%nat with (length data) by lia.
    destruct (decide (sl = 0)%nat) as [->|Hs].
    + replace n with (length data) by lia. rewrite vec_addr_end.
      destruct a; [done|]. cbn [rbind]. rewrite !vec_read_ok by lia.
      cbn [rbind]. do 2 f_equal. apply firstn_all2. rewrite length_skipn. lia.
    + rewrite vec_addr_ok by lia. cbn [rbind]. rewrite vec_read_ok by lia.
      cbn [rbind]. rewrite vec_addr_end. destruct a; [done|]. cbn [rbind].
      rewrite !vec_read_ok by lia. cbn [rbind]. do 2 f_equal.
      apply firstn_all2. rewrite length_skipn. lia.
  - rewrite (proj2 (Nat.eqb_neq _ _) H0), andb_false_r.
    rewrite vec_addr_ok by lia. cbn [rbind]. rewrite vec_read_ok by lia. cbn [rbind].
    rewrite vec_addr_ok by lia. cbn [rbind]. rewrite !vec_read_ok by lia. cbn [rbind].
    do 2 f_equal. apply firstn_all2. rewrite length_skipn. lia.
Qed.

Lemma split_header (data : list byte) :
  15 <= Z.of_nat (length data) ->
  exists v t f c s d l rest,
    data = [v; t; f] ++ c ++ [s; d] ++ l ++ rest /\ length c = 8%nat /\ length l = 2%nat.
Proof.
  intros H.
  destruct data as [|v [|t [|f data]]]; simpl in H; try lia.
  rewrite <- (firstn_skipn 8 data).
  assert (length (firstn 8 data) = 8%nat) as Hc by (rewrite length_firstn; lia).
  assert (4 <= length (skipn 8 data))%nat as Hl by (rewrite length_skipn; lia).
  revert Hc Hl. generalize (firstn 8 data) (skipn 8 data). intros c rest Hc Hl.
  destruct rest as [|s [|d [|l1 [|l2 rest]]]]; simpl in Hl; try lia.
  by exists v, t, f, c, s, d, [l1; l2], rest.
Qed.

Lemma Deserialize_eq a e (v t f s d : byte) (c l rest : list byte) :
  length c = 8%nat -> length l = 2%nat ->
  Deserialize a e ([v; t; f] ++ c ++ [s; d] ++ l ++ rest) =
    let sl := Z_of_byte s in
    let dl := Z_of_byte d in
    let pl := NetworkToHost16 e (mem_value e l) in
    if negb (Z_of_byte v =? PROTOCOL_VERSION) then
      Throw (runtime_error ("Unsupported protocol version: "
                            ++ pretty (Z_of_byte v))%string)
    else if negb (Z.of_nat (length rest) =? sl + dl + pl) then
      Throw (runtime_error "Message size mismatch")
    else if a && (dl + pl =? 0) then Stuck AssertionFailed
    else Ret (mkMessage (MessageType_of_u8 (Z_of_byte t)) (Z_of_byte f)
                (NetworkToHost64 (mem_value e c))
                (string_of_bytes (firstn (Z.to_nat sl) rest))
                (string_of_bytes (firstn (Z.to_nat dl) (skipn (Z.to_nat sl) rest)))
                (skipn (Z.to_nat sl + Z.to_nat dl) rest)).
Proof.
  intros Hc Hl.
  destruct c as [|c0 [|c1 [|c2 [|c3 [|c4 [|c5 [|c6 [|c7 [|c8 c]]]]]]]]]; try done.
  destruct l as [|l0 [|l1 [|l2 l]]]; try done. clear Hc Hl.
  set (c := [c0; c1; c2; c3; c4; c5; c6; c7]). set (l := [l0; l1]).
  pose proof (Z_of_byte_range s). pose proof (Z_of_byte_range d).
  pose proof (ntohs_range e l eq_refl) as Hpl. fold (NetworkToHost16 e (mem_value e l)) in Hpl.
  set (data := [v; t; f] ++ c ++ [s; d] ++ l ++ rest).
  assert (length data = 15 + length rest)%nat as Hlen by done.
  assert (forall k, skipn (15 + k) data = skipn k rest) as Hskip by done.
  unfold Deserialize, HEADER_SIZE. rewrite (proj2 (Z.ltb_ge _ _)) by lia.
  change (vec_index a data 0) with (Ret v).
  change (vec_index a data 1) with (Ret t).
  change (vec_index a data 2) with (Ret f).
  change (vec_addr a data 3) with (Ret 3%nat). cbn [rbind].
  change (vec_read data 3 8) with (Ret c). cbn [rbind].
  change (vec_index a data (3 + 8)) with (Ret s).
  change (vec_index a data (S (3 + 8))) with (Ret d).
  change (vec_addr a data (S (S (3 + 8)))) with (Ret 13%nat). cbn [rbind].
  change (vec_read data 13 2) with (Ret l). cbn [rbind].
  change (S (S (3 + 8)) + 2)%nat with 15%nat. cbn zeta.
  destruct (Z_of_byte v =? PROTOCOL_VERSION); [|done]. cbn [negb].
  rewrite Hlen.
  replace (Z.of_nat (15 + length rest) =? _) with
    (Z.of_nat (length rest) =? Z_of_byte s + Z_of_byte d + NetworkToHost16 e (mem_value e l))
    by (apply eq_bool_prop_intro; rewrite !Is_true_true, !Z.eqb_eq; lia).
  destruct (Z.eqb_spec (Z.of_nat (length rest))
              (Z_of_byte s + Z_of_byte d + NetworkToHost16 e (mem_value e l))) as [E|E];
    [|done]. cbn [negb].
  rewrite (read_fields a data 15 _ _ _ (fun x y z => mkMessage _ _ _ (string_of_bytes x)
             (string_of_bytes y) z)) by lia.
  rewrite <- Nat.add_assoc, !Hskip, (Hskip 0%nat : skipn 15 data = _).
  replace (_ + _ =? 0)%nat with (Z_of_byte d + NetworkToHost16 e (mem_value e l) =? 0);
    [done|].
  apply eq_bool_prop_intro. rewrite !Is_true_true, Z.eqb_eq, Nat.eqb_eq. lia.
Qed.

(** The two-byte length field, read in network order on either host. *)
Lemma payload_len_value e l0 l1 :
  NetworkToHost16 e (mem_value e [l0; l1]) = 256 * Z_of_byte l0 + Z_of_byte l1.
Proof.
  pose proof (Z_of_byte_range l0). pose proof (Z_of_byte_range l1).
  unfold NetworkToHost16, ntohs, htons.
  destruct e; [|unfold mem_value; simpl; lia].
  unfold bswap, mem_value. rewrite (le_bytes_value_n 2) by done. simpl. lia.
Qed.

Definition byte_at (data : list byte) (i : nat) : Z := Z_of_byte (nth i data x00).

(** The size a buffer must have, by its own length fields. *)
Definition declared_size (data : list byte) : Z :=
  15 + byte_at data 11 + byte_at data 12 + (256 * byte_at data 13 + byte_at data 14).

Lemma Deserialize_cases a e data :
  15 <= Z.of_nat (length data) ->
  Deserialize a e data =
    if negb (byte_at data 0 =? PROTOCOL_VERSION) then
      Throw (runtime_error ("Unsupported protocol version: "
                            ++ pretty (byte_at data 0))%string)
    else if negb (Z.of_nat (length data) =? declared_size data) then
      Throw (runtime_error "Message size mismatch")
    else
      let sl := Z.to_nat (byte_at data 11) in
      let dl := Z.to_nat (byte_at data 12) in
      if a && (byte_at data 12 + (256 * byte_at data 13 + byte_at data 14) =? 0)
      then Stuck AssertionFailed
      else Ret (mkMessage (MessageType_of_u8 (byte_at data 1)) (byte_at data 2)
                  (NetworkToHost64 (mem_value e (firstn 8 (skipn 3 data))))
                  (string_of_bytes (firstn sl (skipn 15 data)))
                  (string_of_bytes (firstn dl (skipn (15 + sl) data)))
                  (skipn (15 + sl + dl) data)).
Proof.
  intros H. destruct (split_header data H) as (v&t&f&c&s&d&l&rest&->&Hc&Hl).
  rewrite (Deserialize_eq a e v t f s d c l rest Hc Hl). cbn zeta.
  destruct c as [|c0 [|c1 [|c2 [|c3 [|c4 [|c5 [|c6 [|c7 [|c8 c]]]]]]]]]; try done.
  destruct l as [|l0 [|l1 [|l2 l]]]; try done. clear Hc Hl H.
  rewrite payload_len_value.
  unfold declared_size, byte_at. cbn [nth app].
  destruct (Z_of_byte v =? PROTOCOL_VERSION); [|done]. cbn [negb].
  replace (Z.of_nat (length (v :: _)) =? _) with
    (Z.of_nat (length rest) =? Z_of_byte s + Z_of_byte d + (256 * Z_of_byte l0 + Z_of_byte l1)).
  2:{ apply eq_bool_prop_intro. rewrite !Is_true_true, !Z.eqb_eq. simpl length. lia. }
  destruct (_ =? _); [|done]. cbn [negb]. destruct a; [destruct (_ =? 0)|]; done.
Qed.

Lemma Deserialize_Serialize_fits e m :
  wf_message m -> fits m -> Deserialize false e (header e m ++ body m) = Ret m.
Proof.
  intros Hwf (Hs & Hd & Hp).
  unfold header, body. rewrite <- !app_assoc.
  rewrite Deserialize_eq; [|apply length_mem_bytes | done]. cbn zeta.
  rewrite !Z_of_byte_of_Z, (u8_id PROTOCOL_VERSION) by done.
  rewrite Z.eqb_refl. cbn [negb].
  pose proof (u8_of_MessageType_range _ (wf_type_ m Hwf)).
  pose proof (wf_flags_ m Hwf). pose proof (wf_correlation_ m Hwf).
  unfold str_size in *. rewrite !u8_id, u16_id by lia.
  rewrite <- (mem_bytes_htons e). unfold NetworkToHost16. rewrite mem_value_ntohs, u16_id by lia.
  rewrite !length_app, !length_bytes_of_string.
  rewrite (proj2 (Z.eqb_eq _ _)) by lia. cbn [negb andb].
  rewrite !Nat2Z.id, <- !length_bytes_of_string.
  rewrite !take_app_length, drop_app_length, take_app_length, <- drop_drop.
  rewrite !drop_app_length, !string_of_bytes_of_string.
  unfold NetworkToHost64, HostToNetwork64. rewrite mem_value_bytes.
  rewrite (Z.mod_small (bswap 8 _)) by apply bswap_range.
  rewrite bswap_involutive, Z.mod_small, MessageType_of_u8_of
    by (lia || apply wf_type_, Hwf).
  by rewrite Message_eta.
Qed.

Lemma Serialize_read e m data :
  wf_message m -> Serialize e m = Ret data -> Deserialize false e data = Ret m.
Proof. intros Hwf [Hf ->]%Serialize_Ret. by apply Deserialize_Serialize_fits. Qed.

(** ** Properties *)

(** C14. Round trip: a message that [Serialize] accepts is read back unchanged from
    the bytes it wrote, on a host of either byte order. *)
Theorem Deserialize_Serialize e m data :
  wf_message m -> Serialize e m = Ret data -> Deserialize false e data = Ret m.
Proof. apply Serialize_read. Qed.

Lemma Serialize_of_Deserialize e data m :
  Deserialize false e data = Ret m -> wf_message m /\ Serialize e m = Ret data.
Proof.
  intros H. destruct (Z.ltb_spec (Z.of_nat (length data)) 15) as [Hlt|Hge].
  { unfold Deserialize in H. rewrite (proj2 (Z.ltb_lt _ _)) in H by done. done. }
  destruct (split_header data Hge) as (v&t&f&c&s&d&l&rest&->&Hc&Hl). clear Hge.
  rewrite (Deserialize_eq false e v t f s d c l rest Hc Hl) in H. cbn zeta in H.
  destruct (Z.eqb_spec (Z_of_byte v) PROTOCOL_VERSION) as [Hv|]; [cbn [negb] in H|done].
  case_match eqn:Hsize; [done|]. cbn [andb] in H. injection H as <-.
  apply negb_false_iff, Z.eqb_eq in Hsize.
  pose proof (Z_of_byte_range s). pose proof (Z_of_byte_range d).
  pose proof (ntohs_range e l Hl). unfold NetworkToHost16 in Hsize.
  set (sl := Z.to_nat (Z_of_byte s)) in *. set (dl := Z.to_nat (Z_of_byte d)) in *.
  assert (Z.of_nat sl = Z_of_byte s) as Hsl by lia.
  assert (Z.of_nat dl = Z_of_byte d) as Hdl by lia.
  assert (length (firstn sl rest) = sl) as Es by (rewrite length_firstn; lia).
  assert (length (firstn dl (skipn sl rest)) = dl) as Ed
    by (rewrite length_firstn, length_skipn; lia).
  assert (Z.of_nat (length (skipn (sl + dl) rest)) = ntohs e (mem_value e l)) as Ep
    by (rewrite length_skipn; lia).
  split.
  - split; cbn.
    + apply wf_MessageType_of_u8, Z_of_byte_range.
    + apply Z_of_byte_range.
    + apply bswap_range.
  - rewrite Serialize_fits.
    2:{ unfold fits, str_size; cbn. rewrite !length_string_of_bytes, Es, Ed. lia. }
    unfold header, body, str_size; cbn [type_ flags_ correlation_id_ sender_ destination_ payload_].
    rewrite !bytes_of_string_of_bytes, !length_string_of_bytes, Es, Ed, Ep, Hsl, Hdl.
    rewrite u8_of_MessageType_of, !byte_of_Z_of_byte, u16_id by done.
    rewrite <- (mem_bytes_htons e), htons_ntohs by done.
    unfold HostToNetwork64, NetworkToHost64. rewrite bswap_involutive.
    pose proof (mem_value_range e c) as Hr. rewrite Hc in Hr.
    rewrite Z.mod_small, mem_bytes_value by done.
    rewrite <- Hv, byte_of_Z_of_byte, <- !app_assoc, <- drop_drop, !take_drop. done.
Qed.

Lemma Serialize_Deserialize_wf e data m : Deserialize false e data = Ret m -> wf_message m.
Proof. by intros []%Serialize_of_Deserialize. Qed.

(** C15. Canonical encoding: whatever bytes [Deserialize] accepts, the message it
    returns is well formed and [Serialize] writes the same bytes back, so no two
    buffers decode to the same message. *)
Theorem Serialize_Deserialize e data m :
  Deserialize false e data = Ret m -> wf_message m /\ Serialize e m = Ret data.
Proof. apply Serialize_of_Deserialize. Qed.

Lemma Deserialize_total e data : is_stuck (Deserialize false e data) = false.
Proof.
  destruct (Z.ltb_spec (Z.of_nat (length data)) 15) as [Hlt|Hge].
  { unfold Deserialize, HEADER_SIZE. by rewrite (proj2 (Z.ltb_lt _ _)). }
  rewrite (Deserialize_cases false e data Hge). repeat case_match; done.
Qed.

(** C31. Totality and error reporting: for every buffer [Deserialize] returns a
    message or throws one of three [std::runtime_error]s, never reading outside
    the buffer; and which of the four happens is decided by the buffer's length,
    its version byte and its declared lengths, in this order. *)
Theorem Deserialize_outcomes e data :
  match Deserialize false e data with
  | Ret _ =>
      15 <= Z.of_nat (length data) /\ byte_at data 0 = PROTOCOL_VERSION /\
      Z.of_nat (length data) = declared_size data
  | Throw ex =>
      (Z.of_nat (length data) < 15 /\ ex = runtime_error "Message too short") \/
      (15 <= Z.of_nat (length data) /\ byte_at data 0 <> PROTOCOL_VERSION /\
       ex = runtime_error ("Unsupported protocol version: "
                           ++ pretty (byte_at data 0))%string) \/
      (15 <= Z.of_nat (length data) /\ byte_at data 0 = PROTOCOL_VERSION /\
       Z.of_nat (length data) <> declared_size data /\
       ex = runtime_error "Message size mismatch")
  | Stuck _ => False
  end.
Proof.
  destruct (Z.ltb_spec (Z.of_nat (length data)) 15) as [Hlt|Hge].
  { unfold Deserialize, HEADER_SIZE. rewrite (proj2 (Z.ltb_lt _ _)) by done.
    by left. }
  rewrite (Deserialize_cases false e data Hge).
  destruct (Z.eqb_spec (byte_at data 0) PROTOCOL_VERSION) as [Hv|Hv]; cbn [negb];
    [|right; left; done].
  destruct (Z.eqb_spec (Z.of_nat (length data)) (declared_size data)) as [Hs|Hs];
    cbn [negb andb]; [done|]. right; right; done.
Qed.

(** In a build with [_GLIBCXX_ASSERTIONS], where [data[pos]] is checked, the
    process is aborted by exactly the buffers the plain build decodes to a message
    with an empty destination and an empty payload ([&data[pos]] is then formed
    with [pos == data.size()]); on every other buffer the two builds agree. *)
Lemma Deserialize_hardened e data :
  Deserialize true e data =
    match Deserialize false e data with
    | Ret m =>
        if bool_decide (destination_ m = EmptyString) && bool_decide (payload_ m = [])
        then Stuck AssertionFailed else Ret m
    | r => r
    end.
Proof.
  destruct (Z.ltb_spec (Z.of_nat (length data)) 15) as [Hlt|Hge].
  { unfold Deserialize, HEADER_SIZE. by rewrite (proj2 (Z.ltb_lt _ _)) by done. }
  rewrite !(Deserialize_cases _ e data Hge).
  destruct (_ =? PROTOCOL_VERSION); [|done]. cbn [negb].
  destruct (Z.eqb_spec (Z.of_nat (length data)) (declared_size data)) as [Hs|Hs];
    [|done]. cbn [negb andb]. cbn zeta. cbn [destination_ payload_].
  unfold declared_size in Hs.
  pose proof (Z_of_byte_range (nth 11 data x00)). pose proof (Z_of_byte_range (nth 12 data x00)).
  pose proof (Z_of_byte_range (nth 13 data x00)). pose proof (Z_of_byte_range (nth 14 data x00)).
  unfold byte_at in *.
  set (sl := Z_of_byte (nth 11 data x00)) in *. set (dl := Z_of_byte (nth 12 data x00)) in *.
  set (ph := Z_of_byte (nth 13 data x00)) in *. set (pl := Z_of_byte (nth 14 data x00)) in *.
  set (dst := firstn (Z.to_nat dl) (skipn (15 + Z.to_nat sl) data)).
  set (pay := skipn (15 + Z.to_nat sl + Z.to_nat dl) data).
  assert (length dst = Z.to_nat dl) as Hd
    by (unfold dst; rewrite length_firstn, length_skipn; lia).
  assert (length pay = Z.to_nat (256 * ph + pl)) as Hp
    by (unfold pay; rewrite length_skipn; lia).
  destruct (Z.eqb_spec (dl + (256 * ph + pl)) 0) as [E|E].
  - destruct dst; [|simpl in Hd; lia]. destruct pay; [|simpl in Hp; lia]. done.
  - case_bool_decide as Hx; [|done]. case_bool_decide as Hy; [|done].
    apply (f_equal String.length) in Hx. rewrite length_string_of_bytes, Hd in Hx.
    rewrite Hy in Hp. simpl in *. lia.
Qed.

(** C39. Wire layout (docs/api-documentation.md, the protocol table): version, type,
    flags, correlation id, the three lengths, sender, destination and payload are
    at the documented offsets.  The correlation id is in network order only on a
    little-endian host: [__builtin_bswap64] is unconditional. *)
Theorem Serialize_layout e m data :
  wf_message m -> Serialize e m = Ret data ->
  byte_at data 0 = 1 /\ byte_at data 1 = u8_of_MessageType (type_ m) /\
  byte_at data 2 = flags_ m /\
  firstn 8 (skipn 3 data) =
    match e with
    | LittleEndian => be_bytes 8 (correlation_id_ m)
    | BigEndian => le_bytes 8 (correlation_id_ m)
    end /\
  byte_at data 11 = str_size (sender_ m) /\ byte_at data 12 = str_size (destination_ m) /\
  256 * byte_at data 13 + byte_at data 14 = Z.of_nat (length (payload_ m)) /\
  skipn 15 data = bytes_of_string (sender_ m) ++ bytes_of_string (destination_ m)
                  ++ payload_ m.
Proof.
  intros Hwf Hser. apply Serialize_Ret in Hser as [(Hs & Hd & Hp) ->].
  pose proof (u8_of_MessageType_range _ (wf_type_ m Hwf)).
  pose proof (wf_flags_ m Hwf). unfold str_size in *.
  assert (length (mem_bytes e 8 (HostToNetwork64 (correlation_id_ m))) = 8%nat) as Hc
    by apply length_mem_bytes.
  assert (mem_bytes e 8 (HostToNetwork64 (correlation_id_ m)) =
          match e with
          | LittleEndian => be_bytes 8 (correlation_id_ m)
          | BigEndian => le_bytes 8 (correlation_id_ m)
          end) as Hcv.
  { destruct e; [apply mem_bytes_bswap|]. unfold mem_bytes, HostToNetwork64, bswap.
    rewrite (le_bytes_value_n 8) by (rewrite length_rev; apply length_le_bytes).
    apply rev_involutive. }
  rewrite <- Hcv. clear Hcv. unfold header, body, byte_at, str_size.
  set (c := mem_bytes e 8 _) in *. clearbody c.
  destruct c as [|c0 [|c1 [|c2 [|c3 [|c4 [|c5 [|c6 [|c7 [|c8 c]]]]]]]]]; try done.
  pose proof (payload_len_value LittleEndian
    (byte_of_Z (u16 (Z.of_nat (length (payload_ m))) / 2 ^ 8))
    (byte_of_Z (u16 (Z.of_nat (length (payload_ m)))))) as Hl.
  cbn [nth app be_bytes le_bytes rev firstn skipn] in *.
  rewrite <- Hl, !Z_of_byte_of_Z, !u8_id by (done || lia).
  do 6 (split; [done|]). split; [|done].
  change [byte_of_Z (u16 (Z.of_nat (length (payload_ m))) / 2 ^ 8);
          byte_of_Z (u16 (Z.of_nat (length (payload_ m))))]
    with (be_bytes 2 (u16 (Z.of_nat (length (payload_ m))))).
  rewrite <- (mem_bytes_htons LittleEndian). unfold NetworkToHost16.
  rewrite mem_value_ntohs, u16_id; rewrite ?u16_id; lia.
Qed.

(** ** Flag operations, bit by bit *)
Lemma testbit_shiftl1 k i : 0 <= k -> 0 <= i -> Z.testbit (Z.shiftl 1 k) i = bool_decide (i = k).
Proof.
  intros Hk Hi. rewrite Z.shiftl_1_l. case_bool_decide as H.
  - subst. by apply Z.pow2_bits_true.
  - apply Z.pow2_bits_false. lia.
Qed.

Lemma HasFlag_testbit m k :
  0 <= k -> HasFlag m (Z.shiftl 1 k) = Z.testbit (flags_ m) k.
Proof.
  intros Hk. unfold HasFlag.
  destruct (Z.eqb_spec (Z.land (flags_ m) (Z.shiftl 1 k)) 0) as [H|H]; symmetry; cbn.
  - apply (f_equal (fun z => Z.testbit z k)) in H.
    by rewrite Z.land_spec, testbit_shiftl1, bool_decide_true, andb_true_r, Z.bits_0 in H.
  - apply not_false_is_true. intros E. destruct H. apply Z.bits_inj'. intros i Hi.
    rewrite Z.land_spec, testbit_shiftl1, Z.bits_0 by done.
    case_bool_decide; [by subst; rewrite E | apply andb_false_r].
Qed.

Lemma testbit_u8 z i : 0 <= i < 8 -> Z.testbit (u8 z) i = Z.testbit z i.
Proof. intros H. apply Z.mod_pow2_bits_low. lia. Qed.

Lemma SetFlag_testbit m k i : 0 <= k < 8 -> 0 <= i < 8 ->
  Z.testbit (flags_ (SetFlag (Z.shiftl 1 k) m)) i = bool_decide (i = k) || Z.testbit (flags_ m) i.
Proof.
  intros Hk Hi. cbn. rewrite testbit_u8, Z.lor_spec, testbit_shiftl1 by lia.
  apply orb_comm.
Qed.

Lemma ClearFlag_testbit m k i : 0 <= k < 8 -> 0 <= i < 8 ->
  Z.testbit (flags_ (ClearFlag (Z.shiftl 1 k) m)) i = negb (bool_decide (i = k)) && Z.testbit (flags_ m) i.
Proof.
  intros Hk Hi. cbn. rewrite testbit_u8, Z.land_spec, Z.lnot_spec, testbit_shiftl1 by lia.
  apply andb_comm.
Qed.

(** The flag setters change one bit: after [SetNeedsAck(v)] ([SetNeedsReply(v)])
    the message needs an ACK (a reply) exactly when [v], every other bit of the
    flags byte is as before, and the byte stays a byte. *)
Lemma flag_setters m v i :
  wf_message m -> 0 <= i < 8 ->
  NeedsAck (SetNeedsAck v m) = v /\ NeedsReply (SetNeedsReply v m) = v /\
  (i <> 1 -> Z.testbit (flags_ (SetNeedsAck v m)) i = Z.testbit (flags_ m) i) /\
  (i <> 0 -> Z.testbit (flags_ (SetNeedsReply v m)) i = Z.testbit (flags_ m) i) /\
  wf_message (SetNeedsAck v m) /\ wf_message (SetNeedsReply v m).
Proof.
  intros Hwf Hi.
  assert (forall f, wf_message (SetFlags (u8 f) m)) as Hwf'.
  { intros f. split; cbn; [apply Hwf | apply u8_range | apply Hwf]. }
  unfold NeedsAck, NeedsReply, SetNeedsAck, SetNeedsReply, FlagNeedsAck, FlagNeedsReply.
  rewrite !HasFlag_testbit by lia.
  split_and!; destruct v; rewrite ?SetFlag_testbit, ?ClearFlag_testbit by lia;
    try apply Hwf'; try done; intros Hne; by rewrite bool_decide_false.
Qed.

(** ** Concrete messages *)
Definition sample : Message :=
  mkMessage MT_Message FlagNeedsAck 258 "alice" "bob" [x01; x02].

Lemma sample_wf : wf_message sample.
Proof. split; [done | by vm_compute | by vm_compute]. Qed.

Lemma Deserialize_Serialize_witness :
  exists data, Serialize LittleEndian sample = Ret data /\
    wf_message sample /\ Deserialize false LittleEndian data = Ret sample.
Proof.
  eexists. split; [vm_compute; reflexivity|]. split; [apply sample_wf|].
  apply (Deserialize_Serialize LittleEndian sample); [apply sample_wf | vm_compute; reflexivity].
Defined.

Lemma Serialize_Deserialize_witness :
  exists data m, Deserialize false LittleEndian data = Ret m /\
    wf_message m /\ Serialize LittleEndian m = Ret data.
Proof.
  exists [x01; x01; x00; x00; x00; x00; x00; x00; x00; x00; x07; x01; x00; x00; x00; x61].
  eexists. split; [vm_compute; reflexivity|].
  apply Serialize_Deserialize. vm_compute. reflexivity.
Defined.

Lemma Serialize_layout_witness :
  exists data, Serialize LittleEndian sample = Ret data /\
    firstn 8 (skipn 3 data) = be_bytes 8 258 /\ byte_at data 11 = 5.
Proof.
  destruct (Serialize LittleEndian sample) as [data|e|f] eqn:E;
    [|vm_compute in E; done|vm_compute in E; done].
  exists data. split; [done|].
  destruct (Serialize_layout LittleEndian sample data sample_wf E)
    as (_ & _ & _ & H & Hs & _). done.
Defined.

Lemma flag_setters_witness :
  NeedsAck (SetNeedsAck true Message_default) = true /\
  Z.testbit (flags_ (SetNeedsAck true Message_default)) 0 = false.
Proof.
  assert (wf_message Message_default) as H by (split; by vm_compute).
  destruct (flag_setters Message_default true 0 H ltac:(lia)) as (Ha & _ & Hb & _).
  split; [exact Ha|]. rewrite Hb by lia. reflexivity.
Defined.

(** The registration message the example client sends has neither destination nor
    payload, so a hardened build aborts on it. *)
Example hardened_register_aborts :
  (data <-? Serialize LittleEndian
              (mkMessage MT_Register FlagNone 0 "alice" EmptyString []) ;;
   Deserialize true LittleEndian data) = Stuck AssertionFailed.
Proof. vm_compute. reflexivity. Qed.
