(* ===== verification/Interfaces.v ===== *)
(** The contract between the handlers and the message store: [class IStorage] of
    [include/interfaces.hpp], as a type class of operations over an abstract state,
    and the laws its clients rely on, stated against an abstract store: a finite
    map from row ids to a message and its status, and the set of correlations.

    [implements] is the refinement relation the laws are written with: an
    operation either returns, and the abstract store moves as its specification
    says, or throws, and the abstract store has not moved.  [completes] is
    its complement: on a store that is well the operation returns, with everything there
    is.  [StorageSpec.v] and [StorageHealth.v] discharge the two classes for the SQL tables;
    the theorems about [Session], [Router] and the handlers are proved against them. *)
From Stdlib Require Import ZArith Lia Strings.Byte.
From S2P Require Import Prelude Words Message.
Open Scope Z_scope.
Open Scope broker_scope.

Definition STATUS_PENDING : Z := 0.
Definition STATUS_DELIVERED : Z := 1.
Definition STATUS_SENT : Z := 2.

Record PendingMessage : Type := mkPending { id : Z; msg : Message }.

Class IStorage (St : Type) : Type := {
  iSaveMessage : Message -> M St Z;
  iMarkDelivered : Z -> M St unit;
  iMarkSent : Z -> M St unit;
  iNeedsAck : Z -> M St bool;
  iMarkPending : Z -> M St unit;
  iSaveCorrelation : Z -> Z -> string -> M St unit;
  iFindOriginalSenderByCorrelation : Z -> M St string;
  iFindMessageIdByCorrelation : Z -> M St Z;
  iFindMessageIdByCorrelationAndDestination : Z -> string -> M St Z;
  iMarkAckReceived : Z -> string -> M St unit;
  iLoadExpiredSent : Z -> M St (list PendingMessage);
  iLoadPendingRepliesForSenderOnly : string -> M St (list PendingMessage);
  iLoadPendingMessagesOnly : string -> M St (list PendingMessage);
}.

(** ** The abstract store *)
Record store : Type := mkStore {
  rows : gmap Z (Message * Z);
  corrs : gset (Z * Z * string);
}.

(** What comes back of a message from the database: its names cut at a NUL, its
    numbers through the column types. *)
Definition db_copy (m : Message) : Message :=
  mkMessage (MessageType_of_u8 (u8 (u8_of_MessageType (type_ m)))) (u8 (flags_ m))
    (u64 (s64 (correlation_id_ m))) (c_str (sender_ m)) (c_str (destination_ m))
    (payload_ m).

Lemma db_copy_wf m :
  wf_message m ->
  db_copy m = SetSender (c_str (sender_ m)) (SetDestination (c_str (destination_ m)) m).
Proof.
  intros [Ht Hf Hc]. unfold db_copy, SetSender, SetDestination. cbn.
  rewrite u8_id by (by apply u8_of_MessageType_range).
  rewrite MessageType_of_u8_of by done. by rewrite u8_id, u64_s64.
Qed.

Lemma db_copy_id m :
  wf_message m -> no_nul (sender_ m) = true -> no_nul (destination_ m) = true ->
  db_copy m = m.
Proof. intros Hwf Hs Hd. rewrite db_copy_wf, !c_str_id by done. by destruct m. Qed.

Definition set_rows (f : gmap Z (Message * Z) -> gmap Z (Message * Z)) (a : store) : store :=
  mkStore (f (rows a)) (corrs a).

Definition set_status (from : Z -> bool) (to : Z) (p : Message * Z) : Message * Z :=
  if from (snd p) then (fst p, to) else p.

(** [m] implements the abstract operation [post] on the states satisfying [ok]. *)
Definition implements {St A} (ok : St -> Prop) (view : St -> store) (m : M St A)
    (post : A -> store -> store -> Prop) : Prop :=
  forall s, ok s ->
    match m s with
    | (Ret a, s') => ok s' /\ post a (view s) (view s')
    | (Throw _, s') => ok s' /\ view s' = view s
    | (Stuck _, _) => False
    end.

(** A query: the answer is right for the store, which does not move. *)
Definition answers {A} (P : A -> store -> Prop) (a : A) (s s' : store) : Prop :=
  s' = s /\ P a s.

(** The rows a load returns, and that each is returned once. *)
Definition loads (P : Message * Z -> store -> Prop) (l : list PendingMessage) (s : store) : Prop :=
  NoDup (map id l) /\
  forall p, p ∈ l -> 0 < id p < 2 ^ 63 /\
    exists st, rows s !! id p = Some (msg p, st) /\ P (msg p, st) s.

Class IStorageLaws (St : Type) `{IStorage St} : Type := {
  st_ok : St -> Prop;
  view : St -> store;
  SaveMessage_law m : implements st_ok view (iSaveMessage m) (fun i s s' =>
    0 < i < 2 ^ 63 /\ rows s !! i = None /\
    s' = set_rows (insert i (db_copy m, STATUS_PENDING)) s);
  MarkDelivered_law i : implements st_ok view (iMarkDelivered i) (fun _ s s' =>
    s' = set_rows (alter (set_status (fun _ => true) STATUS_DELIVERED) (s64 i)) s);
  MarkSent_law i : implements st_ok view (iMarkSent i) (fun _ s s' =>
    s' = set_rows (alter (set_status (Z.eqb STATUS_PENDING) STATUS_SENT) (s64 i)) s);
  MarkPending_law i : implements st_ok view (iMarkPending i) (fun _ s s' =>
    s' = set_rows (alter (set_status (Z.eqb STATUS_SENT) STATUS_PENDING) (s64 i)) s);
  NeedsAck_law i : implements st_ok view (iNeedsAck i) (answers (fun b s =>
    b = true -> exists m, rows s !! s64 i = Some (m, STATUS_SENT) /\ NeedsAck m = true));
  SaveCorrelation_law i c o : implements st_ok view (iSaveCorrelation i c o) (fun _ s s' =>
    rows s' = rows s /\
    corrs s' = {[(s64 i, s64 c, c_str o)]} ∪
               filter (fun t => ~ (snd (fst t) = s64 c /\ snd t = c_str o)) (corrs s));
  FindOriginalSenderByCorrelation_law c :
    implements st_ok view (iFindOriginalSenderByCorrelation c) (answers (fun o s =>
      o = EmptyString \/ exists i, (i, s64 c, o) ∈ corrs s));
  FindMessageIdByCorrelation_law c :
    implements st_ok view (iFindMessageIdByCorrelation c) (answers (fun i s =>
      i = 0 \/ (0 <= i < 2 ^ 64 /\ exists o, (s64 i, s64 c, o) ∈ corrs s)));
  FindMessageIdByCorrelationAndDestination_law c d :
    implements st_ok view (iFindMessageIdByCorrelationAndDestination c d) (answers (fun i s =>
      i = 0 \/ (0 < i < 2 ^ 63 /\ (exists o, (i, s64 c, o) ∈ corrs s) /\
                exists m st, rows s !! i = Some (m, st) /\ destination_ m = c_str d)));
  MarkAckReceived_law i o : implements st_ok view (iMarkAckReceived i o) (fun _ s s' =>
    rows s' = rows s /\
    (corrs s' = corrs s \/ corrs s' = filter (fun t => fst (fst t) <> s64 i) (corrs s)));
  LoadExpiredSent_law t : implements st_ok view (iLoadExpiredSent t) (answers
    (loads (fun p _ => snd p = STATUS_SENT)));
  LoadPendingRepliesForSenderOnly_law n :
    implements st_ok view (iLoadPendingRepliesForSenderOnly n) (answers
      (loads (fun p s => (snd p = STATUS_PENDING \/ snd p = STATUS_SENT) /\
                type_ (fst p) = MT_Reply /\
                exists i, (i, s64 (correlation_id_ (fst p)), c_str n) ∈ corrs s)));
  LoadPendingMessagesOnly_law n :
    implements st_ok view (iLoadPendingMessagesOnly n) (answers
      (loads (fun p _ => snd p = STATUS_PENDING /\ type_ (fst p) <> MT_Reply /\
                destination_ (fst p) = c_str n)));
}.

(** ** A storage that is well

    The laws above hold whatever fails.  [st_well n s] says that nothing is about to: no
    statement of [s] fails and [n] more rows fit.  Then every operation returns, stays
    well, and a query answers with everything there is. *)

(** [m], which inserts [cost] rows, returns on a well storage that satisfies [pre], and
    its answer is the whole one. *)
Definition completes {St A} (ok : St -> Prop) (well : nat -> St -> Prop) (m : M St A)
    (cost : nat) (pre : St -> Prop) (full : A -> St -> Prop) : Prop :=
  forall n s, ok s -> well (cost + n)%nat s -> pre s ->
    match m s with
    | (Ret a, s') => well n s' /\ full a s
    | _ => False
    end.

(** The owner of a correlation id, and the row it names: the empty name, or 0, only when
    there is no correlation. *)
Definition owner_answer (c : Z) (o : string) (a : store) : Prop :=
  (exists k, (k, s64 c, o) ∈ corrs a) \/
  (o = EmptyString /\ forall k o', (k, s64 c, o') ∉ corrs a).
Definition id_answer (c : Z) (i : Z) (a : store) : Prop :=
  (exists k o, (k, s64 c, o) ∈ corrs a /\ i = u64 k) \/
  (i = 0 /\ forall k o, (k, s64 c, o) ∉ corrs a).

(** A load returns exactly the rows that satisfy [P]. *)
Definition all_rows (P : Z -> Message * Z -> Prop) (l : list PendingMessage) (a : store) : Prop :=
  forall i m, mkPending i m ∈ l <-> exists st, rows a !! i = Some (m, st) /\ P i (m, st).

Class IStorageHealth (St : Type) `{IStorageLaws St} : Type := {
  st_well : nat -> St -> Prop;
  st_expired : Z -> St -> Z -> Prop;
  st_well_le n s : st_well (S n) s -> st_well n s;
  SaveMessage_well m :
    completes st_ok st_well (iSaveMessage m) 1 (fun _ => True) (fun _ _ => True);
  MarkDelivered_well i :
    completes st_ok st_well (iMarkDelivered i) 0 (fun _ => True) (fun _ _ => True);
  MarkSent_well i :
    completes st_ok st_well (iMarkSent i) 0 (fun _ => True) (fun _ _ => True);
  MarkPending_well i :
    completes st_ok st_well (iMarkPending i) 0 (fun _ => True) (fun _ _ => True);
  NeedsAck_well i :
    completes st_ok st_well (iNeedsAck i) 0 (fun _ => True) (fun b s =>
      b = true <-> exists m, rows (view s) !! s64 i = Some (m, STATUS_SENT) /\ NeedsAck m = true);
  SaveCorrelation_well i c o :
    completes st_ok st_well (iSaveCorrelation i c o) 1
      (fun s => is_Some (rows (view s) !! s64 i)) (fun _ _ => True);
  FindOriginalSenderByCorrelation_well c :
    completes st_ok st_well (iFindOriginalSenderByCorrelation c) 0 (fun _ => True)
      (fun o s => owner_answer c o (view s));
  FindMessageIdByCorrelation_well c :
    completes st_ok st_well (iFindMessageIdByCorrelation c) 0 (fun _ => True)
      (fun i s => id_answer c i (view s));
  FindMessageIdByCorrelationAndDestination_well c d :
    completes st_ok st_well (iFindMessageIdByCorrelationAndDestination c d) 0 (fun _ => True)
      (fun _ _ => True);
  MarkAckReceived_well i o :
    completes st_ok st_well (iMarkAckReceived i o) 0 (fun _ => True) (fun _ _ => True);
  LoadExpiredSent_well t :
    completes st_ok st_well (iLoadExpiredSent t) 0 (fun _ => True) (fun l s =>
      all_rows (fun i p => snd p = STATUS_SENT /\ st_expired t s i) l (view s));
  LoadPendingRepliesForSenderOnly_well n :
    completes st_ok st_well (iLoadPendingRepliesForSenderOnly n) 0 (fun _ => True) (fun l s =>
      all_rows (fun _ p => (snd p = STATUS_PENDING \/ snd p = STATUS_SENT) /\
                  type_ (fst p) = MT_Reply /\
                  exists k, (k, s64 (correlation_id_ (fst p)), c_str n) ∈ corrs (view s))
        l (view s));
  LoadPendingMessagesOnly_well n :
    completes st_ok st_well (iLoadPendingMessagesOnly n) 0 (fun _ => True) (fun l s =>
      all_rows (fun _ p => snd p = STATUS_PENDING /\ type_ (fst p) <> MT_Reply /\
                  destination_ (fst p) = c_str n) l (view s));
}.

(** ** The abstract store as a state machine

    One constructor per way the store may move.  A message is saved PENDING under a
    fresh id; PENDING may become SENT, SENT may fall back to PENDING, and either may
    become DELIVERED; nothing leaves DELIVERED, and no row is removed or rewritten. *)
Inductive abs_step : store -> store -> Prop :=
| abs_save i m s :
    0 < i < 2 ^ 63 -> rows s !! i = None ->
    abs_step s (set_rows (insert i (db_copy m, STATUS_PENDING)) s)
| abs_send i m s :
    rows s !! i = Some (m, STATUS_PENDING) ->
    abs_step s (set_rows (insert i (m, STATUS_SENT)) s)
| abs_requeue i m s :
    rows s !! i = Some (m, STATUS_SENT) ->
    abs_step s (set_rows (insert i (m, STATUS_PENDING)) s)
| abs_deliver i m st s :
    rows s !! i = Some (m, st) ->
    abs_step s (set_rows (insert i (m, STATUS_DELIVERED)) s)
| abs_correlate i c o s :
    abs_step s (mkStore (rows s) ({[(i, c, o)]} ∪
      filter (fun t => ~ (snd (fst t) = c /\ snd t = o)) (corrs s)))
| abs_uncorrelate i s :
    abs_step s (mkStore (rows s) (filter (fun t => fst (fst t) <> i) (corrs s))).

Abbreviation abs_steps := (rtc abs_step).

(** What every sequence of steps preserves: the message under an id, and its having
    been delivered. *)
Definition store_le (s s' : store) : Prop :=
  forall i m st, rows s !! i = Some (m, st) ->
    exists st', rows s' !! i = Some (m, st') /\
      (st = STATUS_DELIVERED -> st' = STATUS_DELIVERED).

#[export] Instance store_le_preorder : PreOrder store_le.
Proof.
  split.
  - intros s i m st Hi. by exists st.
  - intros s1 s2 s3 H12 H23 i m st Hi.
    destruct (H12 i m st Hi) as (st2 & Hi2 & Hd2).
    destruct (H23 i m st2 Hi2) as (st3 & Hi3 & Hd3). exists st3. naive_solver.
Qed.

Lemma insert_status_le i m st st' s :
  rows s !! i = Some (m, st) -> (st = STATUS_DELIVERED -> st' = STATUS_DELIVERED) ->
  store_le s (set_rows (insert i (m, st')) s).
Proof.
  intros Hi Hd j m' st1 Hj. cbn. destruct (decide (i = j)) as [->|Hne].
  - rewrite lookup_insert_eq. exists st'. split; [congruence|]. intros ->. naive_solver.
  - rewrite lookup_insert_ne by done. by exists st1.
Qed.

Lemma abs_step_le s s' : abs_step s s' -> store_le s s'.
Proof.
  intros [i m s0 Hi Hn | i m s0 Hi | i m s0 Hi | i m st s0 Hi | i c o s0 | i s0].
  - intros j m' st Hj. cbn. rewrite lookup_insert_ne by congruence. by exists st.
  - by eapply insert_status_le.
  - by eapply insert_status_le.
  - by eapply insert_status_le.
  - intros j m' st Hj. by exists st.
  - intros j m' st Hj. by exists st.
Qed.

Lemma abs_steps_le s s' : abs_steps s s' -> store_le s s'.
Proof.
  induction 1 as [s|s1 s2 s3 H12 _ IH]; [done|].
  transitivity s2; [by apply abs_step_le | done].
Qed.

Lemma set_rows_id s : set_rows (fun t => t) s = s.
Proof. by destruct s. Qed.

Lemma set_rows_ext f g s : f (rows s) = g (rows s) -> set_rows f s = set_rows g s.
Proof. intros H. unfold set_rows. by rewrite H. Qed.

Lemma alter_status_steps from to i s :
  (forall m st, rows s !! i = Some (m, st) -> from st = true ->
     abs_step s (set_rows (insert i (m, to)) s)) ->
  abs_steps s (set_rows (alter (set_status from to) i) s).
Proof.
  intros Hs. destruct (rows s !! i) as [[m st]|] eqn:E.
  - destruct (from st) eqn:Ef.
    + apply rtc_once. rewrite (set_rows_ext _ (insert i (m, to))); [by eapply Hs|].
      apply map_eq. intros j. rewrite lookup_alter, lookup_insert.
      case_decide; [subst|done]. rewrite E. cbn. unfold set_status. cbn. by rewrite Ef.
    + rewrite (set_rows_ext _ (fun t => t)); [rewrite set_rows_id; done|].
      apply map_eq. intros j. rewrite lookup_alter. case_decide; [subst|done].
      rewrite E. cbn. unfold set_status. cbn. by rewrite Ef.
  - rewrite (set_rows_ext _ (fun t => t)); [rewrite set_rows_id; done|].
    apply map_eq. intros j. rewrite lookup_alter. case_decide; [subst|done]. by rewrite E.
Qed.

(** ** Calls *)
Inductive call : Type :=
| CallSaveMessage (m : Message)
| CallMarkDelivered (i : Z)
| CallMarkSent (i : Z)
| CallNeedsAck (i : Z)
| CallMarkPending (i : Z)
| CallSaveCorrelation (i c : Z) (o : string)
| CallFindOriginalSender (c : Z)
| CallFindMessageId (c : Z)
| CallFindMessageIdByDestination (c : Z) (d : string)
| CallMarkAckReceived (i : Z) (o : string)
| CallLoadExpiredSent (t : Z)
| CallLoadPendingReplies (n : string)
| CallLoadPendingMessages (n : string).

Definition run_call {St} `{IStorage St} (c : call) : M St unit :=
  match c with
  | CallSaveMessage m => iSaveMessage m ;;; ret tt
  | CallMarkDelivered i => iMarkDelivered i
  | CallMarkSent i => iMarkSent i
  | CallNeedsAck i => iNeedsAck i ;;; ret tt
  | CallMarkPending i => iMarkPending i
  | CallSaveCorrelation i c o => iSaveCorrelation i c o
  | CallFindOriginalSender c => iFindOriginalSenderByCorrelation c ;;; ret tt
  | CallFindMessageId c => iFindMessageIdByCorrelation c ;;; ret tt
  | CallFindMessageIdByDestination c d =>
      iFindMessageIdByCorrelationAndDestination c d ;;; ret tt
  | CallMarkAckReceived i o => iMarkAckReceived i o
  | CallLoadExpiredSent t => iLoadExpiredSent t ;;; ret tt
  | CallLoadPendingReplies n => iLoadPendingRepliesForSenderOnly n ;;; ret tt
  | CallLoadPendingMessages n => iLoadPendingMessagesOnly n ;;; ret tt
  end.

(** A client: calls in any order, each one's exception caught by the client. *)
Fixpoint run_calls {St} `{IStorage St} (l : list call) : M St unit :=
  match l with
  | [] => ret tt
  | c :: l' => try_catch (run_call c) (fun _ => ret tt) ;;; run_calls l'
  end.

(** The store moves by abstract steps, and stays well formed. *)
Definition refines_steps {St} `{IStorageLaws St} (s s' : St) : Prop :=
  st_ok s -> st_ok s' /\ abs_steps (view s) (view s').

#[export] Instance refines_steps_preorder {St} `{IStorageLaws St} :
  PreOrder (@refines_steps St _ _).
Proof.
  split.
  - intros s Hs. by split.
  - intros s1 s2 s3 H12 H23 Hs. destruct (H12 Hs) as [H2 S12].
    destruct (H23 H2) as [H3 S23]. split; [done|]. by transitivity (view s2).
Qed.

Section Refinement.
Context {St : Type} `{IStorageLaws St}.

Lemma implements_refines {A} (m : M St A) post :
  implements st_ok view m post ->
  (forall a s s', post a s s' -> abs_steps s s') ->
  preserves refines_steps m.
Proof.
  intros Hm Hp s Hs. specialize (Hm s Hs).
  destruct (m s) as [[a|e|f] s'] eqn:E; cbn; [| |done].
  - destruct Hm as [? ?]. split; [done|by eapply Hp].
  - destruct Hm as [? ->]. by split.
Qed.

Lemma answers_steps {A} P (a : A) s s' : answers P a s s' -> abs_steps s s'.
Proof. by intros [-> _]. Qed.

Lemma same_corrs_steps s s' :
  rows s' = rows s -> corrs s' = corrs s -> abs_steps s s'.
Proof. destruct s, s'; cbn. by intros -> ->. Qed.

Lemma refines_SaveMessage m : preserves refines_steps (iSaveMessage m).
Proof.
  eapply implements_refines; [apply SaveMessage_law|].
  intros i s s' (Hi & Hn & ->). by apply rtc_once, abs_save.
Qed.

Lemma refines_MarkDelivered i : preserves refines_steps (iMarkDelivered i).
Proof.
  eapply implements_refines; [apply MarkDelivered_law|]. intros _ s s' ->.
  apply alter_status_steps. intros m st Hm _. by eapply abs_deliver.
Qed.

Lemma refines_MarkSent i : preserves refines_steps (iMarkSent i).
Proof.
  eapply implements_refines; [apply MarkSent_law|]. intros _ s s' ->.
  apply alter_status_steps. intros m st Hm Hst. apply Z.eqb_eq in Hst as <-.
  by apply abs_send.
Qed.

Lemma refines_MarkPending i : preserves refines_steps (iMarkPending i).
Proof.
  eapply implements_refines; [apply MarkPending_law|]. intros _ s s' ->.
  apply alter_status_steps. intros m st Hm Hst. apply Z.eqb_eq in Hst as <-.
  by apply abs_requeue.
Qed.

Lemma refines_SaveCorrelation i c o : preserves refines_steps (iSaveCorrelation i c o).
Proof.
  eapply implements_refines; [apply SaveCorrelation_law|]. intros _ s [r' c'] [Hr Hc].
  cbn in *. subst. apply rtc_once, abs_correlate.
Qed.

Lemma refines_MarkAckReceived i o : preserves refines_steps (iMarkAckReceived i o).
Proof.
  eapply implements_refines; [apply MarkAckReceived_law|]. intros _ s s' [Hr [Hc|Hc]].
  - by apply same_corrs_steps.
  - destruct s' as [r' c']. cbn in *. subst. apply rtc_once, abs_uncorrelate.
Qed.

Lemma refines_query {A} (m : M St A) P :
  implements st_ok view m (answers P) -> preserves refines_steps m.
Proof. intros Hm. eapply implements_refines; [done|]. apply answers_steps. Qed.

Lemma refines_NeedsAck i : preserves refines_steps (iNeedsAck i).
Proof. eapply refines_query, NeedsAck_law. Qed.
Lemma refines_FindOriginalSender c :
  preserves refines_steps (iFindOriginalSenderByCorrelation c).
Proof. eapply refines_query, FindOriginalSenderByCorrelation_law. Qed.
Lemma refines_FindMessageId c : preserves refines_steps (iFindMessageIdByCorrelation c).
Proof. eapply refines_query, FindMessageIdByCorrelation_law. Qed.
Lemma refines_FindMessageIdByDest c d :
  preserves refines_steps (iFindMessageIdByCorrelationAndDestination c d).
Proof. eapply refines_query, FindMessageIdByCorrelationAndDestination_law. Qed.
Lemma refines_LoadExpiredSent t : preserves refines_steps (iLoadExpiredSent t).
Proof. eapply refines_query, LoadExpiredSent_law. Qed.
Lemma refines_LoadPendingReplies n :
  preserves refines_steps (iLoadPendingRepliesForSenderOnly n).
Proof. eapply refines_query, LoadPendingRepliesForSenderOnly_law. Qed.
Lemma refines_LoadPendingMessages n :
  preserves refines_steps (iLoadPendingMessagesOnly n).
Proof. eapply refines_query, LoadPendingMessagesOnly_law. Qed.
End Refinement.

Create HintDb refines discriminated.
#[export] Hint Resolve refines_SaveMessage refines_MarkDelivered refines_MarkSent
  refines_MarkPending refines_SaveCorrelation refines_MarkAckReceived refines_NeedsAck
  refines_FindOriginalSender refines_FindMessageId refines_FindMessageIdByDest
  refines_LoadExpiredSent refines_LoadPendingReplies refines_LoadPendingMessages
  : refines.

Section Clients.
Context {St : Type} `{IStorageLaws St}.

Lemma refines_run_call c : preserves refines_steps (run_call c).
Proof. destruct c; cbn; solve_preserves ltac:(eauto with refines nocore). Qed.

Lemma refines_run_calls l : preserves refines_steps (run_calls l).
Proof.
  induction l as [|c l IH]; cbn; solve_preserves ltac:(exact IH || apply refines_run_call).
Qed.

Lemma implements_returns {A} (m : M St A) post s :
  implements st_ok view m post -> st_ok s -> is_stuck (fst (m s)) = false.
Proof. intros Hm Hs. specialize (Hm s Hs). by destruct (m s) as [[]?]. Qed.

Lemma bind_ret_not_stuck {A} (m : M St A) s :
  is_stuck (fst (m s)) = false -> is_stuck (fst ((m ;;; ret tt) s)) = false.
Proof. unfold bind. by destruct (m s) as [[]?]. Qed.

Lemma run_call_returns c s : st_ok s -> is_stuck (fst (run_call c s)) = false.
Proof.
  intros Hs. destruct c; cbn; try apply bind_ret_not_stuck;
    (eapply implements_returns; [|done]).
  - apply SaveMessage_law.
  - apply MarkDelivered_law.
  - apply MarkSent_law.
  - apply NeedsAck_law.
  - apply MarkPending_law.
  - apply SaveCorrelation_law.
  - apply FindOriginalSenderByCorrelation_law.
  - apply FindMessageIdByCorrelation_law.
  - apply FindMessageIdByCorrelationAndDestination_law.
  - apply MarkAckReceived_law.
  - apply LoadExpiredSent_law.
  - apply LoadPendingRepliesForSenderOnly_law.
  - apply LoadPendingMessagesOnly_law.
Qed.

Lemma run_calls_returns l s : st_ok s -> fst (run_calls l s) = Ret tt.
Proof.
  revert s. induction l as [|c l IH]; intros s Hs; [done|]. cbn.
  pose proof (run_call_returns c s Hs) as Hr.
  destruct (refines_run_call c s Hs) as [Hs' _].
  unfold bind, try_catch. destruct (run_call c s) as [[[]|e|f] s'] eqn:E; cbn in *;
    [by apply IH | by apply IH | done].
Qed.
End Clients.
