(* ===== verification/Storage.v ===== *)
(** The message store of [include/storage.hpp] and [src/storage.cpp].

    [Storage] is the SQLite connection with the two tables of [CreateTables], each
    a finite map from the INTEGER PRIMARY KEY to a row.  Every SQL statement of
    [PrepareStatements] is a definition over the tables ([insert_message],
    [update_status], ... [select_pending_replies]) and every member function runs
    them as the code does, through [sqlite3_step].

    SQLite itself is not part of the repository.  What the code relies on is in
    [SqlEngine]: the order of rows the ORDER BY clause leaves open is an arbitrary
    function that sorts by the key, a different one for each statement, and the text of an error message is arbitrary.
    A statement may fail: the connection carries the list of the outcomes of the
    next executions ([faults]), where [Some n] makes a query stop after [n] rows
    and a write fail without effect.  The wall clock is a field ([clock]). *)
From Stdlib Require Import ZArith Lia Sorted Strings.Byte.
From stdpp Require Import sorting.
From S2P Require Import Prelude Words Message Interfaces.
Open Scope Z_scope.
Open Scope broker_scope.

(** ** The database engine *)
Class SqlEngine : Type := {
  order_by : forall {A : Type}, string -> (A -> Z) -> list A -> list A;
  order_by_perm : forall A statement (key : A -> Z) l, order_by statement key l ≡ₚ l;
  order_by_sorted : forall A statement (key : A -> Z) l,
    Sorted (fun x y => key x <= key y) (order_by statement key l);
  sqlite3_errmsg : string;
}.

(** ** Tables *)
Record message_row : Type := mkRow {
  r_type : Z;
  r_flags : Z;
  r_correlation_id : Z;
  r_sender : string;
  r_destination : string;
  r_payload : option (list byte);
  r_status : Z;
  r_created_at : Z;
  r_delivered_at : option Z;
}.

Record correlation_row : Type := mkCorr {
  c_message_id : Z;
  c_correlation_id : Z;
  c_original_sender : string;
  c_created_at : Z;
}.

#[export] Instance message_row_eq_dec : EqDecision message_row.
Proof. solve_decision. Defined.

Record Storage : Type := mkStorage {
  messages : gmap Z message_row;
  messages_seq : Z;
  correlations : gmap Z correlation_row;
  correlations_seq : Z;
  last_insert_rowid : Z;
  schema : list string;
  rollback_schema : list string;
  foreign_keys : bool;
  clock : Z;
  faults : list (option nat);
}.

Definition set_messages (t : gmap Z message_row) (s : Storage) : Storage :=
  mkStorage t (messages_seq s) (correlations s) (correlations_seq s)
    (last_insert_rowid s) (schema s) (rollback_schema s) (foreign_keys s) (clock s)
    (faults s).
Definition set_correlations (t : gmap Z correlation_row) (s : Storage) : Storage :=
  mkStorage (messages s) (messages_seq s) t (correlations_seq s)
    (last_insert_rowid s) (schema s) (rollback_schema s) (foreign_keys s) (clock s)
    (faults s).
Definition set_faults (f : list (option nat)) (s : Storage) : Storage :=
  mkStorage (messages s) (messages_seq s) (correlations s) (correlations_seq s)
    (last_insert_rowid s) (schema s) (rollback_schema s) (foreign_keys s) (clock s) f.
Definition set_schema (l r : list string) (s : Storage) : Storage :=
  mkStorage (messages s) (messages_seq s) (correlations s) (correlations_seq s)
    (last_insert_rowid s) l r (foreign_keys s) (clock s) (faults s).
Definition set_foreign_keys (b : bool) (s : Storage) : Storage :=
  mkStorage (messages s) (messages_seq s) (correlations s) (correlations_seq s)
    (last_insert_rowid s) (schema s) (rollback_schema s) b (clock s) (faults s).
Definition set_clock (t : Z) (s : Storage) : Storage :=
  mkStorage (messages s) (messages_seq s) (correlations s) (correlations_seq s)
    (last_insert_rowid s) (schema s) (rollback_schema s) (foreign_keys s) t (faults s).

Section Storage.
Context `{SqlEngine}.

(** ** Running a statement

    The outcome of the next execution is taken from [faults]. *)
Definition next_fault : M Storage (option nat) := fun s =>
  match faults s with
  | [] => (Ret None, s)
  | f :: fs => (Ret f, set_faults fs s)
  end.

(** A statement that writes: [true] for [SQLITE_DONE] ([SQLITE_OK] of an
    [sqlite3_exec]).  [None] is an engine error (a constraint, a full table). *)
Definition step_write (f : Storage -> option Storage) : M Storage bool :=
  fault <- next_fault ;;
  match fault with
  | Some _ => ret false
  | None => fun s => match f s with
                     | Some s' => (Ret true, s')
                     | None => (Ret false, s)
                     end
  end.

(** A query: the rows received before [sqlite3_step] stops returning [SQLITE_ROW]. *)
Definition step_rows {A} (q : Storage -> list A) : M Storage (list A) :=
  fault <- next_fault ;;
  match fault with
  | Some n => gets (fun s => firstn n (q s))
  | None => gets q
  end.

(** ** The statements of [PrepareStatements] *)
Definition insert_message (r : message_row) (s : Storage) : option Storage :=
  let i := messages_seq s + 1 in
  if 2 ^ 63 <=? i then None
  else Some (mkStorage (<[i := r]> (messages s)) i (correlations s) (correlations_seq s)
               i (schema s) (rollback_schema s) (foreign_keys s) (clock s) (faults s)).

Definition with_status (st : Z) (at_ : option Z) (r : message_row) : message_row :=
  mkRow (r_type r) (r_flags r) (r_correlation_id r) (r_sender r) (r_destination r)
    (r_payload r) st (r_created_at r) at_.

(** UPDATE messages SET status = ?, delivered_at = CURRENT_TIMESTAMP WHERE id = ? *)
Definition update_delivered (status i : Z) (s : Storage) : option Storage :=
  Some (set_messages (alter (with_status status (Some (clock s))) i (messages s)) s).

(** UPDATE messages SET status = ? WHERE id = ? AND status = ?  ([update_sent_sql]
    and [update_pending_sql] are the same text) *)
Definition update_status (status i old : Z) (s : Storage) : option Storage :=
  Some (set_messages
          (alter (fun r => if r_status r =? old
                           then with_status status (r_delivered_at r) r else r)
             i (messages s)) s).

(** SELECT flags, status FROM messages WHERE id = ? *)
Definition select_needs_ack (i : Z) (s : Storage) : list (Z * Z) :=
  match messages s !! i with
  | Some r => [(r_flags r, r_status r)]
  | None => []
  end.

(** INSERT OR REPLACE INTO correlations, under the unique index on
    (correlation_id, original_sender) and the foreign key to messages(id) *)
Definition insert_correlation (mid corr : Z) (owner : string) (s : Storage) : option Storage :=
  let i := correlations_seq s + 1 in
  if (foreign_keys s && bool_decide (messages s !! mid = None)) || (2 ^ 63 <=? i) then None
  else
    let kept := filter (fun p => ~ (c_correlation_id (snd p) = corr /\
                                    c_original_sender (snd p) = owner)) (correlations s) in
    Some (mkStorage (messages s) (messages_seq s)
            (<[i := mkCorr mid corr owner (clock s)]> kept) i i
            (schema s) (rollback_schema s) (foreign_keys s) (clock s) (faults s)).

(** SELECT original_sender FROM correlations WHERE correlation_id = ?
    ORDER BY created_at DESC LIMIT 1 *)
Definition select_original_sender (corr : Z) (s : Storage) : list string :=
  map c_original_sender (firstn 1 (order_by "select_original_sender" (fun c => - c_created_at c)
    (filter (fun c => c_correlation_id c = corr) (map snd (map_to_list (correlations s)))))).

(** SELECT message_id FROM correlations WHERE correlation_id = ?
    ORDER BY created_at DESC LIMIT 1 *)
Definition select_message_id_by_corr (corr : Z) (s : Storage) : list Z :=
  map c_message_id (firstn 1 (order_by "select_message_id_by_corr" (fun c => - c_created_at c)
    (filter (fun c => c_correlation_id c = corr) (map snd (map_to_list (correlations s)))))).

(** SELECT m.id FROM messages m INNER JOIN correlations c ON m.id = c.message_id
    WHERE c.correlation_id = ? AND m.destination = ? ORDER BY c.created_at DESC LIMIT 1 *)
Definition select_message_id_by_corr_dest (corr : Z) (dest : string) (s : Storage) : list Z :=
  map fst (firstn 1 (order_by "select_message_id_by_corr_dest" (fun p => - c_created_at (snd p))
    (flat_map (fun p => map (fun c => (fst p, c))
       (filter (fun c => fst p = c_message_id c /\ c_correlation_id c = corr /\
                         r_destination (snd p) = dest)
          (map snd (map_to_list (correlations s)))))
       (map_to_list (messages s))))).

(** SELECT original_sender FROM correlations WHERE message_id = ? *)
Definition select_original_sender_by_msg_id (mid : Z) (s : Storage) : list string :=
  map c_original_sender (order_by "select_original_sender_by_msg_id" (fun _ => 0)
    (filter (fun c => c_message_id c = mid) (map snd (map_to_list (correlations s))))).

(** DELETE FROM correlations WHERE message_id = ? *)
Definition delete_correlation (mid : Z) (s : Storage) : option Storage :=
  Some (set_correlations (filter (fun p => c_message_id (snd p) <> mid) (correlations s)) s).

(** SELECT ... FROM messages WHERE status = ?
    AND strftime('%s','now') - strftime('%s', created_at) > ? ORDER BY created_at ASC *)
Definition select_expired_sent (status timeout : Z) (s : Storage) : list (Z * message_row) :=
  order_by "select_expired_sent" (fun p => r_created_at (snd p))
    (filter (fun p => r_status (snd p) = status /\ clock s - r_created_at (snd p) > timeout)
       (map_to_list (messages s))).

(** SELECT ... FROM messages WHERE destination = ? AND status = ? AND type != ?
    ORDER BY created_at ASC *)
Definition select_pending_messages (dest : string) (status ty : Z) (s : Storage)
    : list (Z * message_row) :=
  order_by "select_pending_messages" (fun p => r_created_at (snd p))
    (filter (fun p => r_destination (snd p) = dest /\ r_status (snd p) = status /\
                      r_type (snd p) <> ty)
       (map_to_list (messages s))).

(** SELECT DISTINCT m.* FROM messages m INNER JOIN correlations c
    ON m.correlation_id = c.correlation_id
    WHERE c.original_sender = ? AND m.status IN (?, ?) AND m.type = ?
    ORDER BY m.created_at ASC *)
Definition select_pending_replies (owner : string) (st1 st2 ty : Z) (s : Storage)
    : list (Z * message_row) :=
  order_by "select_pending_replies" (fun p => r_created_at (snd p))
    (remove_dups
       (flat_map (fun p => map (fun _ => p)
          (filter (fun c => r_correlation_id (snd p) = c_correlation_id c /\
                            c_original_sender c = owner /\
                            (r_status (snd p) = st1 \/ r_status (snd p) = st2) /\
                            r_type (snd p) = ty)
             (map snd (map_to_list (correlations s)))))
          (map_to_list (messages s)))).

(** ** Member functions *)
Definition SaveMessageWithStatus (m : Message) (status : Z) : M Storage Z :=
  now <- gets clock ;;
  let row := mkRow (u8 (u8_of_MessageType (type_ m))) (u8 (flags_ m)) (s64 (correlation_id_ m))
               (c_str (sender_ m)) (c_str (destination_ m))
               (match payload_ m with [] => None | p => Some p end)
               status now None in
  rc <- step_write (insert_message row) ;;
  if negb rc then
    throw (runtime_error ("Failed to insert message: " ++ sqlite3_errmsg)%string)
  else
    i <- gets last_insert_rowid ;;
    ret (u64 i).

Definition SaveMessage (m : Message) : M Storage Z :=
  SaveMessageWithStatus m STATUS_PENDING.

Definition MarkDelivered (message_id : Z) : M Storage unit :=
  rc <- step_write (update_delivered STATUS_DELIVERED (s64 message_id)) ;;
  if negb rc then
    throw (runtime_error ("Failed to mark message as delivered: " ++ sqlite3_errmsg)%string)
  else ret tt.

Definition MarkSent (message_id : Z) : M Storage unit :=
  rc <- step_write (update_status STATUS_SENT (s64 message_id) STATUS_PENDING) ;;
  if negb rc then
    throw (runtime_error ("Failed to mark message as sent: " ++ sqlite3_errmsg)%string)
  else ret tt.

Definition MarkPending (message_id : Z) : M Storage unit :=
  rc <- step_write (update_status STATUS_PENDING (s64 message_id) STATUS_SENT) ;;
  if negb rc then
    throw (runtime_error ("Failed to mark message as pending: " ++ sqlite3_errmsg)%string)
  else ret tt.

Definition Storage_NeedsAck (message_id : Z) : M Storage bool :=
  rows <- step_rows (select_needs_ack (s64 message_id)) ;;
  match rows with
  | (flags, status) :: _ =>
      ret (negb (Z.land (u8 flags) FlagNeedsAck =? 0) && (status =? STATUS_SENT))
  | [] => ret false
  end.

Definition SaveCorrelation (message_id correlation_id : Z) (original_sender : string)
    : M Storage unit :=
  rc <- step_write (insert_correlation (s64 message_id) (s64 correlation_id)
                      (c_str original_sender)) ;;
  if negb rc then
    throw (runtime_error ("Failed to save correlation: " ++ sqlite3_errmsg)%string)
  else ret tt.

Definition FindOriginalSenderByCorrelation (correlation_id : Z) : M Storage string :=
  rows <- step_rows (select_original_sender (s64 correlation_id)) ;;
  match rows with
  | o :: _ => ret (c_str o)
  | [] => ret EmptyString
  end.

Definition FindMessageIdByCorrelation (correlation_id : Z) : M Storage Z :=
  rows <- step_rows (select_message_id_by_corr (s64 correlation_id)) ;;
  match rows with
  | i :: _ => ret (u64 i)
  | [] => ret 0
  end.

Definition FindMessageIdByCorrelationAndDestination (correlation_id : Z)
    (destination : string) : M Storage Z :=
  rows <- step_rows (select_message_id_by_corr_dest (s64 correlation_id)
                       (c_str destination)) ;;
  match rows with
  | i :: _ => ret (u64 i)
  | [] => ret 0
  end.

Definition MarkAckReceived (message_id : Z) (ack_sender : string) : M Storage unit :=
  rows <- step_rows (select_original_sender_by_msg_id (s64 message_id)) ;;
  let original_sender := match rows with o :: _ => c_str o | [] => EmptyString end in
  if bool_decide (original_sender = ack_sender) then
    step_write (delete_correlation (s64 message_id)) ;;; ret tt
  else ret tt.

(** The columns of a loaded row, as the loading loops read them. *)
Definition row_message (r : message_row) : Message :=
  let m := Message_default in
  let m := SetType (MessageType_of_u8 (u8 (r_type r))) m in
  let m := SetFlags (u8 (r_flags r)) m in
  let m := SetCorrelationId (u64 (r_correlation_id r)) m in
  let m := SetSender (c_str (r_sender r)) m in
  let m := SetDestination (c_str (r_destination r)) m in
  match r_payload r with
  | Some (b :: p) => SetPayload (b :: p) m
  | _ => m
  end.

Definition pending_of_row (p : Z * message_row) : PendingMessage :=
  mkPending (u64 (fst p)) (row_message (snd p)).

Definition LoadExpiredSent (timeout_seconds : Z) : M Storage (list PendingMessage) :=
  rows <- step_rows (select_expired_sent STATUS_SENT timeout_seconds) ;;
  ret (map pending_of_row rows).

Definition LoadPendingMessagesOnly (client_name : string) : M Storage (list PendingMessage) :=
  rows <- step_rows (select_pending_messages (c_str client_name) STATUS_PENDING
                       (u8_of_MessageType MT_Reply)) ;;
  ret (map pending_of_row rows).

(** The [std::set<uint64_t> unique_ids] of the loop. *)
Fixpoint unique_by_id (unique_ids : gset Z) (rows : list (Z * message_row))
    : list (Z * message_row) :=
  match rows with
  | [] => []
  | p :: rows' =>
      if decide (u64 (fst p) ∈ unique_ids) then unique_by_id unique_ids rows'
      else p :: unique_by_id ({[u64 (fst p)]} ∪ unique_ids) rows'
  end.

Definition LoadPendingRepliesForSenderOnly (sender_name : string)
    : M Storage (list PendingMessage) :=
  rows <- step_rows (select_pending_replies (c_str sender_name) STATUS_PENDING
                       STATUS_SENT (u8_of_MessageType MT_Reply)) ;;
  ret (map pending_of_row (unique_by_id ∅ rows)).

(** ** Opening the database *)
Definition create_if_absent (names : list string) (s : Storage) : option Storage :=
  Some (set_schema (schema s ++ filter (fun n => n ∉ schema s) names)
          (rollback_schema s) s).
Definition begin_transaction (s : Storage) : option Storage :=
  Some (set_schema (schema s) (schema s) s).
Definition rollback (s : Storage) : option Storage :=
  Some (set_schema (rollback_schema s) (rollback_schema s) s).
Definition commit (s : Storage) : option Storage :=
  Some (set_schema (schema s) (schema s) s).

(** [sqlite3_exec(db_, sql, ...)] that must succeed: on failure the transaction is
    rolled back and the constructor throws. *)
Definition exec_or_rollback (f : Storage -> option Storage) (what : string) : M Storage unit :=
  rc <- step_write f ;;
  if negb rc then
    step_write rollback ;;; throw (runtime_error (what ++ sqlite3_errmsg)%string)
  else ret tt.

Definition CreateTables : M Storage unit :=
  rc <- step_write begin_transaction ;;
  if negb rc then
    throw (runtime_error ("Failed to begin transaction: " ++ sqlite3_errmsg)%string)
  else
    exec_or_rollback (create_if_absent ["messages"]) "Failed to create messages table: " ;;;
    exec_or_rollback (create_if_absent ["correlations"])
      "Failed to create correlations table: " ;;;
    exec_or_rollback
      (create_if_absent ["idx_messages_destination"; "idx_messages_status";
         "idx_messages_type"; "idx_messages_dest_status"; "idx_messages_correlation";
         "idx_correlations_corr_id"; "idx_correlations_original_sender";
         "idx_correlations_message_id"; "idx_correlations_unique"])
      "Failed to create indexes: " ;;;
    rc <- step_write commit ;;
    if negb rc then
      throw (runtime_error ("Failed to commit transaction: " ++ sqlite3_errmsg)%string)
    else ret tt.

(** [SqliteStmt(db, sql)]: preparing needs the tables the statement names. *)
Definition SqliteStmt (tables : list string) : M Storage unit :=
  rc <- step_write (fun s => if bool_decide (Forall (fun t => t ∈ schema s) tables)
                             then Some s else None) ;;
  if negb rc then
    throw (runtime_error ("Failed to prepare statement: " ++ sqlite3_errmsg)%string)
  else ret tt.

Definition PrepareStatements : M Storage unit :=
  for_each [["messages"]; ["messages"]; ["messages"]; ["messages"]; ["messages"];
            ["correlations"]; ["correlations"]; ["correlations"];
            ["messages"; "correlations"]; ["correlations"]; ["correlations"];
            ["messages"]; ["messages"]; ["messages"; "correlations"]]
    (fun tables => SqliteStmt tables ;;; ret Continue).

(** The constructor on an existing (or empty) database file. *)
Definition Storage_ctor : M Storage unit :=
  modify (set_foreign_keys false) ;;;
  rc <- step_write Some ;;
  if negb rc then
    throw (runtime_error ("Failed to open database: " ++ sqlite3_errmsg)%string)
  else
    step_write Some ;;;
    step_write Some ;;;
    step_write (fun s => Some (set_foreign_keys true s)) ;;;
    CreateTables ;;;
    PrepareStatements.

#[export] Instance Storage_IStorage : IStorage Storage := {
  iSaveMessage := SaveMessage;
  iMarkDelivered := MarkDelivered;
  iMarkSent := MarkSent;
  iNeedsAck := Storage_NeedsAck;
  iMarkPending := MarkPending;
  iSaveCorrelation := SaveCorrelation;
  iFindOriginalSenderByCorrelation := FindOriginalSenderByCorrelation;
  iFindMessageIdByCorrelation := FindMessageIdByCorrelation;
  iFindMessageIdByCorrelationAndDestination := FindMessageIdByCorrelationAndDestination;
  iMarkAckReceived := MarkAckReceived;
  iLoadExpiredSent := LoadExpiredSent;
  iLoadPendingRepliesForSenderOnly := LoadPendingRepliesForSenderOnly;
  iLoadPendingMessagesOnly := LoadPendingMessagesOnly;
}.
End Storage.
