(* ===== verification/StorageSpec.v ===== *)
(** What the tables guarantee: the well-formedness invariant of [Storage], the
    abstract store it represents ([storage_view]), the proof that every member
    function implements the [IStorage] laws, and the properties of the store on its
    own: the status machine, freshness of ids, uniqueness of correlations, the
    foreign key, what a save followed by a load returns, and reopening. *)
From Stdlib Require Import ZArith Lia Sorted Strings.Byte.
From stdpp Require Import sorting.
From S2P Require Import Prelude Words Message Interfaces Storage.
Open Scope Z_scope.
Open Scope broker_scope.

(** ** Invariant *)
Record row_ok (r : message_row) : Prop := {
  ok_type : 0 <= r_type r < 2 ^ 8;
  ok_correlation : - 2 ^ 63 <= r_correlation_id r < 2 ^ 63;
  ok_destination : c_str (r_destination r) = r_destination r;
}.

Record corr_ok (c : correlation_row) : Prop := {
  ok_message_id : - 2 ^ 63 <= c_message_id c < 2 ^ 63;
  ok_owner : c_str (c_original_sender c) = c_original_sender c;
}.

Record storage_ok (s : Storage) : Prop := {
  ok_seq : 0 <= messages_seq s < 2 ^ 63;
  ok_cseq : 0 <= correlations_seq s < 2 ^ 63;
  ok_rows : map_Forall (fun i r => 0 < i <= messages_seq s /\ row_ok r) (messages s);
  ok_corrs : map_Forall (fun j c => 0 < j <= correlations_seq s /\ corr_ok c) (correlations s);
  ok_unique : forall j j' c c',
    correlations s !! j = Some c -> correlations s !! j' = Some c' ->
    c_correlation_id c = c_correlation_id c' ->
    c_original_sender c = c_original_sender c' -> j = j';
}.

Definition triple_of (c : correlation_row) : Z * Z * string :=
  (c_message_id c, c_correlation_id c, c_original_sender c).

Definition storage_view (s : Storage) : store :=
  mkStore ((fun r => (row_message r, r_status r)) <$> messages s)
    (map_to_set (fun _ c => triple_of c) (correlations s)).

Lemma storage_ok_set_faults fs s : storage_ok s -> storage_ok (set_faults fs s).
Proof. intros [H1 H2 H3 H4 H5]. by split. Qed.

Lemma rows_lookup s i p :
  rows (storage_view s) !! i = Some p <->
  exists r, messages s !! i = Some r /\ p = (row_message r, r_status r).
Proof.
  cbn. rewrite lookup_fmap. destruct (messages s !! i) as [r|]; cbn; split.
  - intros [= <-]. by exists r.
  - by intros (r' & [= <-] & ->).
  - done.
  - by intros (r' & ? & _).
Qed.

Lemma corrs_elem s t :
  t ∈ corrs (storage_view s) <-> exists j c, correlations s !! j = Some c /\ triple_of c = t.
Proof. cbn. rewrite elem_of_map_to_set. naive_solver. Qed.

Section Laws.
Context `{SqlEngine}.

(** ** Proof rules for statements *)
Lemma implements_write_gets {A} f err (g : Storage -> A) post :
  (forall s s', storage_ok s -> f s = Some s' ->
     storage_ok s' /\ post (g s') (storage_view s) (storage_view s')) ->
  implements storage_ok storage_view
    (rc <- step_write f ;; if negb rc then throw err else gets g) post.
Proof.
  intros Hf s Hs. unfold bind, step_write, next_fault, bind.
  destruct (faults s) as [|[n|] fs] eqn:E; cbn.
  - destruct (f s) eqn:Ef; cbn; [by apply Hf | done].
  - split; [by apply storage_ok_set_faults | done].
  - destruct (f (set_faults fs s)) eqn:Ef; cbn.
    + apply (Hf (set_faults fs s)); [by apply storage_ok_set_faults | done].
    + split; [by apply storage_ok_set_faults | done].
Qed.

Lemma implements_write f err post :
  (forall s s', storage_ok s -> f s = Some s' ->
     storage_ok s' /\ post tt (storage_view s) (storage_view s')) ->
  implements storage_ok storage_view
    (rc <- step_write f ;; if negb rc then throw err else ret tt) post.
Proof. apply (implements_write_gets f err (fun _ => tt)). Qed.

Lemma implements_gets {A B} (g : Storage -> A) (k : A -> M Storage B) post :
  (forall a, implements storage_ok storage_view (k a) post) ->
  implements storage_ok storage_view (a <- gets g ;; k a) post.
Proof. intros Hk s Hs. by apply (Hk (g s)). Qed.

Lemma implements_write_ignore f post :
  (forall s, storage_ok s -> post tt (storage_view s) (storage_view s)) ->
  (forall s s', storage_ok s -> f s = Some s' ->
     storage_ok s' /\ post tt (storage_view s) (storage_view s')) ->
  implements storage_ok storage_view (step_write f ;;; ret tt) post.
Proof.
  intros Hr Hf s Hs. unfold bind, step_write, next_fault, bind.
  destruct (faults s) as [|[n|] fs] eqn:E; cbn.
  - destruct (f s) eqn:Ef; cbn; [by apply Hf | by split; [|apply Hr]].
  - pose proof (storage_ok_set_faults fs s Hs). by split; [|apply (Hr s)].
  - pose proof (storage_ok_set_faults fs s Hs) as Hs'.
    destruct (f (set_faults fs s)) eqn:Ef; cbn; [by apply (Hf (set_faults fs s))|].
    by split; [|apply (Hr s)].
Qed.

Lemma implements_rows_bind {A B} (q : Storage -> list A) (k : list A -> M Storage B) post :
  (forall l, implements storage_ok storage_view (k l) post) ->
  implements storage_ok storage_view (l <- step_rows q ;; k l) post.
Proof.
  intros Hk s Hs. unfold bind, step_rows, next_fault, bind.
  destruct (faults s) as [|[n|] fs] eqn:E; cbn; try apply Hk; try done.
  - by apply (Hk _ (set_faults fs s)), storage_ok_set_faults.
  - by apply (Hk _ (set_faults fs s)), storage_ok_set_faults.
Qed.

Lemma implements_query {A B} (q : Storage -> list A) (g : list A -> B) P :
  (forall s l, storage_ok s -> l `prefix_of` q s -> P (g l) (storage_view s)) ->
  implements storage_ok storage_view
    (l <- step_rows q ;; ret (g l)) (answers P).
Proof.
  intros Hq s Hs. unfold bind, step_rows, next_fault, bind.
  destruct (faults s) as [|[n|] fs] eqn:E; cbn.
  - split; [done|]. split; [done|]. by apply Hq.
  - pose proof (storage_ok_set_faults fs s Hs) as Hs'.
    split; [done|]. split; [done|]. apply (Hq (set_faults fs s)); [done|].
    rewrite <- (firstn_skipn n (q (set_faults fs s))) at 2. by eexists.
  - pose proof (storage_ok_set_faults fs s Hs) as Hs'.
    split; [done|]. split; [done|]. by apply (Hq (set_faults fs s)).
Qed.

Lemma implements_ext {A} (m m' : M Storage A) post :
  (forall s, m s = m' s) ->
  implements storage_ok storage_view m' post -> implements storage_ok storage_view m post.
Proof. intros Hm Hi s Hs. rewrite Hm. by apply Hi. Qed.

Lemma elem_of_prefix {A} (x : A) l k : l `prefix_of` k -> x ∈ l -> x ∈ k.
Proof. intros [k' ->] Hx. set_solver. Qed.

Lemma elem_of_order_by {A} q (key : A -> Z) l x : x ∈ order_by q key l <-> x ∈ l.
Proof. by rewrite (order_by_perm A q key l). Qed.

Lemma NoDup_prefix {A} (l k : list A) : l `prefix_of` k -> NoDup k -> NoDup l.
Proof. intros [k' ->] Hk. by apply NoDup_app in Hk as [? _]. Qed.

(** ** The writing statements *)
Lemma alter_status_view (f : message_row -> message_row) g (t : gmap Z message_row) i :
  (forall r, row_message (f r) = row_message r /\
             (row_message r, r_status (f r)) = g (row_message r, r_status r)) ->
  (fun r => (row_message r, r_status r)) <$> alter f i t =
  alter g i ((fun r => (row_message r, r_status r)) <$> t).
Proof.
  intros Hf. apply map_eq. intros j. rewrite lookup_fmap.
  destruct (decide (i = j)) as [->|Hne].
  - rewrite !lookup_alter_eq, lookup_fmap. destruct (t !! j) as [r|]; [|done]. cbn.
    destruct (Hf r) as [E1 E2]. by rewrite E1, <- E2.
  - by rewrite !lookup_alter_ne, lookup_fmap by done.
Qed.

Lemma alter_messages_ok f i s :
  (forall r, row_ok r -> row_ok (f r)) -> storage_ok s ->
  storage_ok (set_messages (alter f i (messages s)) s).
Proof.
  intros Hf [H1 H2 H3 H4 H5]. split; try done. cbn. intros j r.
  rewrite lookup_alter. case_decide; [subst|apply H3].
  destruct (messages s !! j) as [r0|] eqn:E; [|done]. cbn. intros [= <-].
  destruct (H3 j r0 E) as [Hj Hr]. by split; [|apply Hf].
Qed.

Lemma update_delivered_implements i :
  implements storage_ok storage_view (MarkDelivered i) (fun _ s s' =>
    s' = set_rows (alter (set_status (fun _ => true) STATUS_DELIVERED) (s64 i)) s).
Proof.
  apply implements_write. intros s s' Hs [= <-]. split.
  - apply alter_messages_ok; [|done]. by intros r [].
  - unfold storage_view, set_rows; cbn. f_equal. by apply alter_status_view.
Qed.

Lemma update_status_implements st old i err :
  implements storage_ok storage_view
    (rc <- step_write (update_status st (s64 i) old) ;;
     if negb rc then throw err else ret tt) (fun _ s s' =>
    s' = set_rows (alter (set_status (Z.eqb old) st) (s64 i)) s).
Proof.
  apply implements_write. intros s s' Hs [= <-]. split.
  - apply alter_messages_ok; [|done]. intros r Hr. case_match; [|done].
    by destruct Hr.
  - unfold storage_view, set_rows; cbn. f_equal. apply alter_status_view.
    intros r. unfold set_status. cbn. rewrite (Z.eqb_sym old).
    by destruct (r_status r =? old).
Qed.

Lemma insert_message_ok r s s' :
  row_ok r -> storage_ok s -> insert_message r s = Some s' ->
  storage_ok s' /\ 0 < last_insert_rowid s' < 2 ^ 63 /\
  messages s !! last_insert_rowid s' = None /\
  storage_view s' =
    set_rows (insert (last_insert_rowid s') (row_message r, r_status r)) (storage_view s).
Proof.
  intros Hr [H1 H2 H3 H4 H5]. unfold insert_message.
  destruct (Z.leb_spec (2 ^ 63) (messages_seq s + 1)) as [|Hlt]; [done|].
  intros [= <-]. cbn.
  assert (messages s !! (messages_seq s + 1) = None) as Hn.
  { destruct (messages s !! _) as [r'|] eqn:E; [|done]. apply H3 in E as [? _]. lia. }
  split_and!; try lia; try done.
  - split; cbn; try lia; try done. intros j r'.
    rewrite lookup_insert. case_decide; [intros [= <-]; subst; split; [lia|done]|].
    intros E. apply H3 in E as [? ?]. split; [lia|done].
  - unfold storage_view, set_rows. cbn. by rewrite fmap_insert.
Qed.

Lemma SaveMessage_implements m :
  implements storage_ok storage_view (SaveMessage m) (fun i s s' =>
    0 < i < 2 ^ 63 /\ rows s !! i = None /\
    s' = set_rows (insert i (db_copy m, STATUS_PENDING)) s).
Proof.
  unfold SaveMessage, SaveMessageWithStatus. apply implements_gets. intros now.
  apply (implements_write_gets _ _ (fun s => u64 (last_insert_rowid s))).
  intros s s' Hs Hi. apply insert_message_ok in Hi as (Hok & Hid & Hn & Hv);
    [|split; [apply u8_range | apply s64_range | apply c_str_idem] | done].
  split; [done|]. rewrite u64_id by lia. split_and!; try lia.
  - cbn. by rewrite lookup_fmap, Hn.
  - rewrite Hv. do 3 f_equal. unfold row_message, db_copy. cbn.
    rewrite !(u8_id (u8 _)) by apply u8_range.
    rewrite !c_str_idem. destruct (payload_ m); reflexivity.
Qed.

(** ** Correlations *)
Lemma insert_correlation_ok mid corr o s s' :
  - 2 ^ 63 <= mid < 2 ^ 63 -> c_str o = o -> storage_ok s ->
  insert_correlation mid corr o s = Some s' ->
  storage_ok s' /\
  rows (storage_view s') = rows (storage_view s) /\
  corrs (storage_view s') = {[(mid, corr, o)]} ∪
    filter (fun t => ~ (snd (fst t) = corr /\ snd t = o)) (corrs (storage_view s)).
Proof.
  intros Hmid Ho [H1 H2 H3 H4 H5]. unfold insert_correlation.
  case_match eqn:Hfk; [done|]. apply orb_false_iff in Hfk as [_ Hseq].
  apply Z.leb_gt in Hseq. intros [= <-].
  assert (forall j c, <[correlations_seq s + 1 := mkCorr mid corr o (clock s)]>
      (filter (fun p => ~ (c_correlation_id (snd p) = corr /\ c_original_sender (snd p) = o))
         (correlations s)) !! j = Some c <->
    (j = correlations_seq s + 1 /\ c = mkCorr mid corr o (clock s)) \/
    (correlations s !! j = Some c /\
     ~ (c_correlation_id c = corr /\ c_original_sender c = o))) as Hlk.
  { intros j c. rewrite lookup_insert. case_decide as Hj.
    - subst j. split; [intros [= <-]; by left|]. intros [[_ ->]|[E _]]; [done|].
      apply H4 in E as [? _]. lia.
    - rewrite map_lookup_filter_Some. cbn. split; [by right|].
      by intros [[-> _]|?]. }
  split_and!; [|done|].
  - split; cbn; try lia; try done.
    + intros j c E. apply Hlk in E as [[-> ->]|[E _]]; [split; [lia|]; by split|].
      apply H4 in E as [? ?]. split; [lia|done].
    + intros j j' c c' E E' Ec Eo. apply Hlk in E, E'.
      destruct E as [[-> ->]|[E Hn]], E' as [[-> ->]|[E' Hn']]; cbn in *; try done;
        try (by destruct Hn; split; congruence); try (by destruct Hn'; split; congruence).
      by eapply H5.
  - apply set_eq. intros t. rewrite elem_of_union, elem_of_singleton, elem_of_filter.
    rewrite !corrs_elem. cbn [correlations]. setoid_rewrite Hlk. split.
    + intros (j & c & [[-> ->]|[E Hn]] & <-); [by left|]. right. split; [done|by eauto].
    + intros [->|[Hn (j & c & E & <-)]]; eauto 10.
Qed.

Lemma SaveCorrelation_implements i c o :
  implements storage_ok storage_view (SaveCorrelation i c o) (fun _ s s' =>
    rows s' = rows s /\
    corrs s' = {[(s64 i, s64 c, c_str o)]} ∪
               filter (fun t => ~ (snd (fst t) = s64 c /\ snd t = c_str o)) (corrs s)).
Proof.
  apply implements_write. intros s s' Hs Hi.
  apply insert_correlation_ok in Hi as (? & ? & ?); [done | apply s64_range | | done].
  apply c_str_idem.
Qed.

Lemma elem_of_table {A} (t : gmap Z A) x :
  x ∈ map snd (map_to_list t) <-> exists j, t !! j = Some x.
Proof.
  rewrite list_elem_of_fmap. split.
  - intros ([j y] & -> & E). exists j. by apply elem_of_map_to_list.
  - intros [j E]. exists (j, x). split; [done|]. by apply elem_of_map_to_list.
Qed.

(** The newest correlation with an id, whichever of those of the same age comes first. *)
Lemma newest_correlation q corr s c :
  storage_ok s ->
  c ∈ firstn 1 (order_by q (fun c => - c_created_at c)
    (filter (fun c => c_correlation_id c = corr) (map snd (map_to_list (correlations s))))) ->
  (c_message_id c, corr, c_original_sender c) ∈ corrs (storage_view s) /\ corr_ok c.
Proof.
  intros Hs Hc. apply subseteq_take, elem_of_order_by, list_elem_of_filter in Hc as [<- Hc'].
  apply elem_of_table in Hc' as [j E]. rewrite corrs_elem.
  split; [by exists j, c|]. by apply (ok_corrs s Hs) in E as [_ ?].
Qed.

Lemma no_correlation q corr s :
  firstn 1 (order_by q (fun c => - c_created_at c)
    (filter (fun c => c_correlation_id c = corr) (map snd (map_to_list (correlations s))))) = [] ->
  forall j c, correlations s !! j = Some c -> c_correlation_id c <> corr.
Proof.
  intros He j c Hj Hc.
  assert (c ∈ order_by q (fun c => - c_created_at c)
     (filter (fun c => c_correlation_id c = corr) (map snd (map_to_list (correlations s))))) as Hin.
  { apply elem_of_order_by, list_elem_of_filter. split; [done|]. apply elem_of_table. by exists j. }
  destruct (order_by _ _ _); [set_solver|done].
Qed.

Lemma select_sender_elem corr s o l :
  storage_ok s -> o :: l `prefix_of` select_original_sender corr s ->
  exists k, (k, corr, o) ∈ corrs (storage_view s) /\ c_str o = o.
Proof.
  intros Hs Hp. assert (o ∈ select_original_sender corr s) as Ho
    by (eapply elem_of_prefix; [done|set_solver]).
  apply list_elem_of_fmap in Ho as (c & -> & Hc). apply newest_correlation in Hc as [Hc Hok]; [|done].
  exists (c_message_id c). split; [done|]. apply Hok.
Qed.

Lemma select_message_id_elem corr s i l :
  storage_ok s -> i :: l `prefix_of` select_message_id_by_corr corr s ->
  exists o, (i, corr, o) ∈ corrs (storage_view s) /\ - 2 ^ 63 <= i < 2 ^ 63.
Proof.
  intros Hs Hp. assert (i ∈ select_message_id_by_corr corr s) as Hi
    by (eapply elem_of_prefix; [done|set_solver]).
  apply list_elem_of_fmap in Hi as (c & -> & Hc). apply newest_correlation in Hc as [Hc Hok]; [|done].
  exists (c_original_sender c). split; [done|]. apply Hok.
Qed.

Lemma FindOriginalSender_implements c :
  implements storage_ok storage_view (FindOriginalSenderByCorrelation c)
    (answers (fun o s => o = EmptyString \/ exists i, (i, s64 c, o) ∈ corrs s)).
Proof.
  eapply implements_ext; [|apply (implements_query (select_original_sender (s64 c))
    (fun rows => match rows with o :: _ => c_str o | [] => EmptyString end))].
  - intros s. unfold FindOriginalSenderByCorrelation, bind.
    by destruct (step_rows _ s) as [[[|]| |]?].
  - intros s [|o l] Hs Hp; [by left|right].
    apply select_sender_elem in Hp as (k & Hk & Ho); [|done]. exists k. by rewrite Ho.
Qed.

Lemma s64_u64 z : - 2 ^ 63 <= z < 2 ^ 63 -> s64 (u64 z) = z.
Proof.
  intros Hz. unfold s64, u64. rewrite Zplus_mod_idemp_l, Z.mod_small; lia.
Qed.

Lemma FindMessageId_implements c :
  implements storage_ok storage_view (FindMessageIdByCorrelation c)
    (answers (fun i s =>
      i = 0 \/ (0 <= i < 2 ^ 64 /\ exists o, (s64 i, s64 c, o) ∈ corrs s))).
Proof.
  eapply implements_ext; [|apply (implements_query (select_message_id_by_corr (s64 c))
    (fun rows => match rows with i :: _ => u64 i | [] => 0 end))].
  - intros s. unfold FindMessageIdByCorrelation, bind.
    by destruct (step_rows _ s) as [[[|]| |]?].
  - intros s [|i l] Hs Hp; [by left|right].
    apply select_message_id_elem in Hp as (o & Ho & Hi); [|done].
    split; [apply u64_range|]. exists o. by rewrite s64_u64.
Qed.

Lemma row_destination r : destination_ (row_message r) = c_str (r_destination r).
Proof. unfold row_message. by destruct (r_payload r) as [[|]|]. Qed.

Lemma row_type r : type_ (row_message r) = MessageType_of_u8 (u8 (r_type r)).
Proof. unfold row_message. by destruct (r_payload r) as [[|]|]. Qed.

Lemma row_correlation r : correlation_id_ (row_message r) = u64 (r_correlation_id r).
Proof. unfold row_message. by destruct (r_payload r) as [[|]|]. Qed.

Lemma row_flags r : flags_ (row_message r) = u8 (r_flags r).
Proof. unfold row_message. by destruct (r_payload r) as [[|]|]. Qed.

Lemma row_id_range s i r :
  storage_ok s -> messages s !! i = Some r -> 0 < i < 2 ^ 63 /\ u64 i = i /\ s64 i = i.
Proof.
  intros Hs E. apply (ok_rows s Hs) in E as [? _]. pose proof (ok_seq s Hs).
  rewrite u64_id, s64_id by lia. lia.
Qed.

Lemma select_by_corr_dest_elem corr d s i l :
  i :: l `prefix_of` select_message_id_by_corr_dest corr d s ->
  exists r j c, messages s !! i = Some r /\ r_destination r = d /\
    correlations s !! j = Some c /\ c_message_id c = i /\ c_correlation_id c = corr.
Proof.
  intros Hp.
  assert (i ∈ select_message_id_by_corr_dest corr d s) as Hi
    by (eapply elem_of_prefix; [done|set_solver]).
  apply list_elem_of_fmap in Hi as ([i' c] & -> & Hi).
  apply subseteq_take, elem_of_order_by in Hi.
  apply list_elem_of_In, in_flat_map in Hi as ([k r] & Hk & Hc).
  apply list_elem_of_In, elem_of_map_to_list in Hk.
  apply list_elem_of_In, list_elem_of_fmap in Hc as (c' & [= -> <-] & Hc).
  apply list_elem_of_filter in Hc as [(Hm & <- & <-) Hc]. cbn in *.
  apply elem_of_table in Hc as [j E]. by exists r, j, c.
Qed.

Lemma FindMessageIdByDest_implements c d :
  implements storage_ok storage_view (FindMessageIdByCorrelationAndDestination c d)
    (answers (fun i s =>
      i = 0 \/ (0 < i < 2 ^ 63 /\ (exists o, (i, s64 c, o) ∈ corrs s) /\
                exists m st, rows s !! i = Some (m, st) /\ destination_ m = c_str d))).
Proof.
  eapply implements_ext; [|apply (implements_query
    (select_message_id_by_corr_dest (s64 c) (c_str d))
    (fun rows => match rows with i :: _ => u64 i | [] => 0 end))].
  - intros s. unfold FindMessageIdByCorrelationAndDestination, bind.
    by destruct (step_rows _ s) as [[[|]| |]?].
  - intros s [|i l] Hs Hp; [by left|right].
    apply select_by_corr_dest_elem in Hp as (r & j & c' & Hr & Hd & Hj & Hm & Hc).
    destruct (row_id_range s i r Hs Hr) as (Hi & Hu & _). rewrite Hu.
    split; [done|]. split.
    + exists (c_original_sender c'). apply corrs_elem. exists j, c'.
      split; [done|]. by rewrite <- Hc, <- Hm.
    + exists (row_message r), (r_status r). split.
      * apply rows_lookup. by exists r.
      * by rewrite row_destination, Hd, c_str_idem.
Qed.

Lemma NeedsAck_implements i :
  implements storage_ok storage_view (Storage_NeedsAck i) (answers (fun b s =>
    b = true -> exists m, rows s !! s64 i = Some (m, STATUS_SENT) /\ NeedsAck m = true)).
Proof.
  eapply implements_ext; [|apply (implements_query (select_needs_ack (s64 i))
    (fun rows => match rows with
                 | (f, st) :: _ => negb (Z.land (u8 f) FlagNeedsAck =? 0) && (st =? STATUS_SENT)
                 | [] => false end))].
  - intros s. unfold Storage_NeedsAck, bind.
    by destruct (step_rows _ s) as [[[|[]]| |]?].
  - intros s l Hs Hp Hb. unfold select_needs_ack in Hp.
    destruct (messages s !! s64 i) as [r|] eqn:E.
    + destruct Hp as [k Hk]. destruct l as [|[f st] l]; [done|]. injection Hk as <- <- _.
      apply andb_true_iff in Hb as [Hf Hst]. apply Z.eqb_eq in Hst.
      exists (row_message r). split.
      * apply rows_lookup. exists r. by rewrite <- Hst.
      * unfold NeedsAck, HasFlag. by rewrite row_flags.
    + apply prefix_nil_inv in Hp as ->. done.
Qed.

Lemma delete_correlation_ok mid s s' :
  storage_ok s -> delete_correlation mid s = Some s' ->
  storage_ok s' /\ rows (storage_view s') = rows (storage_view s) /\
  corrs (storage_view s') = filter (fun t => fst (fst t) <> mid) (corrs (storage_view s)).
Proof.
  intros [H1 H2 H3 H4 H5] [= <-]. split_and!; [|done|].
  - split; cbn; try done.
    + intros j c E. apply map_lookup_filter_Some in E as [E _]. by apply H4.
    + intros j j' c c' E E'. apply map_lookup_filter_Some in E as [E _], E' as [E' _].
      by eapply H5.
  - apply set_eq. intros t. rewrite elem_of_filter, !corrs_elem.
    cbn [correlations set_correlations]. setoid_rewrite map_lookup_filter_Some. split.
    + intros (j & c & [E Hn] & <-). split; [done|by eauto].
    + intros [Hn (j & c & E & <-)]. by exists j, c.
Qed.

Lemma MarkAckReceived_implements i o :
  implements storage_ok storage_view (MarkAckReceived i o) (fun _ s s' =>
    rows s' = rows s /\
    (corrs s' = corrs s \/ corrs s' = filter (fun t => fst (fst t) <> s64 i) (corrs s))).
Proof.
  unfold MarkAckReceived. apply implements_rows_bind. intros l.
  case_bool_decide; [|intros s Hs; by split; [|split; [|left]]].
  apply implements_write_ignore; [naive_solver|].
  intros s s' Hs Hd. apply delete_correlation_ok in Hd as (? & ? & ?); naive_solver.
Qed.

(** ** The loading loops *)
Lemma loads_of_rows (P : Message * Z -> store -> Prop) s l :
  storage_ok s -> NoDup l ->
  (forall i r, (i, r) ∈ l -> messages s !! i = Some r /\
     P (row_message r, r_status r) (storage_view s)) ->
  loads P (map pending_of_row l) (storage_view s).
Proof.
  intros Hs Hnd Hl.
  assert (forall i r, (i, r) ∈ l -> u64 i = i /\ 0 < i < 2 ^ 63) as Hid.
  { intros i r Hi. apply Hl in Hi as [Hi _].
    destruct (row_id_range s i r Hs Hi) as (? & ? & _). done. }
  split.
  - assert (NoDup l.*1) as Hnd'.
    { apply NoDup_fmap_fst; [|done]. intros i r1 r2 H1 H2.
      apply Hl in H1 as [H1 _], H2 as [H2 _]. congruence. }
    rewrite map_map. replace (map (fun x => id (pending_of_row x)) l) with (map fst l); [done|].
    apply map_ext_in. intros [i r] Hi. apply list_elem_of_In in Hi. cbn.
    by destruct (Hid i r Hi).
  - intros p Hp. apply list_elem_of_fmap in Hp as ([i r] & -> & Hi). cbn.
    destruct (Hid i r Hi) as [-> Hr]. apply Hl in Hi as [Hi HP].
    split; [done|]. exists (r_status r). split; [|done]. apply rows_lookup. by exists r.
Qed.

Lemma prefix_order_by {A} q (key : A -> Z) l k :
  l `prefix_of` order_by q key k -> (forall x, x ∈ l -> x ∈ k) /\ (NoDup k -> NoDup l).
Proof.
  intros Hp. split.
  - intros x Hx. by eapply elem_of_order_by, elem_of_prefix.
  - intros Hk. eapply NoDup_prefix; [done|]. by rewrite (order_by_perm _ q key k).
Qed.

Lemma LoadExpiredSent_implements t :
  implements storage_ok storage_view (LoadExpiredSent t) (answers
    (loads (fun p _ => snd p = STATUS_SENT))).
Proof.
  apply (implements_query (select_expired_sent STATUS_SENT t)). intros s l Hs Hp.
  apply prefix_order_by in Hp as [Hin Hnd].
  apply loads_of_rows; [done | apply Hnd, NoDup_filter, NoDup_map_to_list |].
  intros i r Hi. apply Hin, list_elem_of_filter in Hi as [[Hst _] Hi].
  by apply elem_of_map_to_list in Hi.
Qed.

Lemma LoadPendingMessagesOnly_implements n :
  implements storage_ok storage_view (LoadPendingMessagesOnly n) (answers
    (loads (fun p _ => snd p = STATUS_PENDING /\ type_ (fst p) <> MT_Reply /\
                destination_ (fst p) = c_str n))).
Proof.
  apply (implements_query (select_pending_messages (c_str n) STATUS_PENDING 3)).
  intros s l Hs Hp. apply prefix_order_by in Hp as [Hin Hnd].
  apply loads_of_rows; [done | apply Hnd, NoDup_filter, NoDup_map_to_list |].
  intros i r Hi. apply Hin, list_elem_of_filter in Hi as [(Hd & Hst & Ht) Hi].
  apply elem_of_map_to_list in Hi. cbn in *. split; [done|]. split; [done|].
  rewrite row_type, row_destination, Hd, c_str_idem. split; [|done].
  apply (ok_rows s Hs) in Hi as [_ [Hr _ _]]. rewrite u8_id by done.
  intros E. apply (f_equal u8_of_MessageType) in E.
  by rewrite u8_of_MessageType_of in E.
Qed.

Lemma unique_by_id_sublist seen l : unique_by_id seen l `sublist_of` l.
Proof.
  revert seen. induction l as [|p l IH]; intros seen; simpl; [done|].
  case_decide; [by apply sublist_cons | by apply sublist_skip].
Qed.

Lemma LoadPendingReplies_implements n :
  implements storage_ok storage_view (LoadPendingRepliesForSenderOnly n) (answers
      (loads (fun p s => (snd p = STATUS_PENDING \/ snd p = STATUS_SENT) /\
                type_ (fst p) = MT_Reply /\
                exists i, (i, s64 (correlation_id_ (fst p)), c_str n) ∈ corrs s))).
Proof.
  apply (implements_query (select_pending_replies (c_str n) STATUS_PENDING STATUS_SENT 3)
           (fun rows => map pending_of_row (unique_by_id ∅ rows))).
  intros s l Hs Hp. apply prefix_order_by in Hp as [Hin Hnd].
  apply loads_of_rows; [done| |].
  - eapply sublist_NoDup; [|apply unique_by_id_sublist].
    apply Hnd, NoDup_remove_dups.
  - intros i r Hi.
    apply (sublist_subseteq _ _ (unique_by_id_sublist ∅ l)), Hin, elem_of_remove_dups,
      list_elem_of_In, in_flat_map in Hi as ([i' r'] & Hi & Hc).
    apply list_elem_of_In, elem_of_map_to_list in Hi.
    apply list_elem_of_In, list_elem_of_fmap in Hc as (c & [= <- <-] & Hc).
    apply list_elem_of_filter in Hc as [(Hcorr & Ho & Hst & Ht) Hc].
    apply elem_of_table in Hc as [j Hj]. cbn in *.
    split; [done|]. split; [done|]. rewrite row_type, row_correlation, Ht. split; [done|].
    exists (c_message_id c). apply corrs_elem. exists j, c. split; [done|].
    apply (ok_rows s Hs) in Hi as [_ [_ Hr _]].
    unfold triple_of. by rewrite Ho, <- Hcorr, s64_u64.
Qed.

#[export] Instance Storage_laws : IStorageLaws Storage := {
  st_ok := storage_ok;
  view := storage_view;
  SaveMessage_law := SaveMessage_implements;
  MarkDelivered_law := update_delivered_implements;
  MarkSent_law i := update_status_implements STATUS_SENT STATUS_PENDING i _;
  MarkPending_law i := update_status_implements STATUS_PENDING STATUS_SENT i _;
  NeedsAck_law := NeedsAck_implements;
  SaveCorrelation_law := SaveCorrelation_implements;
  FindOriginalSenderByCorrelation_law := FindOriginalSender_implements;
  FindMessageIdByCorrelation_law := FindMessageId_implements;
  FindMessageIdByCorrelationAndDestination_law := FindMessageIdByDest_implements;
  MarkAckReceived_law := MarkAckReceived_implements;
  LoadExpiredSent_law := LoadExpiredSent_implements;
  LoadPendingRepliesForSenderOnly_law := LoadPendingReplies_implements;
  LoadPendingMessagesOnly_law := LoadPendingMessagesOnly_implements;
}.

(** ** Properties of the store *)

Lemma Storage_run_calls (l : list call) (s : Storage) :
  storage_ok s -> storage_ok (snd (run_calls l s)) /\
  abs_steps (storage_view s) (storage_view (snd (run_calls l s))).
Proof. exact (refines_run_calls l s). Qed.

(** C5. Refinement: whatever its clients call, in whatever order and however many of
    the statements fail, the tables stay well formed, every call comes back, and the
    store they represent moves only by steps of the abstract store. *)
Theorem Storage_refines_store (l : list call) (s : Storage) :
  storage_ok s ->
  fst (run_calls l s) = Ret tt /\ storage_ok (snd (run_calls l s)) /\
  abs_steps (storage_view s) (storage_view (snd (run_calls l s))).
Proof.
  intros Hs. split; [by apply run_calls_returns|].
  by apply Storage_run_calls.
Qed.

(** C6. Guaranteed storage: once saved, a message is never lost or altered by any
    sequence of calls, and a message that was marked DELIVERED stays DELIVERED. *)
Theorem Storage_keeps_messages (l : list call) (s : Storage) i m st :
  storage_ok s -> rows (storage_view s) !! i = Some (m, st) ->
  exists st', rows (storage_view (snd (run_calls l s))) !! i = Some (m, st') /\
    (st = STATUS_DELIVERED -> st' = STATUS_DELIVERED).
Proof.
  intros Hs Hi. destruct (Storage_run_calls l s Hs) as [_ Hst].
  by apply (abs_steps_le _ _ Hst).
Qed.

(** ** What a load returns *)
Lemma step_rows_now {A} (q : Storage -> list A) s :
  faults s = [] -> step_rows q s = (Ret (q s), s).
Proof. intros Hf. unfold step_rows, next_fault, bind. by rewrite Hf. Qed.

Lemma step_write_now f s :
  faults s = [] ->
  step_write f s = match f s with Some s' => (Ret true, s') | None => (Ret false, s) end.
Proof. intros Hf. unfold step_write, next_fault, bind. by rewrite Hf. Qed.

Lemma elem_of_select_pending dest st ty s i r :
  (i, r) ∈ select_pending_messages dest st ty s <->
  messages s !! i = Some r /\ r_destination r = dest /\ r_status r = st /\ r_type r <> ty.
Proof.
  unfold select_pending_messages.
  rewrite elem_of_order_by, list_elem_of_filter, elem_of_map_to_list. cbn. tauto.
Qed.

Lemma row_type_reply r : row_ok r -> (type_ (row_message r) = MT_Reply <-> r_type r = 3).
Proof.
  intros [Hr _ _]. rewrite row_type, u8_id by done. split.
  - intros E. apply (f_equal u8_of_MessageType) in E. by rewrite u8_of_MessageType_of in E.
  - by intros ->.
Qed.

Lemma pending_of_row_elem (q : list (Z * message_row)) s i m :
  storage_ok s -> (forall j r, (j, r) ∈ q -> messages s !! j = Some r) ->
  mkPending i m ∈ map pending_of_row q <-> exists r, (i, r) ∈ q /\ row_message r = m.
Proof.
  intros Hs Hq. rewrite list_elem_of_fmap. unfold pending_of_row. split.
  - intros ([j r] & [= -> ->] & Hj). cbn in *. exists r. split; [|done].
    destruct (row_id_range s j r Hs (Hq j r Hj)) as (_ & -> & _). done.
  - intros (r & Hr & <-). exists (i, r). split; [|done].
    destruct (row_id_range s i r Hs (Hq i r Hr)) as (_ & Hu & _). cbn. by rewrite Hu.
Qed.

Lemma load_pending_elem (s : Storage) name :
  storage_ok s ->
  let q := select_pending_messages (c_str name) STATUS_PENDING (u8_of_MessageType MT_Reply) s in
  forall i m, mkPending i m ∈ map pending_of_row q <->
    rows (storage_view s) !! i = Some (m, STATUS_PENDING) /\
    type_ m <> MT_Reply /\ destination_ m = c_str name.
Proof.
  intros Hs q i m.
  assert (forall j r, (j, r) ∈ q -> messages s !! j = Some r) as Hq
    by (intros j r Hj; by apply elem_of_select_pending in Hj as [? _]).
  rewrite (pending_of_row_elem q s i m Hs Hq), rows_lookup.
  split.
  - intros (r & Hr & <-). apply elem_of_select_pending in Hr as (Hr & Hd & Hst & Ht).
    pose proof (ok_rows s Hs i r Hr) as [_ Hok].
    rewrite row_type_reply, row_destination, Hd, c_str_idem by done.
    split; [|done]. exists r. by rewrite Hst.
  - intros ((r & Hr & [= -> Hst]) & Ht & Hd). exists r. split; [|done].
    pose proof (ok_rows s Hs i r Hr) as [_ Hok].
    rewrite row_type_reply in Ht by done.
    rewrite row_destination, (ok_destination r Hok) in Hd.
    by apply elem_of_select_pending.
Qed.

Lemma load_pending_now (s : Storage) name :
  faults s = [] ->
  LoadPendingMessagesOnly name s =
    (Ret (map pending_of_row (select_pending_messages (c_str name) STATUS_PENDING
                                (u8_of_MessageType MT_Reply) s)), s).
Proof. intros Hf. unfold LoadPendingMessagesOnly, bind. by rewrite step_rows_now. Qed.

(** C32. [LoadPendingMessagesOnly] is exact: when the query runs to its end it returns
    every PENDING message, other than a reply, whose destination is the client's name,
    each once, and nothing else, the oldest first. *)
Theorem LoadPendingMessagesOnly_exact (s : Storage) name :
  storage_ok s -> faults s = [] ->
  exists l, LoadPendingMessagesOnly name s = (Ret l, s) /\ NoDup (map id l) /\
    (forall i m, mkPending i m ∈ l <->
      rows (storage_view s) !! i = Some (m, STATUS_PENDING) /\
      type_ m <> MT_Reply /\ destination_ m = c_str name) /\
    exists q, l = map pending_of_row q /\
      Sorted (fun a b => r_created_at (snd a) <= r_created_at (snd b)) q.
Proof.
  intros Hs Hf. pose proof (LoadPendingMessagesOnly_implements name s Hs) as Hi.
  rewrite load_pending_now in Hi by done. destruct Hi as (_ & _ & Hnd & _).
  eexists. split; [by apply load_pending_now|]. split; [done|].
  split; [by apply load_pending_elem|]. eexists. split; [reflexivity|apply order_by_sorted].
Qed.

(** Save, then load: a message other than a reply that [SaveMessage] accepted is
    among the messages loaded for its destination, under the id that was returned, and
    it is the same message when its names hold no NUL byte. *)
Lemma save_then_load (s : Storage) m i s' :
  storage_ok s -> faults s = [] -> wf_message m -> type_ m <> MT_Reply ->
  SaveMessage m s = (Ret i, s') ->
  exists l, LoadPendingMessagesOnly (destination_ m) s' = (Ret l, s') /\
    mkPending i (db_copy m) ∈ l /\
    (no_nul (sender_ m) = true -> no_nul (destination_ m) = true -> db_copy m = m).
Proof.
  intros Hs Hf Hwf Ht E. pose proof (SaveMessage_implements m s Hs) as Hi.
  rewrite E in Hi. destruct Hi as (Hs' & _ & _ & Hv).
  assert (faults s' = []) as Hf'.
  { revert E. unfold SaveMessage, SaveMessageWithStatus, bind, gets.
    rewrite step_write_now by done. unfold insert_message.
    destruct (2 ^ 63 <=? _); cbn; intros E; [done|]. injection E as _ <-. exact Hf. }
  eexists. split; [by apply load_pending_now|]. split; [|by apply db_copy_id].
  apply load_pending_elem; [done|]. rewrite Hv. cbn [rows set_rows]. rewrite lookup_insert_eq.
  split; [done|]. by rewrite db_copy_wf.
Qed.

(** ** Referential integrity of the correlations *)
Definition fk_ok (s : Storage) : Prop :=
  foreign_keys s = true /\
  forall j c, correlations s !! j = Some c -> is_Some (messages s !! c_message_id c).

Definition keeps_fk (s s' : Storage) : Prop := fk_ok s -> fk_ok s'.

#[export] Instance keeps_fk_preorder : PreOrder keeps_fk.
Proof. split; [by intros s Hs|]. intros s1 s2 s3 H12 H23 Hs. by apply H23, H12. Qed.

Lemma keeps_fk_next_fault : preserves keeps_fk next_fault.
Proof. intros s Hs. unfold next_fault. by destruct (faults s). Qed.

Lemma keeps_fk_write f :
  (forall s s', f s = Some s' -> keeps_fk s s') -> preserves keeps_fk (step_write f).
Proof.
  intros Hf. unfold step_write.
  solve_preserves ltac:(apply keeps_fk_next_fault).
  intros s. destruct (f s) eqn:E; cbn; [by eapply Hf|done].
Qed.

Lemma keeps_fk_rows {A} (q : Storage -> list A) : preserves keeps_fk (step_rows q).
Proof. unfold step_rows. solve_preserves ltac:(apply keeps_fk_next_fault). Qed.

Lemma keeps_fk_alter f i s s' :
  Some (set_messages (alter f i (messages s)) s) = Some s' -> keeps_fk s s'.
Proof.
  intros [= <-] [Hk Hc]. split; [done|]. intros j c Hj. apply Hc in Hj.
  cbn. rewrite lookup_alter. case_decide; [subst|done]. by apply fmap_is_Some.
Qed.

Lemma keeps_fk_insert r s s' : insert_message r s = Some s' -> keeps_fk s s'.
Proof.
  unfold insert_message. case_match; [done|]. intros [= <-] [Hk Hc].
  split; [done|]. intros j c Hj. apply Hc in Hj. cbn. rewrite lookup_insert.
  by case_decide.
Qed.

Lemma keeps_fk_correlation mid c o s s' :
  insert_correlation mid c o s = Some s' -> keeps_fk s s'.
Proof.
  unfold insert_correlation. case_match eqn:E; [done|].
  intros [= <-] [Hk Hc]. split; [done|]. apply orb_false_iff in E as [E _].
  rewrite Hk, andb_true_l, bool_decide_eq_false in E.
  intros j c' Hj. cbn in *. apply lookup_insert_Some in Hj as [[_ <-]|[_ Hj]].
  - by apply not_eq_None_Some.
  - apply map_lookup_filter_Some in Hj as [Hj _]. by apply Hc in Hj.
Qed.

Lemma keeps_fk_delete mid s s' : delete_correlation mid s = Some s' -> keeps_fk s s'.
Proof.
  intros [= <-] [Hk Hc]. split; [done|]. intros j c Hj.
  apply map_lookup_filter_Some in Hj as [Hj _]. by apply Hc in Hj.
Qed.

Ltac solve_fk :=
  solve_preserves ltac:(first
    [ apply keeps_fk_rows
    | apply keeps_fk_write;
      eauto using keeps_fk_alter, keeps_fk_insert, keeps_fk_correlation, keeps_fk_delete ]).

Lemma keeps_fk_call c : preserves keeps_fk (run_call (St := Storage) c).
Proof.
  destruct c; cbn;
    unfold SaveMessage, SaveMessageWithStatus, MarkDelivered, MarkSent, Storage_NeedsAck,
      MarkPending, SaveCorrelation, FindOriginalSenderByCorrelation,
      FindMessageIdByCorrelation, FindMessageIdByCorrelationAndDestination,
      MarkAckReceived, LoadExpiredSent, LoadPendingRepliesForSenderOnly,
      LoadPendingMessagesOnly; solve_fk.
Qed.

Lemma keeps_fk_calls l : preserves keeps_fk (run_calls (St := Storage) l).
Proof.
  induction l as [|c l IH]; cbn; solve_preserves ltac:(exact IH || apply keeps_fk_call).
Qed.

(** C33. Correlations: with the foreign-key pragma on, after any sequence of calls
    every correlation names a stored message, and there is at most one correlation for
    a correlation id and an owner (INSERT OR REPLACE under the unique index). *)
Theorem correlations_integrity (l : list call) (s : Storage) :
  storage_ok s -> fk_ok s ->
  (forall i c o, (i, c, o) ∈ corrs (storage_view (snd (run_calls l s))) ->
     is_Some (rows (storage_view (snd (run_calls l s))) !! i)) /\
  (forall i i' c o, (i, c, o) ∈ corrs (storage_view (snd (run_calls l s))) ->
     (i', c, o) ∈ corrs (storage_view (snd (run_calls l s))) -> i = i').
Proof.
  intros Hs Hfk. destruct (Storage_run_calls l s Hs) as [Hs' _].
  destruct (keeps_fk_calls l s Hfk) as [_ Hc].
  revert Hs' Hc. generalize (snd (run_calls l s)). intros s' Hs' Hc. split.
  - intros i c o Hi. apply corrs_elem in Hi as (j & r & Hj & [= <- _ _]).
    cbn. rewrite lookup_fmap. by eapply fmap_is_Some, Hc.
  - intros i i' c o Hi Hi'. apply corrs_elem in Hi as (j & r & Hj & [= <- Hr1 Hr2]).
    apply corrs_elem in Hi' as (j' & r' & Hj' & [= <- Hr1' Hr2']).
    assert (j = j') as -> by (eapply (ok_unique s' Hs'); try done; congruence).
    congruence.
Qed.

Lemma FindMessageId_zero c s :
  storage_ok s -> fk_ok s -> faults s = [] ->
  fst (FindMessageIdByCorrelation c s) = Ret 0 ->
  forall j r, correlations s !! j = Some r -> c_correlation_id r <> s64 c.
Proof.
  intros Hs [_ Hfk] Hf. unfold FindMessageIdByCorrelation, bind.
  rewrite step_rows_now by done.
  destruct (select_message_id_by_corr (s64 c) s) as [|i l] eqn:E.
  { intros _. apply map_eq_nil in E. exact (no_correlation _ _ _ E). }
  cbn. intros [= H0]. exfalso.
  destruct (select_message_id_elem (s64 c) s i l Hs) as (o & Hr & _).
  { rewrite E. by exists []; rewrite app_nil_r. }
  apply corrs_elem in Hr as (j & r' & Hj & [= Hm _ _]).
  destruct (Hfk j r' Hj) as [mr Hmr]. rewrite Hm in Hmr.
  destruct (row_id_range s _ mr Hs Hmr) as (? & Hu & _). lia.
Qed.

(** The second lookup of [AckHandler] cannot succeed where the first failed:
    when [FindMessageIdByCorrelation] answers 0 for want of a correlation,
    [FindMessageIdByCorrelationAndDestination] answers 0 for every destination. *)
Lemma ack_lookup_fallback_dead (s : Storage) c d :
  storage_ok s -> fk_ok s -> faults s = [] ->
  fst (FindMessageIdByCorrelation c s) = Ret 0 ->
  FindMessageIdByCorrelationAndDestination c d s = (Ret 0, s).
Proof.
  intros Hs Hfk Hf H0. pose proof (FindMessageId_zero c s Hs Hfk Hf H0) as Hnone.
  unfold FindMessageIdByCorrelationAndDestination, bind. rewrite step_rows_now by done.
  destruct (select_message_id_by_corr_dest (s64 c) (c_str d) s) as [|i l] eqn:E; [done|].
  exfalso. destruct (select_by_corr_dest_elem (s64 c) (c_str d) s i l)
    as (r & j & cr & _ & _ & Hj & _ & Hc).
  { rewrite E. by exists []; rewrite app_nil_r. }
  by apply (Hnone j cr Hj).
Qed.

(** ** Reopening *)
Definition same_tables (s s' : Storage) : Prop :=
  messages s' = messages s /\ messages_seq s' = messages_seq s /\
  correlations s' = correlations s /\ correlations_seq s' = correlations_seq s.

#[export] Instance same_tables_preorder : PreOrder same_tables.
Proof. split; [by intros s|]. unfold same_tables. intros s1 s2 s3. intuition congruence. Qed.

Lemma same_tables_write f :
  (forall s s', f s = Some s' -> same_tables s s') -> preserves same_tables (step_write f).
Proof.
  intros Hf. unfold step_write.
  solve_preserves ltac:(intros s; unfold next_fault; by destruct (faults s)).
  intros s. destruct (f s) eqn:E; cbn; [by apply Hf|done].
Qed.

Lemma same_tables_exec f w :
  (forall s s', f s = Some s' -> same_tables s s') ->
  preserves same_tables (exec_or_rollback f w).
Proof.
  intros Hf. unfold exec_or_rollback.
  solve_preserves ltac:(apply same_tables_write; first [exact Hf | by intros s s' [= <-]]).
Qed.

Lemma same_tables_ctor : preserves same_tables Storage_ctor.
Proof.
  unfold Storage_ctor, CreateTables, PrepareStatements, SqliteStmt.
  solve_preserves ltac:(first
    [ refine (preserves_modify _ _ _); by intros s
    | apply same_tables_exec; by intros s s' [= <-]
    | apply same_tables_write; intros s s' Hs; cbn in Hs;
      unfold begin_transaction, commit in Hs;
      repeat case_match; by simplify_eq ]).
Qed.

Lemma same_tables_ok s s' : same_tables s s' -> storage_ok s -> storage_ok s'.
Proof.
  intros (E1 & E2 & E3 & E4) [H1 H2 H3 H4 H5].
  split; rewrite ?E1, ?E2, ?E3, ?E4; done.
Qed.

Lemma same_tables_view s s' : same_tables s s' -> storage_view s' = storage_view s.
Proof. intros (E1 & _ & E3 & _). unfold storage_view. by rewrite E1, E3. Qed.

Lemma exec_now f w s s' :
  faults s = [] -> f s = Some s' -> exec_or_rollback f w s = (Ret tt, s').
Proof. intros Hf E. unfold exec_or_rollback, bind. by rewrite step_write_now, E. Qed.

Lemma create_elem (n : string) names sch :
  n ∈ names \/ n ∈ sch -> n ∈ sch ++ filter (fun n => n ∉ sch) names.
Proof.
  intros Hn. rewrite elem_of_app, list_elem_of_filter.
  destruct (decide (n ∈ sch)) as [Hin|Hni]; [by left|]. destruct Hn; [by right|done].
Qed.

Lemma create_now names w s :
  faults s = [] ->
  exists s', exec_or_rollback (create_if_absent names) w s = (Ret tt, s') /\
    faults s' = [] /\ foreign_keys s' = foreign_keys s /\
    forall n, n ∈ names \/ n ∈ schema s -> n ∈ schema s'.
Proof.
  intros Hf. eexists. split; [by apply exec_now|]. split; [done|]. split; [done|].
  intros n. apply create_elem.
Qed.

Lemma create_tables_now s :
  faults s = [] ->
  exists s', CreateTables s = (Ret tt, s') /\ faults s' = [] /\
    foreign_keys s' = foreign_keys s /\ "messages" ∈ schema s' /\ "correlations" ∈ schema s'.
Proof.
  intros Hf. unfold CreateTables, bind. rewrite step_write_now by done. cbn [negb begin_transaction].
  edestruct create_now as (s1 & E1 & Hf1 & Hk1 & Hn1); [|rewrite E1]; [done|].
  edestruct create_now as (s2 & E2 & Hf2 & Hk2 & Hn2); [|rewrite E2]; [done|].
  edestruct create_now as (s3 & E3 & Hf3 & Hk3 & Hn3); [|rewrite E3]; [done|].
  rewrite step_write_now by done. cbn. eexists. split; [reflexivity|]. cbn.
  split; [done|]. split; [rewrite Hk3, Hk2; exact Hk1|]. split.
  - apply Hn3; right; apply Hn2; right; apply Hn1; left. set_solver.
  - apply Hn3; right; apply Hn2; left. set_solver.
Qed.

Lemma prepare_now s :
  faults s = [] -> "messages" ∈ schema s -> "correlations" ∈ schema s ->
  PrepareStatements s = (Ret tt, s).
Proof.
  intros Hf Hm Hc. unfold PrepareStatements.
  assert (forall ts, Forall (fun t => t ∈ schema s) ts ->
            (SqliteStmt ts ;;; ret Continue) s = (Ret Continue, s)) as Hstmt.
  { intros ts Hts. unfold SqliteStmt, bind. rewrite step_write_now by done.
    by rewrite bool_decide_true. }
  assert (forall tss, Forall (Forall (fun t => t ∈ schema s)) tss ->
            for_each tss (fun tables => SqliteStmt tables ;;; ret Continue) s = (Ret tt, s))
    as Hall.
  { induction 1 as [|ts tss Hts _ IH]; [done|]. cbn. unfold bind at 1.
    rewrite Hstmt by done. exact IH. }
  apply Hall. repeat constructor; done.
Qed.

(** C36. Restart: opening an existing database changes no row, whichever of its
    statements fail; and when none fails the constructor returns, with foreign keys
    enforced and both tables present. *)
Theorem reopen_keeps_tables (s : Storage) :
  storage_ok s ->
  let '(r, s') := Storage_ctor s in
  storage_ok s' /\ storage_view s' = storage_view s /\
  (faults s = [] ->
     r = Ret tt /\ foreign_keys s' = true /\
     "messages" ∈ schema s' /\ "correlations" ∈ schema s').
Proof.
  intros Hs. pose proof (same_tables_ctor s) as Ht.
  destruct (Storage_ctor s) as [r s'] eqn:E. cbn in Ht.
  split; [by eapply same_tables_ok|]. split; [by apply same_tables_view|]. intros Hf.
  revert E. unfold Storage_ctor, modify, bind.
  do 4 (rewrite step_write_now by done; cbn -[CreateTables PrepareStatements step_write]).
  edestruct create_tables_now as (s1 & -> & Hf1 & Hk1 & Hm & Hc); [done|].
  rewrite prepare_now by done. intros [= <- <-]. by rewrite Hk1.
Qed.
End Laws.

(** ** A concrete engine

    The instance the examples run on: ties are broken by the order of the table. *)
Definition sort_by {A} (key : A -> Z) : list A -> list A :=
  @merge_sort A (fun x y => key x <= key y) (fun x y => Z_le_dec (key x) (key y)).

Lemma sort_by_sorted A (key : A -> Z) l : Sorted (fun x y => key x <= key y) (sort_by key l).
Proof. apply Sorted_merge_sort. intros x y. cbn. lia. Qed.

Lemma sort_by_perm A (key : A -> Z) l : sort_by key l ≡ₚ l.
Proof. apply merge_sort_Permutation. Qed.

#[export] Instance merge_engine : SqlEngine := {
  order_by A _ := sort_by;
  order_by_perm A _ := sort_by_perm A;
  order_by_sorted A _ := sort_by_sorted A;
  sqlite3_errmsg := "not an error";
}.

Definition empty_storage : Storage := mkStorage ∅ 0 ∅ 0 0 [] [] true 1000 [].

Lemma empty_storage_ok : storage_ok empty_storage.
Proof. split; cbn; try done; intros *; by rewrite lookup_empty. Qed.

Lemma empty_storage_fk : fk_ok empty_storage.
Proof. split; [done|]. intros j c. cbn. by rewrite lookup_empty. Qed.

Definition hello : Message :=
  mkMessage MT_Message FlagNeedsAck 42 "alice" "bob" (bytes_of_string "hello").

(** A store after alice's message to bob was saved, correlated and sent. *)
Definition hello_calls : list call :=
  [CallSaveMessage hello; CallSaveCorrelation 1 42 "alice"; CallMarkSent 1].
Definition hello_storage : Storage := snd (run_calls hello_calls empty_storage).

Lemma hello_storage_ok : storage_ok hello_storage.
Proof. apply (Storage_run_calls hello_calls empty_storage empty_storage_ok). Qed.

Lemma hello_storage_fk : fk_ok hello_storage.
Proof. apply (keeps_fk_calls hello_calls), empty_storage_fk. Qed.

Lemma Storage_refines_store_witness :
  storage_ok empty_storage /\
  abs_steps (storage_view empty_storage) (storage_view hello_storage).
Proof.
  split; [apply empty_storage_ok|].
  apply (Storage_refines_store hello_calls empty_storage), empty_storage_ok.
Defined.

Lemma Storage_keeps_messages_witness :
  rows (storage_view hello_storage) !! 1 = Some (hello, STATUS_SENT) /\
  exists st, rows (storage_view (snd (run_calls [CallMarkPending 1; CallSaveMessage hello;
                                                 CallMarkAckReceived 1 "alice"]
                                       hello_storage))) !! 1 = Some (hello, st).
Proof.
  assert (rows (storage_view hello_storage) !! 1 = Some (hello, STATUS_SENT)) as H1
    by (vm_compute; reflexivity).
  split; [exact H1|].
  destruct (Storage_keeps_messages [CallMarkPending 1; CallSaveMessage hello;
              CallMarkAckReceived 1 "alice"] hello_storage 1 hello STATUS_SENT
              hello_storage_ok H1) as (st & Hst & _).
  exists st. exact Hst.
Defined.

Lemma LoadPendingMessagesOnly_exact_witness :
  let s := snd (run_calls [CallMarkPending 1] hello_storage) in
  storage_ok s /\ exists l, LoadPendingMessagesOnly "bob" s = (Ret l, s) /\
    mkPending 1 hello ∈ l.
Proof.
  intros s. assert (storage_ok s) as Hs by (apply Storage_run_calls, hello_storage_ok).
  split; [exact Hs|].
  destruct (LoadPendingMessagesOnly_exact s "bob" Hs) as (l & Hl & _ & Hm & _);
    [vm_compute; reflexivity|].
  exists l. split; [exact Hl|]. apply Hm. by vm_compute.
Defined.

Lemma save_then_load_witness :
  exists s' l, SaveMessage hello empty_storage = (Ret 1, s') /\
    LoadPendingMessagesOnly "bob" s' = (Ret l, s') /\ mkPending 1 hello ∈ l.
Proof.
  eexists. edestruct (save_then_load empty_storage hello 1) as (l & Hl & Hin & Hid).
  - apply empty_storage_ok.
  - reflexivity.
  - split; by vm_compute.
  - done.
  - vm_compute. reflexivity.
  - exists l. rewrite Hid in Hin by reflexivity. split; [vm_compute; reflexivity|].
    split; [exact Hl|exact Hin].
Defined.

Lemma correlations_integrity_witness :
  storage_ok hello_storage /\ fk_ok hello_storage /\
  (1, 42, "alice"%string) ∈ corrs (storage_view hello_storage) /\
  is_Some (rows (storage_view hello_storage) !! 1).
Proof.
  split; [apply hello_storage_ok|]. split; [apply hello_storage_fk|].
  assert ((1, 42, "alice"%string) ∈ corrs (storage_view hello_storage)) as Hin
    by (apply (bool_decide_unpack _); vm_compute; reflexivity).
  split; [exact Hin|].
  destruct (correlations_integrity hello_calls empty_storage empty_storage_ok
              empty_storage_fk) as [H _].
  exact (H 1 42 "alice"%string Hin).
Defined.

Lemma ack_lookup_fallback_dead_witness :
  fst (FindMessageIdByCorrelation 7 hello_storage) = Ret 0 /\
  FindMessageIdByCorrelationAndDestination 7 "bob" hello_storage = (Ret 0, hello_storage).
Proof.
  assert (fst (FindMessageIdByCorrelation 7 hello_storage) = Ret 0) as H0
    by (vm_compute; reflexivity).
  split; [exact H0|].
  apply ack_lookup_fallback_dead;
    [apply hello_storage_ok | apply hello_storage_fk | vm_compute; reflexivity | exact H0].
Defined.

Lemma reopen_keeps_tables_witness :
  exists s', Storage_ctor hello_storage = (Ret tt, s') /\ storage_ok s' /\
    storage_view s' = storage_view hello_storage.
Proof.
  pose proof (reopen_keeps_tables hello_storage hello_storage_ok) as H.
  destruct (Storage_ctor hello_storage) as [r s'] eqn:E.
  destruct H as (Hs & Hv & Hr). exists s'.
  assert (r = Ret tt) as -> by (apply Hr; vm_compute; reflexivity).
  split; [reflexivity|]. split; [exact Hs|exact Hv].
Defined.
