(* ===== verification/StorageHealth.v ===== *)
(** A connection on which nothing fails: every member function of [Storage] returns, and a
    query answers with everything the tables hold.  This is [IStorageHealth] for the
    tables: the clients' theorems use it to say what happens when the storage works, beside
    what is left when it does not. *)
From Stdlib Require Import ZArith Lia Sorted Strings.Byte.
From stdpp Require Import sorting.
From S2P Require Import Prelude Words Message Interfaces Storage StorageSpec.
Open Scope Z_scope.
Open Scope broker_scope.

Section Health.
Context `{SqlEngine}.

(** No execution fails and the tables have room for [n] more rows. *)
Definition storage_well (n : nat) (s : Storage) : Prop :=
  faults s = [] /\ messages_seq s + Z.of_nat n < 2 ^ 63 /\
  correlations_seq s + Z.of_nat n < 2 ^ 63.

(** The row is old enough for [LoadExpiredSent]. *)
Definition storage_expired (timeout : Z) (s : Storage) (i : Z) : Prop :=
  exists r, messages s !! i = Some r /\ clock s - r_created_at r > timeout.

Abbreviation well_completes := (completes storage_ok storage_well).

Lemma well_write_gets {A} f err (g : Storage -> A) cost pre :
  (forall n s, storage_ok s -> storage_well (cost + n) s -> pre s ->
     exists s', f s = Some s' /\ storage_well n s') ->
  well_completes (rc <- step_write f ;; if negb rc then throw err else gets g) cost pre
    (fun _ _ => True).
Proof.
  intros Hf n s Hs Hw Hp. destruct (Hf n s Hs Hw Hp) as (s' & E & Hw'). unfold bind.
  rewrite step_write_now by apply Hw. by rewrite E.
Qed.

Lemma well_write f err cost pre :
  (forall n s, storage_ok s -> storage_well (cost + n) s -> pre s ->
     exists s', f s = Some s' /\ storage_well n s') ->
  well_completes (rc <- step_write f ;; if negb rc then throw err else ret tt) cost pre
    (fun _ _ => True).
Proof. apply (well_write_gets f err (fun _ => tt)). Qed.

Lemma well_query {A B} (q : Storage -> list A) (g : list A -> B) full :
  (forall s, storage_ok s -> full (g (q s)) s) ->
  well_completes (l <- step_rows q ;; ret (g l)) 0 (fun _ => True) full.
Proof.
  intros Hq n s Hs Hw _. unfold bind. rewrite step_rows_now by apply Hw. split; [done|by apply Hq].
Qed.

Lemma well_ext {A} (m m' : M Storage A) cost pre full :
  (forall s, m s = m' s) -> well_completes m' cost pre full -> well_completes m cost pre full.
Proof. intros Hm Hc n s. rewrite Hm. apply Hc. Qed.

Lemma well_gets {A B} (g : Storage -> A) (k : A -> M Storage B) cost pre full :
  (forall a, well_completes (k a) cost pre full) ->
  well_completes (a <- gets g ;; k a) cost pre full.
Proof. intros Hk n s. apply (Hk (g s)). Qed.

Lemma SaveMessage_completes m :
  well_completes (SaveMessage m) 1 (fun _ => True) (fun _ _ => True).
Proof.
  apply well_gets. intros now. apply (well_write_gets _ _ (fun s => u64 (last_insert_rowid s))).
  intros n s _ (Hf & Hm & Hc) _. unfold insert_message.
  rewrite (proj2 (Z.leb_gt _ _)) by lia. eexists. split; [done|]. split; [done|]. cbn. lia.
Qed.

Lemma SaveCorrelation_completes i c o :
  well_completes (SaveCorrelation i c o) 1
    (fun s => is_Some (rows (storage_view s) !! s64 i)) (fun _ _ => True).
Proof.
  apply well_write. intros n s _ (Hf & Hm & Hc) Hi. unfold insert_correlation.
  rewrite bool_decide_false, andb_false_r.
  - rewrite (proj2 (Z.leb_gt _ _)) by lia. eexists. split; [done|]. split; [done|]. cbn. lia.
  - intros E. destruct Hi as [p Hp]. apply rows_lookup in Hp as (r & Hr & _). congruence.
Qed.

Lemma update_completes f i s n :
  storage_well (0 + n) s -> exists s', Some (set_messages (alter f i (messages s)) s) = Some s' /\
    storage_well n s'.
Proof. intros Hw. by eexists. Qed.

Lemma NeedsAck_completes i :
  well_completes (Storage_NeedsAck i) 0 (fun _ => True) (fun b s =>
    b = true <-> exists m, rows (storage_view s) !! s64 i = Some (m, STATUS_SENT) /\
                           NeedsAck m = true).
Proof.
  eapply well_ext; [|apply (well_query (select_needs_ack (s64 i))
    (fun rows => match rows with
                 | (f, st) :: _ => negb (Z.land (u8 f) FlagNeedsAck =? 0) && (st =? STATUS_SENT)
                 | [] => false end))].
  - intros s. unfold Storage_NeedsAck, bind. by destruct (step_rows _ s) as [[[|[]]| |]?].
  - intros s Hs. unfold select_needs_ack. setoid_rewrite rows_lookup.
    destruct (messages s !! s64 i) as [r|] eqn:E.
    + rewrite andb_true_iff, Z.eqb_eq. split.
      * intros [Hf Hst]. exists (row_message r). split; [exists r; by rewrite Hst|].
        unfold NeedsAck, HasFlag. by rewrite row_flags.
      * intros (m & (r' & [= <-] & [= -> Hst]) & Hn). split; [|done].
        unfold NeedsAck, HasFlag in Hn. by rewrite row_flags in Hn.
    + split; [done|]. by intros (m & (r & ? & _) & _).
Qed.

Lemma correlated_row s c k o :
  (k, c, o) ∈ corrs (storage_view s) ->
  ~ (forall j r, correlations s !! j = Some r -> c_correlation_id r <> c).
Proof. intros (j & r & Hj & [= _ Hc _])%corrs_elem Hno. by apply (Hno j r). Qed.

Lemma FindOriginalSender_completes c :
  well_completes (FindOriginalSenderByCorrelation c) 0 (fun _ => True)
    (fun o s => owner_answer c o (storage_view s)).
Proof.
  eapply well_ext; [|apply (well_query (select_original_sender (s64 c))
    (fun rows => match rows with o :: _ => c_str o | [] => EmptyString end))].
  - intros s. unfold FindOriginalSenderByCorrelation, bind. by destruct (step_rows _ s) as [[[|]| |]?].
  - intros s Hs. destruct (select_original_sender (s64 c) s) as [|o l] eqn:E.
    + right. split; [done|]. intros k o' Hk. apply (correlated_row _ _ _ _ Hk).
      apply map_eq_nil in E. exact (no_correlation _ _ _ E).
    + left. destruct (select_sender_elem (s64 c) s o l Hs) as (k & Hk & Ho).
      { rewrite E. by exists []; rewrite app_nil_r. }
      exists k. by rewrite Ho.
Qed.

Lemma FindMessageId_completes c :
  well_completes (FindMessageIdByCorrelation c) 0 (fun _ => True)
    (fun i s => id_answer c i (storage_view s)).
Proof.
  eapply well_ext; [|apply (well_query (select_message_id_by_corr (s64 c))
    (fun rows => match rows with i :: _ => u64 i | [] => 0 end))].
  - intros s. unfold FindMessageIdByCorrelation, bind. by destruct (step_rows _ s) as [[[|]| |]?].
  - intros s Hs. destruct (select_message_id_by_corr (s64 c) s) as [|i l] eqn:E.
    + right. split; [done|]. intros k o' Hk. apply (correlated_row _ _ _ _ Hk).
      apply map_eq_nil in E. exact (no_correlation _ _ _ E).
    + left. destruct (select_message_id_elem (s64 c) s i l Hs) as (o & Ho & _).
      { rewrite E. by exists []; rewrite app_nil_r. }
      by exists i, o.
Qed.

Lemma FindMessageIdByDest_completes c d :
  well_completes (FindMessageIdByCorrelationAndDestination c d) 0 (fun _ => True)
    (fun _ _ => True).
Proof.
  eapply well_ext; [|apply (well_query
    (select_message_id_by_corr_dest (s64 c) (c_str d))
    (fun rows => match rows with i :: _ => u64 i | [] => 0 end))]; [|done].
  intros s. unfold FindMessageIdByCorrelationAndDestination, bind.
  by destruct (step_rows _ s) as [[[|]| |]?].
Qed.

Lemma MarkAckReceived_completes i o :
  well_completes (MarkAckReceived i o) 0 (fun _ => True) (fun _ _ => True).
Proof.
  intros n s Hs Hw _. unfold MarkAckReceived, bind at 1. rewrite step_rows_now by apply Hw.
  cbv zeta. case_bool_decide; [|done]. unfold bind. by rewrite step_write_now by apply Hw.
Qed.

Lemma expired_elem t s i r :
  (i, r) ∈ select_expired_sent STATUS_SENT t s <->
  messages s !! i = Some r /\ r_status r = STATUS_SENT /\ clock s - r_created_at r > t.
Proof.
  unfold select_expired_sent.
  rewrite elem_of_order_by, list_elem_of_filter, elem_of_map_to_list. cbn. tauto.
Qed.

Lemma LoadExpiredSent_completes t :
  well_completes (LoadExpiredSent t) 0 (fun _ => True) (fun l s =>
    all_rows (fun i p => snd p = STATUS_SENT /\ storage_expired t s i) l (storage_view s)).
Proof.
  apply (well_query (select_expired_sent STATUS_SENT t)). intros s Hs i m.
  rewrite (pending_of_row_elem _ s) by (done || intros j r; rewrite expired_elem; tauto).
  setoid_rewrite expired_elem. setoid_rewrite rows_lookup. split.
  - intros (r & (Hr & Hst & Ht) & <-). exists STATUS_SENT. split; [exists r; by rewrite Hst|].
    split; [done|]. by exists r.
  - intros (st & (r & Hr & [= -> ->]) & Hst & (r' & Hr' & Ht)). exists r. split; [|done].
    split; [done|]. simplify_eq. done.
Qed.

Lemma LoadPendingMessages_completes n :
  well_completes (LoadPendingMessagesOnly n) 0 (fun _ => True) (fun l s =>
    all_rows (fun _ p => snd p = STATUS_PENDING /\ type_ (fst p) <> MT_Reply /\
                destination_ (fst p) = c_str n) l (storage_view s)).
Proof.
  apply (well_query (select_pending_messages (c_str n) STATUS_PENDING 3)). intros s Hs i m.
  rewrite (load_pending_elem s n Hs i m). split; [intros (Hr & ?); by eexists|].
  intros (st & Hr & Hst & ?). cbn in Hst. by subst.
Qed.

Lemma elem_of_select_replies o st1 st2 ty s i r :
  (i, r) ∈ select_pending_replies o st1 st2 ty s <->
  messages s !! i = Some r /\ (r_status r = st1 \/ r_status r = st2) /\ r_type r = ty /\
  exists j c, correlations s !! j = Some c /\ c_correlation_id c = r_correlation_id r /\
              c_original_sender c = o.
Proof.
  unfold select_pending_replies. rewrite elem_of_order_by, elem_of_remove_dups, list_elem_of_In, in_flat_map.
  split.
  - intros ([i' r'] & Hi & Hc). apply list_elem_of_In, elem_of_map_to_list in Hi.
    apply list_elem_of_In, list_elem_of_fmap in Hc as (c & [= <- <-] & Hc).
    apply list_elem_of_filter in Hc as [(Hcorr & Ho & Hst & Ht) Hc].
    apply elem_of_table in Hc as [j Hj]. cbn in *. split_and!; try done. by exists j, c.
  - intros (Hi & Hst & Ht & j & c & Hj & Hc & Ho). exists (i, r). split.
    { by apply list_elem_of_In, elem_of_map_to_list. }
    apply list_elem_of_In, list_elem_of_fmap. exists c. split; [done|].
    apply list_elem_of_filter. split; [done|]. apply elem_of_table. by exists j.
Qed.

(** [unique_by_id] drops no id. *)
Lemma unique_by_id_elem seen l i r :
  (i, r) ∈ unique_by_id seen l -> u64 i ∉ seen.
Proof.
  revert seen. induction l as [|p l IH]; intros seen; simpl; [by intros ?%elem_of_nil|].
  case_decide as Hd; [apply IH|]. intros [<-|Hi]%elem_of_cons; [done|].
  apply IH in Hi. set_solver.
Qed.

Lemma elem_of_unique_by_id seen l i r :
  (forall j q q', (j, q) ∈ l -> (j, q') ∈ l -> q = q') ->
  (forall j q, (j, q) ∈ l -> u64 j = j) ->
  (i, r) ∈ unique_by_id seen l <-> (i, r) ∈ l /\ u64 i ∉ seen.
Proof.
  revert seen. induction l as [|[j q] l IH]; intros seen Hfun Hid; simpl.
  { split; [by intros ?%elem_of_nil|]. by intros [?%elem_of_nil _]. }
  assert (forall seen, (i, r) ∈ unique_by_id seen l <-> (i, r) ∈ l /\ u64 i ∉ seen) as IH'.
  { intros seen'. apply IH; [intros; eapply Hfun; by right|intros; eapply Hid; by right]. }
  case_decide as Hd; rewrite ?elem_of_cons, IH'.
  - split; [intros []; split; [by right|done]|]. intros [[[= -> ->]|Hi] Hn]; [done|by split].
  - split.
    + intros [[= -> ->]|[Hi Hn]]; [split; [by left|done]|]. split; [by right|set_solver].
    + intros [[[= -> ->]|Hi] Hn]; [by left|]. destruct (decide (i = j)) as [->|Hne].
      * left. f_equal. eapply Hfun; [by right|by left].
      * right. split; [done|]. rewrite elem_of_union, elem_of_singleton. intros [E|]; [|done].
        apply Hne. rewrite <- (Hid i r) by by right. rewrite E. eapply Hid. by left.
Qed.

Lemma LoadPendingReplies_completes n :
  well_completes (LoadPendingRepliesForSenderOnly n) 0 (fun _ => True) (fun l s =>
    all_rows (fun _ p => (snd p = STATUS_PENDING \/ snd p = STATUS_SENT) /\
                type_ (fst p) = MT_Reply /\
                exists k, (k, s64 (correlation_id_ (fst p)), c_str n) ∈ corrs (storage_view s))
      l (storage_view s)).
Proof.
  apply (well_query (select_pending_replies (c_str n) STATUS_PENDING STATUS_SENT 3)
           (fun rows => map pending_of_row (unique_by_id ∅ rows))). intros s Hs i m.
  set (q := select_pending_replies _ _ _ _ _).
  assert (forall j r, (j, r) ∈ q -> messages s !! j = Some r) as Hq
    by (intros j r Hj; by apply elem_of_select_replies in Hj as [? _]).
  assert (forall j r, (j, r) ∈ unique_by_id ∅ q <-> (j, r) ∈ q) as Hu.
  { intros j r. rewrite elem_of_unique_by_id.
    - split; [by intros []|]. intros; split; [done|set_solver].
    - intros k r1 r2 H1%Hq H2%Hq. congruence.
    - intros k r1 Hk%Hq. by destruct (row_id_range s k r1 Hs Hk) as (_ & ? & _). }
  rewrite (pending_of_row_elem _ s) by (done || intros j r ?%Hu; by apply Hq).
  setoid_rewrite Hu. unfold q. setoid_rewrite elem_of_select_replies. setoid_rewrite rows_lookup.
  setoid_rewrite corrs_elem. split.
  - intros (r & (Hr & Hst & Ht & j & c & Hj & Hc & Ho) & <-). exists (r_status r).
    split; [by exists r|]. cbn. split; [done|]. pose proof (ok_rows s Hs i r Hr) as [_ Hok].
    split; [by apply row_type_reply|]. exists (c_message_id c), j, c. split; [done|].
    rewrite row_correlation, s64_u64 by apply Hok. unfold triple_of. by rewrite Hc, Ho.
  - intros (st & (r & Hr & [= -> ->]) & Hst & Ht & k & j & c & Hj & [= Hk Hc Ho]). exists r.
    cbn in *. pose proof (ok_rows s Hs i r Hr) as [_ Hok]. rewrite row_type_reply in Ht by done.
    rewrite row_correlation, s64_u64 in Hc by apply Hok. split; [|done]. split_and!; try done.
    by exists j, c.
Qed.

#[export] Instance Storage_health : IStorageHealth Storage.
Proof.
  refine {| st_well := storage_well; st_expired := storage_expired;
    SaveMessage_well := SaveMessage_completes;
    NeedsAck_well := NeedsAck_completes;
    SaveCorrelation_well := SaveCorrelation_completes;
    FindOriginalSenderByCorrelation_well := FindOriginalSender_completes;
    FindMessageIdByCorrelation_well := FindMessageId_completes;
    FindMessageIdByCorrelationAndDestination_well := FindMessageIdByDest_completes;
    MarkAckReceived_well := MarkAckReceived_completes;
    LoadExpiredSent_well := LoadExpiredSent_completes;
    LoadPendingRepliesForSenderOnly_well := LoadPendingReplies_completes;
    LoadPendingMessagesOnly_well := LoadPendingMessages_completes |}.
  - intros n s (Hf & Hm & Hc). split; [done|]. lia.
  - intros i. apply well_write. intros n s _ Hw _. by apply update_completes.
  - intros i. apply well_write. intros n s _ Hw _. by apply update_completes.
  - intros i. apply well_write. intros n s _ Hw _. by apply update_completes.
Defined.
End Health.
