(* ===== verification/Config.v ===== *)
(** The command line: [struct Config] and [Config::ParseArgs] of
    [include/config.hpp], and the exit codes of the [catch] clauses of [main].

    [stoi] is [std::stoi] of the standard library in base 10: white space is
    skipped, a sign and the longest run of digits are read, the rest is ignored.
    The text of [PrintHelp] is output only and not modelled; the number
    [std::thread::hardware_concurrency] returns is an argument. *)
From Stdlib Require Import ZArith Lia Ascii.
From S2P Require Import Prelude Words.
Open Scope Z_scope.
Open Scope broker_scope.

Record Config : Type := mkConfig {
  Port : Z;
  DbPath : string;
  Threads : Z;
  LogLevel : string;
  SessionTimeout : Z;
  AckTimeout : Z;
  EnableMetrics : bool;
  MetricsBindAddress : string;
  MetricsUpdateInterval : Z;
}.

Definition Config_default : Config :=
  mkConfig 5555 "./broker.db" 0 "info" 60 30 true "0.0.0.0:8080" 2.

#[export] Instance Config_eq_dec : EqDecision Config.
Proof. solve_decision. Defined.

Definition set_Port v c := mkConfig v (DbPath c) (Threads c) (LogLevel c) (SessionTimeout c)
  (AckTimeout c) (EnableMetrics c) (MetricsBindAddress c) (MetricsUpdateInterval c).
Definition set_DbPath v c := mkConfig (Port c) v (Threads c) (LogLevel c) (SessionTimeout c)
  (AckTimeout c) (EnableMetrics c) (MetricsBindAddress c) (MetricsUpdateInterval c).
Definition set_Threads v c := mkConfig (Port c) (DbPath c) v (LogLevel c) (SessionTimeout c)
  (AckTimeout c) (EnableMetrics c) (MetricsBindAddress c) (MetricsUpdateInterval c).
Definition set_LogLevel v c := mkConfig (Port c) (DbPath c) (Threads c) v (SessionTimeout c)
  (AckTimeout c) (EnableMetrics c) (MetricsBindAddress c) (MetricsUpdateInterval c).
Definition set_SessionTimeout v c := mkConfig (Port c) (DbPath c) (Threads c) (LogLevel c) v
  (AckTimeout c) (EnableMetrics c) (MetricsBindAddress c) (MetricsUpdateInterval c).
Definition set_AckTimeout v c := mkConfig (Port c) (DbPath c) (Threads c) (LogLevel c)
  (SessionTimeout c) v (EnableMetrics c) (MetricsBindAddress c) (MetricsUpdateInterval c).
Definition set_EnableMetrics v c := mkConfig (Port c) (DbPath c) (Threads c) (LogLevel c)
  (SessionTimeout c) (AckTimeout c) v (MetricsBindAddress c) (MetricsUpdateInterval c).
Definition set_MetricsBindAddress v c := mkConfig (Port c) (DbPath c) (Threads c) (LogLevel c)
  (SessionTimeout c) (AckTimeout c) (EnableMetrics c) v (MetricsUpdateInterval c).

(** ** [std::stoi] *)
Definition is_space (a : ascii) : bool :=
  let n := Z.of_nat (nat_of_ascii a) in (n =? 32) || ((9 <=? n) && (n <=? 13)).

Definition digit_of (a : ascii) : option Z :=
  let n := Z.of_nat (nat_of_ascii a) in
  if (48 <=? n) && (n <=? 57) then Some (n - 48) else None.

Fixpoint skip_space (s : string) : string :=
  match s with
  | String a s' => if is_space a then skip_space s' else s
  | EmptyString => EmptyString
  end.

(** The value of the leading digits after [acc], and whether there was one. *)
Fixpoint read_digits (seen : bool) (acc : Z) (s : string) : option Z :=
  match s with
  | String a s' =>
      match digit_of a with
      | Some d => read_digits true (10 * acc + d) s'
      | None => if seen then Some acc else None
      end
  | EmptyString => if seen then Some acc else None
  end.

Definition read_sign (s : string) : bool * string :=
  match s with
  | String "-" s' => (true, s')
  | String "+" s' => (false, s')
  | s' => (false, s')
  end.

Definition stoi (s : string) : result Z :=
  let '(neg, rest) := read_sign (skip_space s) in
  match read_digits false 0 rest with
  | None => Throw (invalid_argument "stoi")
  | Some n =>
      let v := if neg then - n else n in
      if (- 2 ^ 31 <=? v) && (v <? 2 ^ 31) then Ret v else Throw (out_of_range "stoi")
  end.

(** ** [ParseArgs]

    The options that take a value; [None] is the final [else]. *)
Definition parse_option (arg v : string) (config : Config) : option (result Config) :=
  if String.eqb arg "--port" then Some (n <-? stoi v ;; Ret (set_Port n config))
  else if String.eqb arg "--db-path" then Some (Ret (set_DbPath v config))
  else if String.eqb arg "--threads" then Some (n <-? stoi v ;; Ret (set_Threads n config))
  else if String.eqb arg "--log-level" then Some (Ret (set_LogLevel v config))
  else if String.eqb arg "--session-timeout" then
    Some (n <-? stoi v ;; Ret (set_SessionTimeout n config))
  else if String.eqb arg "--ack-timeout" then
    Some (n <-? stoi v ;; Ret (set_AckTimeout n config))
  else if String.eqb arg "--metrics-address" then Some (Ret (set_MetricsBindAddress v config))
  else None.

(** The loop over [argv[1..]]; [i + 1 < argc] is "there is a next argument". *)
Fixpoint parse_loop (config : Config) (args : list string) : result Config :=
  match args with
  | [] => Ret config
  | arg :: rest =>
      if String.eqb arg "--help" then Throw HelpRequested
      else if String.eqb arg "--disable-metrics" then
        parse_loop (set_EnableMetrics false config) rest
      else
        match rest with
        | [] => Throw (ConfigError ("Unknown option: " ++ arg))
        | v :: rest' =>
            match parse_option arg v config with
            | Some r => config <-? r ;; parse_loop config rest'
            | None => Throw (ConfigError ("Unknown option: " ++ arg))
            end
        end
  end.

Definition ParseArgs (hardware_concurrency : Z) (argv : list string) : result Config :=
  config <-? parse_loop Config_default (tail argv) ;;
  Ret (if Threads config =? 0 then
         let config := set_Threads (s32 hardware_concurrency) config in
         if Threads config =? 0 then set_Threads 1 config else config
       else config).

(** What [main] returns when [ParseArgs] throws. *)
Definition exit_code (e : exn) : Z :=
  match e with
  | HelpRequested => 0
  | _ => 1
  end.

(** ** Properties *)
Lemma stoi_outcome s :
  match stoi s with
  | Ret v => - 2 ^ 31 <= v < 2 ^ 31
  | Throw e => e = invalid_argument "stoi" \/ e = out_of_range "stoi"
  | Stuck _ => False
  end.
Proof.
  unfold stoi. destruct (read_sign (skip_space s)) as [neg rest].
  destruct (read_digits false 0 rest) as [n|]; [|by left].
  destruct (_ && _) eqn:E; [lia|by right].
Qed.

(** The integer fields hold 32-bit values. *)
Record config_ok (c : Config) : Prop := {
  ok_Port : - 2 ^ 31 <= Port c < 2 ^ 31;
  ok_Threads : - 2 ^ 31 <= Threads c < 2 ^ 31;
  ok_SessionTimeout : - 2 ^ 31 <= SessionTimeout c < 2 ^ 31;
  ok_AckTimeout : - 2 ^ 31 <= AckTimeout c < 2 ^ 31;
}.

Definition parse_error (e : exn) : Prop :=
  e = HelpRequested \/ e = invalid_argument "stoi" \/ e = out_of_range "stoi" \/
  exists arg, e = ConfigError ("Unknown option: " ++ arg).

Definition parse_outcome (r : result Config) : Prop :=
  match r with
  | Ret c => config_ok c
  | Throw e => parse_error e
  | Stuck _ => False
  end.

Lemma stoi_bind v (k : Z -> Config) :
  (forall n, - 2 ^ 31 <= n < 2 ^ 31 -> config_ok (k n)) ->
  parse_outcome (n <-? stoi v ;; Ret (k n)).
Proof.
  intros Hk. pose proof (stoi_outcome v) as H. destruct (stoi v); cbn in *; [by apply Hk| |done].
  unfold parse_error. tauto.
Qed.

Lemma parse_option_outcome arg v c r :
  config_ok c -> parse_option arg v c = Some r -> parse_outcome r.
Proof.
  intros [H1 H2 H3 H4]. unfold parse_option.
  repeat case_match; intros [= <-]; try (apply stoi_bind; intros n Hn); by split.
Qed.

Lemma list_ind2 {A} (P : list A -> Prop) :
  P [] -> (forall x, P [x]) ->
  (forall x y l, P l -> P (y :: l) -> P (x :: y :: l)) -> forall l, P l.
Proof.
  intros H0 H1 H2. assert (forall l, P l /\ forall x, P (x :: l)) as H; [|apply H].
  induction l as [|y l [IH1 IH2]]; [by split|]. split; [apply IH2|].
  intros x. by apply H2.
Qed.

Lemma parse_loop_outcome c args : config_ok c -> parse_outcome (parse_loop c args).
Proof.
  assert (forall arg, parse_error (ConfigError ("Unknown option: " ++ arg))) as Hun
    by (unfold parse_error; eauto).
  assert (parse_error HelpRequested) as Hh by (by left).
  revert c. induction args as [|x|x v l IH1 IH2] using list_ind2; intros c Hc; [done| |].
  - cbn [parse_loop]. destruct (String.eqb x "--help"); [exact Hh|].
    destruct (String.eqb x "--disable-metrics"); [|apply Hun]. by destruct Hc; split.
  - cbn [parse_loop]. destruct (String.eqb x "--help"); [exact Hh|].
    destruct (String.eqb x "--disable-metrics"); [apply IH2; by destruct Hc; split|].
    destruct (parse_option x v c) as [r|] eqn:E; [|apply Hun].
    pose proof (parse_option_outcome x v c r Hc E) as Ho.
    destruct r as [c'|e|f]; [by apply IH1|done|done].
Qed.

Lemma parse_loop_app c c' l1 l2 :
  parse_loop c l1 = Ret c' -> parse_loop c (l1 ++ l2) = parse_loop c' l2.
Proof.
  revert c. induction l1 as [|x|x v l IH1 IH2] using list_ind2; intros c.
  - by intros [= ->].
  - cbn [parse_loop app]. repeat case_match; try done. intros [= ->]. done.
  - cbn [parse_loop app]. destruct (String.eqb x "--help"); [done|].
    destruct (String.eqb x "--disable-metrics"); [by apply IH2|].
    destruct (parse_option x v c) as [[c1|e|f]|]; cbn; try done. by apply IH1.
Qed.

(** *** Rendering a configuration as arguments *)
Definition digit (d : Z) : ascii := ascii_of_nat (Z.to_nat (48 + d)).

Fixpoint dec_digits (fuel : nat) (n : Z) (s : string) : string :=
  let s' := String (digit (n mod 10)) s in
  match fuel with
  | O => s'
  | Datatypes.S fuel => if n <? 10 then s' else dec_digits fuel (n / 10) s'
  end.

(** Ten digits are enough for a 32-bit integer. *)
Definition dec (n : Z) : string :=
  if n <? 0 then String "-" (dec_digits 9 (- n) EmptyString) else dec_digits 9 n EmptyString.

Definition render (c : Config) : list string :=
  ["--port"; dec (Port c); "--db-path"; DbPath c; "--threads"; dec (Threads c);
   "--log-level"; LogLevel c; "--session-timeout"; dec (SessionTimeout c);
   "--ack-timeout"; dec (AckTimeout c); "--metrics-address"; MetricsBindAddress c] ++
  (if EnableMetrics c then [] else ["--disable-metrics"]).

Lemma digit_cases (P : Z -> Prop) :
  P 0 -> P 1 -> P 2 -> P 3 -> P 4 -> P 5 -> P 6 -> P 7 -> P 8 -> P 9 ->
  forall d, 0 <= d < 10 -> P d.
Proof.
  intros. assert (d = 0 \/ d = 1 \/ d = 2 \/ d = 3 \/ d = 4 \/ d = 5 \/ d = 6 \/ d = 7 \/
    d = 8 \/ d = 9) as Hd by lia.
  repeat (destruct Hd as [->|Hd]; [done|]). by subst.
Qed.

Lemma digit_of_digit d : 0 <= d < 10 -> digit_of (digit d) = Some d.
Proof. revert d. by apply digit_cases. Qed.

Lemma digit_not_sign d s :
  0 <= d < 10 -> read_sign (skip_space (String (digit d) s)) = (false, String (digit d) s).
Proof. revert d. by apply digit_cases. Qed.

Lemma read_dec_digits fuel n s seen :
  0 <= n < 10 ^ Z.of_nat (Datatypes.S fuel) ->
  read_digits seen 0 (dec_digits fuel n s) = read_digits true n s.
Proof.
  revert n s seen. induction fuel as [|fuel IH]; intros n s seen Hn; cbn [dec_digits].
  - change (10 ^ Z.of_nat 1) with 10 in Hn. cbn [read_digits].
    rewrite Z.mod_small, digit_of_digit by lia.
    by replace (10 * 0 + n) with n by lia.
  - pose proof (Z.mod_pos_bound n 10). pose proof (Z.div_mod n 10).
    destruct (Z.ltb_spec n 10) as [Hlt|Hge].
    + cbn [read_digits]. rewrite Z.mod_small, digit_of_digit by lia.
      by replace (10 * 0 + n) with n by lia.
    + rewrite IH.
      * cbn [read_digits]. rewrite digit_of_digit by lia. f_equal. lia.
      * rewrite Nat2Z.inj_succ, Z.pow_succ_r in Hn by lia.
        split; [apply Z.div_pos; lia|]. apply Z.div_lt_upper_bound; lia.
Qed.

Lemma dec_digits_not_sign fuel n s :
  read_sign (skip_space (dec_digits fuel n s)) = (false, dec_digits fuel n s).
Proof.
  revert n s. induction fuel as [|fuel IH]; intros n s; cbn [dec_digits];
    [|destruct (n <? 10); [|apply IH]]; apply digit_not_sign, Z.mod_pos_bound; lia.
Qed.

Lemma stoi_dec n : - 2 ^ 31 <= n < 2 ^ 31 -> stoi (dec n) = Ret n.
Proof.
  intros Hn. assert (2 ^ 31 < 10 ^ Z.of_nat 10) as Hp by by vm_compute.
  unfold stoi, dec. destruct (Z.ltb_spec n 0) as [Hneg|Hpos].
  - change (read_sign (skip_space (String "-" ?s))) with (true, s).
    cbn [skip_space is_space]. cbn [read_sign].
    rewrite read_dec_digits by lia. cbn [read_digits].
    rewrite Z.opp_involutive. by replace (_ && _) with true by lia.
  - rewrite dec_digits_not_sign, read_dec_digits by lia. cbn [read_digits].
    by replace (_ && _) with true by lia.
Qed.

Lemma parse_option_interval arg v c c' :
  parse_option arg v c = Some (Ret c') -> MetricsUpdateInterval c' = MetricsUpdateInterval c.
Proof.
  unfold parse_option, rbind. repeat case_match; intros E; simplify_eq/=; done.
Qed.

Lemma parse_loop_interval c c' l :
  parse_loop c l = Ret c' -> MetricsUpdateInterval c' = MetricsUpdateInterval c.
Proof.
  revert c. induction l as [|x|x v l IH1 IH2] using list_ind2; intros c.
  - by intros [= ->].
  - cbn [parse_loop]. destruct (String.eqb x "--help"); [done|].
    destruct (String.eqb x "--disable-metrics"); [|done]. by intros [= <-].
  - cbn [parse_loop]. destruct (String.eqb x "--help"); [done|].
    destruct (String.eqb x "--disable-metrics"); [by intros ->%IH2|].
    destruct (parse_option x v c) as [[c1|e|f]|] eqn:E; cbn; try done.
    intros ->%IH1. by eapply parse_option_interval.
Qed.

Lemma parse_loop_render c0 c :
  config_ok c -> MetricsUpdateInterval c0 = MetricsUpdateInterval c ->
  parse_loop c0 (render c) = Ret (set_EnableMetrics (EnableMetrics c0 && EnableMetrics c) c).
Proof.
  intros [H1 H2 H3 H4] Hi. unfold render.
  do 7 (cbn; rewrite ?stoi_dec by done).
  destruct c as [? ? ? ? ? ? [] ? ?], c0 as [? ? ? ? ? ? [] ? ?]; cbn in *; by subst.
Qed.

Lemma ParseArgs_comes_back hw argv : is_stuck (ParseArgs hw argv) = false.
Proof.
  unfold ParseArgs. assert (config_ok Config_default) as Hd by by split.
  pose proof (parse_loop_outcome Config_default (tail argv) Hd) as H.
  by destruct (parse_loop Config_default (tail argv)).
Qed.

(** C38. [ParseArgs] always comes back: with a configuration whose integers are [int]s
    and which asks for at least one way of running threads ([Threads] is not 0), or with
    one of its four exceptions, of which only the request for help exits with 0. *)
Theorem ParseArgs_outcomes hw argv :
  match ParseArgs hw argv with
  | Ret c => config_ok c /\ Threads c <> 0
  | Throw e => parse_error e /\ (exit_code e = 0 <-> e = HelpRequested)
  | Stuck _ => False
  end.
Proof.
  assert (config_ok Config_default) as Hd by by split.
  pose proof (parse_loop_outcome Config_default (tail argv) Hd) as H. unfold ParseArgs.
  destruct (parse_loop Config_default (tail argv)) as [c|e|f]; cbn [rbind parse_outcome] in *.
  - destruct H as [H1 H2 H3 H4]. pose proof (s32_range hw).
    cbv zeta. repeat case_match; split; try (split; cbn in * ); cbn in *; lia.
  - split; [done|]. destruct H as [->|[->|[->|[a ->]]]]; by split.
  - done.
Qed.

(** Round trip, and the order of options: after any arguments that parse, the
    arguments written from a configuration set every option to that configuration's
    value, whatever was set before; only [--disable-metrics] cannot be taken back. *)
Lemma ParseArgs_render hw prog l c0 c :
  config_ok c -> Threads c <> 0 ->
  MetricsUpdateInterval c = MetricsUpdateInterval Config_default ->
  ParseArgs hw (prog :: l) = Ret c0 ->
  ParseArgs hw (prog :: l ++ render c) =
    Ret (set_EnableMetrics (EnableMetrics c0 && EnableMetrics c) c).
Proof.
  intros Hc Ht Hi. unfold ParseArgs. cbn [tail].
  destruct (parse_loop Config_default l) as [c1|e|f] eqn:E; cbn [rbind]; [|done|done].
  intros [= H0]. rewrite (parse_loop_app _ c1) by done.
  rewrite parse_loop_render by (done || rewrite Hi; by eapply parse_loop_interval).
  cbn [rbind]. replace (EnableMetrics c0) with (EnableMetrics c1)
    by (rewrite <- H0; by repeat case_match).
  by replace (_ =? 0) with false by (cbn; lia).
Qed.

Example config_help : ParseArgs 8 ["broker"; "--port"; "77"; "--help"] = Throw HelpRequested.
Proof. reflexivity. Qed.
Example config_junk :
  ParseArgs 8 ["broker"; "--port"; " +77x"] = Ret (set_Threads 8 (set_Port 77 Config_default)).
Proof. reflexivity. Qed.
Example config_overflow :
  ParseArgs 8 ["broker"; "--port"; "2147483648"] = Throw (out_of_range "stoi").
Proof. reflexivity. Qed.

(** A negative count is kept, and [Run] then starts no worker. *)
Example config_threads :
  ParseArgs 8 ["broker"; "--threads"; "-1"] = Ret (set_Threads (-1) Config_default).
Proof. reflexivity. Qed.

Lemma ParseArgs_render_witness :
  let c := mkConfig 6000 "/tmp/x.db" 4 "--help" 0 (-2147483648) true "127.0.0.1:9" 2 in
  config_ok c /\
  ParseArgs 8 ("broker" :: ["--port"; "1"; "--disable-metrics"] ++ render c) =
    Ret (set_EnableMetrics false c).
Proof.
  intros c. assert (config_ok c) as Hc by (split; cbn; lia). split; [exact Hc|].
  apply (ParseArgs_render 8 "broker" ["--port"; "1"; "--disable-metrics"]
    (set_EnableMetrics false (set_Threads 8 (set_Port 1 Config_default))) c Hc);
    [discriminate | reflexivity | vm_compute; reflexivity].
Defined.
