(* ===== verification/Metrics.v ===== *)
(** The counters of the broker: [class MetricsManager] of [include/metrics.hpp] and
    [src/metrics.cpp] as built with [BROKER_ENABLE_METRICS], and [ScopedMetricsTimer].

    The nine [std::atomic<uint64_t>] counters are one function from the counter's
    name to its value ([atomics]); an increment and an [exchange] are one step each.
    The Prometheus objects are not part of the repository: what the code hands them
    is recorded ([exported], the arguments of [Increment] in order; [gauges], the last
    value [Set]; the observations of the two histograms).  Without
    [BROKER_ENABLE_METRICS] every operation is empty ([NoMetrics]). *)
From Stdlib Require Import ZArith Lia.
From stdpp Require Import functions.
From S2P Require Import Prelude Words.
Open Scope Z_scope.
Open Scope broker_scope.

Inductive counter : Type :=
| messages_received | messages_sent | messages_failed | acks_received
| messages_expired | offline_delivered
| clients_registered | clients_unregistered | clients_timeout.

#[export] Instance counter_eq_dec : EqDecision counter.
Proof. solve_decision. Defined.

Record Metrics : Type := mkMetrics {
  atomics : counter -> Z;
  active_sessions_ : Z;
  pending_send_queue_ : Z;
  exported : counter -> list Z;
  gauges : option (Z * Z);
  payload_size_histogram_ : list Z;
  processing_time_histogram_ : list Z;
  updater_running_ : bool;
  updater_thread_ : bool;
}.

Definition MetricsManager_ctor : Metrics :=
  mkMetrics (fun _ => 0) 0 0 (fun _ => []) None [] [] false false.

(** ** The operations of [IMetrics] *)
Definition increment (c : counter) (m : Metrics) : Metrics :=
  mkMetrics (<[c := u64 (atomics m c + 1)]> (atomics m)) (active_sessions_ m)
    (pending_send_queue_ m) (exported m) (gauges m) (payload_size_histogram_ m)
    (processing_time_histogram_ m) (updater_running_ m) (updater_thread_ m).

Definition IncrementMessagesReceived := increment messages_received.
Definition IncrementMessagesSent := increment messages_sent.
Definition IncrementMessagesFailed := increment messages_failed.
Definition IncrementClientsRegistered := increment clients_registered.
Definition IncrementClientsUnregistered := increment clients_unregistered.
Definition IncrementClientsTimeout := increment clients_timeout.
Definition IncrementOfflineDelivered := increment offline_delivered.
Definition IncrementMessagesExpired := increment messages_expired.
Definition IncrementAcksReceived := increment acks_received.

(** The argument is a [size_t] converted to [int]. *)
Definition SetActiveSessions (count : Z) (m : Metrics) : Metrics :=
  mkMetrics (atomics m) (s32 count) (pending_send_queue_ m) (exported m) (gauges m)
    (payload_size_histogram_ m) (processing_time_histogram_ m) (updater_running_ m)
    (updater_thread_ m).

Definition SetPendingSendQueueSize (size : Z) (m : Metrics) : Metrics :=
  mkMetrics (atomics m) (active_sessions_ m) (s64 size) (exported m) (gauges m)
    (payload_size_histogram_ m) (processing_time_histogram_ m) (updater_running_ m)
    (updater_thread_ m).

Definition ObservePayloadSize (bytes : Z) (m : Metrics) : Metrics :=
  mkMetrics (atomics m) (active_sessions_ m) (pending_send_queue_ m) (exported m)
    (gauges m) (payload_size_histogram_ m ++ [bytes]) (processing_time_histogram_ m)
    (updater_running_ m) (updater_thread_ m).

(** The duration is a difference of clock readings, in nanoseconds. *)
Definition AddMessageProcessingTime (duration : Z) (m : Metrics) : Metrics :=
  mkMetrics (atomics m) (active_sessions_ m) (pending_send_queue_ m) (exported m)
    (gauges m) (payload_size_histogram_ m) (processing_time_histogram_ m ++ [duration])
    (updater_running_ m) (updater_thread_ m).

(** ** The updater *)
Definition export_counter (c : counter) (m : Metrics) : Metrics :=
  mkMetrics (<[c := 0]> (atomics m)) (active_sessions_ m) (pending_send_queue_ m)
    (<[c := exported m c ++ [atomics m c]]> (exported m)) (gauges m)
    (payload_size_histogram_ m) (processing_time_histogram_ m) (updater_running_ m)
    (updater_thread_ m).

Definition set_gauges (m : Metrics) : Metrics :=
  mkMetrics (atomics m) (active_sessions_ m) (pending_send_queue_ m) (exported m)
    (Some (active_sessions_ m, pending_send_queue_ m)) (payload_size_histogram_ m)
    (processing_time_histogram_ m) (updater_running_ m) (updater_thread_ m).

Definition update_order : list counter :=
  [messages_received; messages_sent; messages_failed; acks_received; messages_expired;
   offline_delivered; clients_registered; clients_unregistered; clients_timeout].

Definition UpdateMetrics (m : Metrics) : Metrics :=
  set_gauges (fold_left (fun m c => export_counter c m) update_order m).

Definition set_updater (running thread : bool) (m : Metrics) : Metrics :=
  mkMetrics (atomics m) (active_sessions_ m) (pending_send_queue_ m) (exported m)
    (gauges m) (payload_size_histogram_ m) (processing_time_histogram_ m) running thread.

Definition StartUpdater (m : Metrics) : Metrics :=
  if updater_running_ m then m else set_updater true true m.

(** One turn of the updater thread's loop, after its sleep; [false] ends the thread. *)
Definition updater_turn (m : Metrics) : bool * Metrics :=
  let m := if updater_running_ m then UpdateMetrics m else m in
  (updater_running_ m, m).

(** The join waits for the thread, whose last turn sees the cleared flag. *)
Definition StopUpdater (m : Metrics) : Metrics :=
  let m := set_updater false (updater_thread_ m) m in
  let m := if updater_thread_ m then snd (updater_turn m) else m in
  set_updater false false m.

(** The build without metrics: every override has an empty body. *)
Definition NoMetrics (op : Metrics -> Metrics) (m : Metrics) : Metrics := m.

(** ** The Prometheus objects

    [InitializePrometheusMetrics] registers five families and keeps a pointer to each
    metric it adds; a pointer is the place of its metric in the registry.  [Add] gives
    the metric that has these labels already, when there is one.  Bucket boundaries are
    in bytes and nanoseconds. *)
Inductive metric_kind : Type := Counter | Gauge | Histogram (boundaries : list Z).

#[export] Instance metric_kind_eq_dec : EqDecision metric_kind.
Proof. solve_decision. Defined.

Record series : Type := mkSeries {
  family_name : string;
  kind : metric_kind;
  labels : string * string;
}.

#[export] Instance series_eq_dec : EqDecision series.
Proof. solve_decision. Defined.

Record Registered : Type := mkRegistered {
  registry_ : list series;
  counters_ : gmap string nat;
  gauges_ : gmap string nat;
  processing_time_pointer : option nat;
  payload_size_pointer : option nat;
}.

Definition Add (x : series) (r : list series) : nat * list series :=
  match list_find (fun y => y = x) r with
  | Some (i, _) => (i, r)
  | None => (length r, r ++ [x])
  end.

Definition add_counter (family key label : string) (r : Registered) : Registered :=
  let '(i, l) := Add (mkSeries family Counter ("type", label)%string) (registry_ r) in
  mkRegistered l (<[key := i]> (counters_ r)) (gauges_ r) (processing_time_pointer r)
    (payload_size_pointer r).
Definition add_gauge (family key label : string) (r : Registered) : Registered :=
  let '(i, l) := Add (mkSeries family Gauge ("state", label)%string) (registry_ r) in
  mkRegistered l (counters_ r) (<[key := i]> (gauges_ r)) (processing_time_pointer r)
    (payload_size_pointer r).

Definition InitializePrometheusMetrics : Registered :=
  let r := mkRegistered [] ∅ ∅ None None in
  let message_counter_family := "broker_messages_total"%string in
  let r := add_counter message_counter_family "messages_received" "received" r in
  let r := add_counter message_counter_family "messages_sent" "sent" r in
  let r := add_counter message_counter_family "messages_failed" "failed" r in
  let r := add_counter message_counter_family "acks_received" "ack" r in
  let r := add_counter message_counter_family "messages_expired" "expired" r in
  let r := add_counter message_counter_family "offline_delivered" "offline" r in
  let client_counter_family := "broker_clients_total"%string in
  let r := add_counter client_counter_family "clients_registered" "register" r in
  let r := add_counter client_counter_family "clients_unregistered" "unregister" r in
  let r := add_counter client_counter_family "clients_timeout" "timeout" r in
  let gauge_family := "broker_state"%string in
  let r := add_gauge gauge_family "active_sessions" "active_sessions" r in
  let r := add_gauge gauge_family "pending_send_queue" "pending_send_queue" r in
  let '(processing, l) := Add (mkSeries "broker_message_processing_duration_seconds"
    (Histogram [100000; 1000000; 10000000; 100000000; 1000000000])
    ("operation", "message_processing")%string) (registry_ r) in
  let '(payload, l) := Add (mkSeries "broker_payload_size_bytes"
    (Histogram [64; 256; 1024; 4096; 16384; 65536]) ("type", "payload")%string) l in
  mkRegistered l (counters_ r) (gauges_ r) (Some processing) (Some payload).

(** The key under which [UpdateMetrics] looks up the metric of a counter. *)
Definition counter_key (c : counter) : string :=
  match c with
  | messages_received => "messages_received"
  | messages_sent => "messages_sent"
  | messages_failed => "messages_failed"
  | acks_received => "acks_received"
  | messages_expired => "messages_expired"
  | offline_delivered => "offline_delivered"
  | clients_registered => "clients_registered"
  | clients_unregistered => "clients_unregistered"
  | clients_timeout => "clients_timeout"
  end.

(** What a counter of the program is exported as. *)
Definition metric_of (c : counter) : option series :=
  i ← counters_ InitializePrometheusMetrics !! counter_key c;
  registry_ InitializePrometheusMetrics !! i.

(** [operator[]] of a map gives a null pointer for a key it does not have: every key
    [UpdateMetrics] uses is there, each leads to a counter of its own, and neither
    histogram is null. *)
Lemma metric_of_counter c : exists x, metric_of c = Some x /\ kind x = Counter.
Proof. destruct c; eexists; by split; [vm_compute; reflexivity|]. Qed.

Lemma metric_of_inj c c' : metric_of c = metric_of c' -> c = c'.
Proof. intros E. destruct c, c'; try reflexivity; vm_compute in E; discriminate E. Qed.

Lemma gauges_and_histograms :
  is_Some (gauges_ InitializePrometheusMetrics !! "active_sessions"%string) /\
  is_Some (gauges_ InitializePrometheusMetrics !! "pending_send_queue"%string) /\
  is_Some (processing_time_pointer InitializePrometheusMetrics) /\
  is_Some (payload_size_pointer InitializePrometheusMetrics) /\
  NoDup (registry_ InitializePrometheusMetrics).
Proof.
  split_and!; [eexists; vm_compute; reflexivity..|].
  apply (bool_decide_eq_true_1 _). vm_compute. reflexivity.
Qed.

(** ** Nothing is counted twice, nothing is dropped

    What other threads and the updater do to the counters, as a sequence of atomic
    steps in any interleaving; the updater's pass is [update_order] exports, with
    anything in between. *)
Inductive event : Type := Increment (c : counter) | Export (c : counter).

Definition run_event (e : event) (m : Metrics) : Metrics :=
  match e with
  | Increment c => increment c m
  | Export c => export_counter c m
  end.

Definition run_events (l : list event) (m : Metrics) : Metrics :=
  fold_left (fun m e => run_event e m) l m.

Fixpoint increments (c : counter) (l : list event) : Z :=
  match l with
  | [] => 0
  | Increment c' :: l' => (if decide (c = c') then 1 else 0) + increments c l'
  | Export _ :: l' => increments c l'
  end.

Definition total (c : counter) (m : Metrics) : Z := foldr Z.add 0 (exported m c) + atomics m c.

Lemma foldr_add_app l x : foldr Z.add 0 (l ++ [x]) = foldr Z.add 0 l + x.
Proof. induction l as [|y l IH]; cbn; lia. Qed.

Lemma increments_nonneg c l : 0 <= increments c l.
Proof. induction l as [|[c'|c'] l IH]; cbn; [done| |done]. case_decide; lia. Qed.

Lemma export_total c c' m : total c (export_counter c' m) = total c m.
Proof.
  unfold total, export_counter. cbn. destruct (decide (c = c')) as [->|Hne].
  - rewrite !fn_lookup_insert, foldr_add_app. lia.
  - by rewrite !fn_lookup_insert_ne by done.
Qed.

Lemma increment_atomic c c' m :
  0 <= atomics m c -> (c = c' -> atomics m c + 1 < 2 ^ 64) ->
  atomics (increment c' m) c = atomics m c + (if decide (c = c') then 1 else 0).
Proof.
  intros H1 H2. unfold increment. cbn. destruct (decide (c = c')) as [->|Hne].
  - rewrite fn_lookup_insert. apply u64_id. specialize (H2 eq_refl). lia.
  - rewrite fn_lookup_insert_ne by done. lia.
Qed.

Lemma increment_total c c' m :
  0 <= atomics m c -> (c = c' -> atomics m c + 1 < 2 ^ 64) ->
  total c (increment c' m) = total c m + (if decide (c = c') then 1 else 0).
Proof.
  intros H1 H2. unfold total. rewrite increment_atomic by done.
  change (exported (increment c' m)) with (exported m). lia.
Qed.

Lemma export_atomic c c' m :
  0 <= atomics m c -> 0 <= atomics (export_counter c' m) c <= atomics m c.
Proof.
  intros H. unfold export_counter. cbn. destruct (decide (c = c')) as [->|Hne].
  - rewrite fn_lookup_insert. lia.
  - rewrite fn_lookup_insert_ne by done. lia.
Qed.

(** C37. Conservation of the counters: however increments by any threads interleave with
    the updater's exchanges, what was exported plus what is still held is what was
    there before plus the number of increments; no increment is lost or exported
    twice, as long as a counter is emptied before it reaches 2^64. *)
Theorem metrics_conservation (l : list event) (m : Metrics) c :
  0 <= atomics m c -> atomics m c + increments c l < 2 ^ 64 ->
  total c (run_events l m) = total c m + increments c l.
Proof.
  revert m. induction l as [|e l IH]; intros m H0 Hb; cbn [run_events fold_left increments].
  - lia.
  - pose proof (increments_nonneg c l) as Hn.
    destruct e as [c'|c']; cbn [increments run_event] in *.
    + change (fold_left _ l ?x) with (run_events l x).
      assert (c = c' -> atomics m c + 1 < 2 ^ 64) as Hc
        by (intros ->; rewrite decide_True in Hb by done; lia).
      pose proof (increment_atomic c c' m H0 Hc) as Ha.
      rewrite IH, increment_total; try done; rewrite ?Ha; case_decide; lia.
    + change (fold_left _ l ?x) with (run_events l x).
      pose proof (export_atomic c c' m H0). rewrite IH, export_total; lia.
Qed.

(** One pass of the updater leaves every counter empty and its value exported. *)
Lemma UpdateMetrics_exports c m :
  atomics (UpdateMetrics m) c = 0 /\
  exported (UpdateMetrics m) c = exported m c ++ [atomics m c].
Proof. by destruct c. Qed.

(** The updater: a pass exports every counter exactly once and empties it, and sets
    both gauges to the current values; after [StopUpdater] the thread is gone, another
    stop does nothing, and what was counted since the last pass has not been exported. *)
Lemma updater_cycle (m : Metrics) :
  (forall c, atomics (UpdateMetrics m) c = 0 /\
     exported (UpdateMetrics m) c = exported m c ++ [atomics m c]) /\
  gauges (UpdateMetrics m) = Some (active_sessions_ m, pending_send_queue_ m) /\
  updater_thread_ (StopUpdater m) = false /\
  StopUpdater (StopUpdater m) = StopUpdater m /\
  (forall c, exported (StopUpdater m) c = exported m c /\
     atomics (StopUpdater m) c = atomics m c) /\
  fst (updater_turn (StopUpdater m)) = false.
Proof.
  split; [intros c; apply UpdateMetrics_exports|]. split; [done|].
  unfold StopUpdater, updater_turn. cbn. by destruct (updater_thread_ m).
Qed.

Lemma metrics_conservation_witness :
  total messages_sent (run_events
    [Increment messages_sent; Export messages_sent; Increment messages_failed;
     Increment messages_sent; Increment messages_sent] MetricsManager_ctor) = 3.
Proof.
  rewrite (metrics_conservation
    [Increment messages_sent; Export messages_sent; Increment messages_failed;
     Increment messages_sent; Increment messages_sent] MetricsManager_ctor messages_sent);
    vm_compute; congruence.
Defined.
