(* ===== verification/Session.v ===== *)
(** One connected client: [class Session] of [include/session.hpp] and
    [src/session.cpp].

    [Session] is the object.  A member function runs on the object together with the
    rest of the program [E], of which it uses only what [SessionEnv] lists: the
    clock, [IMessageSender::SendToClient] and the target of the persist callback
    that [RegisterHandler] installs.  Neither of these reaches the session's own
    fields.  The queue is the list of its messages, front first; the loops over it
    are given as fuel the number of messages they find. *)
From Stdlib Require Import ZArith Lia Strings.Byte.
From S2P Require Import Prelude Words Message.
Open Scope Z_scope.
Open Scope broker_scope.

(** The machine the broker is built for. *)
Class Host : Type := {
  host_endian : endian;
  glibcxx_assertions : bool;
}.

(** The closure [[this, client_name](bool success)] given to [SendToClient]; [this] is
    a plain pointer, the address of the session. *)
Record SendCallback : Type := mkCallback { cb_this : nat; cb_client_name : string }.

Class SessionEnv (E : Type) : Type := {
  steady_now : E -> Z;
  SendToClient : string -> list byte -> option SendCallback -> M E unit;
  persist_message : string -> Message -> M E unit;
}.

Record Session : Type := mkSession {
  identity_ : string;
  name_ : string;
  is_online_ : bool;
  outgoing_queue_ : list Message;
  queue_mutex_ : bool;
  last_receive_ : Z;
  last_activity_ : Z;
  persist_callback_ : bool;
}.

Definition SetName n s := mkSession (identity_ s) n (is_online_ s) (outgoing_queue_ s)
  (queue_mutex_ s) (last_receive_ s) (last_activity_ s) (persist_callback_ s).
Definition set_online b s := mkSession (identity_ s) (name_ s) b (outgoing_queue_ s)
  (queue_mutex_ s) (last_receive_ s) (last_activity_ s) (persist_callback_ s).
Definition set_queue q s := mkSession (identity_ s) (name_ s) (is_online_ s) q
  (queue_mutex_ s) (last_receive_ s) (last_activity_ s) (persist_callback_ s).
Definition set_queue_mutex b s := mkSession (identity_ s) (name_ s) (is_online_ s)
  (outgoing_queue_ s) b (last_receive_ s) (last_activity_ s) (persist_callback_ s).
Definition set_last_receive t s := mkSession (identity_ s) (name_ s) (is_online_ s)
  (outgoing_queue_ s) (queue_mutex_ s) t (last_activity_ s) (persist_callback_ s).
Definition set_last_activity t s := mkSession (identity_ s) (name_ s) (is_online_ s)
  (outgoing_queue_ s) (queue_mutex_ s) (last_receive_ s) t (persist_callback_ s).
Definition SetPersistCallback s := mkSession (identity_ s) (name_ s) (is_online_ s)
  (outgoing_queue_ s) (queue_mutex_ s) (last_receive_ s) (last_activity_ s) true.

Definition Session_ctor (identity : string) (now : Z) : Session :=
  mkSession identity EmptyString true [] false now now false.

Definition QUEUE_PERSIST_THRESHOLD : nat := 100.

(** [elapsed.count() > timeout_seconds] after a [duration_cast] from nanoseconds. *)
Definition IsExpired (timeout_seconds now : Z) (s : Session) : bool :=
  if negb (is_online_ s) then true
  else timeout_seconds <? Z.quot (now - last_receive_ s) (10 ^ 9).

Section Session.
Context `{Host} {E : Type} `{SessionEnv E}.

Definition self {A} (f : Session -> A) : M (Session * E) A := gets (fun s => f (fst s)).
Definition upd (f : Session -> Session) : M (Session * E) unit :=
  modify (fun s => (f (fst s), snd s)).
Definition env {A} (m : M E A) : M (Session * E) A :=
  fun s => let '(r, e) := m (snd s) in (r, (fst s, e)).

Definition with_queue_lock {A} : M (Session * E) A -> M (Session * E) A :=
  lock_guard (fun s => queue_mutex_ (fst s)) (fun b s => (set_queue_mutex b (fst s), snd s)).

Definition IsOnline : M (Session * E) bool := self is_online_.
Definition MarkOffline : M (Session * E) unit := upd (set_online false).
Definition MarkOnline : M (Session * E) unit := upd (set_online true).
Definition UpdateLastReceive : M (Session * E) unit :=
  modify (fun s => (set_last_receive (steady_now (snd s)) (fst s), snd s)).
Definition UpdateLastActivity : M (Session * E) unit :=
  modify (fun s => (set_last_activity (steady_now (snd s)) (fst s), snd s)).
Definition GetQueueSize : M (Session * E) nat :=
  with_queue_lock (self (fun s => length (outgoing_queue_ s))).

Definition queue_nonempty : M (Session * E) bool :=
  self (fun s => match outgoing_queue_ s with [] => false | _ => true end).

(** [outgoing_queue_.front()], undefined on an empty queue. *)
Definition front : M (Session * E) Message :=
  q <- self outgoing_queue_ ;;
  match q with
  | m :: _ => ret m
  | [] => hang OutOfBounds
  end.

Definition pop : M (Session * E) unit := upd (fun s => set_queue (tail (outgoing_queue_ s)) s).

(** [persist_callback_(name_, outgoing_queue_.front()); outgoing_queue_.pop();] *)
Definition persist_front : M (Session * E) unit :=
  name <- self name_ ;;
  m <- front ;;
  env (persist_message name m) ;;;
  pop.

Definition PersistQueueToDatabase : M (Session * E) unit :=
  callback <- self persist_callback_ ;;
  if negb callback then ret tt
  else with_queue_lock (
    q <- self outgoing_queue_ ;;
    match q with
    | [] => ret tt
    | _ => while_fuel (length q) queue_nonempty (persist_front ;;; ret Continue)
    end).

Definition Session_dtor : M (Session * E) unit := PersistQueueToDatabase.

(** [this] is the address of the session, captured by the callback. *)
Definition SendZmqMessage (this : nat) (m : Message) : M (Session * E) unit :=
  try_catch
    (serialized <- lift (Serialize host_endian m) ;;
     identity <- self identity_ ;;
     client_name <- self name_ ;;
     env (SendToClient identity serialized (Some (mkCallback this client_name))))
    (fun _ => MarkOffline).

Definition EnqueueMessage (m : Message) : M (Session * E) unit :=
  with_queue_lock (
    upd (fun s => set_queue (outgoing_queue_ s ++ [m]) s) ;;;
    q <- self outgoing_queue_ ;;
    callback <- self persist_callback_ ;;
    if (QUEUE_PERSIST_THRESHOLD <? length q)%nat && callback then
      for_each (seq 0 (length q / 2)) (fun _ =>
        nonempty <- queue_nonempty ;;
        if (nonempty : bool) then persist_front ;;; ret Continue else ret Break)
    else ret tt).

Definition SendMessage (this : nat) (m : Message) : M (Session * E) bool :=
  UpdateLastActivity ;;;
  online <- IsOnline ;;
  if negb online then EnqueueMessage m ;;; ret true
  else SendZmqMessage this m ;;; ret true.

Definition FlushQueue (this : nat) : M (Session * E) unit :=
  with_queue_lock (
    q <- self outgoing_queue_ ;;
    while_fuel (length q) queue_nonempty (
      online <- IsOnline ;;
      if negb online then ret Break
      else
        m <- front ;;
        pop ;;;
        SendZmqMessage this m ;;;
        ret Continue)).
End Session.

(** ** Handing messages to the persist callback

    [handed name l e e']: the callback took the messages of [l], in order, and each
    call returned. *)
Section SessionProps.
Context `{Host} {E : Type} `{SessionEnv E}.

Inductive handed (name : string) : list Message -> E -> E -> Prop :=
| handed_nil e : handed name [] e e
| handed_cons m l e e1 e2 :
    persist_message name m e = (Ret tt, e1) -> handed name l e1 e2 ->
    handed name (m :: l) e e2.

(** What is left of a queue [q] after at most [n] of its messages were handed over:
    the reference the two loops are compared with. *)
Fixpoint drain (n : nat) (name : string) (q : list Message) (e : E)
    : result unit * list Message * E :=
  match n, q with
  | Datatypes.S n, m :: q' =>
      match persist_message name m e with
      | (Ret _, e') => drain n name q' e'
      | (Throw x, e') => (Throw x, q, e')
      | (Stuck f, e') => (Stuck f, q, e')
      end
  | _, _ => (Ret tt, q, e)
  end.

Lemma drain_handed n name q e r rest e' :
  drain n name q e = (r, rest, e') ->
  exists done e1, q = done ++ rest /\ handed name done e e1 /\
    match r with
    | Ret _ => e' = e1 /\ length done = Nat.min n (length q)
    | _ => (length done < n)%nat /\ exists m rest', rest = m :: rest' /\
             fst (persist_message name m e1) = r /\ snd (persist_message name m e1) = e'
    end.
Proof.
  revert q e. induction n as [|n IH]; intros q e.
  { cbn. destruct q; intros [= <- <- <-]; exists [], e; repeat constructor. }
  destruct q as [|m q]; cbn.
  { intros [= <- <- <-]. exists [], e. repeat constructor. }
  destruct (persist_message name m e) as [[[]|x|f] e0] eqn:Ep.
  - intros (done & e1 & -> & Hh & Hr)%IH. exists (m :: done), e1.
    split; [done|]. split; [by econstructor|]. destruct r; cbn; [|intuition lia..].
    rewrite length_app in *. intuition lia.
  - intros [= <- <- <-]. exists [], e. split; [done|]. split; [constructor|].
    split; [cbn; lia|]. exists m, q. by rewrite Ep.
  - intros [= <- <- <-]. exists [], e. split; [done|]. split; [constructor|].
    split; [cbn; lia|]. exists m, q. by rewrite Ep.
Qed.

(** Running a loop in the session [s] does to the queue what [drain] does. *)
Definition drained (r : result unit * list Message * E) (s : Session)
    : result unit * (Session * E) :=
  let '(r, q, e) := r in (r, (set_queue q s, e)).

Lemma persist_front_cons s m q (e : E) :
  outgoing_queue_ s = m :: q ->
  persist_front (s, e) =
    match persist_message (name_ s) m e with
    | (Ret _, e') => (Ret tt, (set_queue q s, e'))
    | (Throw x, e') => (Throw x, (s, e'))
    | (Stuck f, e') => (Stuck f, (s, e'))
    end.
Proof.
  intros Hq. unfold persist_front, front, pop, self, upd, env, gets, modify, ret, bind.
  cbn. rewrite Hq. cbn. destruct (persist_message (name_ s) m e) as [[[]|x|f] e'];
    cbn; by rewrite ?Hq.
Qed.

Lemma queue_nonempty_eq s (e : E) :
  queue_nonempty (s, e) =
    (Ret (match outgoing_queue_ s with [] => false | _ => true end), (s, e)).
Proof. done. Qed.

Lemma set_queue_same s : set_queue (outgoing_queue_ s) s = s.
Proof. by destruct s. Qed.

Lemma persist_while n s (e : E) :
  (length (outgoing_queue_ s) <= n)%nat ->
  while_fuel n queue_nonempty (persist_front ;;; ret Continue) (s, e) =
    drained (drain n (name_ s) (outgoing_queue_ s) e) s.
Proof.
  revert s e. induction n as [|n IH]; intros s e Hn; destruct (outgoing_queue_ s) as [|m q] eqn:Eq;
    cbn in Hn; try lia; cbn [while_fuel drain]; unfold bind at 1;
    rewrite queue_nonempty_eq, Eq; cbn [drained]; try (by rewrite <- Eq, set_queue_same).
  unfold bind. rewrite (persist_front_cons s m q) by done.
  destruct (persist_message (name_ s) m e) as [[[]|x|f] e']; cbn [drained ret].
  - rewrite IH by (cbn; lia). cbn [name_ outgoing_queue_ set_queue].
    by destruct (drain n (name_ s) q e') as [[r q'] e''].
  - by rewrite <- Eq, set_queue_same.
  - by rewrite <- Eq, set_queue_same.
Qed.

Lemma persist_for (l : list nat) s (e : E) :
  for_each l (fun _ =>
      nonempty <- queue_nonempty ;;
      if (nonempty : bool) then persist_front ;;; ret Continue else ret Break) (s, e) =
    drained (drain (length l) (name_ s) (outgoing_queue_ s) e) s.
Proof.
  revert s e. induction l as [|i l IH]; intros s e; cbn [for_each length drain].
  { cbn. destruct (outgoing_queue_ s) eqn:Eq; cbn; by rewrite <- Eq, set_queue_same. }
  unfold bind at 1 2. rewrite queue_nonempty_eq.
  destruct (outgoing_queue_ s) as [|m q] eqn:Eq; [cbn; by rewrite <- Eq, set_queue_same|].
  unfold bind at 1. rewrite (persist_front_cons s m q) by done.
  destruct (persist_message (name_ s) m e) as [[[]|x|f] e']; cbn [drained ret].
  - rewrite IH. cbn [name_ outgoing_queue_ set_queue].
    by destruct (drain (length l) (name_ s) q e') as [[r q'] e''].
  - by rewrite <- Eq, set_queue_same.
  - by rewrite <- Eq, set_queue_same.
Qed.

(** The same, under the queue's mutex: a callback that does not come back keeps it. *)
Definition released (r : result unit * list Message * E) (s : Session)
    : result unit * (Session * E) :=
  match r with
  | (Stuck f, q, e) => (Stuck f, (set_queue q (set_queue_mutex true s), e))
  | (r, q, e) => (r, (set_queue q s, e))
  end.

Lemma with_queue_lock_drained (m : M (Session * E) unit) s e d :
  queue_mutex_ s = false -> m (set_queue_mutex true s, e) = drained d (set_queue_mutex true s) ->
  with_queue_lock m (s, e) = released d s.
Proof.
  intros Hm Hd. unfold with_queue_lock, lock_guard. cbn. rewrite Hm, Hd.
  destruct d as [[[[]|x|f] q] e']; cbn; [| |done]; destruct s; cbn in *; by subst.
Qed.

Lemma PersistQueue_eq s (e : E) :
  queue_mutex_ s = false ->
  PersistQueueToDatabase (s, e) =
    if persist_callback_ s
    then released (drain (length (outgoing_queue_ s)) (name_ s) (outgoing_queue_ s) e) s
    else (Ret tt, (s, e)).
Proof.
  intros Hm. unfold PersistQueueToDatabase, bind at 1, self, gets. cbn.
  destruct (persist_callback_ s); [|done]. cbn [negb].
  apply with_queue_lock_drained; [done|]. unfold bind at 1. cbn [fst].
  destruct (outgoing_queue_ (set_queue_mutex true s)) as [|m q] eqn:Eq; cbn in Eq.
  - rewrite Eq. cbn. destruct s; cbn in *; by subst.
  - rewrite persist_while by (cbn; by rewrite Eq). cbn. by rewrite Eq.
Qed.

Lemma EnqueueMessage_eq m s (e : E) :
  queue_mutex_ s = false ->
  EnqueueMessage m (s, e) =
    let q := outgoing_queue_ s ++ [m] in
    released (drain (if (QUEUE_PERSIST_THRESHOLD <? length q)%nat && persist_callback_ s
                     then length q / 2 else 0) (name_ s) q e) s.
Proof.
  intros Hm. cbv zeta. unfold EnqueueMessage. apply with_queue_lock_drained; [done|].
  unfold bind at 1, upd, modify, bind at 1 2, self, gets. cbn [fst snd].
  change (outgoing_queue_ (set_queue_mutex true s)) with (outgoing_queue_ s).
  set (q := outgoing_queue_ s ++ [m]).
  cbn [outgoing_queue_ persist_callback_ name_ set_queue set_queue_mutex].
  destruct ((QUEUE_PERSIST_THRESHOLD <? length q)%nat && persist_callback_ s).
  - rewrite persist_for, length_seq. cbn [name_ outgoing_queue_ set_queue set_queue_mutex].
    by destruct (drain _ _ _ _) as [[r q'] e'].
  - cbn. by destruct q.
Qed.

(** ** Sending *)
Lemma Serialize_not_stuck en m f : Serialize en m <> Stuck f.
Proof. unfold Serialize. by repeat case_match. Qed.

(** What the sender is given for [m] by the session [s] at address [this]. *)
Definition send_zmq (this : nat) (s : Session) (data : list byte) : M E unit :=
  SendToClient (identity_ s) data (Some (mkCallback this (name_ s))).

(** The message could not be given to the sender: it does not serialise, or the sender
    threw. *)
Definition unsent (this : nat) (s : Session) (m : Message) (e e' : E) : Prop :=
  (e' = e /\ exists x, Serialize host_endian m = Throw x) \/
  (exists data x, Serialize host_endian m = Ret data /\ send_zmq this s data e = (Throw x, e')).

Inductive sent_all (this : nat) (s : Session) : list Message -> E -> E -> Prop :=
| sent_nil e : sent_all this s [] e e
| sent_cons m data l e e1 e2 :
    Serialize host_endian m = Ret data -> send_zmq this s data e = (Ret tt, e1) ->
    sent_all this s l e1 e2 -> sent_all this s (m :: l) e e2.

Lemma SendZmqMessage_outcome this m s (e : E) :
  (exists data e', Serialize host_endian m = Ret data /\ send_zmq this s data e = (Ret tt, e') /\
     SendZmqMessage this m (s, e) = (Ret tt, (s, e'))) \/
  (exists e', unsent this s m e e' /\
     SendZmqMessage this m (s, e) = (Ret tt, (set_online false s, e'))) \/
  (exists data f e', Serialize host_endian m = Ret data /\
     send_zmq this s data e = (Stuck f, e') /\
     SendZmqMessage this m (s, e) = (Stuck f, (s, e'))).
Proof.
  unfold SendZmqMessage, unsent, try_catch, bind, lift, self, gets, env. cbn.
  destruct (Serialize host_endian m) as [data|x|f] eqn:Es.
  - fold (send_zmq this s data). cbn.
    destruct (send_zmq this s data e) as [[[]|x|f] e'] eqn:Ed.
    + left. by exists data, e'.
    + right; left. exists e'. split; [|done]. right. by exists data, x.
    + right; right. by exists data, f, e'.
  - right; left. exists e. split; [|done]. left. split; [done|]. by exists x.
  - by destruct (Serialize_not_stuck host_endian m f).
Qed.

Lemma sent_all_queue this s q l e e' :
  sent_all this (set_queue q s) l e e' -> sent_all this s l e e'.
Proof. induction 1; econstructor; eauto. Qed.

Definition flush_turn (this : nat) : M (Session * E) ctl :=
  online <- IsOnline ;;
  if negb online then ret Break
  else m <- front ;; pop ;;; SendZmqMessage this m ;;; ret Continue.

Lemma flush_turn_online this s m q (e : E) :
  outgoing_queue_ s = m :: q -> is_online_ s = true ->
  flush_turn this (s, e) =
    (SendZmqMessage this m ;;; ret Continue) (set_queue q s, e).
Proof.
  intros Hq Ho. unfold flush_turn, IsOnline, front, pop, self, upd, gets, modify.
  unfold bind at 1. cbn. rewrite Ho. cbn. unfold bind at 1 2. cbn [fst]. rewrite Hq. cbn.
  unfold bind at 1. cbn. by rewrite Hq.
Qed.

(** Where a flush of the queue of [s] ends. *)
Definition flushed (this : nat) (s : Session) (e : E)
    (o : result unit * (Session * E)) : Prop :=
  exists sent rest e1,
    outgoing_queue_ s = sent ++ rest /\ sent_all this s sent e e1 /\
    match o with
    | (Ret _, (s', e')) =>
        (s' = set_queue rest s /\ e' = e1 /\ (rest = [] \/ is_online_ s = false)) \/
        (exists m rest', rest = m :: rest' /\ is_online_ s = true /\
           s' = set_online false (set_queue rest' s) /\ unsent this s m e1 e')
    | (Throw _, _) => False
    | (Stuck f, _) => exists m data rest', rest = m :: rest' /\
        Serialize host_endian m = Ret data /\ fst (send_zmq this s data e1) = Stuck f
    end.

Lemma flush_offline this n s (e : E) :
  is_online_ s = false -> (length (outgoing_queue_ s) <= n)%nat ->
  while_fuel n queue_nonempty (flush_turn this) (s, e) = (Ret tt, (s, e)).
Proof.
  intros Ho Hn. destruct n as [|n]; cbn [while_fuel]; unfold bind at 1;
    rewrite queue_nonempty_eq; destruct (outgoing_queue_ s) as [|m q]; cbn in Hn; try lia; try done.
  unfold flush_turn, IsOnline, bind, self, gets. cbn. by rewrite Ho.
Qed.

Lemma flush_loop this n s (e : E) :
  (length (outgoing_queue_ s) <= n)%nat ->
  flushed this s e (while_fuel n queue_nonempty (flush_turn this) (s, e)).
Proof.
  revert s e. induction n as [|n IH]; intros s e Hn; destruct (outgoing_queue_ s) as [|m q] eqn:Eq;
    cbn in Hn; try lia; cbn [while_fuel]; unfold bind at 1; rewrite queue_nonempty_eq, Eq.
  1,2: exists [], [], e; rewrite Eq; split_and!; [done|constructor|];
    left; by rewrite <- Eq, set_queue_same; auto.
  unfold bind. destruct (is_online_ s) eqn:Eo.
  2:{ exists [], (m :: q), e. unfold flush_turn, IsOnline, bind, self, gets. cbn. rewrite Eo. cbn.
      split_and!; [done|constructor|]. left. by rewrite <- Eq, set_queue_same; auto. }
  rewrite (flush_turn_online this s m q) by done. unfold bind.
  destruct (SendZmqMessage_outcome this m (set_queue q s) e)
    as [(data & e' & Es & Ed & ->)|[(e' & Hu & ->)|(data & f & e' & Es & Ed & ->)]]; cbn [ret].
  - destruct (IH (set_queue q s) e') as (sent & rest & e1 & Hq & Ha & Ho); [cbn; lia|].
    cbn in Hq. exists (m :: sent), rest, e1. rewrite Eq.
    split; [by rewrite Hq|].
    split; [econstructor; [done..|by eapply sent_all_queue]|].
    destruct (while_fuel _ _ _ _) as [[[]|x|f] [s' e'']]; [|done|exact Ho].
    destruct Ho as [(-> & -> & Ho)|(m' & rest' & -> & _ & -> & Hu)].
    + left. split; [done|]. split; [done|]. destruct Ho as [Ho|Ho]; [by left|].
      cbn in Ho. congruence.
    + right. by exists m', rest'.
  - exists [], (m :: q), e. split; [done|]. split; [constructor|].
    rewrite flush_offline by (cbn; lia).
    right. by exists m, q.
  - exists [], (m :: q), e. split; [done|]. split; [constructor|].
    exists m, data, q. split; [done|]. split; [done|]. exact (f_equal fst Ed).
Qed.

Lemma flush_queue_outcome this s (e : E) :
  queue_mutex_ s = false -> flushed this s e (FlushQueue this (s, e)).
Proof.
  intros Hm. unfold FlushQueue, with_queue_lock, lock_guard. cbn [fst]. rewrite Hm. cbn [fst snd].
  unfold bind at 1, self, gets. cbn [fst]. fold (flush_turn this).
  destruct (flush_loop this (length (outgoing_queue_ (set_queue_mutex true s)))
              (set_queue_mutex true s) e) as (sent & rest & e1 & Hq & Ha & Ho); [done|].
  exists sent, rest, e1. split; [done|]. split.
  { clear -Ha. induction Ha; econstructor; eauto. }
  destruct (while_fuel _ _ _ _) as [[[]|x|f] [s' e']]; [|done|exact Ho].
  destruct Ho as [(-> & -> & Ho)|(m & rest' & -> & Hon & -> & Hu)].
  - left. split; [|done]. destruct s; cbn in *; by subst.
  - right. exists m, rest'. split; [done|]. split; [done|]. split; [|done].
    destruct s; cbn in *; by subst.
Qed.

(** ** Properties *)

(** Persisting the queue: the messages are handed to the callback front first, each
    once, until the queue is empty; if the callback throws, the message it threw on
    and all behind it are still queued, in order, and the mutex is free again.  The
    loop ends: the only way not to come back is that the callback does not. *)
Lemma PersistQueue_outcome s (e : E) :
  queue_mutex_ s = false -> persist_callback_ s = true ->
  exists done rest e1,
    outgoing_queue_ s = done ++ rest /\ handed (name_ s) done e e1 /\
    match PersistQueueToDatabase (s, e) with
    | (Ret _, (s', e')) => rest = [] /\ s' = set_queue [] s /\ e' = e1
    | (Throw x, (s', e')) => s' = set_queue rest s /\ exists m rest', rest = m :: rest' /\
        persist_message (name_ s) m e1 = (Throw x, e')
    | (Stuck f, _) => exists m rest', rest = m :: rest' /\
        fst (persist_message (name_ s) m e1) = Stuck f
    end.
Proof.
  intros Hm Hc. rewrite PersistQueue_eq, Hc by done.
  destruct (drain _ _ _ e) as [[r rest] e'] eqn:Ed.
  apply drain_handed in Ed as (done & e1 & Hq & Hh & Hr). exists done, rest, e1.
  split; [done|]. split; [done|]. destruct r as [[]|x|f]; cbn.
  - destruct Hr as [-> Hl]. rewrite Hq, length_app in Hl.
    destruct rest as [|m rest]; [done|]. cbn in Hl. lia.
  - destruct Hr as (_ & m & rest' & -> & Hf & <-). split; [done|]. exists m, rest'.
    split; [done|]. destruct (persist_message (name_ s) m e1); cbn in *; by subst.
  - destruct Hr as (_ & m & rest' & -> & Hf & _). by exists m, rest'.
Qed.

(** Sending to a session that is offline: the message joins the back of the queue
    and the call answers [true].  Only when the queue then holds more than 100 messages,
    and a callback is set, is its front half handed to the callback, in order; what was
    handed over and what is still queued make up the old queue and the message, also
    when the callback throws.  A bound of 100 on the queue is kept as long as the
    callback returns. *)
Lemma SendMessage_offline this m s (e : E) :
  queue_mutex_ s = false -> is_online_ s = false ->
  exists done rest e1,
    outgoing_queue_ s ++ [m] = done ++ rest /\ handed (name_ s) done e e1 /\
    ((length (outgoing_queue_ s) < 100)%nat \/ persist_callback_ s = false -> done = []) /\
    match SendMessage this m (s, e) with
    | (Ret b, (s', e')) => b = true /\ e' = e1 /\
        s' = set_queue rest (set_last_activity (steady_now e) s) /\
        (persist_callback_ s = true -> (length (outgoing_queue_ s) <= 100)%nat ->
         (length rest <= 100)%nat)
    | (Throw x, (s', e')) => s' = set_queue rest (set_last_activity (steady_now e) s) /\
        exists m' rest', rest = m' :: rest' /\ persist_message (name_ s) m' e1 = (Throw x, e')
    | (Stuck f, _) => exists m' rest', rest = m' :: rest' /\
        fst (persist_message (name_ s) m' e1) = Stuck f
    end.
Proof.
  intros Hm Ho. unfold SendMessage, UpdateLastActivity, IsOnline, self, gets, modify.
  unfold bind at 1 2. cbn [fst snd]. set (s1 := set_last_activity (steady_now e) s).
  change (is_online_ s1) with (is_online_ s). rewrite Ho. cbn [negb].
  unfold bind. rewrite EnqueueMessage_eq by done. cbv zeta.
  change (outgoing_queue_ s1) with (outgoing_queue_ s). change (name_ s1) with (name_ s).
  change (persist_callback_ s1) with (persist_callback_ s).
  set (q := outgoing_queue_ s ++ [m]).
  assert (length q = Datatypes.S (length (outgoing_queue_ s))) as Hl
    by (subst q; rewrite length_app; cbn; lia).
  set (n := if (_ && _)%bool then _ else _).
  assert (n = 0%nat \/ (n = length q / 2)%nat /\ (100 < length q)%nat /\
          persist_callback_ s = true) as Hn.
  { subst n. unfold QUEUE_PERSIST_THRESHOLD. destruct (Nat.ltb_spec 100 (length q)),
      (persist_callback_ s); auto. }
  assert (persist_callback_ s = true -> (100 < length q)%nat -> n = (length q / 2)%nat) as Hn'.
  { intros Hc Hlt. subst n. unfold QUEUE_PERSIST_THRESHOLD.
    by rewrite Hc, (proj2 (Nat.ltb_lt _ _) Hlt). }
  clearbody n. pose proof (Nat.Div0.div_mod (length q) 2) as Hdiv.
  pose proof (Nat.mod_upper_bound (length q) 2) as Hmod.
  destruct (drain n (name_ s) q e) as [[r rest] e'] eqn:Ed.
  apply drain_handed in Ed as (done & e1 & Hq & Hh & Hr). exists done, rest, e1.
  split; [done|]. split; [done|].
  assert (length q = length done + length rest)%nat as Hlq by (by rewrite Hq, length_app).
  split.
  { intros Hd. assert (n = 0%nat) as Hn0.
    { destruct Hn as [Hn|(_ & Hlt & Hc)]; [done|]. destruct Hd; [lia|congruence]. }
    apply nil_length_inv. destruct r as [[]|x|f]; destruct Hr as [H1 H2]; lia. }
  destruct r as [[]|x|f]; cbn.
  - destruct Hr as [-> Hd]. split_and!; [done..|]. intros Hc Hb.
    destruct (decide (100 < length q)%nat) as [Hlt|]; [specialize (Hn' Hc Hlt)|]; lia.
  - destruct Hr as (_ & m' & rest' & -> & Hf & <-). split; [done|]. exists m', rest'.
    split; [done|]. destruct (persist_message (name_ s) m' e1); cbn in *; by subst.
  - destruct Hr as (_ & m' & rest' & -> & Hf & _). by exists m', rest'.
Qed.

(** Sending to a session that is online: the call answers [true] whatever happens.
    Either the serialised message was given to the sender, once, under the session's
    identity, or it was not, and then the session is marked offline and the message is
    neither sent nor queued. *)
Lemma SendMessage_online this m s (e : E) :
  is_online_ s = true ->
  match SendMessage this m (s, e) with
  | (Ret b, (s', e')) => b = true /\
      let s1 := set_last_activity (steady_now e) s in
      (s' = s1 /\ exists data, Serialize host_endian m = Ret data /\
                  send_zmq this s data e = (Ret tt, e')) \/
      (s' = set_online false s1 /\ unsent this s m e e')
  | (Throw _, _) => False
  | (Stuck f, _) => exists data, Serialize host_endian m = Ret data /\
      fst (send_zmq this s data e) = Stuck f
  end.
Proof.
  intros Ho. unfold SendMessage, UpdateLastActivity, IsOnline, self, gets, modify.
  unfold bind at 1 2. cbn [fst snd]. set (s1 := set_last_activity (steady_now e) s).
  change (is_online_ s1) with (is_online_ s). rewrite Ho. cbn [negb]. unfold bind.
  destruct (SendZmqMessage_outcome this m s1 e)
    as [(data & e' & Es & Ed & ->)|[(e' & Hu & ->)|(data & f & e' & Es & Ed & ->)]].
  - split; [done|]. left. split; [done|]. by exists data.
  - split; [done|]. by right.
  - exists data. split; [done|]. change (fst (send_zmq this s1 data e) = Stuck f). by rewrite Ed.
Qed.

(** Flushing: the queued messages are given to the sender front first until the queue
    is empty or the session is offline.  A flush that starts online stops early only at
    a message it could not give to the sender: that one is gone, those behind it are
    still queued, and the session is offline.  No message is reordered, sent twice or
    dropped otherwise, and the loop ends. *)
Lemma FlushQueue_outcome this s (e : E) :
  queue_mutex_ s = false ->
  flushed this s e (FlushQueue this (s, e)).
Proof. apply flush_queue_outcome. Qed.
End SessionProps.

(** ** What no member function changes

    [session_inv s0 J]: the object is still the session [s0] (same identity, name and
    callback), its mutex is free, and the rest of the program satisfies [J].  Every
    member function keeps it, if the sender and the callback keep [J]. *)
Definition same_session (s0 s : Session) : Prop :=
  identity_ s = identity_ s0 /\ name_ s = name_ s0 /\
  persist_callback_ s = persist_callback_ s0.

Section SessionKeeps.
Context `{Host} {E : Type} `{SessionEnv E}.

Definition session_inv (s0 : Session) (J : E -> Prop) (s : Session * E) : Prop :=
  same_session s0 (fst s) /\ queue_mutex_ (fst s) = false /\ J (snd s).

Context (F : stuck -> Prop) (s0 : Session) (J : E -> Prop).
Hypothesis sender_keeps : forall i d c, keeps J F (SendToClient i d c).
Hypothesis persist_keeps : forall n m, keeps J F (persist_message n m).

Lemma drain_keeps n name q (e : E) :
  J e -> match drain n name q e with (Stuck f, _, _) => F f | (_, _, e') => J e' end.
Proof using persist_keeps.
  revert q e. induction n as [|n IH]; intros q e He; [by destruct q|].
  destruct q as [|m q]; cbn; [done|].
  pose proof (persist_keeps name m e He) as Hp. unfold wp in Hp.
  destruct (persist_message name m e) as [[[]|x|f] e']; [by apply IH|done|done].
Qed.

Lemma released_keeps n name q s (e : E) :
  session_inv s0 J (s, e) ->
  match released (drain n name q e) s with
  | (Stuck f, _) => F f
  | (_, s') => session_inv s0 J s'
  end.
Proof using persist_keeps.
  intros (Hs & Hm & He). pose proof (drain_keeps n name q e He) as Hd.
  destruct (drain n name q e) as [[[[]|x|f] rest] e']; by cbn.
Qed.

Lemma keeps_PersistQueue : keeps (session_inv s0 J) F PersistQueueToDatabase.
Proof using persist_keeps.
  intros [s e] Hs. unfold wp. rewrite PersistQueue_eq by apply Hs.
  destruct (persist_callback_ s); [|done].
  pose proof (released_keeps (length (outgoing_queue_ s)) (name_ s) (outgoing_queue_ s) s e Hs).
  by destruct (released _ _) as [[]?].
Qed.

Lemma keeps_EnqueueMessage m : keeps (session_inv s0 J) F (EnqueueMessage m).
Proof using persist_keeps.
  intros [s e] Hs. unfold wp. rewrite EnqueueMessage_eq by apply Hs. cbv zeta.
  set (n := if (_ && _)%bool then _ else _).
  pose proof (released_keeps n (name_ s) (outgoing_queue_ s ++ [m]) s e Hs).
  by destruct (released _ _) as [[]?].
Qed.

Lemma keeps_upd f :
  (forall s, same_session s0 s -> queue_mutex_ s = false ->
     same_session s0 (f s) /\ queue_mutex_ (f s) = false) ->
  keeps (session_inv s0 J) F (upd f).
Proof using.
  intros Hf. apply keeps_modify. intros [s e] (Hs & Hm & He).
  destruct (Hf s Hs Hm) as [Hs' Hm']. split; [exact Hs'|]. by split.
Qed.

Lemma keeps_MarkOffline : keeps (session_inv s0 J) F MarkOffline.
Proof using. by apply keeps_upd. Qed.

Lemma keeps_UpdateLastReceive : keeps (session_inv s0 J) F UpdateLastReceive.
Proof using. by apply keeps_modify. Qed.

Lemma keeps_UpdateLastActivity : keeps (session_inv s0 J) F UpdateLastActivity.
Proof using. by apply keeps_modify. Qed.

Lemma keeps_self {A} (f : Session -> A) : keeps (session_inv s0 J) F (self f).
Proof using. apply keeps_gets. Qed.

Lemma keeps_GetQueueSize : keeps (session_inv s0 J) F GetQueueSize.
Proof using.
  intros [s e] (Hs & Hm & He). apply wp_lock_guard; [done|]. cbn. split_and!; try done.
Qed.

Lemma keeps_SendZmqMessage this m : keeps (session_inv s0 J) F (SendZmqMessage this m).
Proof using sender_keeps.
  apply keeps_try_catch; [|intros _; apply keeps_MarkOffline].
  apply keeps_bind; [|intros data].
  { apply keeps_lift. destruct (Serialize host_endian m) eqn:E1; try done.
    by destruct (Serialize_not_stuck host_endian m f). }
  apply keeps_bind; [apply keeps_self|intros i]. apply keeps_bind; [apply keeps_self|intros n].
  intros [s e] (Hs & Hm & He). pose proof (sender_keeps i data (Some (mkCallback this n)) e He) as Hk.
  unfold wp, env in *. cbn. by destruct (SendToClient _ _ _ e) as [[]?].
Qed.

Lemma keeps_SendMessage this m : keeps (session_inv s0 J) F (SendMessage this m).
Proof using sender_keeps persist_keeps.
  apply keeps_bind; [apply keeps_UpdateLastActivity|intros _].
  apply keeps_bind; [apply keeps_self|intros online]. destruct online; cbn [negb].
  - apply keeps_bind; [apply keeps_SendZmqMessage|intros _; apply keeps_pure].
  - apply keeps_bind; [apply keeps_EnqueueMessage|intros _; apply keeps_pure].
Qed.

Lemma sent_all_keeps this s l e e' : sent_all this s l e e' -> J e -> J e'.
Proof using sender_keeps.
  induction 1 as [|m data l e e1 e2 _ Hd _ IH]; [done|]. intros He. apply IH.
  pose proof (sender_keeps (identity_ s) data (Some (mkCallback this (name_ s))) e He) as Hk.
  unfold wp in Hk. fold (send_zmq this s data) in Hk. by rewrite Hd in Hk.
Qed.

Lemma unsent_keeps this s m e e' : unsent this s m e e' -> J e -> J e'.
Proof using sender_keeps.
  intros [[-> _]|(data & x & _ & Hd)] He; [done|].
  pose proof (sender_keeps (identity_ s) data (Some (mkCallback this (name_ s))) e He) as Hk.
  unfold wp in Hk. fold (send_zmq this s data) in Hk. by rewrite Hd in Hk.
Qed.

Lemma keeps_FlushQueue this : keeps (session_inv s0 J) F (FlushQueue this).
Proof using sender_keeps.
  intros [s e] (Hs & Hm & He). unfold wp.
  destruct (flush_queue_outcome this s e Hm) as (sent & rest & e1 & Hq & Ha & Ho).
  apply sent_all_keeps in Ha; [|done].
  destruct (FlushQueue this (s, e)) as [[[]|x|f] [s' e']]; [|done|].
  - destruct Ho as [(-> & -> & _)|(m & rest' & _ & _ & -> & Hu)]; [done|].
    by apply unsent_keeps in Hu.
  - destruct Ho as (m & data & rest' & _ & _ & Hf).
    pose proof (sender_keeps (identity_ s) data (Some (mkCallback this (name_ s))) e1 Ha) as Hk.
    unfold wp in Hk. fold (send_zmq this s data) in Hk.
    destruct (send_zmq this s data e1) as [[]?]; cbn in Hf; by simplify_eq.
Qed.
End SessionKeeps.

(** ** What the program sees of a member function

    A member function relates the states of the rest of the program by whatever the
    sender and the callback do. *)
Section SessionPreserves.
Context `{Host} {E : Type} `{SessionEnv E} (R : E -> E -> Prop) `{!PreOrder R}.
Hypothesis sender_R : forall i d c, preserves R (SendToClient i d c).
Hypothesis persist_R : forall n m, preserves R (persist_message n m).

Definition program_R (s s' : Session * E) : Prop := R (snd s) (snd s').

#[local] Instance program_R_preorder : PreOrder program_R.
Proof using PreOrder0.
  split; [intros [s e]; unfold program_R; reflexivity|].
  intros s1 s2 s3. unfold program_R. intros. by transitivity (snd s2).
Qed.

Lemma program_env {A} (m : M E A) : preserves R m -> preserves program_R (env m).
Proof using. intros Hm [s e]. unfold env, program_R. specialize (Hm e). cbn. by destruct (m e). Qed.

Ltac program := repeat unfold UpdateLastActivity, UpdateLastReceive, MarkOffline, IsOnline,
  with_queue_lock, persist_front, front, pop, queue_nonempty, self, upd;
  solve_preserves ltac:(first
    [ apply program_env; done
    | refine (preserves_modify _ _ _); intros [? ?]; unfold program_R; reflexivity
    | intros ? [? ?]; unfold program_R; reflexivity ]).

Lemma program_PersistQueue : preserves program_R PersistQueueToDatabase.
Proof using persist_R PreOrder0. unfold PersistQueueToDatabase. program. Qed.

Lemma program_EnqueueMessage m : preserves program_R (EnqueueMessage m).
Proof using persist_R PreOrder0. unfold EnqueueMessage. program. Qed.

Lemma program_SendMessage this m : preserves program_R (SendMessage this m).
Proof using sender_R persist_R PreOrder0.
  unfold SendMessage, SendZmqMessage. pose proof program_EnqueueMessage. program; auto.
Qed.

Lemma program_FlushQueue this : preserves program_R (FlushQueue this).
Proof using sender_R PreOrder0. unfold FlushQueue, SendZmqMessage. program. Qed.

Lemma program_modify f : (forall s, snd (f s) = snd s) -> preserves program_R (modify f).
Proof using PreOrder0.
  intros Hf. apply preserves_modify. intros s. unfold program_R. rewrite Hf. reflexivity.
Qed.
End SessionPreserves.

(** ** Examples

    A program that records what the session gives it, and whose database can fail. *)
Record Log : Type := mkLog {
  log_now : Z;
  log_sent : list (string * list byte * option SendCallback);
  log_persisted : list (string * Message);
  log_db_up : bool;
}.

#[local] Instance log_env : SessionEnv Log := {
  steady_now := log_now;
  SendToClient i d c := modify (fun e =>
    mkLog (log_now e) (log_sent e ++ [(i, d, c)]) (log_persisted e) (log_db_up e));
  persist_message n m := fun e =>
    if log_db_up e
    then (Ret tt, mkLog (log_now e) (log_sent e) (log_persisted e ++ [(n, m)]) (log_db_up e))
    else (Throw (runtime_error "db"), e);
}.

Definition little_host : Host :=
  {| host_endian := LittleEndian; glibcxx_assertions := false |}.
#[local] Existing Instance little_host.

Definition numbered (c : Z) : Message := SetCorrelationId c Message_default.
Definition bob : Session := mkSession "id-bob" "bob" true [] false 0 0 true.
Definition bob_queued (n : nat) : Session := set_queue (map (fun i => numbered (Z.of_nat i)) (seq 1 n)) bob.
Definition log0 : Log := mkLog 5 [] [] true.

Lemma PersistQueue_outcome_witness :
  exists e', PersistQueueToDatabase (bob_queued 2, log0) = (Ret tt, (bob, e')) /\
    handed "bob" [numbered 1; numbered 2] log0 e'.
Proof.
  destruct (PersistQueue_outcome (bob_queued 2) log0 eq_refl eq_refl)
    as (done & rest & e1 & Hq & Hh & Ho).
  assert (fst (PersistQueueToDatabase (bob_queued 2, log0)) = Ret tt) as Er
    by (vm_compute; reflexivity).
  destruct (PersistQueueToDatabase (bob_queued 2, log0)) as [r [s' e']]. cbn in Er. subst r.
  destruct Ho as (-> & -> & ->). rewrite app_nil_r in Hq. subst done.
  exists e1. split; [reflexivity|exact Hh].
Defined.

Lemma SendMessage_offline_witness :
  exists s' e', SendMessage 0 (numbered 101) (set_online false (bob_queued 100), log0) =
      (Ret true, (s', e')) /\
    (length (outgoing_queue_ s') <= 100)%nat.
Proof.
  destruct (SendMessage_offline 0 (numbered 101) (set_online false (bob_queued 100)) log0
              eq_refl eq_refl) as (done & rest & e1 & _ & _ & _ & Ho).
  assert (fst (SendMessage 0 (numbered 101) (set_online false (bob_queued 100), log0)) = Ret true)
    as Er by (vm_compute; reflexivity).
  destruct (SendMessage 0 (numbered 101) (set_online false (bob_queued 100), log0))
    as [r [s' e']]. cbn in Er. subst r.
  destruct Ho as (_ & _ & -> & Hb). eexists _, _. split; [reflexivity|]. apply Hb.
  - reflexivity.
  - vm_compute. lia.
Defined.

Lemma SendMessage_online_witness :
  is_online_ bob = true /\
  exists s' e', SendMessage 7 (numbered 1) (bob, log0) = (Ret true, (s', e')) /\
    length (log_sent e') = 1%nat.
Proof.
  split; [reflexivity|].
  pose proof (SendMessage_online 7 (numbered 1) bob log0 eq_refl) as Ho.
  assert (let o := SendMessage 7 (numbered 1) (bob, log0) in
          is_stuck (fst o) = false /\ length (log_sent (snd (snd o))) = 1%nat) as [Er Es]
    by (vm_compute; split; reflexivity).
  destruct (SendMessage 7 (numbered 1) (bob, log0)) as [[b|x|f] [s' e']];
    [|destruct Ho|discriminate].
  destruct Ho as [-> _]. exists s', e'. split; [reflexivity|exact Es].
Defined.

Lemma FlushQueue_outcome_witness :
  exists sent rest e1, map (fun i => numbered (Z.of_nat i)) (seq 1 3) = sent ++ rest /\
    sent_all 7 (bob_queued 3) sent log0 e1 /\ rest = [].
Proof.
  destruct (FlushQueue_outcome 7 (bob_queued 3) log0 eq_refl) as (sent & rest & e1 & Hq & Ha & Ho).
  exists sent, rest, e1. split; [exact Hq|]. split; [exact Ha|].
  assert (let o := FlushQueue 7 (bob_queued 3, log0) in
          fst o = Ret tt /\ is_online_ (fst (snd o)) = true) as [Er Eo]
    by (vm_compute; split; reflexivity).
  destruct (FlushQueue 7 (bob_queued 3, log0)) as [r [s' e']]. cbn in Er, Eo. subst r.
  destruct Ho as [(_ & _ & [Hr|Ho])|(m & rest' & _ & _ & Hs & _)];
    [exact Hr|discriminate|rewrite Hs in Eo; discriminate].
Defined.

(** A message that does not serialise: the call says [true], the message is nowhere. *)
Example unserialisable_is_lost :
  SendMessage 7 (SetSender (string_of_bytes (repeat x61 256)) Message_default) (bob, log0) =
    (Ret true, (set_online false (set_last_activity 5 bob), log0)).
Proof. vm_compute. reflexivity. Qed.
