(* ===== verification/World.v ===== *)
(** The state of the running broker, and the parts of [class Server] and
    [class Router] every other operation goes through.

    [World] holds what the threads of the process share: the message store (any
    implementation of [IStorage]), the [Session] objects on the heap under their
    addresses, the registry of [Router] ([active_clients_], [identity_to_name_],
    [registry_mutex_]), the send queue and flags of [Server], the ZeroMQ socket, the
    metrics, the configuration and the steady clock.

    A [std::shared_ptr<Session>] is an address.  What keeps a session alive is an
    entry of [active_clients_] or a pointer on the stack of the running call
    ([locals]): a function that returns a [shared_ptr] leaves its result on top of
    [locals], the variable it initialises; leaving the scope pops it ([scoped]), and
    dropping the last reference runs the destructor.  A session that is used after
    that is [UseAfterFree].

    Of Boost.Asio the model keeps what the handlers decide: the number of posted
    send handlers ([posted]), whether the socket's descriptor is being waited for
    ([waiting]), the deadlines of the two timers, the work guard, and whether the
    context was stopped.

    The ZeroMQ socket is outside the repository: the frames it will deliver
    ([inbox]), whether the next calls that read it throw ([recv_errors], then never)
    and whether it takes the next frames it is given ([send_results], then
    always) are arbitrary lists; [wire] is what it took. *)
From Stdlib Require Import ZArith Lia Strings.Byte.
From S2P Require Import Prelude Words Message Interfaces Config Metrics Session.
Open Scope Z_scope.
Open Scope broker_scope.

Record PendingSend : Type := mkSend {
  identity : string;
  data : list byte;
  callback : option SendCallback;
}.

Inductive send_result : Type := SendOk | SendAgain | SendError.

(** A frame and its [sndmore] flag. *)
Record frame : Type := mkFrame { frame_bytes : list byte; sndmore : bool }.

Record Socket : Type := mkSocket {
  inbox : list (list byte);
  recv_errors : list bool;
  send_results : list send_result;
  wire : list frame;
  socket_open : bool;
}.

(** The order in which a range-based [for] visits a [std::unordered_map]. *)
Class HashOrder : Type := {
  hash_order : forall {A : Type}, gmap string A -> list (string * A);
  hash_order_perm : forall A (m : gmap string A), hash_order m ≡ₚ map_to_list m;
}.

Record World (St : Type) : Type := mkWorld {
  storage_ : St;
  storage_alive : bool;
  sessions : gmap nat Session;
  next_address : nat;
  locals : list (option nat);
  active_clients_ : gmap string nat;
  identity_to_name_ : gmap string string;
  registry_mutex_ : bool;
  pending_sends_ : list PendingSend;
  pending_sends_mutex_ : bool;
  sending_in_progress_ : bool;
  posted : nat;
  running_ : bool;
  socket : Socket;
  waiting : bool;
  cleanup_timer_ : option Z;
  ack_timeout_timer_ : option Z;
  work_guard_ : bool;
  io_stopped : bool;
  metrics_ : option Metrics;
  config_ : Config;
  clock_ : Z;
}.
Arguments storage_ {St} _.
Arguments storage_alive {St} _.
Arguments sessions {St} _.
Arguments next_address {St} _.
Arguments locals {St} _.
Arguments active_clients_ {St} _.
Arguments identity_to_name_ {St} _.
Arguments registry_mutex_ {St} _.
Arguments pending_sends_ {St} _.
Arguments pending_sends_mutex_ {St} _.
Arguments sending_in_progress_ {St} _.
Arguments posted {St} _.
Arguments running_ {St} _.
Arguments socket {St} _.
Arguments waiting {St} _.
Arguments cleanup_timer_ {St} _.
Arguments ack_timeout_timer_ {St} _.
Arguments work_guard_ {St} _.
Arguments io_stopped {St} _.
Arguments metrics_ {St} _.
Arguments config_ {St} _.
Arguments clock_ {St} _.
Arguments mkWorld {St} _ _ _ _ _ _ _ _ _ _ _ _ _ _ _ _ _ _ _ _ _ _.

Section Setters.
Context {St : Type}.
Definition set_storage (v : St) (w : World St) : World St :=
  mkWorld v (storage_alive w) (sessions w) (next_address w) (locals w) (active_clients_
    w) (identity_to_name_ w) (registry_mutex_ w) (pending_sends_ w)
    (pending_sends_mutex_ w) (sending_in_progress_ w) (posted w) (running_ w) (socket w)
    (waiting w) (cleanup_timer_ w) (ack_timeout_timer_ w) (work_guard_ w) (io_stopped w)
    (metrics_ w) (config_ w) (clock_ w).
Definition set_storage_alive (v : bool) (w : World St) : World St :=
  mkWorld (storage_ w) v (sessions w) (next_address w) (locals w) (active_clients_ w)
    (identity_to_name_ w) (registry_mutex_ w) (pending_sends_ w) (pending_sends_mutex_
    w) (sending_in_progress_ w) (posted w) (running_ w) (socket w) (waiting w)
    (cleanup_timer_ w) (ack_timeout_timer_ w) (work_guard_ w) (io_stopped w) (metrics_
    w) (config_ w) (clock_ w).
Definition set_sessions (v : gmap nat Session) (w : World St) : World St :=
  mkWorld (storage_ w) (storage_alive w) v (next_address w) (locals w) (active_clients_
    w) (identity_to_name_ w) (registry_mutex_ w) (pending_sends_ w)
    (pending_sends_mutex_ w) (sending_in_progress_ w) (posted w) (running_ w) (socket w)
    (waiting w) (cleanup_timer_ w) (ack_timeout_timer_ w) (work_guard_ w) (io_stopped w)
    (metrics_ w) (config_ w) (clock_ w).
Definition set_next_address (v : nat) (w : World St) : World St :=
  mkWorld (storage_ w) (storage_alive w) (sessions w) v (locals w) (active_clients_ w)
    (identity_to_name_ w) (registry_mutex_ w) (pending_sends_ w) (pending_sends_mutex_
    w) (sending_in_progress_ w) (posted w) (running_ w) (socket w) (waiting w)
    (cleanup_timer_ w) (ack_timeout_timer_ w) (work_guard_ w) (io_stopped w) (metrics_
    w) (config_ w) (clock_ w).
Definition set_locals (v : list (option nat)) (w : World St) : World St :=
  mkWorld (storage_ w) (storage_alive w) (sessions w) (next_address w) v
    (active_clients_ w) (identity_to_name_ w) (registry_mutex_ w) (pending_sends_ w)
    (pending_sends_mutex_ w) (sending_in_progress_ w) (posted w) (running_ w) (socket w)
    (waiting w) (cleanup_timer_ w) (ack_timeout_timer_ w) (work_guard_ w) (io_stopped w)
    (metrics_ w) (config_ w) (clock_ w).
Definition set_active_clients (v : gmap string nat) (w : World St) : World St :=
  mkWorld (storage_ w) (storage_alive w) (sessions w) (next_address w) (locals w) v
    (identity_to_name_ w) (registry_mutex_ w) (pending_sends_ w) (pending_sends_mutex_
    w) (sending_in_progress_ w) (posted w) (running_ w) (socket w) (waiting w)
    (cleanup_timer_ w) (ack_timeout_timer_ w) (work_guard_ w) (io_stopped w) (metrics_
    w) (config_ w) (clock_ w).
Definition set_identity_to_name (v : gmap string string) (w : World St) : World St :=
  mkWorld (storage_ w) (storage_alive w) (sessions w) (next_address w) (locals w)
    (active_clients_ w) v (registry_mutex_ w) (pending_sends_ w) (pending_sends_mutex_
    w) (sending_in_progress_ w) (posted w) (running_ w) (socket w) (waiting w)
    (cleanup_timer_ w) (ack_timeout_timer_ w) (work_guard_ w) (io_stopped w) (metrics_
    w) (config_ w) (clock_ w).
Definition set_registry_mutex (v : bool) (w : World St) : World St :=
  mkWorld (storage_ w) (storage_alive w) (sessions w) (next_address w) (locals w)
    (active_clients_ w) (identity_to_name_ w) v (pending_sends_ w) (pending_sends_mutex_
    w) (sending_in_progress_ w) (posted w) (running_ w) (socket w) (waiting w)
    (cleanup_timer_ w) (ack_timeout_timer_ w) (work_guard_ w) (io_stopped w) (metrics_
    w) (config_ w) (clock_ w).
Definition set_pending_sends (v : list PendingSend) (w : World St) : World St :=
  mkWorld (storage_ w) (storage_alive w) (sessions w) (next_address w) (locals w)
    (active_clients_ w) (identity_to_name_ w) (registry_mutex_ w) v
    (pending_sends_mutex_ w) (sending_in_progress_ w) (posted w) (running_ w) (socket w)
    (waiting w) (cleanup_timer_ w) (ack_timeout_timer_ w) (work_guard_ w) (io_stopped w)
    (metrics_ w) (config_ w) (clock_ w).
Definition set_pending_sends_mutex (v : bool) (w : World St) : World St :=
  mkWorld (storage_ w) (storage_alive w) (sessions w) (next_address w) (locals w)
    (active_clients_ w) (identity_to_name_ w) (registry_mutex_ w) (pending_sends_ w) v
    (sending_in_progress_ w) (posted w) (running_ w) (socket w) (waiting w)
    (cleanup_timer_ w) (ack_timeout_timer_ w) (work_guard_ w) (io_stopped w) (metrics_
    w) (config_ w) (clock_ w).
Definition set_sending_in_progress (v : bool) (w : World St) : World St :=
  mkWorld (storage_ w) (storage_alive w) (sessions w) (next_address w) (locals w)
    (active_clients_ w) (identity_to_name_ w) (registry_mutex_ w) (pending_sends_ w)
    (pending_sends_mutex_ w) v (posted w) (running_ w) (socket w) (waiting w)
    (cleanup_timer_ w) (ack_timeout_timer_ w) (work_guard_ w) (io_stopped w) (metrics_
    w) (config_ w) (clock_ w).
Definition set_posted (v : nat) (w : World St) : World St :=
  mkWorld (storage_ w) (storage_alive w) (sessions w) (next_address w) (locals w)
    (active_clients_ w) (identity_to_name_ w) (registry_mutex_ w) (pending_sends_ w)
    (pending_sends_mutex_ w) (sending_in_progress_ w) v (running_ w) (socket w) (waiting
    w) (cleanup_timer_ w) (ack_timeout_timer_ w) (work_guard_ w) (io_stopped w)
    (metrics_ w) (config_ w) (clock_ w).
Definition set_running (v : bool) (w : World St) : World St :=
  mkWorld (storage_ w) (storage_alive w) (sessions w) (next_address w) (locals w)
    (active_clients_ w) (identity_to_name_ w) (registry_mutex_ w) (pending_sends_ w)
    (pending_sends_mutex_ w) (sending_in_progress_ w) (posted w) v (socket w) (waiting
    w) (cleanup_timer_ w) (ack_timeout_timer_ w) (work_guard_ w) (io_stopped w)
    (metrics_ w) (config_ w) (clock_ w).
Definition set_socket (v : Socket) (w : World St) : World St :=
  mkWorld (storage_ w) (storage_alive w) (sessions w) (next_address w) (locals w)
    (active_clients_ w) (identity_to_name_ w) (registry_mutex_ w) (pending_sends_ w)
    (pending_sends_mutex_ w) (sending_in_progress_ w) (posted w) (running_ w) v (waiting
    w) (cleanup_timer_ w) (ack_timeout_timer_ w) (work_guard_ w) (io_stopped w)
    (metrics_ w) (config_ w) (clock_ w).
Definition set_waiting (v : bool) (w : World St) : World St :=
  mkWorld (storage_ w) (storage_alive w) (sessions w) (next_address w) (locals w)
    (active_clients_ w) (identity_to_name_ w) (registry_mutex_ w) (pending_sends_ w)
    (pending_sends_mutex_ w) (sending_in_progress_ w) (posted w) (running_ w) (socket w)
    v (cleanup_timer_ w) (ack_timeout_timer_ w) (work_guard_ w) (io_stopped w) (metrics_
    w) (config_ w) (clock_ w).
Definition set_cleanup_timer (v : option Z) (w : World St) : World St :=
  mkWorld (storage_ w) (storage_alive w) (sessions w) (next_address w) (locals w)
    (active_clients_ w) (identity_to_name_ w) (registry_mutex_ w) (pending_sends_ w)
    (pending_sends_mutex_ w) (sending_in_progress_ w) (posted w) (running_ w) (socket w)
    (waiting w) v (ack_timeout_timer_ w) (work_guard_ w) (io_stopped w) (metrics_ w)
    (config_ w) (clock_ w).
Definition set_ack_timeout_timer (v : option Z) (w : World St) : World St :=
  mkWorld (storage_ w) (storage_alive w) (sessions w) (next_address w) (locals w)
    (active_clients_ w) (identity_to_name_ w) (registry_mutex_ w) (pending_sends_ w)
    (pending_sends_mutex_ w) (sending_in_progress_ w) (posted w) (running_ w) (socket w)
    (waiting w) (cleanup_timer_ w) v (work_guard_ w) (io_stopped w) (metrics_ w)
    (config_ w) (clock_ w).
Definition set_work_guard (v : bool) (w : World St) : World St :=
  mkWorld (storage_ w) (storage_alive w) (sessions w) (next_address w) (locals w)
    (active_clients_ w) (identity_to_name_ w) (registry_mutex_ w) (pending_sends_ w)
    (pending_sends_mutex_ w) (sending_in_progress_ w) (posted w) (running_ w) (socket w)
    (waiting w) (cleanup_timer_ w) (ack_timeout_timer_ w) v (io_stopped w) (metrics_ w)
    (config_ w) (clock_ w).
Definition set_io_stopped (v : bool) (w : World St) : World St :=
  mkWorld (storage_ w) (storage_alive w) (sessions w) (next_address w) (locals w)
    (active_clients_ w) (identity_to_name_ w) (registry_mutex_ w) (pending_sends_ w)
    (pending_sends_mutex_ w) (sending_in_progress_ w) (posted w) (running_ w) (socket w)
    (waiting w) (cleanup_timer_ w) (ack_timeout_timer_ w) (work_guard_ w) v (metrics_ w)
    (config_ w) (clock_ w).
Definition set_metrics (v : option Metrics) (w : World St) : World St :=
  mkWorld (storage_ w) (storage_alive w) (sessions w) (next_address w) (locals w)
    (active_clients_ w) (identity_to_name_ w) (registry_mutex_ w) (pending_sends_ w)
    (pending_sends_mutex_ w) (sending_in_progress_ w) (posted w) (running_ w) (socket w)
    (waiting w) (cleanup_timer_ w) (ack_timeout_timer_ w) (work_guard_ w) (io_stopped w)
    v (config_ w) (clock_ w).
Definition set_config (v : Config) (w : World St) : World St :=
  mkWorld (storage_ w) (storage_alive w) (sessions w) (next_address w) (locals w)
    (active_clients_ w) (identity_to_name_ w) (registry_mutex_ w) (pending_sends_ w)
    (pending_sends_mutex_ w) (sending_in_progress_ w) (posted w) (running_ w) (socket w)
    (waiting w) (cleanup_timer_ w) (ack_timeout_timer_ w) (work_guard_ w) (io_stopped w)
    (metrics_ w) v (clock_ w).
Definition set_clock (v : Z) (w : World St) : World St :=
  mkWorld (storage_ w) (storage_alive w) (sessions w) (next_address w) (locals w)
    (active_clients_ w) (identity_to_name_ w) (registry_mutex_ w) (pending_sends_ w)
    (pending_sends_mutex_ w) (sending_in_progress_ w) (posted w) (running_ w) (socket w)
    (waiting w) (cleanup_timer_ w) (ack_timeout_timer_ w) (work_guard_ w) (io_stopped w)
    (metrics_ w) (config_ w) v.
End Setters.

Section World.
Context {St : Type} `{IStorage St} `{Host} `{HashOrder}.
Implicit Types w : World St.

(** ** Shared parts *)

(** A call of the storage, which must not have been destroyed. *)
Definition db {A} (m : M St A) : M (World St) A := fun w =>
  if storage_alive w
  then let '(r, s) := m (storage_ w) in (r, set_storage s w)
  else (Stuck UseAfterFree, w).

(** [if (metrics_) metrics_->op(...)] *)
Definition metric (op : Metrics -> Metrics) : M (World St) unit :=
  modify (fun w => set_metrics (option_map op (metrics_ w)) w).

Definition with_registry_lock {A} : M (World St) A -> M (World St) A :=
  lock_guard registry_mutex_ set_registry_mutex.
Definition with_sends_lock {A} : M (World St) A -> M (World St) A :=
  lock_guard pending_sends_mutex_ set_pending_sends_mutex.

(** ** [Server::SendToClient] *)
Definition ScheduleSendProcessing : M (World St) unit :=
  modify (fun w => set_posted (S (posted w)) w).

Definition Server_SendToClient (identity : string) (data : list byte)
    (callback : option SendCallback) : M (World St) unit :=
  with_sends_lock (modify (fun w =>
    set_pending_sends (pending_sends_ w ++ [mkSend identity data callback]) w)) ;;;
  ScheduleSendProcessing.

(** ** [Router::PersistMessageForClient], the target of every persist callback *)
Definition PersistMessageForClient (client_name : string) (m : Message) : M (World St) unit :=
  db (iSaveMessage (SetDestination client_name m)) ;;; ret tt.

#[export] Instance World_SessionEnv : SessionEnv (World St) := {
  steady_now := clock_;
  SendToClient := Server_SendToClient;
  persist_message := PersistMessageForClient;
}.

(** ** Sessions on the heap *)

(** A member function of the session at address [i]. *)
Definition on {A} (i : nat) (m : M (Session * World St) A) : M (World St) A := fun w =>
  match sessions w !! i with
  | None => (Stuck UseAfterFree, w)
  | Some s => let '(r, (s', w')) := m (s, w) in
              (r, set_sessions (<[i := s']> (sessions w')) w')
  end.

(** [std::make_shared<Session>(...)], the result on the stack. *)
Definition make_session (identity : string) : M (World St) nat := fun w =>
  let i := next_address w in
  (Ret i, set_locals (Some i :: locals w)
            (set_next_address (S i)
              (set_sessions (<[i := Session_ctor identity (clock_ w)]> (sessions w)) w))).

Definition referenced (i : nat) w : bool :=
  existsb (fun o => bool_decide (o = Some i)) (locals w) ||
  existsb (fun p => Nat.eqb (snd p) i) (map_to_list (active_clients_ w)).

(** A reference to [i] is gone; [~Session] is implicitly [noexcept]. *)
Definition release (i : nat) : M (World St) unit :=
  r <- gets (referenced i) ;;
  if (r : bool) then ret tt
  else
    try_catch (on i Session_dtor) (fun _ => hang Terminate) ;;;
    modify (fun w => set_sessions (delete i (sessions w)) w).

Definition push_local (o : option nat) : M (World St) unit :=
  modify (fun w => set_locals (o :: locals w) w).

Definition pop_local : M (World St) unit :=
  l <- gets locals ;;
  modify (fun w => set_locals (tail l) w) ;;;
  match l with
  | Some i :: _ => release i
  | _ => ret tt
  end.

(** [auto p = m; k(p)], [p] leaving its scope when [k] is left. *)
Definition scoped {A B} (m : M (World St) A) (k : A -> M (World St) B) : M (World St) B :=
  p <- m ;; finally (k p) pop_local.

(** A local pointer that becomes the result unless an exception leaves the scope. *)
Definition returning {A} (m : M (World St) A) : M (World St) A := fun w =>
  match m w with
  | (Throw e, w') =>
      match pop_local w' with
      | (Ret _, w'') => (Throw e, w'')
      | (Throw _, w'') => (Stuck Terminate, w'')
      | (Stuck f, w'') => (Stuck f, w'')
      end
  | o => o
  end.

(** [GetIdentity()] of the session at [i]. *)
Definition GetIdentity (i : nat) : M (World St) string := on i (self identity_).
End World.

#[global] Arguments on : simpl never.
