(* ===== verification/Router.v ===== *)
(** The registry of clients and the delivery of stored messages: [class Router] of
    [include/router.hpp] and [src/router.cpp], except [RouteMessage], which calls the
    handlers and is in [Handlers.v].  Each member function is the whole function,
    its locks, early returns and scopes included. *)
From Stdlib Require Import ZArith Lia Strings.Byte.
From S2P Require Import Prelude Words Message Interfaces Config Metrics Session World.
Open Scope Z_scope.
Open Scope broker_scope.

Section Router.
Context {St : Type} `{IStorage St} `{Host} `{HashOrder}.
Implicit Types w : World St.

(** [active_clients_.find(name)] *)
Definition find_client (name : string) : M (World St) (option nat) :=
  gets (fun w => active_clients_ w !! name).

Definition erase_identity (identity : string) : M (World St) unit :=
  modify (fun w => set_identity_to_name (delete identity (identity_to_name_ w)) w).

(** [active_clients_[name] = session]: the reference the entry held is dropped. *)
Definition assign_client (name : string) (i : nat) : M (World St) unit :=
  old <- find_client name ;;
  modify (fun w => set_active_clients (<[name := i]> (active_clients_ w)) w) ;;;
  match old with
  | Some j => release j
  | None => ret tt
  end.

(** [active_clients_.erase(it)] *)
Definition erase_client (name : string) : M (World St) unit :=
  old <- find_client name ;;
  modify (fun w => set_active_clients (delete name (active_clients_ w)) w) ;;;
  match old with
  | Some j => release j
  | None => ret tt
  end.

(** [metrics_->SetActiveSessions(active_clients_.size())] *)
Definition report_sessions : M (World St) unit :=
  n <- gets (fun w => Z.of_nat (size (active_clients_ w))) ;;
  metric (SetActiveSessions n).

Definition UpsertClient (name : string) (new_session : option nat) : M (World St) (option nat) :=
  match new_session with
  | None => push_local None ;;; ret None
  | Some new =>
      with_registry_lock (
        it <- find_client name ;;
        push_local it ;;;
        returning (
          match it with
          | Some old =>
              on old PersistQueueToDatabase ;;;
              on old MarkOffline ;;;
              old_identity <- GetIdentity old ;;
              erase_identity old_identity ;;;
              assign_client name new
          | None => assign_client name new
          end ;;;
          new_identity <- GetIdentity new ;;
          modify (fun w =>
            set_identity_to_name (<[new_identity := name]> (identity_to_name_ w)) w) ;;;
          report_sessions ;;;
          match it with
          | Some _ => metric IncrementClientsUnregistered ;;; metric IncrementClientsRegistered
          | None => metric IncrementClientsRegistered
          end ;;;
          ret it))
  end.

Definition UnregisterClient (name : string) : M (World St) unit :=
  with_registry_lock (
    it <- find_client name ;;
    match it with
    | Some i =>
        identity <- GetIdentity i ;;
        erase_identity identity ;;;
        erase_client name ;;;
        metric IncrementClientsUnregistered ;;;
        report_sessions
    | None => ret tt
    end).

Definition FindSession (name : string) : M (World St) (option nat) :=
  with_registry_lock (
    it <- find_client name ;;
    push_local it ;;;
    ret it).

(** One message of the loop of [DeliverOfflineMessages]. *)
Definition deliver_offline (session : nat) (pending : PendingMessage) : M (World St) ctl :=
  online <- on session IsOnline ;;
  if negb online then ret Break
  else
    (if NeedsAck (msg pending) then db (iMarkSent (id pending)) else ret tt) ;;;
    sent <- on session (SendMessage session (msg pending)) ;;
    if (sent : bool) then
      (if negb (NeedsAck (msg pending)) then db (iMarkDelivered (id pending)) else ret tt) ;;;
      ret Continue
    else ret Break.

Definition DeliverOfflineMessages (name : string) : M (World St) unit :=
  scoped (FindSession name) (fun session =>
    match session with
    | None => ret tt
    | Some i =>
        pending_messages <- db (iLoadPendingMessagesOnly name) ;;
        match pending_messages with
        | [] => ret tt
        | _ =>
            metric IncrementOfflineDelivered ;;;
            on i UpdateLastActivity ;;;
            on i UpdateLastReceive ;;;
            for_each pending_messages (deliver_offline i) ;;;
            on i (FlushQueue i)
        end
    end).

(** One reply of the loop of [DeliverPendingReplies]. *)
Definition deliver_reply (session : nat) (reply : PendingMessage) : M (World St) ctl :=
  online <- on session IsOnline ;;
  if negb online then ret Break
  else
    (if NeedsAck (msg reply) then db (iMarkSent (id reply)) else ret tt) ;;;
    sent <- on session (SendMessage session (msg reply)) ;;
    (if (sent : bool) then db (iMarkDelivered (id reply)) else ret tt) ;;;
    ret Continue.

Definition DeliverPendingReplies (name : string) : M (World St) unit :=
  scoped (FindSession name) (fun session =>
    match session with
    | None => ret tt
    | Some i =>
        pending_replies <- db (iLoadPendingRepliesForSenderOnly name) ;;
        match pending_replies with
        | [] => ret tt
        | _ =>
            on i UpdateLastActivity ;;;
            on i UpdateLastReceive ;;;
            for_each pending_replies (deliver_reply i)
        end
    end).

Definition PrintActiveClients : M (World St) unit :=
  with_registry_lock (
    l <- gets (fun w => hash_order (active_clients_ w)) ;;
    for_each l (fun p => on (snd p) GetQueueSize ;;; ret Continue)).

Definition UpdateSessionMetrics : M (World St) unit :=
  has_metrics <- gets (fun w => match metrics_ w with Some _ => true | None => false end) ;;
  if (has_metrics : bool) then with_registry_lock report_sessions else ret tt.

(** The first loop of [CleanupInactiveSessions]: whether one session must go. *)
Definition inactive (timeout : Z) (i : nat) : M (World St) bool :=
  online <- on i IsOnline ;;
  if negb online then ret true
  else
    now <- gets clock_ ;;
    expired <- on i (self (IsExpired timeout now)) ;;
    if (0 <? timeout) && expired then
      on i MarkOffline ;;;
      on i PersistQueueToDatabase ;;;
      ret true
    else ret false.

Fixpoint collect_inactive (timeout : Z) (l : list (string * nat)) : M (World St) (list string) :=
  match l with
  | [] => ret []
  | (name, i) :: l' =>
      should_remove <- inactive timeout i ;;
      to_remove <- collect_inactive timeout l' ;;
      ret (if (should_remove : bool) then name :: to_remove else to_remove)
  end.

(** The second loop, for one name. *)
Definition remove_client (name : string) : M (World St) ctl :=
  it <- find_client name ;;
  match it with
  | Some i =>
      identity <- GetIdentity i ;;
      erase_identity identity ;;;
      erase_client name ;;;
      metric IncrementClientsTimeout ;;;
      ret Continue
  | None => ret Continue
  end.

Definition CleanupInactiveSessions : M (World St) unit :=
  with_registry_lock (
    timeout <- gets (fun w => SessionTimeout (config_ w)) ;;
    l <- gets (fun w => hash_order (active_clients_ w)) ;;
    to_remove <- collect_inactive timeout l ;;
    for_each to_remove remove_client ;;;
    match to_remove with
    | [] => ret tt
    | _ => UpdateSessionMetrics
    end).

(** The session of [destination] if it is online, under the lock. *)
Definition find_online (destination : string) : M (World St) (option nat) :=
  with_registry_lock (
    it <- find_client destination ;;
    match it with
    | Some i =>
        online <- on i IsOnline ;;
        let o := if (online : bool) then Some i else None in
        push_local o ;;; ret o
    | None => push_local None ;;; ret None
    end).

(** One message of the loop of [CheckExpiredAcks]. *)
Definition retry_expired (pending : PendingMessage) : M (World St) ctl :=
  db (iMarkPending (id pending)) ;;;
  scoped (find_online (destination_ (msg pending))) (fun session =>
    match session with
    | Some i =>
        db (iMarkSent (id pending)) ;;;
        sent <- on i (SendMessage i (msg pending)) ;;
        if (sent : bool) then ret Continue
        else db (iMarkPending (id pending)) ;;; ret Continue
    | None => ret Continue
    end).

Definition CheckExpiredAcks : M (World St) unit :=
  ack_timeout_seconds <- gets (fun w => AckTimeout (config_ w)) ;;
  if ack_timeout_seconds <=? 0 then ret tt
  else
    expired_messages <- db (iLoadExpiredSent ack_timeout_seconds) ;;
    match expired_messages with
    | [] => ret tt
    | _ => metric IncrementMessagesExpired
    end ;;;
    for_each expired_messages retry_expired.
End Router.
