(* ===== verification/RouterSpec.v ===== *)
(** What the registry guarantees.

    [wok lk P x w]: the registry mutex is [lk], the stack of live pointers is [P], and
    the rest of the world is consistent: every name in [active_clients_] owns a session
    with that name, every identity in [identity_to_name_] is the identity of the
    session registered under its name, every live pointer points to a session, and
    every session on the heap is referenced, [x] excepted.  [rok P] is the case of a
    free mutex and no exception.

    The lemmas [ok_*] show that the operations of [Router] keep it and come back, or are
    stopped by a destructor that throws; the one that is not, [CleanupInactiveSessions],
    has a file of its own, [Cleanup.v]. *)
From Stdlib Require Import ZArith Lia Strings.Byte.
From S2P Require Import Prelude Words Message Interfaces Config Metrics Session World.
From S2P Require Import Router.
Open Scope Z_scope.
Open Scope broker_scope.

Create HintDb broker discriminated.

(** A call may end the process only through a destructor that throws. *)
Definition only_terminate (f : stuck) : Prop := f = Terminate.

Section Invariant.
Context {St : Type} `{IStorageLaws St} `{Host} `{HashOrder}.
Implicit Types (w : World St) (P : list (option nat)) (x : option nat).

Record wok (lk : bool) P x w : Prop := {
  wok_lock : registry_mutex_ w = lk;
  wok_locals : locals w = P;
  wok_alive : storage_alive w = true;
  wok_sends : pending_sends_mutex_ w = false;
  wok_store : st_ok (storage_ w);
  wok_active : forall n i, active_clients_ w !! n = Some i ->
    exists s, sessions w !! i = Some s /\ name_ s = n;
  wok_ids : forall a n, identity_to_name_ w !! a = Some n ->
    exists i s, active_clients_ w !! n = Some i /\ sessions w !! i = Some s /\ identity_ s = a;
  wok_pinned : forall i, Some i ∈ P -> is_Some (sessions w !! i);
  wok_heap : forall i s, sessions w !! i = Some s ->
    (i < next_address w)%nat /\ queue_mutex_ s = false;
  wok_held : forall i, is_Some (sessions w !! i) ->
    x = Some i \/ Some i ∈ P \/ exists n, active_clients_ w !! n = Some i;
}.

Definition rok P := wok false P None.

(** ** Storage calls *)
Definition storage_op {A} (m : M St A) : Prop := keeps st_ok (fun _ => False) m.

Lemma implements_op {A} (m : M St A) post : implements st_ok view m post -> storage_op m.
Proof.
  intros Hm s Hs. specialize (Hm s Hs). unfold wp.
  destruct (m s) as [[]?]; [apply Hm | apply Hm | done].
Qed.

Lemma op_SaveMessage m : storage_op (iSaveMessage m).
Proof. eapply implements_op, SaveMessage_law. Qed.
Lemma op_MarkDelivered i : storage_op (iMarkDelivered i).
Proof. eapply implements_op, MarkDelivered_law. Qed.
Lemma op_MarkSent i : storage_op (iMarkSent i).
Proof. eapply implements_op, MarkSent_law. Qed.
Lemma op_MarkPending i : storage_op (iMarkPending i).
Proof. eapply implements_op, MarkPending_law. Qed.
Lemma op_NeedsAck i : storage_op (iNeedsAck i).
Proof. eapply implements_op, NeedsAck_law. Qed.
Lemma op_SaveCorrelation i c o : storage_op (iSaveCorrelation i c o).
Proof. eapply implements_op, SaveCorrelation_law. Qed.
Lemma op_FindOriginalSender c : storage_op (iFindOriginalSenderByCorrelation c).
Proof. eapply implements_op, FindOriginalSenderByCorrelation_law. Qed.
Lemma op_FindMessageId c : storage_op (iFindMessageIdByCorrelation c).
Proof. eapply implements_op, FindMessageIdByCorrelation_law. Qed.
Lemma op_FindMessageIdByDest c d : storage_op (iFindMessageIdByCorrelationAndDestination c d).
Proof. eapply implements_op, FindMessageIdByCorrelationAndDestination_law. Qed.
Lemma op_MarkAckReceived i o : storage_op (iMarkAckReceived i o).
Proof. eapply implements_op, MarkAckReceived_law. Qed.
Lemma op_LoadExpiredSent t : storage_op (iLoadExpiredSent t).
Proof. eapply implements_op, LoadExpiredSent_law. Qed.
Lemma op_LoadPendingReplies n : storage_op (iLoadPendingRepliesForSenderOnly n).
Proof. eapply implements_op, LoadPendingRepliesForSenderOnly_law. Qed.
Lemma op_LoadPendingMessages n : storage_op (iLoadPendingMessagesOnly n).
Proof. eapply implements_op, LoadPendingMessagesOnly_law. Qed.

(** What a session's member function leaves alone, seen from the world [w0]. *)
Record outside (w0 w : World St) : Prop := {
  out_sessions : sessions w = sessions w0;
  out_next : next_address w = next_address w0;
  out_locals : locals w = locals w0;
  out_active : active_clients_ w = active_clients_ w0;
  out_ids : identity_to_name_ w = identity_to_name_ w0;
  out_lock : registry_mutex_ w = registry_mutex_ w0;
  out_alive : storage_alive w = true;
  out_sends : pending_sends_mutex_ w = false;
  out_store : st_ok (storage_ w);
}.

Lemma wok_outside lk P x w : wok lk P x w -> outside w w.
Proof. intros []. by split. Qed.

Lemma outside_wok lk P x w0 w : wok lk P x w0 -> outside w0 w -> wok lk P x w.
Proof.
  intros [] []. split; try congruence.
  - rewrite out_active0, out_sessions0. done.
  - rewrite out_active0, out_sessions0, out_ids0. done.
  - rewrite out_sessions0. done.
  - rewrite out_sessions0, out_next0. done.
  - rewrite out_sessions0, out_active0. done.
Qed.

Lemma keeps_db_outside {A} (m : M St A) F w0 :
  storage_op m -> keeps (outside w0) F (db m).
Proof.
  intros Hm w Hw. unfold wp, db. rewrite (out_alive _ _ Hw).
  pose proof (Hm (storage_ w) (out_store _ _ Hw)) as Hk. unfold wp in Hk.
  destruct (m (storage_ w)) as [[a|e|f] s]; [| |done]; destruct Hw; by split.
Qed.

Lemma keeps_SendToClient F w0 i d c : keeps (outside w0) F (SendToClient (E := World St) i d c).
Proof.
  intros w Hw. unfold wp. cbn. unfold Server_SendToClient, bind, with_sends_lock, lock_guard.
  rewrite (out_sends _ _ Hw). destruct Hw. by split.
Qed.

Lemma keeps_persist F w0 n m : keeps (outside w0) F (persist_message (E := World St) n m).
Proof.
  apply keeps_bind; [apply keeps_db_outside, op_SaveMessage|]. intros _. apply keeps_pure.
Qed.

(** ** Member functions of a session *)
Definition session_op {A} (m : M (Session * World St) A) : Prop := forall s0 w0,
  keeps (session_inv s0 (outside w0)) only_terminate m.

Lemma op_PersistQueue : session_op PersistQueueToDatabase.
Proof. intros s0 w0. apply keeps_PersistQueue, keeps_persist. Qed.
Lemma op_SendMessage this m : session_op (SendMessage this m).
Proof. intros s0 w0. apply keeps_SendMessage; [apply keeps_SendToClient | apply keeps_persist]. Qed.
Lemma op_FlushQueue this : session_op (FlushQueue this).
Proof. intros s0 w0. apply keeps_FlushQueue, keeps_SendToClient. Qed.
Lemma op_MarkOffline : session_op MarkOffline.
Proof. intros s0 w0. apply keeps_MarkOffline. Qed.
Lemma op_UpdateLastReceive : session_op UpdateLastReceive.
Proof. intros s0 w0. by apply keeps_modify. Qed.
Lemma op_UpdateLastActivity : session_op UpdateLastActivity.
Proof. intros s0 w0. by apply keeps_modify. Qed.
Lemma op_GetQueueSize : session_op GetQueueSize.
Proof. intros s0 w0. apply keeps_GetQueueSize. Qed.
Lemma op_self {A} (f : Session -> A) : session_op (self f).
Proof. intros s0 w0. apply keeps_gets. Qed.

Lemma wok_on lk P x w i s s' w' :
  wok lk P x w -> sessions w !! i = Some s -> session_inv s (outside w) (s', w') ->
  wok lk P x (set_sessions (<[i := s']> (sessions w')) w').
Proof.
  intros Hw Hi ((Hid & Hn & _) & Hm & Ho). cbn in Hid, Hn, Hm, Ho.
  apply (outside_wok _ _ _ _ w') in Hw; [|done].
  rewrite <- (out_sessions _ _ Ho) in Hi. destruct Hw. split; cbn; try done.
  - intros n j (t & Hj & Ht)%wok_active0. destruct (decide (i = j)) as [->|Hne].
    + rewrite lookup_insert_eq. exists s'. simplify_eq. by rewrite Hn.
    + rewrite lookup_insert_ne by done. by exists t.
  - intros a n (j & t & Ha & Hj & Ht)%wok_ids0. exists j. destruct (decide (i = j)) as [->|Hne].
    + rewrite lookup_insert_eq. exists s'. simplify_eq. by rewrite Hid.
    + rewrite lookup_insert_ne by done. by exists t.
  - intros j Hj%wok_pinned0. rewrite lookup_insert_is_Some'. by right.
  - intros j t. destruct (decide (i = j)) as [->|Hne].
    + rewrite lookup_insert_eq. intros [= <-]. split; [|done]. by apply (wok_heap0 j s).
    + rewrite lookup_insert_ne by done. apply wok_heap0.
  - intros j Hj. apply wok_held0. rewrite lookup_insert_is_Some' in Hj.
    destruct Hj as [<-|]; [by exists s|done].
Qed.

Lemma ok_on {A} (m : M (Session * World St) A) lk P x i w :
  session_op m -> is_Some (sessions w !! i) -> wok lk P x w ->
  wp only_terminate (on i m) w (fun _ => wok lk P x) (wok lk P x).
Proof.
  intros Hm [s Hi] Hw. unfold wp, on. rewrite Hi.
  assert (session_inv s (outside w) (s, w)) as Hinv.
  { split; [done|]. split; [by apply (wok_heap _ _ _ _ Hw i)|]. by eapply wok_outside. }
  specialize (Hm s w (s, w) Hinv). unfold wp in Hm.
  destruct (m (s, w)) as [[a|e|f] [s' w']]; [by eapply wok_on..|done].
Qed.

Lemma ok_on_local {A} (m : M (Session * World St) A) lk P x i :
  session_op m -> Some i ∈ P -> keeps (wok lk P x) only_terminate (on i m).
Proof. intros Hm Hi w Hw. apply ok_on; [done| |done]. by apply (wok_pinned _ _ _ _ Hw). Qed.

Lemma ok_db {A} (m : M St A) lk P x :
  storage_op m -> keeps (wok lk P x) only_terminate (db m).
Proof.
  intros Hm w Hw. eapply wp_conseq;
    [apply (keeps_db_outside m only_terminate w); [done|by eapply wok_outside]| |].
  - intros a w'. by apply outside_wok.
  - intros w'. by apply outside_wok.
Qed.

Lemma ok_metric op lk P x : keeps (wok lk P x) only_terminate (metric op).
Proof. apply keeps_modify. intros w []. by split. Qed.

(** ** Pointers *)
Lemma elem_of_referenced i w :
  referenced i w = true <->
  Some i ∈ locals w \/ exists n, active_clients_ w !! n = Some i.
Proof.
  unfold referenced. rewrite orb_true_iff, !existsb_exists. split.
  - intros [(o & Ho & Hb)|([n j] & Hj & Hb)].
    + apply bool_decide_eq_true in Hb as ->. left. by apply list_elem_of_In.
    + apply Nat.eqb_eq in Hb. cbn in Hb. subst j. right. exists n.
      by apply elem_of_map_to_list, list_elem_of_In.
  - intros [Ho|[n Hn]].
    + left. exists (Some i). split; [by apply list_elem_of_In|]. by apply bool_decide_eq_true.
    + right. exists (n, i). split; [|apply Nat.eqb_refl].
      by apply list_elem_of_In, elem_of_map_to_list.
Qed.

Lemma wok_weaken lk P x w : wok lk P None w -> wok lk P x w.
Proof.
  intros []. split; try done. intros i [Hi|Hi]%wok_held0; [done|by right].
Qed.

Lemma wok_delete lk P i w :
  wok lk P (Some i) w -> referenced i w = false ->
  wok lk P None (set_sessions (delete i (sessions w)) w).
Proof.
  intros Hw Hr.
  assert (forall n, active_clients_ w !! n <> Some i) as Ha.
  { intros n Hn. assert (referenced i w = true) by (apply elem_of_referenced; eauto). congruence. }
  assert (Some i ∉ P) as Hl.
  { rewrite <- (wok_locals _ _ _ _ Hw). intros Hn.
    assert (referenced i w = true) by (apply elem_of_referenced; eauto). congruence. }
  destruct Hw. split; cbn; try done.
  - intros n j Hj. destruct (wok_active0 n j Hj) as (s & Hs & Hn). exists s.
    rewrite lookup_delete_ne; [done|]. intros ->. by apply (Ha n).
  - intros a n (j & s & Hn & Hj & Hs)%wok_ids0. exists j, s. split; [done|].
    rewrite lookup_delete_ne; [done|]. intros ->. by apply (Ha n).
  - intros j Hj. rewrite lookup_delete_ne; [by apply wok_pinned0|]. by intros ->.
  - intros j s [_ Hj]%lookup_delete_Some. by apply wok_heap0.
  - intros j [s [Hne Hj]%lookup_delete_Some].
    destruct (wok_held0 j) as [[=]|Hj']; [by exists s|congruence|by right].
Qed.

Lemma ok_release lk P i w :
  is_Some (sessions w !! i) -> wok lk P (Some i) w ->
  wp only_terminate (release i) w (fun _ => wok lk P None) (fun _ => False).
Proof.
  intros Hi Hw. unfold release. apply wp_bind, wp_gets.
  destruct (referenced i w) eqn:Er.
  - apply wp_ret. apply elem_of_referenced in Er. destruct Hw. split; try done.
    intros j [[= <-]|Hj]%wok_held0; right; [|done]. by rewrite <- wok_locals0.
  - apply wp_bind, wp_try_catch. unfold Session_dtor.
    assert (referenced i w = false /\ is_Some (sessions w !! i)) as Hx by done.
    eapply wp_conseq with (Q := fun _ w' => wok lk P (Some i) w' /\ referenced i w' = false)
      (E := fun _ => True); [|intros _ w' [Hw' Hr']; apply wp_modify; by apply wok_delete|].
    2:{ intros w' _ e. by unfold wp, hang. }
    destruct Hi as [s Hs]. unfold wp, on. rewrite Hs.
    assert (session_inv s (outside w) (s, w)) as Hinv.
    { split; [done|]. split; [by apply (wok_heap _ _ _ _ Hw i)|]. by eapply wok_outside. }
    pose proof (op_PersistQueue s w (s, w) Hinv) as Hp. unfold wp in Hp.
    destruct (PersistQueueToDatabase (s, w)) as [[a|e|f] [s' w']]; [|done|done].
    split; [by eapply wok_on|]. destruct Hp as (_ & _ & Ho). cbn in Ho.
    unfold referenced in *. cbn. by rewrite (out_locals _ _ Ho), (out_active _ _ Ho).
Qed.

Lemma ok_pop_local lk P o w :
  wok lk (o :: P) None w ->
  wp only_terminate pop_local w (fun _ => wok lk P None) (fun _ => False).
Proof.
  intros Hw. unfold pop_local. apply wp_bind, wp_gets, wp_bind, wp_modify.
  rewrite (wok_locals _ _ _ _ Hw). cbn [tail].
  assert (wok lk P o (set_locals P w)) as Hw'.
  { destruct Hw. split; cbn; try done.
    - intros i Hi. apply wok_pinned0. by right.
    - intros i [[=]|[Hj|Hj]]%wok_held0; [|by right; right].
      apply elem_of_cons in Hj as [->|Hj]; [by left|by right; left]. }
  destruct o as [i|]; [|by apply wp_ret].
  apply ok_release; [|done]. apply (wok_pinned _ _ _ _ Hw). by left.
Qed.

Lemma ok_scoped {A B} (m : M (World St) A) (k : A -> M (World St) B) (o : A -> option nat) lk P :
  (forall w, wok lk P None w ->
     wp only_terminate m w (fun a => wok lk (o a :: P) None) (wok lk P None)) ->
  (forall a, keeps (wok lk (o a :: P) None) only_terminate (k a)) ->
  keeps (wok lk P None) only_terminate (scoped m k).
Proof.
  intros Hm Hk w Hw. apply wp_bind. eapply wp_conseq; [by apply Hm| |done]. cbn.
  intros a w' Hw'. apply wp_finally; [done|]. eapply wp_conseq; [by apply Hk| |]; cbn.
  - intros b w'' Hw''. eapply wp_conseq; [by eapply ok_pop_local|done|done].
  - intros w'' Hw''. eapply wp_conseq; [by eapply ok_pop_local|done|done].
Qed.

Lemma ok_returning {A} (m : M (World St) A) lk P o w (Q : A -> World St -> Prop) :
  wp only_terminate m w Q (wok lk (o :: P) None) ->
  wp only_terminate (returning m) w Q (wok lk P None).
Proof.
  unfold wp, returning. destruct (m w) as [[a|e|f] w']; [done| |done]. intros Hw.
  pose proof (ok_pop_local lk P o w' Hw) as Hp. unfold wp in Hp.
  by destruct (pop_local w') as [[]?].
Qed.

(** Taking and leaving the registry mutex. *)
Lemma wok_set_lock lk lk' P x w : wok lk P x w -> wok lk' P x (set_registry_mutex lk' w).
Proof. intros []. by split. Qed.

Lemma ok_with_lock {A} (m : M (World St) A) P w P' (Q : A -> World St -> Prop) :
  wok false P None w ->
  (forall w', wok true P None w' -> wp only_terminate m w'
     (fun a w'' => Q a (set_registry_mutex false w'')) (wok true P' None)) ->
  wp only_terminate (with_registry_lock m) w Q (wok false P' None).
Proof.
  intros Hw Hm. apply wp_lock_guard; [apply Hw|].
  eapply wp_conseq; [apply Hm; by eapply wok_set_lock|done|].
  intros w'. apply wok_set_lock.
Qed.

(** ** Looking up *)
Lemma wok_push lk P o w :
  wok lk P None w -> (forall i, o = Some i -> is_Some (sessions w !! i)) ->
  wok lk (o :: P) None (set_locals (o :: locals w) w).
Proof.
  intros [] Ho. split; cbn; try done.
  - congruence.
  - intros i [<-|Hi]%elem_of_cons; [by apply Ho|by apply wok_pinned0].
  - intros i [[=]|[Hi|Hi]]%wok_held0; [right; left; by right|by right; right].
Qed.

Lemma wok_push_client lk P w n :
  wok lk P None w ->
  wok lk (active_clients_ w !! n :: P) None (set_locals (active_clients_ w !! n :: locals w) w).
Proof.
  intros Hw. apply wok_push; [done|]. intros i Hi.
  destruct (wok_active _ _ _ _ Hw n i Hi) as (s & Hs & _). by exists s.
Qed.

Lemma ok_FindSession P n w :
  rok P w -> wp only_terminate (FindSession n) w (fun o => rok (o :: P)) (rok P).
Proof.
  intros Hw. apply (ok_with_lock _ P); [done|]. intros w' Hw'.
  apply wp_bind, wp_gets, wp_bind, wp_modify, wp_ret.
  eapply wok_set_lock. by apply wok_push_client.
Qed.

Lemma ok_find_online P n w :
  rok P w -> wp only_terminate (find_online n) w (fun o => rok (o :: P)) (rok P).
Proof.
  intros Hw. apply (ok_with_lock _ P); [done|]. intros w' Hw'. apply wp_bind, wp_gets.
  destruct (active_clients_ w' !! n) as [i|] eqn:Ei.
  - apply wp_bind. destruct (wok_active _ _ _ _ Hw' n i Ei) as (s & Hs & _).
    assert (on i IsOnline w' = (Ret (is_online_ s), set_sessions (<[i := s]> (sessions w')) w'))
      as E by (unfold on; by rewrite Hs).
    pose proof (ok_on IsOnline true P None i w' (op_self is_online_) ltac:(by exists s) Hw') as Ho.
    unfold wp in Ho |- * at 1. rewrite E in *. cbv zeta.
    assert (is_Some (<[i := s]> (sessions w') !! i)) as Hi by (by rewrite lookup_insert_eq).
    apply wp_bind, wp_modify, wp_ret. eapply wok_set_lock.
    apply wok_push; [done|]. intros j Hj. destruct (is_online_ s); by simplify_eq.
  - apply wp_bind, wp_modify, wp_ret. eapply wok_set_lock. by apply wok_push.
Qed.
End Invariant.

#[export] Hint Resolve op_SaveMessage op_MarkDelivered op_MarkSent op_MarkPending op_NeedsAck
  op_SaveCorrelation op_FindOriginalSender op_FindMessageId op_FindMessageIdByDest
  op_MarkAckReceived op_LoadExpiredSent op_LoadPendingReplies op_LoadPendingMessages
  op_PersistQueue op_SendMessage op_FlushQueue op_MarkOffline op_UpdateLastReceive
  op_UpdateLastActivity op_GetQueueSize op_self : broker.

(** [keeps_world]: the combinators, the calls of the storage and of sessions that a
    local pointer keeps alive. *)
Ltac keeps_world_call :=
  first
    [ apply ok_metric
    | apply ok_db; solve [eauto with broker nocore]
    | apply ok_on_local; [solve [eauto with broker nocore] | set_solver] ].
Ltac keeps_world := solve_keeps ltac:(keeps_world_call).

Section Delivery.
Context {St : Type} `{IStorageLaws St} `{Host} `{HashOrder}.

Lemma ok_deliver_offline P i p :
  Some i ∈ P -> keeps (rok P) only_terminate (deliver_offline (St := St) i p).
Proof. intros Hi. unfold deliver_offline. keeps_world. Qed.

Lemma ok_deliver_reply P i p :
  Some i ∈ P -> keeps (rok P) only_terminate (deliver_reply (St := St) i p).
Proof. intros Hi. unfold deliver_reply. keeps_world. Qed.

Lemma ok_DeliverOfflineMessages P n :
  keeps (rok P) only_terminate (DeliverOfflineMessages (St := St) n).
Proof.
  apply ok_scoped with (o := fun o => o); [apply ok_FindSession|]. intros [i|]; [|keeps_world].
  solve_keeps ltac:(keeps_world_call || (apply ok_deliver_offline; set_solver)).
Qed.

Lemma ok_DeliverPendingReplies P n :
  keeps (rok P) only_terminate (DeliverPendingReplies (St := St) n).
Proof.
  apply ok_scoped with (o := fun o => o); [apply ok_FindSession|]. intros [i|]; [|keeps_world].
  solve_keeps ltac:(keeps_world_call || (apply ok_deliver_reply; set_solver)).
Qed.

Lemma ok_retry_expired P p : keeps (rok P) only_terminate (retry_expired (St := St) p).
Proof.
  apply keeps_bind; [keeps_world_call|]. intros _.
  apply ok_scoped with (o := fun o => o); [apply ok_find_online|]. intros [i|]; keeps_world.
Qed.

Lemma ok_CheckExpiredAcks P : keeps (rok P) only_terminate (CheckExpiredAcks (St := St)).
Proof.
  unfold CheckExpiredAcks. solve_keeps ltac:(keeps_world_call || apply ok_retry_expired).
Qed.
End Delivery.

(** ** Changing the registry *)
Section Registry.
Context {St : Type} `{IStorageLaws St} `{Host} `{HashOrder}.
Implicit Types (w : World St) (P : list (option nat)).

(** The registry is untouched, and every session still there is the same session. *)
Record reg_same w w' : Prop := {
  same_active : active_clients_ w' = active_clients_ w;
  same_ids : identity_to_name_ w' = identity_to_name_ w;
  same_sessions : forall j s, sessions w !! j = Some s ->
    exists s', sessions w' !! j = Some s' /\ same_session s s';
}.

#[export] Instance reg_same_preorder : PreOrder reg_same.
Proof.
  split.
  - intros w. split; [done|done|]. intros j s Hj. exists s. by split.
  - intros w1 w2 w3 [A1 I1 S1] [A2 I2 S2]. split; [congruence|congruence|].
    intros j s (s2 & Hj & Hs)%S1. destruct (S2 j s2 Hj) as (s3 & Hj3 & Hs3). exists s3.
    split; [done|]. unfold same_session in *. intuition congruence.
Qed.

Lemma ok_on_same {A} (m : M (Session * World St) A) lk P x i w :
  session_op m -> is_Some (sessions w !! i) -> wok lk P x w ->
  wp only_terminate (on i m) w (fun _ w' => wok lk P x w' /\ reg_same w w') (wok lk P x).
Proof.
  intros Hm [s Hi] Hw. unfold wp, on. rewrite Hi.
  assert (session_inv s (outside w) (s, w)) as Hinv.
  { split; [done|]. split; [by apply (wok_heap _ _ _ _ Hw i)|]. by eapply wok_outside. }
  specialize (Hm s w (s, w) Hinv). unfold wp in Hm.
  destruct (m (s, w)) as [[a|e|f] [s' w']]; [split|by eapply wok_on|done].
  - by eapply wok_on.
  - destruct Hm as (Hs & _ & Ho). cbn in Hs, Ho. split; cbn; [apply Ho|apply Ho|].
    intros j t Hj. rewrite (out_sessions _ _ Ho). destruct (decide (i = j)) as [->|Hne].
    + rewrite lookup_insert_eq. exists s'. by simplify_eq.
    + rewrite lookup_insert_ne by done. exists t. by split.
Qed.

Lemma ok_GetIdentity lk P x i s w :
  sessions w !! i = Some s -> wok lk P x w ->
  wp only_terminate (GetIdentity i) w
    (fun a w' => a = identity_ s /\ wok lk P x w' /\ reg_same w w') (fun _ => False).
Proof.
  intros Hi Hw. pose proof (ok_on_same (self identity_) lk P x i w (op_self _)
    ltac:(by exists s) Hw) as Ho.
  unfold GetIdentity, wp, on in *. rewrite Hi in *. cbn in *. by split.
Qed.

Lemma reg_same_name w w' i s n :
  reg_same w w' -> sessions w !! i = Some s -> name_ s = n ->
  exists s', sessions w' !! i = Some s' /\ name_ s' = n /\ identity_ s' = identity_ s.
Proof.
  intros Hr Hi <-. destruct (same_sessions _ _ Hr i s Hi) as (s' & Hs' & Ha & Hn & _).
  by exists s'.
Qed.

Lemma wok_erase_identity lk P x a w :
  wok lk P x w -> wok lk P x (set_identity_to_name (delete a (identity_to_name_ w)) w).
Proof.
  intros []. split; cbn; try done. intros b n [_ Hb]%lookup_delete_Some. by apply wok_ids0.
Qed.

(** No identity leads to [n]. *)
Definition unnamed (n : string) w : Prop := forall a, identity_to_name_ w !! a <> Some n.

Lemma unnamed_erase lk P x w n i s :
  wok lk P x w -> active_clients_ w !! n = Some i -> sessions w !! i = Some s ->
  unnamed n (set_identity_to_name (delete (identity_ s) (identity_to_name_ w)) w).
Proof.
  intros Hw Hn Hi a Ha. cbn in Ha. apply lookup_delete_Some in Ha as [Hne Ha].
  destruct (wok_ids _ _ _ _ Hw a n Ha) as (j & t & Hj & Ht & Hid). simplify_eq.
Qed.

Lemma unnamed_fresh lk P x w n :
  wok lk P x w -> active_clients_ w !! n = None -> unnamed n w.
Proof.
  intros Hw Hn a Ha. destruct (wok_ids _ _ _ _ Hw a n Ha) as (j & t & Hj & _). congruence.
Qed.

Lemma wok_erase_client P w lk n i :
  wok lk P None w -> unnamed n w -> active_clients_ w !! n = Some i ->
  wok lk P (Some i) (set_active_clients (delete n (active_clients_ w)) w).
Proof.
  intros [] Hu Hn. split; cbn; try done.
  - intros m j [_ Hj]%lookup_delete_Some. by apply wok_active0.
  - intros a m Ha. destruct (wok_ids0 a m Ha) as (j & s & Hj & Hs).
    exists j, s. rewrite lookup_delete_ne; [done|]. intros ->. by apply (Hu a).
  - intros j [[=]|[Hj|[m Hm]]]%wok_held0; [by right; left|].
    destruct (decide (n = m)) as [<-|Hne]; [left; congruence|].
    right; right. exists m. by rewrite lookup_delete_ne.
Qed.

Lemma wok_assign P w lk n i s x :
  wok lk P None w -> unnamed n w -> sessions w !! i = Some s -> name_ s = n ->
  (forall j, active_clients_ w !! n = Some j -> x = Some j) ->
  wok lk P x (set_active_clients (<[n := i]> (active_clients_ w)) w).
Proof.
  intros [] Hu Hi Hn Hx. split; cbn; try done.
  - intros m j. destruct (decide (n = m)) as [->|Hne].
    + rewrite lookup_insert_eq. intros [= <-]. by exists s.
    + rewrite lookup_insert_ne by done. apply wok_active0.
  - intros a m Ha. destruct (wok_ids0 a m Ha) as (j & t & Hj & Ht).
    exists j, t. rewrite lookup_insert_ne; [done|]. intros ->. by apply (Hu a).
  - intros j [[=]|[Hj|[m Hm]]]%wok_held0; [by right; left|].
    destruct (decide (n = m)) as [<-|Hne]; [left; by apply Hx|].
    right; right. exists m. by rewrite lookup_insert_ne.
Qed.

Lemma wok_insert_identity lk P x w a n i s :
  wok lk P x w -> active_clients_ w !! n = Some i -> sessions w !! i = Some s ->
  identity_ s = a ->
  wok lk P x (set_identity_to_name (<[a := n]> (identity_to_name_ w)) w).
Proof.
  intros [] Hn Hi Ha. split; cbn; try done. intros b m.
  destruct (decide (a = b)) as [->|Hne].
  - rewrite lookup_insert_eq. intros [= <-]. by exists i, s.
  - rewrite lookup_insert_ne by done. apply wok_ids0.
Qed.
End Registry.

(** ** The operations on the registry *)
Section RegistryOps.
Context {St : Type} `{IStorageLaws St} `{Host} `{HashOrder}.
Implicit Types (w : World St) (P : list (option nat)).

(** A referenced session is not destroyed. *)
Lemma release_referenced i w : referenced i w = true -> release i w = (Ret tt, w).
Proof. intros Hr. unfold release, bind, gets. by rewrite Hr. Qed.

Lemma ok_assign_client P lk n i s w :
  wok lk P None w -> unnamed n w -> sessions w !! i = Some s -> name_ s = n ->
  (forall j, active_clients_ w !! n = Some j -> Some j ∈ P) ->
  wp only_terminate (assign_client n i) w
    (fun _ w' => wok lk P None w' /\ active_clients_ w' !! n = Some i /\
                 sessions w' = sessions w) (fun _ => False).
Proof.
  intros Hw Hu Hi Hn Hj. apply wp_bind, wp_gets, wp_bind, wp_modify.
  set (w' := set_active_clients _ w).
  assert (active_clients_ w' !! n = Some i) as Ha by (cbn; by rewrite lookup_insert_eq).
  destruct (active_clients_ w !! n) as [j|] eqn:Ej.
  - assert (referenced j w' = true) as Hr.
    { apply elem_of_referenced. left. cbn. rewrite (wok_locals _ _ _ _ Hw). by apply Hj. }
    unfold wp. rewrite release_referenced by done. split; [|done].
    assert (wok lk P (Some j) w') as Hw' by (eapply wok_assign; try done; congruence).
    apply elem_of_referenced in Hr. destruct Hw'. split; try done.
    intros k [[= <-]|Hk]%wok_held0; [|by right]. right. by rewrite <- wok_locals0.
  - apply wp_ret. split; [|done]. eapply wok_assign; try done. congruence.
Qed.

Lemma ok_report_sessions P lk : keeps (wok lk P None) only_terminate (report_sessions (St := St)).
Proof. unfold report_sessions. keeps_world. Qed.

(** The end of [UpsertClient], once [n] is assigned to [new]. *)
Lemma ok_upsert_tail P n new s (it : option nat) (k : M (World St) unit) w :
  wok true P None w -> active_clients_ w !! n = Some new -> sessions w !! new = Some s ->
  keeps (wok true P None) only_terminate k ->
  wp only_terminate
    (new_identity <- GetIdentity new ;;
     modify (fun w => set_identity_to_name (<[new_identity := n]> (identity_to_name_ w)) w) ;;;
     report_sessions ;;; k ;;; ret it) w
    (fun o w' => o = it /\ wok true P None w') (wok true P None).
Proof.
  intros Hw Hn Hs Hk. apply wp_bind.
  eapply wp_conseq; [eapply ok_GetIdentity; done| |done].
  intros a w' (-> & Hw' & Hr). apply wp_bind, wp_modify.
  destruct (same_sessions _ _ Hr new s Hs) as (s' & Hs' & Hid & _).
  apply wp_bind. eapply wp_conseq; [apply ok_report_sessions| |done].
  { eapply wok_insert_identity; [done| |done|done]. by rewrite (same_active _ _ Hr). }
  intros ? w2 Hw2. apply wp_bind. eapply wp_conseq; [by apply Hk| |done].
  intros ? w3 Hw3. by apply wp_ret.
Qed.

Lemma ok_replace_old P n old new s w :
  wok true P None w -> active_clients_ w !! n = Some old -> Some old ∈ P ->
  sessions w !! new = Some s -> name_ s = n ->
  wp only_terminate
    (on old PersistQueueToDatabase ;;; on old MarkOffline ;;;
     old_identity <- GetIdentity old ;; erase_identity old_identity ;;; assign_client n new) w
    (fun _ w' => wok true P None w' /\ active_clients_ w' !! n = Some new /\
                 is_Some (sessions w' !! new))
    (wok true P None).
Proof.
  intros Hw Ha Hl Hs Hn.
  assert (forall w', wok true P None w' -> is_Some (sessions w' !! old)) as Hold
    by (intros w' Hw'; by apply (wok_pinned _ _ _ _ Hw')).
  apply wp_bind. eapply wp_conseq; [apply (ok_on_same PersistQueueToDatabase true P None old w
    op_PersistQueue); [by apply Hold|exact Hw]| |done].
  intros _ w1 [Hw1 Hr1]. apply wp_bind. eapply wp_conseq;
    [apply (ok_on_same MarkOffline true P None old w1 op_MarkOffline);
      [by apply Hold|exact Hw1]| |done].
  intros _ w2 [Hw2 Hr2]. assert (reg_same w w2) as Hr by (by transitivity w1).
  destruct (Hold w2 Hw2) as [so Hso]. apply wp_bind.
  eapply wp_conseq; [by apply (ok_GetIdentity _ _ _ _ _ _ Hso Hw2)| |done].
  intros a w3 (-> & Hw3 & Hr3). assert (reg_same w w3) as Hr' by (by transitivity w2).
  destruct (same_sessions _ _ Hr3 old so Hso) as (so' & Hso' & Hid & _).
  destruct (reg_same_name _ _ _ _ _ Hr' Hs Hn) as (s' & Hs' & Hn' & _).
  apply wp_bind, wp_modify. rewrite <- Hid.
  assert (active_clients_ w3 !! n = Some old) as Ha3 by (by rewrite (same_active _ _ Hr')).
  eapply wp_conseq; [eapply (ok_assign_client P true n new s'); try done| |done].
  - by apply wok_erase_identity.
  - by eapply unnamed_erase.
  - cbn. rewrite Ha3. intros j [= <-]. exact Hl.
  - cbn. intros _ w4 (Hw4 & Ha4 & Hs4). split; [done|]. split; [done|]. by rewrite Hs4, Hs'.
Qed.

Lemma ok_UpsertClient P n new s w :
  rok P w -> Some new ∈ P -> sessions w !! new = Some s -> name_ s = n ->
  wp only_terminate (UpsertClient n (Some new)) w (fun o => rok (o :: P)) (rok P).
Proof.
  intros Hw Hl Hs Hn. unfold UpsertClient. apply wp_lock_guard; [apply Hw|].
  apply wp_bind, wp_gets, wp_bind, wp_modify.
  change (active_clients_ (set_registry_mutex true w)) with (active_clients_ w).
  set (it := active_clients_ w !! n). set (w1 := set_locals _ _).
  assert (wok true (it :: P) None w1) as Hw1.
  { apply (wok_push_client true P (set_registry_mutex true w) n). by eapply wok_set_lock. }
  eapply wp_conseq with (Q := fun o w' => o = it /\ wok true (it :: P) None w')
    (E := wok true P None);
    [|intros o w' [-> Hw']; by eapply wok_set_lock|intros w' Hw'; by eapply wok_set_lock].
  apply (ok_returning _ true P it).
  apply wp_bind.
  eapply wp_conseq with (Q := fun _ w' => wok true (it :: P) None w' /\
    active_clients_ w' !! n = Some new /\ is_Some (sessions w' !! new))
    (E := wok true (it :: P) None); [| |done].
  - destruct it as [old|] eqn:Eit; subst it.
    + eapply ok_replace_old; try done. by left.
    + eapply wp_conseq; [eapply (ok_assign_client _ _ _ _ s); try done| |done].
      * by eapply unnamed_fresh.
      * cbn. rewrite Eit. done.
      * cbn. intros _ w2 (Hw2 & Ha2 & Hs2). split; [done|]. split; [done|].
        rewrite Hs2. cbn. by rewrite Hs.
  - intros _ w2 (Hw2 & Ha2 & [s2 Hs2]).
    eapply ok_upsert_tail; [done..|]. destruct it; keeps_world.
Qed.

Lemma ok_erase_client P lk n i w :
  wok lk P None w -> unnamed n w -> active_clients_ w !! n = Some i ->
  wp only_terminate (erase_client n) w (fun _ => wok lk P None) (fun _ => False).
Proof.
  intros Hw Hu Hn. apply wp_bind, wp_gets, wp_bind, wp_modify. rewrite Hn.
  apply ok_release; [|by eapply wok_erase_client].
  cbn. destruct (wok_active _ _ _ _ Hw n i Hn) as (s & Hs & _). by exists s.
Qed.

(** Forgetting the identity and the entry of a registered client, then [k]. *)
Lemma ok_forget_client {A} P lk n i w (k : M (World St) A) :
  wok lk P None w -> active_clients_ w !! n = Some i ->
  keeps (wok lk P None) only_terminate k ->
  wp only_terminate
    (identity <- GetIdentity i ;; erase_identity identity ;;; erase_client n ;;; k) w
    (fun _ => wok lk P None) (wok lk P None).
Proof.
  intros Hw Hn Hk. destruct (wok_active _ _ _ _ Hw n i Hn) as (s & Hs & _).
  apply wp_bind. eapply wp_conseq; [by apply (ok_GetIdentity _ _ _ _ _ _ Hs Hw)| |done].
  intros a w1 (-> & Hw1 & Hr). destruct (same_sessions _ _ Hr i s Hs) as (s' & Hs' & Hid & _).
  apply wp_bind, wp_modify, wp_bind. rewrite <- Hid.
  eapply wp_conseq with (Q := fun _ => wok lk P None) (E := fun _ => False); [| |done].
  - eapply ok_erase_client; [by apply wok_erase_identity| |].
    + eapply unnamed_erase; [done| |done]. by rewrite (same_active _ _ Hr).
    + cbn. by rewrite (same_active _ _ Hr).
  - intros _ w2 Hw2. by apply Hk.
Qed.

Lemma ok_UnregisterClient P n : keeps (rok P) only_terminate (UnregisterClient (St := St) n).
Proof.
  intros w Hw. apply (ok_with_lock _ P _ P); [done|]. intros w1 Hw1.
  apply wp_bind, wp_gets. eapply wp_conseq with (Q := fun _ => wok true P None)
    (E := wok true P None); [|intros ? w'; apply wok_set_lock|done].
  destruct (active_clients_ w1 !! n) as [i|] eqn:Ei; [|by apply wp_ret].
  apply ok_forget_client; [done..|].
  solve_keeps ltac:(keeps_world_call || apply ok_report_sessions).
Qed.

Lemma hash_order_elem w n i :
  (n, i) ∈ hash_order (active_clients_ w) <-> active_clients_ w !! n = Some i.
Proof. by rewrite hash_order_perm, elem_of_map_to_list. Qed.

Lemma ok_PrintActiveClients P : keeps (rok P) only_terminate (PrintActiveClients (St := St)).
Proof.
  intros w Hw. apply (ok_with_lock _ P _ P); [done|]. intros w1 Hw1.
  apply wp_bind, wp_gets.
  eapply wp_conseq with (Q := fun _ w' => wok true P None w' /\ reg_same w1 w')
    (E := wok true P None); [|intros ? w' [Hw' _]; by eapply wok_set_lock|done].
  apply wp_for_each; [by split|]. intros [n i] w2 Hn [Hw2 Hr].
  apply hash_order_elem in Hn. destruct (wok_active _ _ _ _ Hw1 n i Hn) as (s & Hs & _).
  destruct (same_sessions _ _ Hr i s Hs) as (s' & Hs' & _). apply wp_bind.
  eapply wp_conseq; [apply (ok_on_same GetQueueSize true P None i w2 op_GetQueueSize);
    [by exists s'|done]| |done].
  intros ? w3 Hw3. destruct Hw3 as [Hw3 Hr3]. apply wp_ret. split; [done|]. by transitivity w2.
Qed.

(** A new session, on top of the stack. *)
Lemma ok_make_session P a w :
  rok P w -> wp only_terminate (make_session a) w (fun i => rok (Some i :: P)) (rok P).
Proof.
  intros Hw. unfold wp, make_session. set (i := next_address w).
  assert (sessions w !! i = None) as Hi.
  { destruct (sessions w !! i) as [s|] eqn:E; [|done].
    destruct (wok_heap _ _ _ _ Hw i s E) as [Hlt _]. unfold i in Hlt. lia. }
  destruct Hw. split; cbn; try done.
  - congruence.
  - intros n j (s & Hs & Hn)%wok_active0. exists s. rewrite lookup_insert_ne; [done|]. congruence.
  - intros b n (j & s & Hn & Hj & Hs)%wok_ids0. exists j, s.
    rewrite lookup_insert_ne; [done|]. congruence.
  - intros j [[= ->]|Hj]%elem_of_cons; [by rewrite lookup_insert_eq|].
    rewrite lookup_insert_is_Some'. right. by apply wok_pinned0.
  - intros j s. destruct (decide (i = j)) as [<-|Hne].
    + rewrite lookup_insert_eq. intros [= <-]. split; [unfold i; lia|done].
    + rewrite lookup_insert_ne by done. intros [Hj Hm]%wok_heap0. split; [lia|done].
  - intros j. rewrite lookup_insert_is_Some'. intros [<-|Hj]; [right; left; by left|].
    destruct (wok_held0 j Hj) as [[=]|[Hj'|Hj']]; [right; left; by right|by right; right].
Qed.
End RegistryOps.
