(* ===== verification/Handlers.v ===== *)
(** What the broker does with a message: the handlers of
    [include/message_handler.hpp] and [src/message_handler.cpp], one per type, the
    factory that chooses among them, and [Router::RouteMessage].

    The members of [HandlerContext] are the parts of [World]; [ctx.identity] is the
    argument [identity].  [try { ... } catch (const std::exception&) { ... }] is
    [try_catch]; an early [return] inside a [try] block is the value the block
    leaves. *)
From Stdlib Require Import ZArith Lia Strings.Byte.
From S2P Require Import Prelude Words Message Interfaces Config Metrics Session World.
From S2P Require Import Router.
Open Scope Z_scope.
Open Scope broker_scope.

Section Handlers.
Context {St : Type} `{IStorage St} `{Host} `{HashOrder}.
Implicit Types w : World St.

(** [session && session->IsOnline()] *)
Definition session_online (session : option nat) : M (World St) bool :=
  match session with
  | Some i => on i IsOnline
  | None => ret false
  end.

Definition RegisterHandler_Handle (m : Message) (identity : string) : M (World St) unit :=
  let client_name := sender_ m in
  match client_name with
  | EmptyString => ret tt
  | _ =>
      scoped (make_session identity) (fun session =>
        on session (upd (SetName client_name)) ;;;
        on session UpdateLastActivity ;;;
        on session UpdateLastReceive ;;;
        on session (upd SetPersistCallback) ;;;
        scoped (UpsertClient client_name (Some session)) (fun old_session =>
          DeliverOfflineMessages client_name ;;;
          DeliverPendingReplies client_name ;;;
          PrintActiveClients))
  end.

(** The [catch] clause of a failed send. *)
Definition roll_back (session : nat) (message_id : Z) : M (World St) unit :=
  try_catch (db (iMarkPending message_id)) (fun _ => ret tt) ;;;
  on session MarkOffline ;;;
  metric IncrementMessagesFailed.

(** The first [try] block of [MessageHandler::Handle]: the id of the stored message, or
    [None] when the handler returns there. *)
Definition store_message (m : Message) (can_deliver_immediately : bool)
    : M (World St) (option Z) :=
  try_catch
    (message_id <- db (iSaveMessage m) ;;
     (if NeedsReply m || NeedsAck m
      then db (iSaveCorrelation message_id (correlation_id_ m) (sender_ m)) else ret tt) ;;;
     ret (if can_deliver_immediately then Some message_id else None))
    (fun _ => metric IncrementMessagesFailed ;;; ret None).

(** The second one. *)
Definition send_message (m : Message) (session : nat) (message_id : Z) : M (World St) unit :=
  try_catch
    (on session UpdateLastReceive ;;;
     sent <- on session (SendMessage session m) ;;
     if (sent : bool) then
       try_catch
         (if NeedsAck m then db (iMarkSent message_id) else db (iMarkDelivered message_id))
         (fun _ => metric IncrementMessagesFailed)
     else roll_back session message_id)
    (fun _ => roll_back session message_id).

Definition MessageHandler_Handle (m : Message) : M (World St) unit :=
  scoped (FindSession (destination_ m)) (fun session =>
    can_deliver_immediately <- session_online session ;;
    message_id <- store_message m can_deliver_immediately ;;
    match message_id, session with
    | Some message_id, Some i => send_message m i message_id
    | _, _ => ret tt
    end).

(** The first [try] block of [ReplyHandler::Handle]: the reply as it is stored, and its
    id; [None] when the handler returns there. *)
Definition store_reply (m : Message) : M (World St) (option (Message * Z)) :=
  try_catch
    (original_sender <- db (iFindOriginalSenderByCorrelation (correlation_id_ m)) ;;
     let redirected := negb (String.eqb original_sender EmptyString) in
     let reply_msg := if redirected then SetDestination original_sender m else m in
     message_id <- db (iSaveMessage reply_msg) ;;
     let correlation_owner :=
       if redirected then original_sender else destination_ reply_msg in
     db (iSaveCorrelation message_id (correlation_id_ m) correlation_owner) ;;;
     ret (Some (reply_msg, message_id)))
    (fun _ => metric IncrementMessagesFailed ;;; ret None).

Definition send_reply (reply_msg : Message) (session : nat) (message_id : Z)
    : M (World St) unit :=
  try_catch
    ((if NeedsAck reply_msg then db (iMarkSent message_id) else ret tt) ;;;
     sent <- on session (SendMessage session reply_msg) ;;
     if (sent : bool) then
       if negb (NeedsAck reply_msg) then db (iMarkDelivered message_id) else ret tt
     else
       (if NeedsAck reply_msg
        then try_catch (db (iMarkPending message_id)) (fun _ => ret tt) else ret tt) ;;;
       on session MarkOffline ;;;
       metric IncrementMessagesFailed)
    (fun _ => roll_back session message_id).

Definition ReplyHandler_Handle (m : Message) : M (World St) unit :=
  stored <- store_reply m ;;
  match stored with
  | None => ret tt
  | Some (reply_msg, message_id) =>
      scoped (FindSession (destination_ reply_msg)) (fun session =>
        online <- session_online session ;;
        match session with
        | Some i => if (online : bool) then send_reply reply_msg i message_id else ret tt
        | None => ret tt
        end)
  end.

Definition ack_notification (ack_sender original_sender : string) (correlation_id : Z) : Message :=
  SetCorrelationId correlation_id
    (SetDestination original_sender (SetSender ack_sender (SetType MT_Ack Message_default))).

(** Telling [original_sender] that its message was acknowledged. *)
Definition notify_sender (ack_sender original_sender : string) (correlation_id : Z)
    : M (World St) unit :=
  scoped (FindSession original_sender) (fun session =>
    online <- session_online session ;;
    let note := ack_notification ack_sender original_sender correlation_id in
    match session with
    | Some i =>
        if (online : bool) then on i (SendMessage i note) ;;; ret tt
        else db (iSaveMessage note) ;;; ret tt
    | None => db (iSaveMessage note) ;;; ret tt
    end).

Definition AckHandler_Handle (m : Message) : M (World St) unit :=
  let acked_correlation_id := correlation_id_ m in
  if acked_correlation_id =? 0 then ret tt
  else
    let ack_sender := sender_ m in
    original_sender <- db (iFindOriginalSenderByCorrelation acked_correlation_id) ;;
    first_id <- db (iFindMessageIdByCorrelation acked_correlation_id) ;;
    message_id <- (if first_id =? 0
                   then db (iFindMessageIdByCorrelationAndDestination acked_correlation_id
                              ack_sender)
                   else ret first_id) ;;
    if message_id =? 0 then ret tt
    else
      needs_ack <- db (iNeedsAck message_id) ;;
      if (needs_ack : bool) then
        db (iMarkDelivered message_id) ;;;
        db (iMarkAckReceived message_id ack_sender) ;;;
        metric IncrementAcksReceived ;;;
        if negb (String.eqb original_sender EmptyString)
        then notify_sender ack_sender original_sender acked_correlation_id
        else ret tt
      else ret tt.

Definition UnregisterHandler_Handle (m : Message) : M (World St) unit :=
  let client_name := sender_ m in
  scoped (FindSession client_name) (fun session =>
    match session with
    | Some i =>
        on i PersistQueueToDatabase ;;;
        on i MarkOffline ;;;
        UnregisterClient client_name
    | None => ret tt
    end).

(** [MessageHandlerFactory::Create], the handler applied. *)
Definition MessageHandlerFactory_Create (t : MessageType)
    : option (Message -> string -> M (World St) unit) :=
  match t with
  | MT_Register => Some RegisterHandler_Handle
  | MT_Message => Some (fun m _ => MessageHandler_Handle m)
  | MT_Reply => Some (fun m _ => ReplyHandler_Handle m)
  | MT_Ack => Some (fun m _ => AckHandler_Handle m)
  | MT_Unregister => Some (fun m _ => UnregisterHandler_Handle m)
  | MT_other _ => None
  end.

(** The session the message came from, kept alive while it is routed. *)
Definition sender_session (identity : string) : M (World St) (option nat) :=
  with_registry_lock (
    name <- gets (fun w => identity_to_name_ w !! identity) ;;
    match name with
    | Some n =>
        it <- find_client n ;;
        push_local it ;;;
        match it with
        | Some i => on i UpdateLastReceive ;;; ret it
        | None => ret None
        end
    | None => push_local None ;;; ret None
    end).

Definition RouteMessage (m : Message) (identity : string) : M (World St) unit :=
  scoped (sender_session identity) (fun _ =>
    match MessageHandlerFactory_Create (type_ m) with
    | Some handle => handle m identity
    | None => ret tt
    end).
End Handlers.
