(* ===== verification/HandlersSpec.v ===== *)
(** What routing a message guarantees, whatever the message and the state of the
    clients: the registry stays consistent and the call comes back ([ok_*], against
    the invariant of [RouterSpec.v]), and the message store moves only by steps of the
    abstract store of [Interfaces.v] ([world_refines]). *)
From Stdlib Require Import ZArith Lia Strings.Byte.
From S2P Require Import Prelude Words Message Interfaces Config Metrics Session World.
From S2P Require Import Router RouterSpec Handlers.
Open Scope Z_scope.
Open Scope broker_scope.

Section Invariant.
Context {St : Type} `{IStorageLaws St} `{Host} `{HashOrder}.
Implicit Types (w : World St) (P : list (option nat)).

(** ** The registry under the handlers *)
Lemma on_upd f i s w :
  sessions w !! i = Some s ->
  on i (upd f) w = (Ret tt, set_sessions (<[i := f s]> (sessions w)) w).
Proof. intros Hi. unfold on. by rewrite Hi. Qed.

(** A session nobody knows yet can be changed at will. *)
Definition private i (w : World St) : Prop := forall n, active_clients_ w !! n <> Some i.

Lemma wok_private lk P x w i s :
  wok lk P x w -> private i w -> queue_mutex_ s = false -> is_Some (sessions w !! i) ->
  wok lk P x (set_sessions (<[i := s]> (sessions w)) w).
Proof.
  intros [? ? ? ? ? Hact Hids Hpin Hheap Hheld] Hp Hm Hi. split; cbn; try done.
  - intros n j Hn. rewrite lookup_insert_ne; [by apply Hact|]. intros ->. by apply (Hp n).
  - intros a n (j & t & Hn & Hj & Ht)%Hids. exists j, t.
    rewrite lookup_insert_ne; [done|]. intros ->. by apply (Hp n).
  - intros j Hj. rewrite lookup_insert_is_Some'. right. by apply Hpin.
  - intros j t. destruct (decide (i = j)) as [->|Hne].
    + rewrite lookup_insert_eq. intros [= <-]. destruct Hi as [t0 Hi].
      split; [by apply (Hheap j t0)|done].
    + rewrite lookup_insert_ne by done. apply Hheap.
  - intros j. rewrite lookup_insert_is_Some'. intros [<-|Hj]; by apply Hheld.
Qed.

Lemma make_session_private a w P :
  rok P w -> wp only_terminate (make_session a) w (fun i w' => rok (Some i :: P) w' /\
    private i w' /\ is_Some (sessions w' !! i)) (rok P).
Proof.
  intros Hw. pose proof (ok_make_session P a w Hw) as Hm. unfold wp, make_session in *.
  split; [done|]. split; [|cbn; by rewrite lookup_insert_eq].
  intros n Hn. cbn in Hn. destruct (wok_active _ _ _ _ Hw n _ Hn) as (s & Hs & _).
  destruct (wok_heap _ _ _ _ Hw _ s Hs). lia.
Qed.

(** Preparing a private session. *)
Lemma ok_on_private (m : M (Session * World St) unit) f P i w (Q : Session -> Prop) :
  (forall s, m (s, w) = (Ret tt, (f s, w))) -> (forall s, queue_mutex_ (f s) = queue_mutex_ s) ->
  (forall s, sessions w !! i = Some s -> Q (f s)) ->
  rok P w -> private i w -> is_Some (sessions w !! i) ->
  wp only_terminate (on i m) w (fun _ w' => rok P w' /\ private i w' /\
    exists s, sessions w' !! i = Some s /\ Q s) (rok P).
Proof.
  intros Hm Hq HQ Hw Hp Hi. destruct Hi as [s Hs]. unfold wp, on. rewrite Hs, Hm.
  split; [apply wok_private; try done|].
  - rewrite Hq. by apply (wok_heap _ _ _ _ Hw i).
  - split; [done|]. exists (f s). cbn. rewrite lookup_insert_eq. split; [done|by apply HQ].
Qed.

Lemma ok_prepare_session P i n w :
  rok P w -> private i w -> is_Some (sessions w !! i) ->
  forall k : M (World St) unit,
  (forall w', rok P w' -> (exists s, sessions w' !! i = Some s /\ name_ s = n) ->
     wp only_terminate k w' (fun _ => rok P) (rok P)) ->
  wp only_terminate
    (on i (upd (SetName n)) ;;; on i UpdateLastActivity ;;; on i UpdateLastReceive ;;;
     on i (upd SetPersistCallback) ;;; k) w (fun _ => rok P) (rok P).
Proof.
  intros Hw Hp Hi k Hk. apply wp_bind. eapply wp_conseq;
    [apply (ok_on_private _ (SetName n) P i w (fun s => name_ s = n)); done| |done].
  intros ? w1 (Hw1 & Hp1 & s1 & Hs1 & Hn1). apply wp_bind. eapply wp_conseq;
    [apply (ok_on_private _ (set_last_activity (clock_ w1)) P i w1 (fun s => name_ s = n));
       try done| |done]; [by intros s Hs; simplify_eq|].
  intros ? w2 (Hw2 & Hp2 & s2 & Hs2 & Hn2). apply wp_bind. eapply wp_conseq;
    [apply (ok_on_private _ (set_last_receive (clock_ w2)) P i w2 (fun s => name_ s = n));
       try done| |done]; [by intros s Hs; simplify_eq|].
  intros ? w3 (Hw3 & Hp3 & s3 & Hs3 & Hn3). apply wp_bind. eapply wp_conseq;
    [apply (ok_on_private _ SetPersistCallback P i w3 (fun s => name_ s = n));
       try done| |done]; [by intros s Hs; simplify_eq|].
  intros ? w4 (Hw4 & _ & s4 & Hs4). apply Hk; [done|by exists s4].
Qed.

Lemma ok_RegisterHandler P m a :
  keeps (rok P) only_terminate (RegisterHandler_Handle (St := St) m a).
Proof.
  intros w Hw. unfold RegisterHandler_Handle.
  destruct (sender_ m) as [|c n] eqn:En; [by apply wp_ret|]. rewrite <- En.
  apply wp_bind. eapply wp_conseq; [by apply make_session_private| |done].
  intros i w1 (Hw1 & Hp1 & Hi1). apply wp_finally; [done|].
  eapply wp_conseq with (Q := fun _ => rok (Some i :: P)) (E := rok (Some i :: P)).
  - apply ok_prepare_session; [done..|]. intros w2 Hw2 (s & Hs & Hn).
    apply wp_bind. eapply wp_conseq; [eapply ok_UpsertClient; try done; by left| |done].
    intros o w3 Hw3. apply wp_finally; [done|].
    eapply wp_conseq with (Q := fun _ => rok (o :: Some i :: P)) (E := rok (o :: Some i :: P)).
    + pose proof (keeps_bind _ _ _ _ (ok_DeliverOfflineMessages (o :: Some i :: P) (sender_ m))
        (fun _ => keeps_bind _ _ _ _ (ok_DeliverPendingReplies (o :: Some i :: P) (sender_ m))
           (fun _ => ok_PrintActiveClients (o :: Some i :: P)))) as Hk.
      exact (Hk w3 Hw3).
    + intros ? w4 Hw4. eapply wp_conseq; [by eapply ok_pop_local|done|done].
    + intros w4 Hw4. eapply wp_conseq; [by eapply ok_pop_local|done|done].
  - intros ? w2 Hw2. eapply wp_conseq; [by eapply ok_pop_local|done|done].
  - intros w2 Hw2. eapply wp_conseq; [by eapply ok_pop_local|done|done].
Qed.

Lemma ok_roll_back P i n :
  Some i ∈ P -> keeps (rok P) only_terminate (roll_back (St := St) i n).
Proof. intros Hi. unfold roll_back. keeps_world. Qed.

Lemma ok_store_message P m b : keeps (rok P) only_terminate (store_message (St := St) m b).
Proof. unfold store_message. keeps_world. Qed.

Lemma ok_send_message P m i n :
  Some i ∈ P -> keeps (rok P) only_terminate (send_message (St := St) m i n).
Proof.
  intros Hi. unfold send_message.
  solve_keeps ltac:(keeps_world_call || (apply ok_roll_back; done)).
Qed.

Lemma ok_session_online P o :
  o ∈ P -> keeps (rok P) only_terminate (session_online (St := St) o).
Proof. intros Ho. unfold session_online, IsOnline. destruct o; keeps_world. Qed.

Lemma ok_MessageHandler P m : keeps (rok P) only_terminate (MessageHandler_Handle (St := St) m).
Proof.
  apply ok_scoped with (o := fun o => o); [apply ok_FindSession|]. intros o.
  assert (o ∈ o :: P) as Ho by by left.
  apply keeps_bind; [by apply ok_session_online|]. intros b.
  apply keeps_bind; [apply ok_store_message|]. intros n.
  destruct n as [n|], o as [i|]; try apply keeps_pure. by apply ok_send_message.
Qed.

Lemma ok_store_reply P m : keeps (rok P) only_terminate (store_reply (St := St) m).
Proof. unfold store_reply. keeps_world. Qed.

Lemma ok_send_reply P m i n :
  Some i ∈ P -> keeps (rok P) only_terminate (send_reply (St := St) m i n).
Proof.
  intros Hi. unfold send_reply.
  solve_keeps ltac:(keeps_world_call || (apply ok_roll_back; done)).
Qed.

Lemma ok_ReplyHandler P m : keeps (rok P) only_terminate (ReplyHandler_Handle (St := St) m).
Proof.
  apply keeps_bind; [apply ok_store_reply|]. intros [[r n]|]; [|apply keeps_pure].
  apply ok_scoped with (o := fun o => o); [apply ok_FindSession|]. intros o.
  assert (o ∈ o :: P) as Ho by by left.
  apply keeps_bind; [by apply ok_session_online|]. intros [].
  - destruct o; [by apply ok_send_reply|apply keeps_pure].
  - destruct o; apply keeps_pure.
Qed.

Lemma ok_notify_sender P a o c : keeps (rok P) only_terminate (notify_sender (St := St) a o c).
Proof.
  apply ok_scoped with (o := fun o => o); [apply ok_FindSession|]. intros i.
  assert (i ∈ i :: P) as Hi by by left.
  apply keeps_bind; [by apply ok_session_online|]. intros []; keeps_world.
Qed.

Lemma ok_AckHandler P m : keeps (rok P) only_terminate (AckHandler_Handle (St := St) m).
Proof.
  unfold AckHandler_Handle.
  solve_keeps ltac:(keeps_world_call || apply ok_notify_sender).
Qed.

Lemma ok_UnregisterHandler P m :
  keeps (rok P) only_terminate (UnregisterHandler_Handle (St := St) m).
Proof.
  apply ok_scoped with (o := fun o => o); [apply ok_FindSession|]. intros [i|]; [|apply keeps_pure].
  solve_keeps ltac:(keeps_world_call || apply ok_UnregisterClient).
Qed.

Lemma ok_sender_session P a w :
  rok P w -> wp only_terminate (sender_session a) w (fun o => rok (o :: P)) (rok P).
Proof.
  intros Hw. apply (ok_with_lock _ P); [done|]. intros w1 Hw1. apply wp_bind, wp_gets.
  destruct (identity_to_name_ w1 !! a) as [n|] eqn:En.
  - destruct (wok_ids _ _ _ _ Hw1 a n En) as (i & s & Hn & Hi & _).
    apply wp_bind, wp_gets, wp_bind, wp_modify.
    pose proof (wok_push_client true P w1 n Hw1) as Hw2. rewrite Hn in *.
    apply wp_bind. eapply wp_conseq with (Q := fun _ => wok true (Some i :: P) None)
      (E := fun _ => False); [| |done].
    + pose proof (ok_on UpdateLastReceive true (Some i :: P) None i
        (set_locals (Some i :: locals w1) w1) op_UpdateLastReceive ltac:(cbn; by exists s) Hw2)
        as Ho.
      unfold wp, on in *. cbn in *. rewrite Hi in *. exact Ho.
    + intros ? w2 Hw3. apply wp_ret. eapply wok_set_lock, Hw3.
  - apply wp_bind, wp_modify, wp_ret. eapply wok_set_lock. by apply wok_push.
Qed.

Lemma ok_handle P t h m a :
  MessageHandlerFactory_Create (St := St) t = Some h -> keeps (rok P) only_terminate (h m a).
Proof.
  destruct t; intros [= <-].
  - apply ok_RegisterHandler.
  - apply ok_MessageHandler.
  - apply ok_ReplyHandler.
  - apply ok_AckHandler.
  - apply ok_UnregisterHandler.
Qed.

Lemma ok_RouteMessage P m a : keeps (rok P) only_terminate (RouteMessage (St := St) m a).
Proof.
  apply ok_scoped with (o := fun o => o); [apply ok_sender_session|]. intros o.
  destruct (MessageHandlerFactory_Create (type_ m)) as [h|] eqn:E; [|apply keeps_pure].
  by eapply ok_handle.
Qed.
End Invariant.

(** ** The store and the event loop under the handlers

    The handlers touch the store only through its calls, and nothing of the event loop
    but the send queue.  [Follows R]: the relation [R] between two worlds follows from
    that.  What holds of the calls of the storage then holds of every handler. *)
Section Refinement.
Context {St : Type} `{IStorageLaws St} `{Host} `{HashOrder}.
Implicit Types (w : World St).

(** What no handler changes: the socket, the flags and timers of the event loop. *)
Record same_loop w w' : Prop := {
  loop_socket : socket w' = socket w;
  loop_running : running_ w' = running_ w;
  loop_sending : sending_in_progress_ w' = sending_in_progress_ w;
  loop_waiting : waiting w' = waiting w;
  loop_cleanup : cleanup_timer_ w' = cleanup_timer_ w;
  loop_ack : ack_timeout_timer_ w' = ack_timeout_timer_ w;
  loop_config : config_ w' = config_ w;
  loop_clock : clock_ w' = clock_ w;
}.

#[export] Instance same_loop_preorder : PreOrder same_loop.
Proof. split; [by intros w|]. intros w1 w2 w3 [] []. split; congruence. Qed.

Definition world_refines w w' : Prop := refines_steps (storage_ w) (storage_ w').

#[export] Instance world_refines_preorder : PreOrder world_refines.
Proof.
  split; [intros w; unfold world_refines; reflexivity|].
  intros w1 w2 w3. unfold world_refines. intros. by transitivity (storage_ w2).
Qed.

Class Follows (R : relation (World St)) : Prop := {
  follows_preorder :: PreOrder R;
  follows_local : forall w w', storage_ w' = storage_ w -> same_loop w w' -> R w w';
  follows_db : forall A (m : M St A), preserves refines_steps m -> preserves R (db m);
}.

#[export] Instance world_refines_follows : Follows world_refines.
Proof.
  split; [apply _| |].
  - intros w w' Hs _. unfold world_refines. rewrite Hs. reflexivity.
  - intros A m Hm w. unfold db, world_refines. specialize (Hm (storage_ w)).
    destruct (storage_alive w); [|reflexivity]. by destruct (m (storage_ w)).
Qed.

#[export] Instance same_loop_follows : Follows same_loop.
Proof.
  split; [apply _|done|]. intros A m Hm w. unfold db.
  destruct (storage_alive w); [|done]. by destruct (m (storage_ w)).
Qed.

Context (R : relation (World St)) `{!Follows R}.

Lemma follows_modify (f : World St -> World St) :
  (forall w, storage_ (f w) = storage_ w /\ same_loop w (f w)) -> preserves R (modify f).
Proof.
  intros Hf. apply preserves_modify. intros w. destruct (Hf w). by apply follows_local.
Qed.

Lemma refines_registry_lock {A} (m : M (World St) A) :
  preserves R m -> preserves R (with_registry_lock m).
Proof. intros Hm. apply preserves_lock_guard; [apply _|by intros b w; apply follows_local|done]. Qed.

Lemma refines_SendToClient i d c :
  preserves R (SendToClient (E := World St) i d c).
Proof.
  apply preserves_bind; [apply _| |intros _; apply follows_modify; intros; split; [done | by split]].
  apply preserves_lock_guard; [apply _|by intros b w; apply follows_local|apply follows_modify; intros; split; [done | by split]].
Qed.

Lemma refines_persist n m : preserves R (persist_message (E := World St) n m).
Proof.
  apply preserves_bind; [apply _| |intros _; by apply preserves_ret, _].
  apply follows_db, refines_SaveMessage.
Qed.

(** A member function of a session, on the heap. *)
Definition session_refines {A} (m : M (Session * World St) A) : Prop :=
  preserves (program_R R) m.

Lemma refines_on {A} i (m : M (Session * World St) A) :
  session_refines m -> preserves R (on i m).
Proof.
  intros Hm w. unfold on. destruct (sessions w !! i) as [s|]; [|reflexivity].
  specialize (Hm (s, w)). destruct (m (s, w)) as [r [s' w']].
  transitivity w'; [exact Hm | by apply follows_local].
Qed.

Lemma session_PersistQueue : session_refines PersistQueueToDatabase.
Proof. apply program_PersistQueue; [apply _|apply refines_persist]. Qed.
Lemma session_SendMessage this m : session_refines (SendMessage this m).
Proof. apply program_SendMessage; [apply _|apply refines_SendToClient|apply refines_persist]. Qed.
Lemma session_FlushQueue this : session_refines (FlushQueue this).
Proof. apply program_FlushQueue; [apply _|apply refines_SendToClient]. Qed.
Lemma session_upd f : session_refines (upd f).
Proof. by apply program_modify; [apply _|]. Qed.
Lemma session_MarkOffline : session_refines MarkOffline.
Proof. apply session_upd. Qed.
Lemma session_UpdateLastReceive : session_refines UpdateLastReceive.
Proof. by apply program_modify; [apply _|]. Qed.
Lemma session_UpdateLastActivity : session_refines UpdateLastActivity.
Proof. by apply program_modify; [apply _|]. Qed.
Lemma session_self {A} (f : Session -> A) : session_refines (self f).
Proof. intros s. unfold program_R. reflexivity. Qed.
Lemma session_GetQueueSize : session_refines GetQueueSize.
Proof.
  apply preserves_lock_guard; [apply program_R_preorder, _| |apply session_self].
  intros b s. unfold program_R. reflexivity.
Qed.
End Refinement.

#[export] Hint Resolve session_PersistQueue session_SendMessage session_FlushQueue session_upd
  session_MarkOffline session_UpdateLastReceive session_UpdateLastActivity session_self
  session_GetQueueSize : refines.
#[export] Hint Extern 0 (Follows _) => apply _ : refines.

(** [refine_world]: the combinators, the storage calls and the sessions' functions. *)
Ltac follows_side :=
  solve [apply _ | eauto with refines nocore | intros; split; [done | by split]].
Ltac refine_world_call :=
  first
    [ apply follows_db; follows_side
    | apply refines_on; follows_side
    | apply follows_modify; follows_side ].
Ltac refine_world tac :=
  solve_preserves ltac:(refine_world_call || tac);
  repeat (apply refines_registry_lock; solve_preserves ltac:(refine_world_call || tac)).

Section RefinementOps.
Context {St : Type} `{IStorageLaws St} `{Host} `{HashOrder}.
Context (R : relation (World St)) `{!Follows R}.

Lemma refines_release i : preserves R (release (St := St) i).
Proof. unfold release, Session_dtor. refine_world fail. Qed.

Lemma refines_push_local o : preserves R (push_local (St := St) o).
Proof. apply follows_modify; follows_side. Qed.

Lemma refines_pop_local : preserves R (pop_local (St := St)).
Proof. unfold pop_local. refine_world ltac:((apply refines_release; apply _)). Qed.

Lemma refines_scoped {A B} (m : M (World St) A) (k : A -> M (World St) B) :
  preserves R m -> (forall a, preserves R (k a)) ->
  preserves R (scoped m k).
Proof.
  intros Hm Hk. unfold scoped. solve_preserves ltac:(done || apply Hk || (apply refines_pop_local; apply _)).
Qed.

Lemma refines_returning {A} (m : M (World St) A) :
  preserves R m -> preserves R (returning m).
Proof.
  intros Hm w. specialize (Hm w). unfold returning. destruct (m w) as [[a|e|f] w']; [done| |done].
  pose proof (refines_pop_local w') as Hp.
  destruct (pop_local w') as [[]?]; exact (transitivity Hm Hp).
Qed.

Lemma refines_make_session a : preserves R (make_session (St := St) a).
Proof. intros w. by apply follows_local. Qed.

Lemma refines_find_client n : preserves R (find_client (St := St) n).
Proof. apply preserves_gets, _. Qed.

Lemma refines_GetIdentity i : preserves R (GetIdentity (St := St) i).
Proof. apply refines_on; [apply _ | apply session_self; apply _]. Qed.

Lemma refines_erase_identity a : preserves R (erase_identity (St := St) a).
Proof. apply follows_modify; follows_side. Qed.

Lemma refines_assign_client n i : preserves R (assign_client (St := St) n i).
Proof.
  unfold assign_client. refine_world ltac:((apply refines_find_client; apply _) || (apply refines_release; apply _)).
Qed.

Lemma refines_erase_client n : preserves R (erase_client (St := St) n).
Proof.
  unfold erase_client. refine_world ltac:((apply refines_find_client; apply _) || (apply refines_release; apply _)).
Qed.

Lemma refines_report_sessions : preserves R (report_sessions (St := St)).
Proof. unfold report_sessions, metric. refine_world fail. Qed.

Lemma refines_metric op : preserves R (metric (St := St) op).
Proof. apply follows_modify; follows_side. Qed.
End RefinementOps.

#[export] Hint Resolve refines_release refines_push_local refines_pop_local refines_make_session
  refines_find_client refines_GetIdentity refines_erase_identity refines_assign_client
  refines_erase_client refines_report_sessions refines_metric : refines.

Ltac refine_router tac :=
  repeat first
    [ solve [refine_world_call | eauto with refines nocore | tac]
    | lazymatch goal with
      | |- preserves _ (with_registry_lock _) => apply refines_registry_lock; [apply _|]
      | |- preserves _ (scoped _ _) => apply refines_scoped; [apply _| | intros ? ]
      | |- preserves _ (returning _) => apply refines_returning; [apply _|]
      end
    | preserves_step ].

Section RefinementRouter.
Context {St : Type} `{IStorageLaws St} `{Host} `{HashOrder}.
Context (R : relation (World St)) `{!Follows R}.

Lemma refines_UpsertClient n o : preserves R (UpsertClient (St := St) n o).
Proof. unfold UpsertClient. refine_router fail. Qed.
Lemma refines_UnregisterClient n : preserves R (UnregisterClient (St := St) n).
Proof. unfold UnregisterClient. refine_router fail. Qed.
Lemma refines_FindSession n : preserves R (FindSession (St := St) n).
Proof. unfold FindSession. refine_router fail. Qed.
Lemma refines_find_online n : preserves R (find_online (St := St) n).
Proof. unfold find_online, IsOnline. refine_router fail. Qed.
Lemma refines_DeliverOfflineMessages n :
  preserves R (DeliverOfflineMessages (St := St) n).
Proof.
  unfold DeliverOfflineMessages, deliver_offline, IsOnline.
  refine_router ltac:((apply refines_FindSession; apply _)).
Qed.
Lemma refines_DeliverPendingReplies n :
  preserves R (DeliverPendingReplies (St := St) n).
Proof.
  unfold DeliverPendingReplies, deliver_reply, IsOnline.
  refine_router ltac:((apply refines_FindSession; apply _)).
Qed.
Lemma refines_PrintActiveClients : preserves R (PrintActiveClients (St := St)).
Proof. unfold PrintActiveClients. refine_router fail. Qed.
Lemma refines_CheckExpiredAcks : preserves R (CheckExpiredAcks (St := St)).
Proof.
  unfold CheckExpiredAcks, retry_expired. refine_router ltac:((apply refines_find_online; apply _)).
Qed.
Lemma refines_UpdateSessionMetrics : preserves R (UpdateSessionMetrics (St := St)).
Proof. unfold UpdateSessionMetrics. refine_router fail. Qed.
Lemma refines_collect_inactive t l :
  preserves R (collect_inactive (St := St) t l).
Proof.
  induction l as [|[n i] l IH]; cbn; unfold inactive, IsOnline; refine_router ltac:(exact IH).
Qed.
Lemma refines_CleanupInactiveSessions :
  preserves R (CleanupInactiveSessions (St := St)).
Proof.
  unfold CleanupInactiveSessions, remove_client.
  refine_router ltac:((apply refines_collect_inactive; apply _) || (apply refines_UpdateSessionMetrics; apply _)).
Qed.
End RefinementRouter.

#[export] Hint Resolve refines_UpsertClient refines_UnregisterClient refines_FindSession
  refines_DeliverOfflineMessages refines_DeliverPendingReplies refines_PrintActiveClients
  : refines.

Section RefinementHandlers.
Context {St : Type} `{IStorageLaws St} `{Host} `{HashOrder}.
Context (R : relation (World St)) `{!Follows R}.

Lemma refines_session_online o : preserves R (session_online (St := St) o).
Proof. unfold session_online, IsOnline. refine_router fail. Qed.

Lemma refines_roll_back i n : preserves R (roll_back (St := St) i n).
Proof. unfold roll_back. refine_router fail. Qed.

Lemma refines_handle t h m a :
  MessageHandlerFactory_Create (St := St) t = Some h -> preserves R (h m a).
Proof.
  destruct t; intros [= <-]; unfold RegisterHandler_Handle, MessageHandler_Handle,
    ReplyHandler_Handle, AckHandler_Handle, UnregisterHandler_Handle, store_message,
    send_message, store_reply, send_reply, notify_sender;
    refine_router ltac:((apply refines_session_online; apply _) || (apply refines_roll_back; apply _)).
Qed.

Lemma refines_RouteMessage m a : preserves R (RouteMessage (St := St) m a).
Proof.
  unfold RouteMessage. apply refines_scoped; [apply _ | unfold sender_session; refine_router fail|].
  intros o. destruct (MessageHandlerFactory_Create (type_ m)) as [h|] eqn:E;
    [by eapply refines_handle | apply preserves_ret, _].
Qed.
End RefinementHandlers.

Section Properties.
Context {St : Type} `{IStorageLaws St} `{Host} `{HashOrder}.
Implicit Types (w : World St).

(** What a routed message leaves: a consistent registry, unless a destructor threw. *)
Definition routed_safely (o : result unit * World St) : Prop :=
  match o with
  | (Stuck f, _) => only_terminate f
  | (_, w') => rok [] w'
  end.

(** C4. Routing is safe: whatever the message, its type and the identity it came from,
    [RouteMessage] comes back, by a return or an exception, with the mutexes free, no
    pointer left on the stack and the registry consistent (names own their sessions,
    identities lead to the session they belong to, every session is registered).  It
    never waits for a mutex it holds, never uses a destroyed session and never runs
    out of a loop's bound; the only way not to come back is a destructor that throws. *)
Theorem RouteMessage_safe (m : Message) (identity : string) w :
  rok [] w -> routed_safely (RouteMessage m identity w).
Proof.
  intros Hw. pose proof (ok_RouteMessage [] m identity w Hw) as Hr. unfold wp in Hr.
  unfold routed_safely. by destruct (RouteMessage m identity w) as [[]?].
Qed.
End Properties.
