(* ===== verification/Cleanup.v ===== *)
(** The periodic cleanup of [Router]: [CleanupInactiveSessions] holds the registry
    mutex for its whole body and calls [UpdateSessionMetrics], which locks it again.
    With no metrics object it does its work; with one, which is how [Server] builds
    the router, it never comes back once there is a session to remove. *)
From Stdlib Require Import ZArith Lia Strings.Byte.
From S2P Require Import Prelude Words Message Interfaces Config Metrics Session World.
From S2P Require Import Router RouterSpec.
Open Scope Z_scope.
Open Scope broker_scope.

Section Cleanup.
Context {St : Type} `{IStorageLaws St} `{Host} `{HashOrder}.
Implicit Types (w : World St) (P : list (option nat)).

(** No message waits in a session: nothing is left to persist, so nothing throws. *)
Definition idle w : Prop := forall i s, sessions w !! i = Some s -> outgoing_queue_ s = [].

Lemma persist_idle s w :
  outgoing_queue_ s = [] -> queue_mutex_ s = false ->
  PersistQueueToDatabase (s, w) = (Ret tt, (s, w)).
Proof.
  intros Hq Hm. rewrite PersistQueue_eq, Hq by done. destruct (persist_callback_ s); [|done].
  cbn. rewrite <- Hq. by destruct s.
Qed.

Lemma set_same_session i s w :
  sessions w !! i = Some s -> set_sessions (<[i := s]> (sessions w)) w = w.
Proof. intros Hs. rewrite insert_id by done. by destruct w. Qed.

Lemma on_self {A} (f : Session -> A) i s w :
  sessions w !! i = Some s -> on i (self f) w = (Ret (f s), w).
Proof. intros Hs. unfold on. rewrite Hs. cbn. by rewrite set_same_session. Qed.

Lemma on_persist_idle i s w :
  sessions w !! i = Some s -> outgoing_queue_ s = [] -> queue_mutex_ s = false ->
  on i PersistQueueToDatabase w = (Ret tt, w).
Proof. intros Hs Hq Hm. unfold on. rewrite Hs, persist_idle by done. by rewrite set_same_session. Qed.

(** ** The first loop *)

(** Whether a session must go. *)
Definition is_inactive (t now : Z) (s : Session) : bool :=
  negb (is_online_ s) || ((0 <? t) && IsExpired t now s).

(** What the loop does to it. *)
Definition visited (t now : Z) (s : Session) : Session :=
  if is_inactive t now s then set_online false s else s.

Lemma inactive_eq t i s w :
  sessions w !! i = Some s -> outgoing_queue_ s = [] -> queue_mutex_ s = false ->
  inactive t i w = (Ret (is_inactive t (clock_ w) s),
                    set_sessions (<[i := visited t (clock_ w) s]> (sessions w)) w).
Proof.
  intros Hs Hq Hm. unfold inactive, visited, is_inactive, IsOnline, bind.
  rewrite (on_self _ _ s) by done. destruct (is_online_ s) eqn:Eo; cbn [negb orb].
  - unfold gets. rewrite (on_self _ _ s) by done.
    destruct ((0 <? t) && IsExpired t (clock_ w) s); cbn [ret].
    + unfold MarkOffline. assert (on i (upd (set_online false)) w =
        (Ret tt, set_sessions (<[i := set_online false s]> (sessions w)) w)) as ->
        by (unfold on; by rewrite Hs).
      erewrite on_persist_idle; [done|cbn; by rewrite lookup_insert_eq|done|done].
    + by rewrite set_same_session.
  - cbn. replace (set_online false s) with s by (destruct s; cbn in *; by subst).
    by rewrite set_same_session.
Qed.

(** The names collected, and what is left of the world. *)
Definition inactive_at (t : Z) w (i : nat) : bool :=
  match sessions w !! i with
  | Some s => is_inactive t (clock_ w) s
  | None => false
  end.

Definition collected (t : Z) (l : list (string * nat)) w : list string :=
  map fst (filter (fun p => inactive_at t w (snd p) = true) l).

Lemma collected_ext t l w w' :
  clock_ w' = clock_ w -> (forall p, p ∈ l -> sessions w' !! snd p = sessions w !! snd p) ->
  collected t l w' = collected t l w.
Proof.
  intros Hc Hl. unfold collected. f_equal. induction l as [|p l IH]; [done|].
  rewrite !filter_cons, IH by (intros q Hq; apply Hl; by right).
  unfold inactive_at. rewrite Hc, (Hl p) by by left. done.
Qed.

(** The loop's effect: sessions may be marked offline, nothing else. *)
Record collecting w w' : Prop := {
  co_active : active_clients_ w' = active_clients_ w;
  co_clock : clock_ w' = clock_ w;
  co_metrics : metrics_ w' = metrics_ w;
  co_idle : idle w -> idle w';
  co_wok : forall P, wok true P None w -> wok true P None w';
}.

Lemma collecting_visited t i s w :
  sessions w !! i = Some s -> queue_mutex_ s = false ->
  collecting w (set_sessions (<[i := visited t (clock_ w) s]> (sessions w)) w).
Proof.
  intros Hs Hm. assert (same_session s (visited t (clock_ w) s) /\
    queue_mutex_ (visited t (clock_ w) s) = false /\
    outgoing_queue_ (visited t (clock_ w) s) = outgoing_queue_ s) as (Hsame & Hmx & Hqx)
    by (unfold visited; by case_match).
  split; try done.
  - intros Hi j r. cbn. destruct (decide (i = j)) as [->|Hne].
    + rewrite lookup_insert_eq. intros [= <-]. rewrite Hqx. by apply (Hi j).
    + rewrite lookup_insert_ne by done. apply Hi.
  - intros P Hw. eapply (wok_on _ _ _ w); [done|done|].
    split; [done|]. split; [done|]. by eapply wok_outside.
Qed.

Lemma collect_inactive_outcome t l w P :
  wok true P None w -> idle w -> NoDup (map snd l) ->
  (forall p, p ∈ l -> is_Some (sessions w !! snd p)) ->
  exists w', collect_inactive t l w = (Ret (collected t l w), w') /\ collecting w w'.
Proof.
  intros Hw Hi Hnd Hl. revert w Hw Hi Hl.
  induction l as [|[n i] l IH]; intros w Hw Hi Hl.
  { exists w. split; [done|]. by split. }
  apply NoDup_cons in Hnd as [Hni Hnd]. destruct (Hl (n, i)) as [s Hs]; [by left|]. cbn in Hs.
  destruct (wok_heap _ _ _ _ Hw i s Hs) as [_ Hm]. cbn [collect_inactive]. unfold bind at 1.
  rewrite (inactive_eq t i s) by (done || by apply (Hi i)).
  set (w1 := set_sessions _ w). pose proof (collecting_visited t i s w Hs Hm) as Hc.
  assert (forall p, p ∈ l -> sessions w1 !! snd p = sessions w !! snd p) as Hsame.
  { intros p Hp. cbn. apply lookup_insert_ne. intros ->. apply Hni.
    apply list_elem_of_fmap. by exists p. }
  destruct (IH Hnd w1) as (w2 & E & Hc2).
  - by apply (co_wok _ _ Hc).
  - by apply (co_idle _ _ Hc).
  - intros p Hp. rewrite Hsame by done. apply Hl. by right.
  - unfold bind. rewrite E. exists w2. split.
    + rewrite (collected_ext t l w w1) by done. unfold collected. rewrite filter_cons.
      assert (inactive_at t w i = is_inactive t (clock_ w) s) as Hia
        by (unfold inactive_at; by rewrite Hs).
      cbn [snd fst]. rewrite Hia. by destruct (is_inactive t (clock_ w) s).
    + split; [exact (eq_trans (co_active _ _ Hc2) (co_active _ _ Hc))
        | exact (eq_trans (co_clock _ _ Hc2) (co_clock _ _ Hc))
        | exact (eq_trans (co_metrics _ _ Hc2) (co_metrics _ _ Hc)) | |].
      * intros Hidle. apply (co_idle _ _ Hc2), (co_idle _ _ Hc), Hidle.
      * intros Q HQ. apply (co_wok _ _ Hc2), (co_wok _ _ Hc), HQ.
Qed.

(** ** The second loop *)
Lemma release_idle i s w :
  sessions w !! i = Some s -> outgoing_queue_ s = [] -> queue_mutex_ s = false ->
  exists w', release i w = (Ret tt, w') /\ active_clients_ w' = active_clients_ w /\
    metrics_ w' = metrics_ w /\ (idle w -> idle w').
Proof.
  intros Hs Hq Hm. unfold release, bind, gets. destruct (referenced i w); [by exists w|].
  unfold try_catch, Session_dtor. rewrite (on_persist_idle i s) by done. eexists.
  split; [done|]. split; [done|]. split; [done|]. intros Hi j t. cbn.
  intros [_ Hj]%lookup_delete_Some. by apply (Hi j).
Qed.

Lemma remove_client_outcome n w P :
  wok true P None w -> idle w ->
  exists w', remove_client n w = (Ret Continue, w') /\
    active_clients_ w' = delete n (active_clients_ w) /\
    (metrics_ w' = None <-> metrics_ w = None) /\ wok true P None w' /\ idle w'.
Proof.
  intros Hw Hi. unfold remove_client, find_client. unfold bind at 1, gets.
  destruct (active_clients_ w !! n) as [i|] eqn:En.
  2:{ exists w. rewrite delete_id by done. tauto. }
  destruct (wok_active _ _ _ _ Hw n i En) as (s & Hs & _).
  destruct (wok_heap _ _ _ _ Hw i s Hs) as [_ Hm].
  pose proof (ok_forget_client P true n i w (metric IncrementClientsTimeout ;;; ret Continue)
    Hw En ltac:(keeps_world)) as Hk.
  revert Hk. unfold wp, bind, GetIdentity. rewrite (on_self _ _ s) by done.
  unfold erase_identity, modify, erase_client, find_client, bind, gets. cbn. rewrite En.
  set (w1 := set_active_clients _ _).
  destruct (release_idle i s w1) as (w2 & -> & Ha & Hme & Hi2); [done|by apply (Hi i)|done|].
  cbn. intros Hk. eexists. split; [done|]. cbn. rewrite Ha. cbn in Hme.
  split; [done|]. split; [rewrite Hme; destruct (metrics_ w); cbn; intuition discriminate|].
  split; [done|]. by apply Hi2.
Qed.

Lemma remove_all l w P :
  wok true P None w -> idle w ->
  exists w', for_each l remove_client w = (Ret tt, w') /\
    active_clients_ w' = foldl (fun t n => delete n t) (active_clients_ w) l /\
    (metrics_ w' = None <-> metrics_ w = None) /\ wok true P None w' /\ idle w'.
Proof.
  revert w. induction l as [|n l IH]; intros w Hw Hi; [exists w; cbn; tauto|].
  cbn [for_each foldl].
  destruct (remove_client_outcome n w P Hw Hi) as (w1 & E & Ha & Hm & Hw1 & Hi1).
  destruct (IH w1 Hw1 Hi1) as (w2 & E2 & Ha2 & Hm2 & Hw2 & Hi2).
  exists w2. unfold bind. rewrite E, E2, Ha2, Ha. split_and!; try done. by rewrite Hm2.
Qed.

(** ** Properties *)
Definition lock_registry w : World St := set_registry_mutex true w.

(** Two names never share a session. *)
Lemma clients_distinct lk P x w :
  wok lk P x w -> NoDup (map snd (hash_order (active_clients_ w))).
Proof.
  intros Hw. rewrite hash_order_perm. apply NoDup_fmap_2_strong; [|apply NoDup_map_to_list].
  intros [n i] [n' i'] Hn%elem_of_map_to_list Hn'%elem_of_map_to_list [= ->].
  destruct (wok_active _ _ _ _ Hw n i' Hn) as (s & Hs & Hnm).
  destruct (wok_active _ _ _ _ Hw n' i' Hn') as (s' & Hs' & Hnm'). congruence.
Qed.

(** Both loops, from the point where the mutex is taken. *)
Lemma cleanup_loops w :
  rok [] w -> idle w ->
  let t := SessionTimeout (config_ w) in
  let l := collected t (hash_order (active_clients_ w)) (lock_registry w) in
  exists w', wok true [] None w' /\ idle w' /\
    active_clients_ w' = foldl (fun t n => delete n t) (active_clients_ w) l /\
    (metrics_ w' = None <-> metrics_ w = None) /\
    fst (CleanupInactiveSessions w) =
      fst ((match l with [] => ret tt | _ => UpdateSessionMetrics end) w') /\
    (fst (CleanupInactiveSessions w) = Ret tt ->
     snd (CleanupInactiveSessions w) =
       set_registry_mutex false
         (snd ((match l with [] => ret tt | _ => UpdateSessionMetrics end) w'))).
Proof.
  intros Hw Hi t l. set (w1 := lock_registry w).
  assert (wok true [] None w1) as Hw1 by by eapply wok_set_lock.
  pose proof (clients_distinct true [] None w1 Hw1) as Hnd. change (active_clients_ w1) with (active_clients_ w) in Hnd.
  destruct (collect_inactive_outcome t (hash_order (active_clients_ w)) w1 [])
    as (w2 & E & Hc); [done|exact Hi|done| |].
  { intros [n i] Hn. apply hash_order_elem in Hn.
    destruct (wok_active _ _ _ _ Hw n i Hn) as (s & Hs & _). by exists s. }
  destruct (remove_all l w2 []) as (w3 & E3 & Ha3 & Hm3 & Hw3 & Hi3).
  { by apply (co_wok _ _ Hc). } { by apply (co_idle _ _ Hc). }
  exists w3. split; [done|]. split; [done|]. split; [by rewrite Ha3, (co_active _ _ Hc)|].
  split; [by rewrite Hm3, (co_metrics _ _ Hc)|].
  unfold CleanupInactiveSessions, with_registry_lock, lock_guard.
  rewrite (wok_lock _ _ _ _ Hw). unfold gets, bind. cbn [fst snd].
  change (set_registry_mutex true w) with w1. fold t.
  change (config_ w1) with (config_ w). change (active_clients_ w1) with (active_clients_ w).
  fold t. rewrite E. change (collected t (hash_order (active_clients_ w)) w1) with l. rewrite E3.
  destruct ((match l with [] => ret tt | _ => UpdateSessionMetrics end) w3) as [[[]|e|f] w4];
    by cbn.
Qed.

Lemma elem_of_collected t n w :
  rok [] w ->
  n ∈ collected t (hash_order (active_clients_ w)) (lock_registry w) <->
  exists i, active_clients_ w !! n = Some i /\ inactive_at t w i = true.
Proof.
  intros Hw. unfold collected. rewrite list_elem_of_fmap. split.
  - intros ([m i] & -> & Hm). apply list_elem_of_filter in Hm as [Hg Hm].
    apply hash_order_elem in Hm. by exists i.
  - intros (i & Hn & Hg). exists (n, i). split; [done|]. apply list_elem_of_filter.
    split; [done|]. by apply hash_order_elem.
Qed.

Lemma foldl_delete_lookup {A} (l : list string) (t : gmap string A) n :
  foldl (fun t n => delete n t) t l !! n = if decide (n ∈ l) then None else t !! n.
Proof.
  revert t. induction l as [|m l IH]; intros t; cbn; [done|]. rewrite IH.
  destruct (decide (n ∈ l)); [by rewrite decide_True by (by right)|].
  destruct (decide (n = m)) as [->|Hne].
  - rewrite decide_True by (by left). apply lookup_delete_eq.
  - rewrite decide_False by (rewrite elem_of_cons; naive_solver).
    by apply lookup_delete_ne.
Qed.

(** C29. The cleanup blocks for ever: with a metrics object and one registered session
    that is offline or has timed out, [CleanupInactiveSessions] locks the registry
    mutex, removes the sessions, and then waits for the mutex it holds. *)
Theorem cleanup_deadlock w n i :
  rok [] w -> idle w -> metrics_ w <> None ->
  active_clients_ w !! n = Some i ->
  inactive_at (SessionTimeout (config_ w)) w i = true ->
  fst (CleanupInactiveSessions w) = Stuck Deadlock.
Proof.
  intros Hw Hi Hm Hn Hg. destruct (cleanup_loops w Hw Hi) as (w' & Hw' & _ & _ & Hm' & -> & _).
  destruct (collected _ _ _) as [|m l] eqn:E.
  { assert (n ∈ collected (SessionTimeout (config_ w)) (hash_order (active_clients_ w))
              (lock_registry w)) as Hin by (apply elem_of_collected; eauto).
    rewrite E in Hin. by apply elem_of_nil in Hin. }
  unfold UpdateSessionMetrics, with_registry_lock, lock_guard, bind, gets.
  destruct (metrics_ w') eqn:Em; [|tauto]. by rewrite (wok_lock _ _ _ _ Hw').
Qed.

(** C30. Without a metrics object the cleanup does what it is for: it comes back, with the
    registry consistent, and the clients that are left are exactly those that were
    online and had not timed out. *)
Theorem cleanup_exact w :
  rok [] w -> idle w -> metrics_ w = None ->
  exists w', CleanupInactiveSessions w = (Ret tt, w') /\ rok [] w' /\
    forall n i, active_clients_ w' !! n = Some i <->
      active_clients_ w !! n = Some i /\
      inactive_at (SessionTimeout (config_ w)) w i = false.
Proof.
  intros Hw Hi Hm. destruct (cleanup_loops w Hw Hi) as (w' & Hw' & _ & Ha & Hm' & Hr & Hs).
  set (l := collected _ _ _) in *.
  assert ((match l with [] => ret tt | _ => UpdateSessionMetrics end) w' = (Ret tt, w')) as E.
  { destruct l; [done|]. unfold UpdateSessionMetrics, bind, gets.
    by rewrite (proj2 Hm' Hm). }
  rewrite E in Hr, Hs. cbn in Hr, Hs. specialize (Hs Hr).
  exists (set_registry_mutex false w'). split; [|split].
  - destruct (CleanupInactiveSessions w); cbn in *. congruence.
  - by eapply wok_set_lock.
  - intros n i. cbn. rewrite Ha, foldl_delete_lookup. destruct (decide (n ∈ l)) as [Hin|Hni].
    + apply elem_of_collected in Hin as (j & Hj & Hg); [|done].
      split; [done|]. intros [Hn Hf]. congruence.
    + split; [|tauto]. intros Hn. split; [done|].
      destruct (inactive_at _ w i) eqn:Eg; [|done]. destruct Hni.
      apply elem_of_collected; eauto.
Qed.
End Cleanup.
