(* ===== verification/Routing.v ===== *)
(** What [MessageHandler] does, branch by branch, against the abstract store: what is stored
    and under which status, what is given to the send queue; and the rules the other
    handlers' theorems are proved with ([Replies.v], [Acks.v], [Offline.v],
    [Redelivery.v]).

    The storage may fail at any call; each theorem says what is left then, and what happens
    when it does not ([st_well]).  The destination of a message is [Online i s] when its name
    is registered with the session [s] at address [i] and that session is online. *)
From Stdlib Require Import ZArith Lia Strings.Byte.
From S2P Require Import Prelude Words Message Interfaces Config Metrics Session World.
From S2P Require Import Router RouterSpec Handlers HandlersSpec Cleanup.
Open Scope Z_scope.
Open Scope broker_scope.

Definition never (f : stuck) : Prop := False.

Section Routing.
Context {St : Type} `{IStorageLaws St} `{Host} `{HashOrder}.
Implicit Types (w : World St).

(** ** Steps *)
Definition sview w : store := view (storage_ w).

Record Online (n : string) (i : nat) (s : Session) w : Prop := {
  on_active : active_clients_ w !! n = Some i;
  on_session : sessions w !! i = Some s;
  on_online : is_online_ s = true;
}.

Lemma wp_db {A} (m : M St A) post w :
  implements st_ok view m post -> storage_alive w = true -> st_ok (storage_ w) ->
  wp never (db m) w
    (fun a w' => exists s', w' = set_storage s' w /\ st_ok s' /\ post a (sview w) (view s'))
    (fun w' => exists s', w' = set_storage s' w /\ st_ok s' /\ view s' = sview w).
Proof.
  intros Hm Ha Hs. unfold wp, db. rewrite Ha. specialize (Hm (storage_ w) Hs).
  destruct (m (storage_ w)) as [[a|e|f] s]; [| |done]; exists s; tauto.
Qed.

(** The same, with the answer: it is that of the call on the storage of [w]. *)
Lemma wp_db_is {A} (m : M St A) post w :
  implements st_ok view m post -> storage_alive w = true -> st_ok (storage_ w) ->
  wp never (db m) w
    (fun a w' => fst (m (storage_ w)) = Ret a /\
       exists s', w' = set_storage s' w /\ st_ok s' /\ post a (sview w) (view s'))
    (fun w' => (exists e, fst (m (storage_ w)) = Throw e) /\
       exists s', w' = set_storage s' w /\ st_ok s' /\ view s' = sview w).
Proof.
  intros Hm Ha Hs. unfold wp, db. rewrite Ha. specialize (Hm (storage_ w) Hs).
  destruct (m (storage_ w)) as [[a|e|f] s]; [| |done]; cbn.
  - split; [done|]. exists s. tauto.
  - split; [by exists e|]. exists s. tauto.
Qed.

(** What a send to an online session adds to the send queue. *)
Definition send_of (i : nat) (s : Session) (m : Message) : list PendingSend :=
  match Serialize host_endian m with
  | Ret data => [mkSend (identity_ s) data (Some (mkCallback i (name_ s)))]
  | _ => []
  end.

Definition serialises (m : Message) : bool :=
  match Serialize host_endian m with Ret _ => true | _ => false end.

Lemma on_SendMessage i s m w :
  sessions w !! i = Some s -> is_online_ s = true -> pending_sends_mutex_ w = false ->
  on i (SendMessage i m) w =
    (Ret true,
     set_sessions (<[i := set_online (serialises m) (set_last_activity (clock_ w) s)]> (sessions w))
       (set_posted (length (send_of i s m) + posted w)%nat
         (set_pending_sends (pending_sends_ w ++ send_of i s m) w))).
Proof.
  intros Hs Ho Hm. unfold on. rewrite Hs. unfold SendMessage, UpdateLastActivity, IsOnline, self,
    modify, gets. unfold bind at 1 2. cbn. rewrite Ho. cbn.
  unfold SendZmqMessage, try_catch, bind, lift, self, gets, env, serialises, send_of. cbn.
  destruct (Serialize host_endian m) as [data|e|f] eqn:Es.
  - cbn. unfold Server_SendToClient, bind, with_sends_lock, lock_guard. rewrite Hm. cbn.
    destruct w, s. cbn in *. by subst.
  - cbn. rewrite app_nil_r. by destruct w.
  - by destruct (Serialize_not_stuck host_endian m f).
Qed.

Lemma FindSession_eq n w :
  registry_mutex_ w = false ->
  FindSession n w = (Ret (active_clients_ w !! n),
                     set_locals (active_clients_ w !! n :: locals w) w).
Proof. intros Hm. unfold FindSession, with_registry_lock, lock_guard. rewrite Hm. destruct w; cbn in *. by subst. Qed.

(** A pointer to a registered session goes away without consequence. *)
Lemma pop_registered o l w :
  locals w = o :: l -> (forall i, o = Some i -> exists n, active_clients_ w !! n = Some i) ->
  pop_local w = (Ret tt, set_locals l w).
Proof.
  intros Hl Ho. unfold pop_local, bind, gets, modify. rewrite Hl. cbn.
  destruct o as [i|]; [|done]. apply release_referenced, elem_of_referenced. right.
  destruct (Ho i eq_refl) as [n Hn]. by exists n.
Qed.

(** A handler that looks a client up and leaves the registry as it found it. *)
Definition same_registry w0 w : Prop :=
  active_clients_ w = active_clients_ w0 /\ locals w = locals w0.

Lemma wp_scoped_find {A} n (k : option nat -> M (World St) A) w Q E :
  registry_mutex_ w = false ->
  (let w1 := set_locals (active_clients_ w !! n :: locals w) w in
   wp never (k (active_clients_ w !! n)) w1
     (fun a w' => same_registry w1 w' /\ Q a (set_locals (locals w) w'))
     (fun w' => same_registry w1 w' /\ E (set_locals (locals w) w'))) ->
  wp never (scoped (FindSession n) k) w Q E.
Proof.
  intros Hm Hk. cbv zeta in Hk. unfold scoped, bind, wp, finally in *.
  rewrite FindSession_eq by done.
  destruct (k (active_clients_ w !! n) _) as [[a|e|f] w']; [| |done];
    destruct Hk as [[Ha Hl] Hq]; cbn in Ha, Hl;
    rewrite (pop_registered (active_clients_ w !! n) (locals w)); try done;
    intros i Hi; exists n; congruence.
Qed.

(** ** Storing *)
Definition stored (k : Z) (m : Message) (st : Z) (a a' : store) : Prop :=
  0 < k < 2 ^ 63 /\ rows a !! k = None /\ rows a' = <[k := (db_copy m, st)]> (rows a).

Definition correlated (k : Z) (c : Z) (owner : string) (a : store) : Prop :=
  (k, s64 c, c_str owner) ∈ corrs a.

Definition failure (mt : option Metrics) : option Metrics := option_map IncrementMessagesFailed mt.

Lemma s64_row k : 0 < k < 2 ^ 63 -> s64 k = k.
Proof. intros Hk. apply s64_id. lia. Qed.

Lemma store_message_outcome m b w :
  storage_alive w = true -> st_ok (storage_ w) ->
  wp never (store_message m b) w
    (fun o w' => exists s' mt, w' = set_metrics mt (set_storage s' w) /\ st_ok s' /\
       ((o = None /\ mt = failure (metrics_ w) /\
         (view s' = sview w \/ exists k, stored k m STATUS_PENDING (sview w) (view s'))) \/
        (exists k, o = (if b then Some k else None) /\ mt = metrics_ w /\
           stored k m STATUS_PENDING (sview w) (view s') /\
           (NeedsReply m || NeedsAck m = true ->
            correlated k (correlation_id_ m) (sender_ m) (view s')))))
    (fun _ => False).
Proof.
  intros Ha Hs. apply wp_try_catch, wp_bind.
  eapply wp_conseq; [by apply (wp_db _ _ _ (SaveMessage_law m))| |].
  2:{ intros w1 (s1 & -> & Hs1 & Hv) e. apply wp_bind, wp_modify, wp_ret.
      exists s1, (failure (metrics_ w)). split; [done|]. split; [done|]. left. tauto. }
  intros k w1 (s1 & -> & Hs1 & Hk & Hn & Hv). apply wp_bind.
  assert (stored k m STATUS_PENDING (sview w) (view s1)) as Hst by (by rewrite Hv).
  destruct (NeedsReply m || NeedsAck m) eqn:Ef.
  - eapply wp_conseq; [apply (wp_db _ _ (set_storage s1 w)
      (SaveCorrelation_law k (correlation_id_ m) (sender_ m))); done| |].
    + intros _ w2 (s2 & -> & Hs2 & Hr & Hc). cbn in Hr, Hc. apply wp_ret. exists s2, (metrics_ w).
      split; [by destruct w|]. split; [done|]. right. exists k. split; [done|]. split; [done|].
      split; [destruct Hst as (? & ? & Hr1); split; [done|]; split; [done|]; by rewrite Hr|].
      intros _. unfold correlated. rewrite Hc, (s64_row k) by done. set_solver.
    + intros w2 (s2 & -> & Hs2 & Hv2) e. apply wp_bind, wp_modify, wp_ret.
      exists s2, (failure (metrics_ w)). split; [done|]. split; [done|]. left.
      split; [done|]. split; [done|]. right. exists k. by rewrite Hv2.
  - apply wp_ret, wp_ret. exists s1, (metrics_ w). split; [by destruct w|]. split; [done|].
    right. by exists k.
Qed.

(** ** [MessageHandler] *)

(** The status a message that was given to the sender ends in. *)
Definition sent_status (m : Message) : Z := if NeedsAck m then STATUS_SENT else STATUS_DELIVERED.

Lemma mark_sent_outcome m k a w :
  storage_alive w = true -> st_ok (storage_ w) -> stored k m STATUS_PENDING a (sview w) ->
  wp never (try_catch (if NeedsAck m then db (iMarkSent k) else db (iMarkDelivered k))
              (fun _ => metric IncrementMessagesFailed)) w
    (fun _ w' => exists s' mt st, w' = set_metrics mt (set_storage s' w) /\ st_ok s' /\
       corrs (view s') = corrs (sview w) /\ stored k m st a (view s') /\
       ((st = sent_status m /\ mt = metrics_ w) \/
        (st = STATUS_PENDING /\ mt = failure (metrics_ w))))
    (fun _ => False).
Proof.
  intros Ha Hs (Hk & Hn & Hr). apply wp_try_catch.
  assert (forall s' st, view s' = set_rows (alter (fun p => (fst p, st)) k) (sview w) ->
    corrs (view s') = corrs (sview w) /\ stored k m st a (view s')) as Hst.
  { intros s' st Hv. rewrite Hv. split; [done|]. split; [done|]. split; [done|]. cbn.
    rewrite Hr. by rewrite alter_insert_eq. }
  unfold sent_status. destruct (NeedsAck m).
  - eapply wp_conseq; [by apply (wp_db _ _ _ (MarkSent_law k))| |].
    + intros _ w1 (s1 & -> & Hs1 & Hv). exists s1, (metrics_ w), STATUS_SENT.
      split; [by destruct w|]. split; [done|]. apply and_assoc. split; [|by left].
      apply Hst. rewrite Hv, s64_row by done. apply set_rows_ext. rewrite Hr.
      by rewrite !alter_insert_eq.
    + intros w1 (s1 & -> & Hs1 & Hv) e. exists s1, (failure (metrics_ w)), STATUS_PENDING.
      split; [done|]. split; [done|]. rewrite Hv. split; [done|]. split; [done|]. by right.
  - eapply wp_conseq; [by apply (wp_db _ _ _ (MarkDelivered_law k))| |].
    + intros _ w1 (s1 & -> & Hs1 & Hv). exists s1, (metrics_ w), STATUS_DELIVERED.
      split; [by destruct w|]. split; [done|]. apply and_assoc. split; [|by left].
      apply Hst. by rewrite Hv, s64_row.
    + intros w1 (s1 & -> & Hs1 & Hv) e. exists s1, (failure (metrics_ w)), STATUS_PENDING.
      split; [done|]. split; [done|]. rewrite Hv. split; [done|]. split; [done|]. by right.
Qed.

Lemma on_UpdateLastReceive i s w :
  sessions w !! i = Some s ->
  on i UpdateLastReceive w =
    (Ret tt, set_sessions (<[i := set_last_receive (clock_ w) s]> (sessions w)) w).
Proof. intros Hs. unfold on. by rewrite Hs. Qed.

Lemma send_message_outcome m i k s a w :
  sessions w !! i = Some s -> is_online_ s = true -> pending_sends_mutex_ w = false ->
  storage_alive w = true -> st_ok (storage_ w) -> stored k m STATUS_PENDING a (sview w) ->
  wp never (send_message m i k) w
    (fun _ w' => same_registry w w' /\ corrs (sview w') = corrs (sview w) /\
       pending_sends_ w' = pending_sends_ w ++ send_of i s m /\
       exists st, stored k m st a (sview w') /\
         ((st = sent_status m /\ metrics_ w' = metrics_ w) \/
          (st = STATUS_PENDING /\ metrics_ w' = failure (metrics_ w))))
    (fun _ => False).
Proof.
  intros Hs Ho Hm Ha Hok Hst. apply wp_try_catch, wp_bind.
  unfold wp at 1. rewrite (on_UpdateLastReceive i s) by done.
  set (s1 := set_last_receive (clock_ w) s). set (w1 := set_sessions _ w).
  apply wp_bind. unfold wp at 1.
  rewrite (on_SendMessage i s1 m w1) by (done || (cbn; by rewrite lookup_insert_eq)).
  set (w2 := set_sessions _ _). change (send_of i s1 m) with (send_of i s m) in w2.
  eapply wp_conseq; [by apply (mark_sent_outcome m k a w2)| |done].
  intros ? w3 (s3 & mt & st & -> & Hs3 & Hc & Hst3 & Hmt). split; [done|]. split; [exact Hc|].
  split; [done|]. by exists st.
Qed.

(** What [MessageHandler::Handle] may leave. *)
Definition message_outcome (m : Message) (w w' : World St) : Prop :=
  (pending_sends_ w' = pending_sends_ w /\ metrics_ w' = failure (metrics_ w) /\
   (sview w' = sview w \/ exists k, stored k m STATUS_PENDING (sview w) (sview w'))) \/
  (exists k st, stored k m st (sview w) (sview w') /\
   (NeedsReply m || NeedsAck m = true ->
    correlated k (correlation_id_ m) (sender_ m) (sview w')) /\
   ((st = STATUS_PENDING /\ pending_sends_ w' = pending_sends_ w /\ metrics_ w' = metrics_ w /\
     forall i s, ~ Online (destination_ m) i s w) \/
    (exists i s, Online (destination_ m) i s w /\
       pending_sends_ w' = pending_sends_ w ++ send_of i s m /\
       ((st = sent_status m /\ metrics_ w' = metrics_ w) \/
        (st = STATUS_PENDING /\ metrics_ w' = failure (metrics_ w)))))).

(** A handler's check of the session it looked up. *)
Lemma session_online_eq o w :
  (forall i, o = Some i -> is_Some (sessions w !! i)) ->
  session_online o w =
    (Ret (match o with
          | Some i => match sessions w !! i with Some s => is_online_ s | None => false end
          | None => false
          end), w).
Proof.
  intros Ho. destruct o as [i|]; [|done]. destruct (Ho i eq_refl) as [s Hs].
  cbn. unfold IsOnline. rewrite (on_self is_online_ i s) by done. by rewrite Hs.
Qed.

Lemma registered_session w n i :
  rok [] w -> active_clients_ w !! n = Some i -> exists s, sessions w !! i = Some s /\ name_ s = n.
Proof. intros Hw. apply (wok_active _ _ _ _ Hw). Qed.

(** C7. [MessageHandler] on every branch, with the storage free to fail at each call.  It
    returns, never by an exception.  A message is given to the sender only after it
    was stored, under a fresh id, and exactly when its destination is registered and
    online; it then ends SENT if it asks for an ACK and DELIVERED if not, or stays
    PENDING with the failure counted when the status could not be written.  Otherwise
    it is stored PENDING for later, or the failure is counted and nothing was sent.  A
    message that asks for a reply or an ACK is correlated with its sender. *)
Theorem MessageHandler_outcome (m : Message) w :
  rok [] w ->
  exists w', MessageHandler_Handle m w = (Ret tt, w') /\ message_outcome m w w'.
Proof.
  intros Hw.
  assert (wp never (MessageHandler_Handle m) w (fun _ w' => message_outcome m w w')
            (fun _ => False)) as Hwp.
  2:{ unfold wp in Hwp. destruct (MessageHandler_Handle m w) as [[[]|e|f] w']; [|done|done].
      by exists w'. }
  apply wp_scoped_find; [apply Hw|]. cbv zeta.
  remember (active_clients_ w !! destination_ m) as o eqn:Eo. symmetry in Eo.
  set (w1 := set_locals _ w).
  assert (forall i, o = Some i -> is_Some (sessions w1 !! i)) as Hsome.
  { intros i Hi. rewrite Hi in Eo. destruct (registered_session w (destination_ m) i Hw Eo) as (s & Hs & _).
    by exists s. }
  apply wp_bind. unfold wp at 1. rewrite session_online_eq by done. 
  set (b := match o with
            | Some i => match sessions w1 !! i with Some s => is_online_ s | None => false end
            | None => false
            end).
  apply wp_bind. eapply wp_conseq;
    [apply (store_message_outcome m b w1); apply Hw| |done].
  intros p w2 (s2 & mt & -> & Hs2 & [(-> & -> & Hv)|(k & -> & -> & Hst & Hc)]).
  { apply wp_ret. split; [done|]. by left. }
  destruct o as [i|].
  2:{ subst b. apply wp_ret. split; [done|]. right. exists k, STATUS_PENDING. split; [done|].
      split; [done|]. left. repeat split. intros i s [Hi _ _]. congruence. }
  destruct (Hsome i eq_refl) as [s Hs]. subst b. rewrite Hs.
  destruct (is_online_ s) eqn:Eon.
  - eapply wp_conseq; [apply (send_message_outcome m i k s (sview w)); try done; apply Hw| |done].
    intros ? w3 (Hr & Hc3 & Hp3 & st & Hst3 & Hmt3). split; [exact Hr|].
    right. exists k, st. split; [done|]. split.
    { intros Hf. unfold correlated. change (sview (set_locals (locals w) w3)) with (sview w3).
      rewrite Hc3. by apply Hc. }
    right. exists i, s. by split.
  - apply wp_ret. split; [done|]. right. exists k, STATUS_PENDING. split; [done|].
    split; [done|]. left. repeat split. intros j t [Hj Ht Hon].
    change (sessions w !! i = Some s) in Hs. congruence.
Qed.

(** The [catch] clause, on a reply that is still PENDING. *)
Lemma roll_back_outcome i s r k a w :
  sessions w !! i = Some s -> storage_alive w = true -> st_ok (storage_ w) ->
  stored k r STATUS_PENDING a (sview w) ->
  wp never (roll_back i k) w
    (fun _ w' => same_registry w w' /\ sview w' = sview w /\
       pending_sends_ w' = pending_sends_ w /\ metrics_ w' = failure (metrics_ w))
    (fun _ => False).
Proof.
  intros Hs Ha Hok (Hk & Hn & Hr). unfold roll_back. apply wp_bind, wp_try_catch.
  assert (forall s', view s' = sview w ->
    wp never (on i MarkOffline ;;; metric IncrementMessagesFailed) (set_storage s' w)
      (fun _ w' => same_registry w w' /\ sview w' = sview w /\
         pending_sends_ w' = pending_sends_ w /\ metrics_ w' = failure (metrics_ w))
      (fun _ => False)) as Hend.
  { intros s' Hv. apply wp_bind. unfold wp at 1, on. cbn. rewrite Hs. cbn.
    split; [done|]. split; [exact Hv|done]. }
  eapply wp_conseq; [by apply (wp_db _ _ _ (MarkPending_law k))| |].
  - intros _ w1 (s1 & -> & Hs1 & Hv). apply Hend. rewrite Hv, s64_row by done.
    transitivity (set_rows (fun t => t) (sview w)); [|apply set_rows_id].
    apply set_rows_ext. rewrite Hr. by rewrite alter_insert_eq.
  - intros w1 (s1 & -> & Hs1 & Hv) e. apply wp_ret. by apply Hend.
Qed.

Lemma stored_mark (f : Z -> bool) to r k st a s s' :
  stored k r st a s -> f st = true -> s' = set_rows (alter (set_status f to) k) s ->
  stored k r to a s' /\ corrs s' = corrs s.
Proof.
  intros (Hk & Hn & Hr) Hf ->. split; [|done]. split; [done|]. split; [done|]. cbn. rewrite Hr.
  rewrite alter_insert_eq. unfold set_status. cbn. by rewrite Hf.
Qed.

(** [w'] differs from [w] in the storage and the metrics only. *)
Definition only_storage w w' : Prop :=
  exists s' mt, w' = set_metrics mt (set_storage s' w) /\ st_ok s'.

Lemma flush_empty i t w :
  sessions w !! i = Some t -> outgoing_queue_ t = [] -> queue_mutex_ t = false ->
  on i (FlushQueue i) w = (Ret tt, w).
Proof.
  intros Ht Hq Hm. unfold on. rewrite Ht.
  assert (FlushQueue i (t, w) = (Ret tt, (t, w))) as ->
    by (destruct t; cbn in Hq, Hm; by subst).
  by rewrite set_same_session.
Qed.

End Routing.

(** ** Storage calls of a handler, on a storage that may be well *)
Section Well.
Context {St : Type} `{IStorageHealth St} `{Host} `{HashOrder}.
Implicit Types w : World St.

(** Whatever fails, the answer is that of the call, and nothing fails on a well storage. *)
Lemma wp_db_well {A} (m : M St A) post full w :
  implements st_ok view m post -> completes st_ok st_well m 0 (fun _ => True) full ->
  storage_alive w = true -> st_ok (storage_ w) ->
  wp never (db m) w
    (fun a w' => exists s', w' = set_storage s' w /\ st_ok s' /\ post a (sview w) (view s') /\
       fst (m (storage_ w)) = Ret a /\
       forall n, st_well n (storage_ w) -> st_well n s' /\ full a (storage_ w))
    (fun w' => exists s', w' = set_storage s' w /\ st_ok s' /\ view s' = sview w /\
       (exists e, fst (m (storage_ w)) = Throw e) /\ forall n, ~ st_well n (storage_ w)).
Proof.
  intros Hm Hc Ha Hs. unfold wp, db. rewrite Ha. specialize (Hm (storage_ w) Hs).
  assert (forall n, st_well n (storage_ w) ->
    match m (storage_ w) with (Ret a, s') => st_well n s' /\ full a (storage_ w) | _ => False end)
    as Hn by (intros n Hn; by apply Hc).
  destruct (m (storage_ w)) as [[a|e|f] s]; [| |done].
  - exists s. split_and!; try done; apply Hm.
  - exists s. split_and!; try done; try apply Hm; by exists e.
Qed.

(** On a well storage with room for what the call inserts. *)
Lemma wp_db_must {A} (m : M St A) cost pre post full n w (Q : A -> World St -> Prop) E :
  implements st_ok view m post -> completes st_ok st_well m cost pre full ->
  storage_alive w = true -> st_ok (storage_ w) -> st_well (cost + n) (storage_ w) ->
  pre (storage_ w) ->
  (forall a s', st_ok s' -> st_well n s' -> post a (sview w) (view s') -> full a (storage_ w) ->
     Q a (set_storage s' w)) ->
  wp never (db m) w Q E.
Proof.
  intros Hm Hc Ha Hs Hw Hp HQ. unfold wp, db. rewrite Ha. specialize (Hm (storage_ w) Hs).
  specialize (Hc n (storage_ w) Hs Hw Hp). destruct (m (storage_ w)) as [[a|e|f] s]; [|done|done].
  apply HQ; apply Hm || apply Hc.
Qed.
End Well.
