(* ===== verification/Replies.v ===== *)
(** What [ReplyHandler] does, branch by branch, against the abstract store: who the reply is
    redirected to, what is stored and correlated, whom it is given to.  [reply_outcome] is
    what is left whatever the storage does, [replied] what happens when it is well. *)
From Stdlib Require Import ZArith Lia Strings.Byte.
From S2P Require Import Prelude Words Message Interfaces Config Metrics Session World.
From S2P Require Import Router RouterSpec Handlers HandlersSpec Cleanup Routing.
Open Scope Z_scope.
Open Scope broker_scope.

(** The reply as it is stored: for the sender [o] of the request, when there is one. *)
Definition reply_for (m : Message) (o : string) : Message :=
  if String.eqb o EmptyString then m else SetDestination o m.

Lemma reply_for_flags m o : flags_ (reply_for m o) = flags_ m.
Proof. unfold reply_for. by destruct (String.eqb o EmptyString). Qed.

Lemma reply_for_owner m o :
  (if negb (String.eqb o EmptyString) then o else destination_ (reply_for m o)) =
    destination_ (reply_for m o).
Proof. unfold reply_for. by destruct (String.eqb o EmptyString). Qed.

Section Replies.
Context {St : Type} `{IStorageLaws St} `{Host} `{HashOrder}.
Implicit Types (w : World St).

(** What is left of the reply [r] when it was not stored with its correlation. *)
Definition reply_lost (r : Message) (a a' : store) : Prop :=
  a' = a \/ exists k, stored k r STATUS_PENDING a a'.

(** [store_reply], given what the lookup of the sender answers. *)
Definition store_reply_post (m : Message) (w : World St) (p : option (Message * Z))
    (w' : World St) : Prop :=
  exists s' mt, w' = set_metrics mt (set_storage s' w) /\ st_ok s' /\
    match fst (iFindOriginalSenderByCorrelation (correlation_id_ m) (storage_ w)) with
    | Ret o =>
        (o = EmptyString \/ exists k, (k, s64 (correlation_id_ m), o) ∈ corrs (sview w)) /\
        ((p = None /\ mt = failure (metrics_ w) /\
          reply_lost (reply_for m o) (sview w) (view s')) \/
         exists k, p = Some (reply_for m o, k) /\ mt = metrics_ w /\
           stored k (reply_for m o) STATUS_PENDING (sview w) (view s') /\
           correlated k (correlation_id_ m) (destination_ (reply_for m o)) (view s'))
    | _ => p = None /\ mt = failure (metrics_ w) /\ view s' = sview w
    end.

Lemma store_reply_outcome m w :
  storage_alive w = true -> st_ok (storage_ w) ->
  wp never (store_reply m) w (store_reply_post m w) (fun _ => False).
Proof.
  intros Ha Hs. apply wp_try_catch, wp_bind. eapply wp_conseq;
    [by apply (wp_db_is _ _ _ (FindOriginalSenderByCorrelation_law (correlation_id_ m)))| |].
  2:{ intros w1 ([e Ee] & s1 & -> & Hs1 & Hv) e'. apply wp_bind, wp_modify, wp_ret.
      exists s1, (failure (metrics_ w)). rewrite Ee. done. }
  intros o w1 (Eo & s1 & -> & Hs1 & Hv1 & Ho). cbv zeta.
  assert ((if negb (String.eqb o EmptyString) then SetDestination o m else m) = reply_for m o) as ->
    by (unfold reply_for; by destruct (String.eqb o EmptyString)).
  rewrite reply_for_owner. set (r := reply_for m o).
  assert (forall s', st_ok s' -> reply_lost r (sview w) (view s') ->
    wp never (metric IncrementMessagesFailed ;;; ret None) (set_storage s' w)
      (store_reply_post m w) (fun _ => False)) as Hfail.
  { intros s' Hs' Hv. apply wp_bind, wp_modify, wp_ret. exists s', (failure (metrics_ w)).
    rewrite Eo. split; [done|]. split; [done|]. split; [done|]. by left. }
  apply wp_bind. eapply wp_conseq; [apply (wp_db _ _ (set_storage s1 w) (SaveMessage_law r)); done| |].
  2:{ intros w2 (s2 & -> & Hs2 & Hv) e. apply Hfail; [done|left]. rewrite Hv. exact Hv1. }
  intros k w2 (s2 & -> & Hs2 & Hk & Hn & Hv2).
  assert (stored k r STATUS_PENDING (sview w) (view s2)) as Hst.
  { unfold sview in *. cbn in Hn, Hv2. rewrite Hv1 in *. by rewrite Hv2. }
  apply wp_bind. eapply wp_conseq; [apply (wp_db _ _ (set_storage s2 (set_storage s1 w))
      (SaveCorrelation_law k (correlation_id_ m) (destination_ r))); done| |].
  - intros _ w3 (s3 & -> & Hs3 & Hrows & Hc). apply wp_ret. exists s3, (metrics_ w).
    rewrite Eo. split; [by destruct w|]. split; [done|]. split; [done|]. right. exists k.
    split_and!; try done.
    + destruct Hst as (? & ? & Hr2). split; [done|]. split; [done|]. by rewrite Hrows.
    + unfold correlated. rewrite Hc, (s64_row k) by done. set_solver.
  - intros w3 (s3 & -> & Hs3 & Hv3) e. apply Hfail; [done|right]. exists k. by rewrite Hv3.
Qed.

(** What is left of the reply [r], stored as [k], after it was sent to a session. *)
Definition reply_sent (r : Message) (k : Z) (a : store) (sends : list PendingSend)
    (w w' : World St) : Prop :=
  exists st, stored k r st a (sview w') /\ corrs (sview w') = corrs (sview w) /\
    ((st = sent_status r /\ pending_sends_ w' = pending_sends_ w ++ sends /\
      metrics_ w' = metrics_ w) \/
     (st = STATUS_PENDING /\ metrics_ w' = failure (metrics_ w) /\
      (pending_sends_ w' = pending_sends_ w \/
       (NeedsAck r = false /\ pending_sends_ w' = pending_sends_ w ++ sends)))).

Lemma roll_back_reply r k a sends i s w w0 :
  stored k r STATUS_PENDING a (sview w) -> sessions w !! i = Some s ->
  storage_alive w = true -> st_ok (storage_ w) -> same_registry w0 w ->
  corrs (sview w) = corrs (sview w0) -> metrics_ w = metrics_ w0 ->
  (pending_sends_ w = pending_sends_ w0 \/
   (NeedsAck r = false /\ pending_sends_ w = pending_sends_ w0 ++ sends)) ->
  wp never (roll_back i k) w
    (fun _ w' => same_registry w0 w' /\ reply_sent r k a sends w0 w') (fun _ => False).
Proof.
  intros Hst Hs Ha Hok Hr Hc Hm Hp.
  eapply wp_conseq; [by apply (roll_back_outcome i s r k a)| |done].
  intros _ w' (Hr' & Hv' & Hp' & Hm'). split.
  { destruct Hr, Hr'. split; congruence. }
  exists STATUS_PENDING. rewrite Hv', Hp', Hm', Hm. split; [done|]. split; [done|]. by right.
Qed.

Lemma send_reply_outcome r i k s a w :
  sessions w !! i = Some s -> is_online_ s = true -> pending_sends_mutex_ w = false ->
  storage_alive w = true -> st_ok (storage_ w) -> stored k r STATUS_PENDING a (sview w) ->
  wp never (send_reply r i k) w
    (fun _ w' => same_registry w w' /\ reply_sent r k a (send_of i s r) w w') (fun _ => False).
Proof.
  intros Hs Ho Hm Ha Hok Hst. apply wp_try_catch, wp_bind. destruct (NeedsAck r) eqn:En.
  - eapply wp_conseq; [by apply (wp_db _ _ _ (MarkSent_law k))| |].
    + intros _ w1 (s1 & -> & Hs1 & Hv). rewrite s64_row in Hv by apply Hst.
      destruct (stored_mark _ _ _ _ _ _ _ _ Hst eq_refl Hv) as [Hst1 Hc1].
      apply wp_bind. unfold wp at 1. rewrite (on_SendMessage i s r) by done.
      apply wp_ret. split; [done|]. exists STATUS_SENT. split; [done|]. split; [done|].
      left. unfold sent_status. by rewrite En.
    + intros w1 (s1 & -> & Hs1 & Hv) e. eapply (roll_back_reply _ _ _ _ _ s); try done.
      * unfold sview at 1. cbn. by rewrite Hv.
      * unfold sview at 1. cbn. by rewrite Hv.
      * by left.
  - apply wp_ret, wp_bind. unfold wp at 1. rewrite (on_SendMessage i s r) by done.
    set (w2 := set_sessions _ _). cbn [negb].
    eapply wp_conseq; [by apply (wp_db _ _ w2 (MarkDelivered_law k))| |].
    + intros _ w3 (s3 & -> & Hs3 & Hv). rewrite s64_row in Hv by apply Hst.
      destruct (stored_mark (fun _ => true) _ _ _ _ _ _ _ Hst eq_refl Hv) as [Hst3 Hc3].
      split; [done|]. exists STATUS_DELIVERED. split; [done|]. split; [done|].
      left. unfold sent_status. by rewrite En.
    + intros w3 (s3 & -> & Hs3 & Hv) e.
      eapply (roll_back_reply _ _ _ _ _ (set_online (serialises r)
        (set_last_activity (clock_ w) s))); try done.
      * unfold sview at 1. cbn. by rewrite Hv.
      * cbn. by rewrite lookup_insert_eq.
      * unfold sview at 1. cbn. by rewrite Hv.
      * by right.
Qed.

(** The reply [r] was given to the session [s], or waits for its destination. *)
Definition reply_given (r : Message) (k : Z) (w w' : World St) : Prop :=
  (stored k r STATUS_PENDING (sview w) (sview w') /\
   pending_sends_ w' = pending_sends_ w /\ metrics_ w' = metrics_ w /\
   forall i s, ~ Online (destination_ r) i s w) \/
  (exists i s st, Online (destination_ r) i s w /\ stored k r st (sview w) (sview w') /\
   ((st = sent_status r /\ pending_sends_ w' = pending_sends_ w ++ send_of i s r /\
     metrics_ w' = metrics_ w) \/
    (st = STATUS_PENDING /\ metrics_ w' = failure (metrics_ w) /\
     (pending_sends_ w' = pending_sends_ w \/
      (NeedsAck r = false /\ pending_sends_ w' = pending_sends_ w ++ send_of i s r))))).

(** What [ReplyHandler::Handle] may leave, whatever the storage does, given what it answers
    for the sender of the request. *)
Definition reply_outcome (m : Message) (w w' : World St) : Prop :=
  match fst (iFindOriginalSenderByCorrelation (correlation_id_ m) (storage_ w)) with
  | Ret o =>
      (o = EmptyString \/ exists k, (k, s64 (correlation_id_ m), o) ∈ corrs (sview w)) /\
      ((pending_sends_ w' = pending_sends_ w /\ metrics_ w' = failure (metrics_ w) /\
        reply_lost (reply_for m o) (sview w) (sview w')) \/
       exists k, correlated k (correlation_id_ m) (destination_ (reply_for m o)) (sview w') /\
         reply_given (reply_for m o) k w w')
  | _ =>
      sview w' = sview w /\ pending_sends_ w' = pending_sends_ w /\
      metrics_ w' = failure (metrics_ w)
  end.

Lemma give_reply r k w s mt :
  rok [] w -> st_ok s -> mt = metrics_ w -> stored k r STATUS_PENDING (sview w) (view s) ->
  wp never (scoped (FindSession (destination_ r)) (fun session =>
        online <- session_online session ;;
        match session with
        | Some i => if (online : bool) then send_reply r i k else ret tt
        | None => ret tt
        end)) (set_metrics mt (set_storage s w))
    (fun _ w' => corrs (sview w') = corrs (view s) /\ reply_given r k w w') (fun _ => False).
Proof.
  intros Hw Hs2 -> Hst. apply wp_scoped_find; [apply Hw|]. cbv zeta. set (w3 := set_metrics _ _).
  change (active_clients_ w3) with (active_clients_ w).
  remember (active_clients_ w !! destination_ r) as o eqn:Eo. symmetry in Eo.
  set (w4 := set_locals _ w3).
  assert (forall i, o = Some i -> is_Some (sessions w4 !! i)) as Hsome.
  { intros i Hi. rewrite Hi in Eo.
    destruct (registered_session w (destination_ r) i Hw Eo) as (t & Ht & _). by exists t. }
  apply wp_bind. unfold wp at 1. rewrite session_online_eq by done.
  assert ((forall i s, ~ Online (destination_ r) i s w) ->
    same_registry w4 w4 /\ corrs (sview (set_locals (locals w3) w4)) = corrs (view s) /\
    reply_given r k w (set_locals (locals w3) w4)) as Hwait.
  { intros Hno. split; [done|]. split; [done|]. by left. }
  destruct o as [i|].
  2:{ apply wp_ret, Hwait. intros i t [Hi _ _]. congruence. }
  destruct (Hsome i eq_refl) as [t Ht]. rewrite Ht. change (sessions w !! i = Some t) in Ht.
  destruct (is_online_ t) eqn:Eon.
  2:{ apply wp_ret, Hwait. intros j u [Hj Hu Hon]. congruence. }
  eapply wp_conseq; [apply (send_reply_outcome r i k t (sview w)); try done; apply Hw| |done].
  intros ? w5 (Hreg & st & Hst5 & Hc5 & Hout). split; [exact Hreg|].
  split; [exact Hc5|]. right. exists i, t, st. by split.
Qed.

Lemma ReplyHandler_safe m w :
  rok [] w ->
  exists w', ReplyHandler_Handle m w = (Ret tt, w') /\ reply_outcome m w w'.
Proof.
  intros Hw.
  assert (wp never (ReplyHandler_Handle m) w (fun _ w' => reply_outcome m w w')
            (fun _ => False)) as Hwp.
  2:{ unfold wp in Hwp. destruct (ReplyHandler_Handle m w) as [[[]|e|f] w']; [|done|done].
      by exists w'. }
  apply wp_bind. eapply wp_conseq; [apply store_reply_outcome; apply Hw| |done].
  intros p w2 (s2 & mt & -> & Hs2 & Hp). unfold reply_outcome.
  destruct (fst (iFindOriginalSenderByCorrelation _ (storage_ w))) as [o|e|f].
  - destruct Hp as [Ho [(-> & -> & Hv)|(k & -> & -> & Hst & Hc)]].
    { apply wp_ret. split; [done|]. by left. }
    eapply wp_conseq; [by apply give_reply| |done]. intros _ w' [Hc' Hg]. split; [done|]. right.
    exists k. split; [|done]. unfold correlated. rewrite Hc'. exact Hc.
  - destruct Hp as (-> & -> & Hv). by apply wp_ret.
  - destruct Hp as (-> & -> & Hv). by apply wp_ret.
Qed.
End Replies.

(** ** On a storage that is well *)
Section Replied.
Context {St : Type} `{IStorageHealth St} `{Host} `{HashOrder}.
Implicit Types (w : World St).

(** The one correlation a reply leaves for its id and owner. *)
Definition recorrelated (k c : Z) (owner : string) (a a' : store) : Prop :=
  corrs a' = {[(k, s64 c, c_str owner)]} ∪
             filter (fun t => ~ (snd (fst t) = s64 c /\ snd t = c_str owner)) (corrs a).

(** What [ReplyHandler::Handle] does when the storage is well: the owner [o] of the request's
    correlation gets the reply, now if it is online, else when it registers. *)
Definition replied (m : Message) w w' : Prop :=
  exists o k st, owner_answer (correlation_id_ m) o (sview w) /\
    let r := reply_for m o in
    stored k r st (sview w) (sview w') /\
    recorrelated k (correlation_id_ m) (destination_ r) (sview w) (sview w') /\
    metrics_ w' = metrics_ w /\
    ((st = STATUS_PENDING /\ pending_sends_ w' = pending_sends_ w /\
      forall i s, ~ Online (destination_ r) i s w) \/
     exists i s, Online (destination_ r) i s w /\ st = sent_status r /\
       pending_sends_ w' = pending_sends_ w ++ send_of i s r).

Lemma store_reply_well m w n :
  rok [] w -> st_well (2 + n) (storage_ w) ->
  wp never (store_reply m) w
    (fun p w' => exists o k s', owner_answer (correlation_id_ m) o (sview w) /\
       p = Some (reply_for m o, k) /\ w' = set_storage s' w /\ st_ok s' /\ st_well n s' /\
       stored k (reply_for m o) STATUS_PENDING (sview w) (view s') /\
       recorrelated k (correlation_id_ m) (destination_ (reply_for m o)) (sview w) (view s'))
    (fun _ => False).
Proof.
  intros Hw Hn. apply wp_try_catch, wp_bind.
  eapply (wp_db_must _ 0 _ _ _ (2 + n));
    [apply FindOriginalSenderByCorrelation_law|apply FindOriginalSenderByCorrelation_well
    |apply Hw|apply Hw|done|done|].
  intros o s1 Hs1 Hn1 [Hv1 _] Ho. cbv zeta.
  assert ((if negb (String.eqb o EmptyString) then SetDestination o m else m) = reply_for m o) as ->
    by (unfold reply_for; by destruct (String.eqb o EmptyString)).
  rewrite reply_for_owner. set (r := reply_for m o). apply wp_bind.
  eapply (wp_db_must _ 1 _ _ _ (1 + n)); [apply SaveMessage_law|apply SaveMessage_well
    |apply Hw|done|done|done|].
  intros k s2 Hs2 Hn2 (Hk & Hfresh & Hv2) _. change (sview (set_storage s1 w)) with (view s1) in *.
  rewrite Hv1 in Hfresh, Hv2. change (view (storage_ w)) with (sview w) in *. apply wp_bind.
  eapply (wp_db_must _ 1 _ _ _ n); [apply SaveCorrelation_law|apply SaveCorrelation_well
    |apply Hw|done|done| |].
  { cbn. rewrite Hv2, s64_row by done. cbn. by rewrite lookup_insert_eq. }
  intros [] s3 Hs3 Hn3 (Hr3 & Hc3) _. apply wp_ret. exists o, k, s3. split; [done|].
  split; [done|]. split; [by destruct w|]. split; [done|]. split; [done|].
  change (sview (set_storage s2 (set_storage s1 w))) with (view s2) in *.
  rewrite (s64_row k) in Hc3 by done. rewrite Hv2 in Hr3, Hc3. split; [|exact Hc3].
  split; [done|]. split; [done|]. exact Hr3.
Qed.

Lemma send_reply_well r i k s a w n :
  sessions w !! i = Some s -> is_online_ s = true -> pending_sends_mutex_ w = false ->
  storage_alive w = true -> st_ok (storage_ w) -> st_well n (storage_ w) ->
  stored k r STATUS_PENDING a (sview w) ->
  wp never (send_reply r i k) w
    (fun _ w' => same_registry w w' /\ st_well n (storage_ w') /\
       stored k r (sent_status r) a (sview w') /\ corrs (sview w') = corrs (sview w) /\
       metrics_ w' = metrics_ w /\ pending_sends_ w' = pending_sends_ w ++ send_of i s r)
    (fun _ => False).
Proof.
  intros Hs Ho Hm Ha Hok Hn Hst. apply wp_try_catch, wp_bind.
  assert (0 < k < 2 ^ 63) as Hk by apply Hst. unfold sent_status. destruct (NeedsAck r) eqn:En.
  - eapply (wp_db_must _ 0 _ _ _ n); [apply MarkSent_law|apply MarkSent_well|done..|].
    intros [] s1 Hs1 Hn1 Hv _. rewrite s64_row in Hv by done.
    destruct (stored_mark _ _ _ _ _ _ _ _ Hst eq_refl Hv) as [Hst1 Hc1].
    apply wp_bind. unfold wp at 1. rewrite (on_SendMessage i s r) by done. by apply wp_ret.
  - apply wp_ret, wp_bind. unfold wp at 1. rewrite (on_SendMessage i s r) by done.
    set (w2 := set_sessions _ _). cbn [negb].
    eapply (wp_db_must _ 0 _ _ _ n w2); [apply MarkDelivered_law|apply MarkDelivered_well|done..|].
    intros [] s3 Hs3 Hn3 Hv _. rewrite s64_row in Hv by done.
    by destruct (stored_mark (fun _ => true) _ _ _ _ _ _ _ Hst eq_refl Hv) as [Hst3 Hc3].
Qed.

Lemma ReplyHandler_well m w n :
  rok [] w -> st_well (2 + n) (storage_ w) ->
  wp never (ReplyHandler_Handle m) w (fun _ w' => replied m w w' /\ st_well n (storage_ w'))
    (fun _ => False).
Proof.
  intros Hw Hn. apply wp_bind. eapply wp_conseq; [by apply store_reply_well| |done].
  intros p w2 (o & k & s2 & Ho & -> & -> & Hs2 & Hn2 & Hst & Hc). set (r := reply_for m o) in *.
  apply wp_scoped_find; [apply Hw|]. cbv zeta. set (w3 := set_storage s2 w).
  change (active_clients_ w3) with (active_clients_ w).
  remember (active_clients_ w !! destination_ r) as q eqn:Eq. symmetry in Eq.
  set (w4 := set_locals _ w3).
  assert (forall i, q = Some i -> is_Some (sessions w4 !! i)) as Hsome.
  { intros i Hi. rewrite Hi in Eq.
    destruct (registered_session w (destination_ r) i Hw Eq) as (t & Ht & _). by exists t. }
  apply wp_bind. unfold wp at 1. rewrite session_online_eq by done.
  assert ((forall i s, ~ Online (destination_ r) i s w) ->
    same_registry w4 w4 /\ replied m w (set_locals (locals w3) w4) /\ st_well n (storage_ w4)) as Hwait.
  { intros Hno. split; [done|]. split; [|done]. exists o, k, STATUS_PENDING. split; [done|].
    split; [exact Hst|]. split; [exact Hc|]. split; [done|]. by left. }
  destruct q as [i|].
  2:{ apply wp_ret, Hwait. intros i t [Hi _ _]. congruence. }
  destruct (Hsome i eq_refl) as [t Ht]. rewrite Ht. change (sessions w !! i = Some t) in Ht.
  destruct (is_online_ t) eqn:Eon.
  2:{ apply wp_ret, Hwait. intros j u [Hj Hu Hon]. congruence. }
  eapply wp_conseq; [apply (send_reply_well r i k t (sview w) w4 n); try done; apply Hw| |done].
  intros ? w5 (Hreg & Hn5 & Hst5 & Hc5 & Hm5 & Hp5). split; [exact Hreg|]. split; [|exact Hn5].
  exists o, k, (sent_status r). split; [done|]. split; [exact Hst5|].
  split; [exact (eq_trans Hc5 Hc)|]. split; [exact Hm5|]. right. by exists i, t.
Qed.

(** C9. [ReplyHandler] on every branch.  It returns, never by an exception.  The reply is
    redirected to the sender of the request exactly when the lookup of the correlation
    answers with one, which is then the owner of a correlation with its id; it is stored
    under a fresh id and correlated with its destination.  Only then, and exactly when that
    destination is online, it is given to the sender, and ends SENT if it asks for an ACK and
    DELIVERED if not; a reply whose status could not be written stays PENDING with the
    failure counted.  Otherwise it waits PENDING, or the storage failed, the failure is
    counted and nothing was sent.  On a storage that is well there is no failure: the lookup
    answers with an owner whenever there is one, the reply is stored and takes over the
    correlation of its owner, and it is given or waits. *)
Theorem ReplyHandler_outcome (m : Message) w :
  rok [] w ->
  exists w', ReplyHandler_Handle m w = (Ret tt, w') /\ reply_outcome m w w' /\
    forall n, st_well (2 + n) (storage_ w) -> replied m w w' /\ st_well n (storage_ w').
Proof.
  intros Hw. destruct (ReplyHandler_safe m w Hw) as (w' & E & Ho). exists w'. split; [done|].
  split; [done|]. intros n Hn. pose proof (ReplyHandler_well m w n Hw Hn) as Hk.
  unfold wp in Hk. by rewrite E in Hk.
Qed.
End Replied.
