(* ===== verification/Acks.v ===== *)
(** What [AckHandler] does, branch by branch, against the abstract store: which message an ACK
    marks DELIVERED, and who is told.  [ack_outcome] is what is left whatever the storage
    does, [acked] what happens when it is well.  The last theorem puts a reply and an ACK
    together: a reply to a message that asked for an ACK takes its correlation over, and the
    message stays SENT. *)
From Stdlib Require Import ZArith Lia Strings.Byte.
From S2P Require Import Prelude Words Message Interfaces Config Metrics Session World.
From S2P Require Import Router RouterSpec Handlers HandlersSpec Cleanup Routing Replies.
Open Scope Z_scope.
Open Scope broker_scope.

Section Acks.
Context {St : Type} `{IStorageLaws St} `{Host} `{HashOrder}.
Implicit Types (w : World St).

(** The rows after the message [om] under [k] was acknowledged. *)
Definition delivered_row (k : Z) (om : Message) (a : store) : gmap Z (Message * Z) :=
  <[k := (om, STATUS_DELIVERED)]> (rows a).

(** The sender [o] of the acknowledged message was told, once: by the send queue when it is
    online, by a stored notification when it is not; nobody when no sender is known. *)
Definition ack_told (m : Message) (o : string) (k : Z) (om : Message) w w' : Prop :=
  let note := ack_notification (sender_ m) o (correlation_id_ m) in
  let delivered := delivered_row k om (sview w) in
  (corrs (sview w') = corrs (sview w) \/
   corrs (sview w') = filter (fun t => fst (fst t) <> k) (corrs (sview w))) /\
  ((o = EmptyString /\ rows (sview w') = delivered /\ pending_sends_ w' = pending_sends_ w) \/
   (o <> EmptyString /\
    ((exists i s, Online o i s w /\ rows (sview w') = delivered /\
        pending_sends_ w' = pending_sends_ w ++ send_of i s note) \/
     (exists j, (forall i s, ~ Online o i s w) /\ 0 < j < 2 ^ 63 /\ delivered !! j = None /\
        rows (sview w') = <[j := (db_copy note, STATUS_PENDING)]> delivered /\
        pending_sends_ w' = pending_sends_ w)))).

(** What [AckHandler::Handle] may leave, whatever the storage does. *)
Definition ack_outcome (m : Message) (returned : bool) (w w' : World St) : Prop :=
  (sview w' = sview w /\ pending_sends_ w' = pending_sends_ w) \/
  exists k om, rows (sview w) !! k = Some (om, STATUS_SENT) /\ NeedsAck om = true /\
    if returned then
      exists o, (o = EmptyString \/ exists j, (j, s64 (correlation_id_ m), o) ∈ corrs (sview w)) /\
        ack_told m o k om w w'
    else rows (sview w') = delivered_row k om (sview w) /\
         pending_sends_ w' = pending_sends_ w.

Lemma notify_sender_outcome a o c w w0 :
  rok [] w0 -> only_storage w0 w ->
  wp never (notify_sender a o c) w
    (fun _ w' =>
       let note := ack_notification a o c in
       (exists i s, Online o i s w0 /\ sview w' = sview w /\
          pending_sends_ w' = pending_sends_ w0 ++ send_of i s note) \/
       (exists j, (forall i s, ~ Online o i s w0) /\
          stored j note STATUS_PENDING (sview w) (sview w') /\
          corrs (sview w') = corrs (sview w) /\ pending_sends_ w' = pending_sends_ w0))
    (fun w' => sview w' = sview w /\ pending_sends_ w' = pending_sends_ w0).
Proof.
  intros Hw (s1 & mt & -> & Hs1). apply wp_scoped_find; [apply Hw|]. cbv zeta.
  set (w1 := set_metrics _ _). change (active_clients_ w1) with (active_clients_ w0).
  remember (active_clients_ w0 !! o) as p eqn:Eo. symmetry in Eo. set (w2 := set_locals _ w1).
  assert (forall i, p = Some i -> is_Some (sessions w2 !! i)) as Hsome.
  { intros i Hi. rewrite Hi in Eo.
    destruct (registered_session w0 o i Hw Eo) as (s & Hs & _). by exists s. }
  apply wp_bind. unfold wp at 1. rewrite session_online_eq by done.
  set (note := ack_notification a o c).
  assert ((forall i s, ~ Online o i s w0) ->
    wp never (db (iSaveMessage note) ;;; ret tt) w2
      (fun _ w' => same_registry w2 w' /\
         ((exists i s, Online o i s w0 /\ sview w' = sview w1 /\
            pending_sends_ w' = pending_sends_ w0 ++ send_of i s note) \/
         (exists j, (forall i s, ~ Online o i s w0) /\
            stored j note STATUS_PENDING (sview w1) (sview w') /\
            corrs (sview w') = corrs (sview w1) /\ pending_sends_ w' = pending_sends_ w0)))
      (fun w' => same_registry w2 w' /\ sview w' = sview w1 /\
         pending_sends_ w' = pending_sends_ w0)) as Hsave.
  { intros Hno. apply wp_bind. eapply wp_conseq;
      [apply (wp_db _ _ w2 (SaveMessage_law note)); [apply Hw|exact Hs1]| |].
    - intros j w3 (s3 & -> & Hs3 & Hj & Hn & Hv). apply wp_ret. split; [done|]. right. exists j.
      split; [done|]. change (sview (set_storage s3 w2)) with (view s3).
      change (sview w1) with (sview w2). rewrite Hv. by split_and!.
    - intros w3 (s3 & -> & Hs3 & Hv). split; [done|]. by split. }
  destruct p as [i|].
  2:{ apply Hsave. intros i s [Hi _ _]. congruence. }
  destruct (Hsome i eq_refl) as [s Hs]. rewrite Hs. change (sessions w0 !! i = Some s) in Hs.
  destruct (is_online_ s) eqn:Eon.
  2:{ apply Hsave. intros j t [Hj Ht Hon]. congruence. }
  apply wp_bind. unfold wp at 1. rewrite (on_SendMessage i s note) by (done || apply Hw).
  apply wp_ret. split; [done|]. left. exists i, s. by split.
Qed.

(** A query in the middle of a handler: the store is still that of [w0]. *)
Lemma wp_query {A} (m : M St A) P w0 w (Q : A -> World St -> Prop) (E : World St -> Prop) :
  implements st_ok view m (answers P) -> storage_alive w0 = true ->
  only_storage w0 w -> sview w = sview w0 ->
  (forall a w', only_storage w0 w' -> sview w' = sview w0 -> metrics_ w' = metrics_ w ->
     P a (sview w0) -> Q a w') ->
  (forall w', only_storage w0 w' -> sview w' = sview w0 -> E w') ->
  wp never (db m) w Q E.
Proof.
  intros Hm Ha (s1 & mt & -> & Hs1) Hv HQ HE. unfold sview in Hv. cbn in Hv.
  eapply wp_conseq; [by apply (wp_db m _ (set_metrics mt (set_storage s1 w0)) Hm)| |].
  - intros a w' (s2 & -> & Hs2 & Hv2 & Hp). apply HQ.
    + by exists s2, mt.
    + unfold sview in *. cbn in *. congruence.
    + done.
    + unfold sview in *. cbn in *. congruence.
  - intros w' (s2 & -> & Hs2 & Hv2). apply HE; [by exists s2, mt|].
    unfold sview in *. cbn in *. congruence.
Qed.

Lemma alter_delivered k om (a : store) :
  rows a !! k = Some (om, STATUS_SENT) ->
  rows (set_rows (alter (set_status (fun _ => true) STATUS_DELIVERED) k) a) = delivered_row k om a.
Proof.
  intros Hrow. cbn. unfold delivered_row. apply map_eq. intros j.
  rewrite lookup_alter, lookup_insert. case_decide; [subst|done]. by rewrite Hrow.
Qed.

(** The notification, after the message [om] was marked. *)
Lemma told_sender w m o k om w0 w' :
  o <> EmptyString -> rows (sview w) = delivered_row k om (sview w0) ->
  (corrs (sview w) = corrs (sview w0) \/
   corrs (sview w) = filter (fun t => fst (fst t) <> k) (corrs (sview w0))) ->
  (let note := ack_notification (sender_ m) o (correlation_id_ m) in
   (exists i s, Online o i s w0 /\ sview w' = sview w /\
      pending_sends_ w' = pending_sends_ w0 ++ send_of i s note) \/
   (exists j, (forall i s, ~ Online o i s w0) /\
      stored j note STATUS_PENDING (sview w) (sview w') /\
      corrs (sview w') = corrs (sview w) /\ pending_sends_ w' = pending_sends_ w0)) ->
  ack_told m o k om w0 w'.
Proof.
  intros Ho Hr Hc [(i & s & Hon & Hv & Hp)|(j & Hno & (Hj & Hf & Hr') & Hc' & Hp)].
  - rewrite <- Hv in Hr, Hc. split; [done|]. right. split; [done|]. left. by exists i, s.
  - rewrite <- Hc' in Hc. split; [done|]. right. split; [done|]. right. exists j.
    rewrite <- Hr. by repeat (split; [done|]).
Qed.

Lemma ack_delivered m k om w w0 :
  rok [] w0 -> only_storage w0 w -> sview w = sview w0 ->
  rows (sview w0) !! k = Some (om, STATUS_SENT) ->
  NeedsAck om = true -> s64 k = k ->
  forall i o, s64 i = k ->
  (o = EmptyString \/ exists j, (j, s64 (correlation_id_ m), o) ∈ corrs (sview w0)) ->
  wp never
    (db (iMarkDelivered i) ;;; db (iMarkAckReceived i (sender_ m)) ;;;
     metric IncrementAcksReceived ;;;
     if negb (String.eqb o EmptyString)
     then notify_sender (sender_ m) o (correlation_id_ m) else ret tt) w
    (fun _ w' => ack_outcome m true w0 w') (fun w' => ack_outcome m false w0 w').
Proof.
  intros Hw (s1 & mt & -> & Hs1) Hv Hrow Hneed Hk i o Hi Ho.
  pose proof (wok_alive _ _ _ _ Hw) as Ha.
  assert (forall w', only_storage w0 w' -> rows (sview w') = delivered_row k om (sview w0) ->
    ack_outcome m false w0 w') as Hcut.
  { intros w' (s' & mt' & -> & _) Hr. right. by exists k, om. }
  apply wp_bind. eapply wp_conseq;
    [by apply (wp_db _ _ (set_metrics mt (set_storage s1 w0)) (MarkDelivered_law i))| |].
  2:{ intros w' (s2 & -> & Hs2 & Hv2). left. split; [|done]. unfold sview in *. cbn in *. congruence. }
  intros _ w' (s2 & -> & Hs2 & Hv2). rewrite Hi, Hv in Hv2.
  assert (rows (view s2) = delivered_row k om (sview w0)) as Hr2.
  { rewrite Hv2. by apply alter_delivered. }
  assert (corrs (view s2) = corrs (sview w0)) as Hc2 by by rewrite Hv2.
  apply wp_bind. set (w2 := set_storage s2 _).
  assert (only_storage w0 w2) as Hw2 by by exists s2, mt.
  eapply wp_conseq; [by apply (wp_db _ _ w2 (MarkAckReceived_law i (sender_ m)))| |].
  2:{ intros w' (s3 & -> & Hs3 & Hv3). apply Hcut; [by exists s3, mt|].
      unfold sview in *. cbn in *. congruence. }
  intros _ w' (s3 & -> & Hs3 & Hr3 & Hc3). apply wp_bind, wp_modify.
  set (w3 := set_metrics _ _).
  assert (rows (sview w3) = delivered_row k om (sview w0)) as Hrw3 by exact (eq_trans Hr3 Hr2).
  assert (corrs (sview w3) = corrs (sview w0) \/
          corrs (sview w3) = filter (fun t => fst (fst t) <> k) (corrs (sview w0))) as Hcw3.
  { rewrite Hi in Hc3. change (sview w2) with (view s2) in Hc3. rewrite Hc2 in Hc3. exact Hc3. }
  assert (only_storage w0 w3) as Hw3 by by eexists s3, _.
  destruct (String.eqb_spec o EmptyString) as [->|Hne]; cbn [negb].
  { apply wp_ret. right. exists k, om. split; [done|]. split; [done|]. exists EmptyString.
    split; [by left|]. split; [exact Hcw3|]. left. split; [done|]. split; [exact Hrw3|done]. }
  eapply wp_conseq; [by apply (notify_sender_outcome _ _ _ _ w0)| |].
  - intros [] w4 Hout. right. exists k, om. split; [done|]. split; [done|]. exists o.
    split; [done|]. by apply (told_sender w3).
  - intros w4 [Hv4 Hp4]. right. exists k, om. split; [done|]. split; [done|].
    split; [by rewrite Hv4|done].
Qed.

Lemma AckHandler_safe (m : Message) w :
  rok [] w ->
  wp never (AckHandler_Handle m) w (fun _ => ack_outcome m true w) (ack_outcome m false w).
Proof.
  intros Hw. pose proof (wok_alive _ _ _ _ Hw) as Ha.
  assert (forall b w', only_storage w w' -> sview w' = sview w -> ack_outcome m b w w') as Hsame
    by (intros b w' (s' & mt & -> & _) Hv; by left).
  assert (only_storage w w) as Hw0.
  { exists (storage_ w), (metrics_ w). split; [by destruct w|apply Hw]. }
  unfold AckHandler_Handle. destruct (correlation_id_ m =? 0); [apply wp_ret, Hsame; done|].
  apply wp_bind. eapply wp_query;
    [apply (FindOriginalSenderByCorrelation_law (correlation_id_ m))|done..| |apply Hsame].
  intros o w1 Hw1 Hv1 _ Ho. apply wp_bind. eapply wp_query;
    [apply (FindMessageIdByCorrelation_law (correlation_id_ m))|done..| |apply Hsame].
  intros n w2 Hw2 Hv2 _ _. apply wp_bind.
  eapply wp_conseq with (Q := fun _ w' => only_storage w w' /\ sview w' = sview w)
    (E := ack_outcome m false w); [| |done].
  { destruct (n =? 0); [|by apply wp_ret]. eapply wp_query;
      [apply (FindMessageIdByCorrelationAndDestination_law (correlation_id_ m) (sender_ m))
      |done..| |apply Hsame]. by intros. }
  intros i w3 [Hw3 Hv3]. destruct (i =? 0); [apply wp_ret; by apply Hsame|].
  apply wp_bind. eapply wp_query; [apply (NeedsAck_law i)|done..| |apply Hsame].
  intros [] w4 Hw4 Hv4 _ Hn; [|apply wp_ret; by apply Hsame].
  destruct (Hn eq_refl) as (om & Hrow & Hneed).
  eapply (ack_delivered m (s64 i) om); try done. apply s64_id, s64_range.
Qed.
End Acks.

(** ** On a storage that is well *)
Section Acked.
Context {St : Type} `{IStorageHealth St} `{Host} `{HashOrder}.
Implicit Types (w : World St).

(** An ACK that changes nothing. *)
Definition ack_ignored w w' : Prop :=
  sview w' = sview w /\ pending_sends_ w' = pending_sends_ w /\ metrics_ w' = metrics_ w.

(** What an ACK does whose correlation id leads to the owner [o] and the row [i]. *)
Definition ack_applied (m : Message) (o : string) (i : Z) w w' : Prop :=
  (i <> 0 /\ exists om, rows (sview w) !! s64 i = Some (om, STATUS_SENT) /\
     NeedsAck om = true /\ ack_told m o (s64 i) om w w' /\
     metrics_ w' = option_map IncrementAcksReceived (metrics_ w)) \/
  ((i = 0 \/ forall om, rows (sview w) !! s64 i = Some (om, STATUS_SENT) ->
              NeedsAck om = false) /\ ack_ignored w w').

(** What [AckHandler::Handle] does when the storage is well. *)
Definition acked (m : Message) w w' : Prop :=
  if correlation_id_ m =? 0 then ack_ignored w w'
  else exists o i, owner_answer (correlation_id_ m) o (sview w) /\
         id_answer (correlation_id_ m) i (sview w) /\ ack_applied m o i w w'.

Lemma notify_sender_well a o c w w0 n :
  rok [] w0 -> only_storage w0 w -> st_well (1 + n) (storage_ w) ->
  wp never (notify_sender a o c) w
    (fun _ w' => st_well n (storage_ w') /\ metrics_ w' = metrics_ w) (fun _ => False).
Proof.
  intros Hw (s1 & mt & -> & Hs1) Hn. apply wp_scoped_find; [apply Hw|]. cbv zeta.
  set (w1 := set_metrics _ _). change (active_clients_ w1) with (active_clients_ w0).
  remember (active_clients_ w0 !! o) as p eqn:Eo. symmetry in Eo. set (w2 := set_locals _ w1).
  assert (forall i, p = Some i -> is_Some (sessions w2 !! i)) as Hsome.
  { intros i Hi. rewrite Hi in Eo.
    destruct (registered_session w0 o i Hw Eo) as (s & Hs & _). by exists s. }
  apply wp_bind. unfold wp at 1. rewrite session_online_eq by done.
  set (note := ack_notification a o c).
  assert (wp never (db (iSaveMessage note) ;;; ret tt) w2
      (fun _ w' => same_registry w2 w' /\ st_well n (storage_ w') /\ metrics_ w' = metrics_ w1)
      (fun w' => same_registry w2 w' /\ False)) as Hsave.
  { apply wp_bind. eapply (wp_db_must _ 1 _ _ _ n w2);
      [apply SaveMessage_law|apply SaveMessage_well|apply Hw|done|done|done|].
    intros k s3 Hs3 Hn3 _ _. by apply wp_ret. }
  destruct p as [i|]; [|exact Hsave]. destruct (Hsome i eq_refl) as [s Hs]. rewrite Hs.
  change (sessions w0 !! i = Some s) in Hs. destruct (is_online_ s) eqn:Eon; [|exact Hsave].
  apply wp_bind. unfold wp at 1. rewrite (on_SendMessage i s note) by (done || apply Hw).
  apply wp_ret. split; [done|]. split; [by apply st_well_le|done].
Qed.

(** The three lookups of [AckHandler]. *)
Lemma ack_lookups_well {A} m w n (k : string -> Z -> M (World St) A) Q :
  rok [] w -> st_well n (storage_ w) ->
  (forall o i s, owner_answer (correlation_id_ m) o (sview w) ->
     id_answer (correlation_id_ m) i (sview w) -> st_ok s -> st_well n s -> view s = sview w ->
     wp never (k o i) (set_storage s w) Q (fun _ => False)) ->
  wp never
    (original_sender <- db (iFindOriginalSenderByCorrelation (correlation_id_ m)) ;;
     first_id <- db (iFindMessageIdByCorrelation (correlation_id_ m)) ;;
     message_id <- (if first_id =? 0
                    then db (iFindMessageIdByCorrelationAndDestination (correlation_id_ m)
                               (sender_ m))
                    else ret first_id) ;;
     k original_sender message_id) w Q (fun _ => False).
Proof.
  intros Hw Hn Hk. apply wp_bind. eapply (wp_db_must _ 0 _ _ _ n);
    [apply FindOriginalSenderByCorrelation_law|apply FindOriginalSenderByCorrelation_well
    |apply Hw|apply Hw|done|done|].
  intros o s1 Hs1 Hn1 [Hv1 _] Ho. apply wp_bind. eapply (wp_db_must _ 0 _ _ _ n);
    [apply FindMessageIdByCorrelation_law|apply FindMessageIdByCorrelation_well
    |apply Hw|done|done|done|].
  intros i s2 Hs2 Hn2 [Hv2 _] Hi. change (sview (set_storage s1 w)) with (view s1) in Hv2.
  change (view (storage_ (set_storage s1 w))) with (view s1) in Hi. rewrite Hv1 in Hi, Hv2.
  apply wp_bind. destruct (Z.eqb_spec i 0) as [->|Hne]; [|by apply wp_ret, Hk].
  eapply (wp_db_must _ 0 _ _ _ n); [apply FindMessageIdByCorrelationAndDestination_law
    |apply FindMessageIdByCorrelationAndDestination_well|apply Hw|done|done|done|].
  intros i s3 Hs3 Hn3 [Hv3 Hi3] _.
  change (sview (set_storage s2 (set_storage s1 w))) with (view s2) in Hv3, Hi3. rewrite Hv2 in Hv3, Hi3.
  apply (Hk o i s3); try done.
  destruct Hi3 as [->|(Hr & [o' Ho'] & _)]; [done|]. left. exists i, o'. split; [done|].
  rewrite u64_id by lia. done.
Qed.

Lemma ack_delivered_well m o i om w s n :
  rok [] w -> st_ok s -> st_well (1 + n) s -> view s = sview w ->
  rows (sview w) !! s64 i = Some (om, STATUS_SENT) ->
  wp never
    (db (iMarkDelivered i) ;;; db (iMarkAckReceived i (sender_ m)) ;;;
     metric IncrementAcksReceived ;;;
     if negb (String.eqb o EmptyString)
     then notify_sender (sender_ m) o (correlation_id_ m) else ret tt) (set_storage s w)
    (fun _ w' => ack_told m o (s64 i) om w w' /\
       metrics_ w' = option_map IncrementAcksReceived (metrics_ w) /\ st_well n (storage_ w'))
    (fun _ => False).
Proof.
  intros Hw Hs Hn Hv Hrow. pose proof (wok_alive _ _ _ _ Hw) as Ha. apply wp_bind.
  eapply (wp_db_must _ 0 _ _ _ (1 + n)); [apply MarkDelivered_law|apply MarkDelivered_well
    |exact Ha|done|done|done|].
  intros [] s2 Hs2 Hn2 Hv2 _. change (sview (set_storage s w)) with (view s) in Hv2.
  assert (rows (view s2) = delivered_row (s64 i) om (sview w)) as Hr2.
  { rewrite Hv2, Hv. by apply alter_delivered. }
  assert (corrs (view s2) = corrs (sview w)) as Hc2 by by rewrite Hv2, Hv.
  apply wp_bind. eapply (wp_db_must _ 0 _ _ _ (1 + n)); [apply MarkAckReceived_law
    |apply MarkAckReceived_well|exact Ha|done|done|done|].
  intros [] s3 Hs3 Hn3 [Hr3 Hc3] _.
  change (sview (set_storage s2 (set_storage s w))) with (view s2) in Hr3, Hc3.
  rewrite Hr2 in Hr3. rewrite Hc2 in Hc3. apply wp_bind, wp_modify. set (w3 := set_metrics _ _).
  assert (only_storage w w3) as Hw3 by (exists s3, (option_map IncrementAcksReceived (metrics_ w)); by destruct w).
  destruct (String.eqb_spec o EmptyString) as [->|Hne]; cbn [negb].
  { apply wp_ret. split; [|split; [done|by apply st_well_le]]. split; [exact Hc3|]. left.
    split; [done|]. split; [exact Hr3|done]. }
  eapply wp_conseq; [apply wp_and;
    [by apply (notify_sender_outcome _ _ _ _ w)|by apply (notify_sender_well _ _ _ _ w n)]| |].
  - intros [] w4 (Hout & Hn4 & Hm4). split; [by apply (told_sender w3)|by split].
  - by intros w4 [].
Qed.

Lemma AckHandler_well (m : Message) w n :
  rok [] w -> st_well (1 + n) (storage_ w) ->
  wp never (AckHandler_Handle m) w (fun _ w' => acked m w w' /\ st_well n (storage_ w'))
    (fun _ => False).
Proof.
  intros Hw Hn. unfold AckHandler_Handle, acked.
  destruct (correlation_id_ m =? 0); [apply wp_ret; split; [done|by apply st_well_le]|].
  apply (ack_lookups_well m w (1 + n)); [done|done|]. intros o i s Ho Hi Hs Hn1 Hv.
  eapply wp_conseq with (Q := fun _ w' => ack_applied m o i w w' /\ st_well n (storage_ w'))
    (E := fun _ => False); [|intros [] w' [Happ Hn']; split; [by exists o, i|done]|done].
  assert (forall s', st_well (1 + n) s' -> view s' = sview w ->
    (i = 0 \/ forall om, rows (sview w) !! s64 i = Some (om, STATUS_SENT) -> NeedsAck om = false) ->
    ack_applied m o i w (set_storage s' w) /\ st_well n s') as Hsame.
  { intros s' Hn' Hv' Hno. split; [|by apply st_well_le]. by right. }
  destruct (Z.eqb_spec i 0) as [->|Hne]; [apply wp_ret, Hsame; [done|done|by left]|].
  apply wp_bind. eapply (wp_db_must _ 0 _ _ _ (1 + n)); [apply NeedsAck_law|apply NeedsAck_well
    |apply Hw|done|done|done|].
  intros b s4 Hs4 Hn4 [Hv4 _] Hb. change (view (storage_ (set_storage s w))) with (view s) in Hb.
  change (sview (set_storage s w)) with (view s) in Hv4. rewrite Hv in Hb, Hv4. destruct b.
  - destruct (proj1 Hb eq_refl) as (om & Hrow & Hneed).
    change (set_storage s4 (set_storage s w)) with (set_storage s4 w).
    eapply wp_conseq; [by apply (ack_delivered_well m o i om w s4 n)| |done].
    intros [] w' (Ht & Hm & Hn'). split; [|done]. left. split; [done|]. by exists om.
  - apply wp_ret. apply Hsame; [done|done|]. right. intros om Hrow.
    destruct (NeedsAck om) eqn:En; [|done]. assert (false = true) as [=]; apply Hb. by exists om.
Qed.

(** C8. [AckHandler] on every branch.  It comes back, and an ACK changes nothing unless the
    correlation leads to a message that is SENT and asked for an ACK.  That message then
    becomes DELIVERED and no other stored message changes; its sender, the owner of the
    correlation, is told once: by the send queue when it is online, by a stored notification
    when it is not; nobody is told when no owner is known, or when the storage fails between
    the two, and then the handler throws.  On a storage that is well the handler returns,
    the lookups answer with an owner and a row whenever the id is correlated, and the ACK
    takes effect whenever that row is SENT and asked for it. *)
Theorem AckHandler_outcome (m : Message) w :
  rok [] w ->
  match AckHandler_Handle m w with
  | (Ret _, w') => ack_outcome m true w w'
  | (Throw _, w') => ack_outcome m false w w'
  | (Stuck _, _) => False
  end /\
  forall n, st_well (1 + n) (storage_ w) ->
    exists w', AckHandler_Handle m w = (Ret tt, w') /\ acked m w w' /\ st_well n (storage_ w').
Proof.
  intros Hw. split.
  - pose proof (AckHandler_safe m w Hw) as Hk. unfold wp in Hk.
    by destruct (AckHandler_Handle m w) as [[[]|e|f] w'].
  - intros n Hn. pose proof (AckHandler_well m w n Hw Hn) as Hk. unfold wp in Hk.
      destruct (AckHandler_Handle m w) as [[[]|e|f] w']; [|done|done]. by exists w'.
Qed.

(** ** A reply and the ACK of its request *)

(** Every correlation with the id [c] is of [k] and [o]. *)
Definition only_owner (k c : Z) (o : string) (a : store) : Prop :=
  (k, s64 c, o) ∈ corrs a /\ forall k' o', (k', s64 c, o') ∈ corrs a -> k' = k /\ o' = o.

(** The message [om] under [k] is SENT, and no ACK with the id [c] can find it. *)
Record unreachable (k c : Z) (om : Message) w : Prop := {
  ur_rok : rok [] w;
  ur_row : rows (sview w) !! k = Some (om, STATUS_SENT);
  ur_corrs : forall k' o', (k', s64 c, o') ∈ corrs (sview w) -> 0 < k' < 2 ^ 63 /\ k' <> k;
}.

(** A row other than the acknowledged one is left alone. *)
Lemma ack_told_other m o i om w w' k p :
  ack_told m o i om w w' -> k <> i -> rows (sview w) !! k = Some p ->
  rows (sview w') !! k = Some p /\ corrs (sview w') ⊆ corrs (sview w).
Proof.
  intros [Hc Hr] Hne Hk. assert (delivered_row i om (sview w) !! k = Some p) as Hd.
  { unfold delivered_row. by rewrite lookup_insert_ne. }
  split; [|destruct Hc as [->| ->]; set_solver].
  destruct Hr as [(_ & -> & _)|(_ & [(j & t & _ & -> & _)|(j & _ & _ & Hj & -> & _)])]; [done|done|].
  rewrite lookup_insert_ne by congruence. done.
Qed.

Lemma ack_told_row m o i om w w' :
  ack_told m o i om w w' -> rows (sview w') !! i = Some (om, STATUS_DELIVERED).
Proof.
  intros [_ Hr]. assert (delivered_row i om (sview w) !! i = Some (om, STATUS_DELIVERED)) as Hd.
  { unfold delivered_row. by rewrite lookup_insert_eq. }
  destruct Hr as [(_ & -> & _)|(_ & [(j & t & _ & -> & _)|(j & _ & _ & Hj & -> & _)])]; [done|done|].
  rewrite lookup_insert_ne by congruence. done.
Qed.

Lemma ack_unreachable m k om w n :
  unreachable k (correlation_id_ m) om w -> st_well (1 + n) (storage_ w) ->
  exists w', AckHandler_Handle m w = (Ret tt, w') /\
    unreachable k (correlation_id_ m) om w' /\ st_well n (storage_ w').
Proof.
  intros [Hw Hrow Hc] Hn. pose proof (AckHandler_well m w n Hw Hn) as Hk.
  pose proof (ok_AckHandler [] m w Hw) as Hok. unfold wp in *.
  destruct (AckHandler_Handle m w) as [[[]|e|f] w']; [|done|done]. exists w'. split; [done|].
  destruct Hk as [Hack Hn']. split; [|done].
  assert (ack_ignored w w' -> unreachable k (correlation_id_ m) om w') as Hsame.
  { intros (Hv & _). split; [done|by rewrite Hv..]. }
  unfold acked in Hack. destruct (correlation_id_ m =? 0); [by apply Hsame|].
  destruct Hack as (o & i & _ & Hi & [(Hne & om' & _ & _ & Ht & _)|[_ Hig]]); [|by apply Hsame].
  destruct Hi as [(k' & o' & Hin & ->)|[? _]]; [|done]. destruct (Hc k' o' Hin) as [Hr Hkk].
  rewrite u64_id, s64_row in Ht by lia.
  destruct (ack_told_other _ _ _ _ _ _ k _ Ht (not_eq_sym Hkk) Hrow) as [Hrow' Hsub].
  split; [done|done|]. intros k1 o1 Hko. apply (Hc k1 o1), Hsub, Hko.
Qed.

Lemma reply_unreachable r k o om w n :
  rok [] w -> st_well (2 + n) (storage_ w) ->
  only_owner k (correlation_id_ r) o (sview w) -> o <> EmptyString -> no_nul o = true ->
  rows (sview w) !! k = Some (om, STATUS_SENT) ->
  exists w', ReplyHandler_Handle r w = (Ret tt, w') /\
    unreachable k (correlation_id_ r) om w' /\ st_well n (storage_ w').
Proof.
  intros Hw Hn [Hin Hone] Ho Hnul Hrow. pose proof (ReplyHandler_well r w n Hw Hn) as Hk.
  pose proof (ok_ReplyHandler [] r w Hw) as Hok. unfold wp in *.
  destruct (ReplyHandler_Handle r w) as [[[]|e|f] w']; [|done|done]. exists w'. split; [done|].
  destruct Hk as [(o1 & k2 & st & Ho1 & (Hk2 & Hfresh & Hrows) & Hc & _) Hn']. split; [|done].
  assert (o1 = o) as ->.
  { destruct Ho1 as [[k' Hk']|[_ Hno]]; [by apply (Hone k' o1)|by destruct (Hno k o)]. }
  assert (destination_ (reply_for r o) = o) as Hd.
  { unfold reply_for. by destruct (String.eqb_spec o EmptyString). }
  assert (k2 <> k) as Hne by (intros ->; congruence).
  split; [done|rewrite Hrows; by rewrite lookup_insert_ne|].
  intros k' o' H'. red in Hc. rewrite Hc, Hd, c_str_id in H' by done.
  apply elem_of_union in H' as [[= -> ->]%elem_of_singleton|[Hx Hy]%elem_of_filter]; [done|].
  destruct (Hone k' o' Hy) as [_ ->]. by destruct Hx.
Qed.

(** C40. A reply costs its request the ACK.  Let [om], stored under [k], be SENT and ask for
    an ACK, and let its sender [o] be the only owner of the correlation id.  An ACK with that
    id makes it DELIVERED.  But once a reply with that id has been handled, no number of ACKs
    with the id does: the correlation of the reply has replaced that of the request (they
    have the same owner), so that the ACKs find the reply, and the request stays SENT. *)
Theorem reply_loses_ack (r : Message) (acks : list Message) k o om w n :
  rok [] w -> st_well (2 + length acks + n) (storage_ w) ->
  correlation_id_ r <> 0 -> (forall a, a ∈ acks -> correlation_id_ a = correlation_id_ r) ->
  only_owner k (correlation_id_ r) o (sview w) -> o <> EmptyString -> no_nul o = true ->
  0 < k < 2 ^ 63 -> rows (sview w) !! k = Some (om, STATUS_SENT) -> NeedsAck om = true ->
  (forall a, correlation_id_ a = correlation_id_ r ->
     exists w', AckHandler_Handle a w = (Ret tt, w') /\
       rows (sview w') !! k = Some (om, STATUS_DELIVERED)) /\
  exists w', (ReplyHandler_Handle r ;;;
              for_each acks (fun a => AckHandler_Handle a ;;; ret Continue)) w = (Ret tt, w') /\
    rows (sview w') !! k = Some (om, STATUS_SENT).
Proof.
  intros Hw Hn Hz Hacks Hone Ho Hnul Hk Hrow Hneed. split.
  - intros a Ha. assert (st_well (1 + (1 + length acks + n)) (storage_ w)) as Hn1 by exact Hn.
    pose proof (AckHandler_well a w _ Hw Hn1) as Hk1. unfold wp in Hk1.
    destruct (AckHandler_Handle a w) as [[[]|e|f] w']; [|done|done]. exists w'. split; [done|].
    destruct Hk1 as [Hack _]. unfold acked in Hack. rewrite Ha in Hack.
    rewrite (proj2 (Z.eqb_neq _ _) Hz) in Hack. destruct Hack as (o' & i & _ & Hi & Happ).
    assert (i = k) as ->.
    { destruct Hi as [(k' & o2 & Hin & ->)|[_ Hno]]; [|by destruct (Hno k o), Hone].
      destruct (proj2 Hone k' o2 Hin) as [-> _]. apply u64_id. lia. }
    unfold ack_applied in Happ. rewrite s64_row in Happ by done.
    destruct Happ as [(_ & om' & Hrow' & _ & Ht & _)|[[->|Hno] _]]; [|lia|].
    + assert (om' = om) as -> by congruence. by eapply ack_told_row.
    + specialize (Hno om Hrow). congruence.
  - destruct (reply_unreachable r k o om w (length acks + n)) as (w1 & E1 & Hu & Hn1); try done.
    unfold bind at 1. rewrite E1. clear E1 Hw Hn Hrow Hone.
    revert w1 Hu Hn1 Hacks. induction acks as [|a l IH]; intros w1 Hu Hn1 Hacks.
    { exists w1. split; [done|apply Hu]. }
    assert (correlation_id_ a = correlation_id_ r) as Ha by (apply Hacks; by left).
    rewrite <- Ha in Hu. destruct (ack_unreachable a k om w1 (length l + n) Hu Hn1) as (w2 & E2 & Hu2 & Hn2).
    cbn [for_each]. unfold bind at 1 2. rewrite E2. cbn. rewrite Ha in Hu2.
    apply (IH w2 Hu2 Hn2). intros b Hb. apply Hacks. by right.
Qed.
End Acked.
