(* ===== verification/Offline.v ===== *)
(** The loop that gives stored messages to a session that has come online, as
    [DeliverOfflineMessages] and [DeliverPendingReplies] run it ([delivers], [deliver_loop]),
    and [DeliverOfflineMessages]: which of the loaded messages are given to the sender, in
    what order and what they end as, on every branch, and that on a storage that is well
    they are all there is. *)
From Stdlib Require Import ZArith Lia Strings.Byte.
From S2P Require Import Prelude Words Message Interfaces Config Metrics Session World.
From S2P Require Import Router RouterSpec Handlers HandlersSpec Cleanup Routing.
Open Scope Z_scope.
Open Scope broker_scope.

Section Offline.
Context {St : Type} `{IStorageHealth St} `{Host} `{HashOrder}.
Implicit Types (w : World St).

(** A delivered message in the abstract store, left with the status [final] says. *)
Definition mark (final : Message -> Z) (t : gmap Z (Message * Z)) (p : PendingMessage)
    : gmap Z (Message * Z) :=
  alter (fun q => (fst q, final (msg p))) (s64 (id p)) t.

Definition sends_of (i : nat) (s : Session) (l : list PendingMessage) : list PendingSend :=
  flat_map (fun p => send_of i s (msg p)) l.

(** A session that is still [s], with nothing queued. *)
Definition still (s t : Session) : Prop :=
  same_session s t /\ outgoing_queue_ t = [] /\ queue_mutex_ t = false.

Lemma send_of_still i s t m : still s t -> send_of i t m = send_of i s m.
Proof. intros [(Hi & Hn & _) _]. unfold send_of. by rewrite Hi, Hn. Qed.

(** A world in which the loop runs: [w0] with other sessions, storage, sends, posts. *)
Record running (w0 w : World St) : Prop := {
  run_active : active_clients_ w = active_clients_ w0;
  run_locals : locals w = locals w0;
  run_sends : pending_sends_mutex_ w = false;
  run_alive : storage_alive w = true;
  run_store : st_ok (storage_ w);
  run_well : forall n, st_well n (storage_ w0) -> st_well n (storage_ w);
}.

(** A storage call of [w] fails, or the storage is not well. *)
Definition unwell w : Prop := forall n, ~ st_well n (storage_ w).

Definition marked (final : Message -> Z) (done : list PendingMessage) (w0 w : World St) : Prop :=
  rows (sview w) = foldl (mark final) (rows (sview w0)) done /\
  corrs (sview w) = corrs (sview w0).

(** The loaded message is stored, under a status in [from]. *)
Definition stored_in (from : Z -> Prop) (p : PendingMessage) (t : gmap Z (Message * Z)) : Prop :=
  0 < id p < 2 ^ 63 /\ exists st, from st /\ t !! id p = Some (msg p, st).
Definition pending_in : PendingMessage -> gmap Z (Message * Z) -> Prop :=
  stored_in (eq STATUS_PENDING).

Lemma mark_other from final p q t :
  stored_in from q t -> 0 < id p < 2 ^ 63 -> id p <> id q -> stored_in from q (mark final t p).
Proof.
  intros (Hq & st & Hf & Ht) Hp Hne. split; [done|]. exists st. split; [done|]. unfold mark.
  rewrite (s64_row (id p)) by done. by rewrite lookup_alter_ne.
Qed.

Lemma marked_one final p f to w w' :
  pending_in p (rows (sview w)) -> f STATUS_PENDING = true -> to = final (msg p) ->
  sview w' = set_rows (alter (set_status f to) (s64 (id p))) (sview w) -> marked final [p] w w'.
Proof.
  intros (Hp & st & <- & Hr) Hf -> Hv. unfold marked. rewrite Hv. split; [|done]. cbn. unfold mark.
  rewrite (s64_row (id p)) by done. apply map_eq. intros j. rewrite !lookup_alter.
  case_decide as Hj; [subst j|done]. rewrite Hr. cbn. unfold set_status. cbn. by rewrite Hf.
Qed.

(** A step of a loop that delivers stored messages: nothing and the end of the loop when
    the session is offline; otherwise the message is given to the sender and marked, or the
    storage failed: [half] says how far the message came, and whether it was given. *)
Record delivers (from : Z -> Prop) (final : Message -> Z)
    (half : PendingMessage -> bool -> gmap Z (Message * Z) -> gmap Z (Message * Z) -> Prop)
    (step : nat -> PendingMessage -> M (World St) ctl) : Prop := {
  delivers_offline : forall i t p w,
    sessions w !! i = Some t -> is_online_ t = false -> step i p w = (Ret Break, w);
  delivers_online : forall i s t p w,
    sessions w !! i = Some t -> still s t -> is_online_ t = true ->
    pending_sends_mutex_ w = false -> storage_alive w = true -> st_ok (storage_ w) ->
    stored_in from p (rows (sview w)) ->
    wp never (step i p) w
      (fun c w' => c = Continue /\ running w w' /\ marked final [p] w w' /\
         pending_sends_ w' = pending_sends_ w ++ send_of i s (msg p) /\
         exists t', sessions w' !! i = Some t' /\ still s t' /\
                    is_online_ t' = serialises (msg p))
      (fun w' => running w w' /\ unwell w /\ corrs (sview w') = corrs (sview w) /\
         exists b : bool, half p b (rows (sview w)) (rows (sview w')) /\
         pending_sends_ w' = pending_sends_ w ++ if b then send_of i s (msg p) else []);
}.

(** The call that fails comes before the message is given when it asks for an ACK, and
    after when it does not; the row has not changed. *)
Definition half_offline (p : PendingMessage) (b : bool) (t t' : gmap Z (Message * Z)) : Prop :=
  t' = t /\ b = negb (NeedsAck (msg p)).

Lemma deliver_offline_delivers :
  delivers (eq STATUS_PENDING) sent_status half_offline deliver_offline.
Proof.
  split.
  { intros i t p w Ht Ho. unfold deliver_offline, IsOnline, bind.
    rewrite (on_self is_online_ i t) by done. by rewrite Ho. }
  intros i s t p w Ht Hst Ho Hm Ha Hok Hp. unfold deliver_offline, IsOnline. apply wp_bind.
  unfold wp at 1. rewrite (on_self is_online_ i t), Ho by done. cbn [negb]. apply wp_bind.
  destruct (NeedsAck (msg p)) eqn:En.
  - eapply wp_conseq; [by apply (wp_db_well _ _ _ _ (MarkSent_law (id p)) (MarkSent_well (id p)))| |].
    + intros _ w1 (s1 & -> & Hs1 & Hv & _ & Hn). apply wp_bind. unfold wp at 1.
      rewrite (on_SendMessage i t) by done. rewrite (send_of_still i s t) by done.
      apply wp_bind, wp_ret, wp_ret. split; [done|]. split; [split; try done; apply Hn|]. split.
      { eapply (marked_one _ p (Z.eqb STATUS_PENDING) STATUS_SENT); try done.
        unfold sent_status. by rewrite En. }
      split; [done|]. eexists. cbn. rewrite lookup_insert_eq. split; [done|]. by split.
    + intros w1 (s1 & -> & Hs1 & Hv & _ & Hn). split; [split; try done; intros n Hw; by destruct (Hn n)|].
      split; [done|]. change (sview (set_storage s1 w)) with (view s1). rewrite Hv. split; [done|].
      exists false. rewrite app_nil_r. split; [|done]. split; [done|]. by rewrite En.
  - apply wp_ret, wp_bind. unfold wp at 1.
    rewrite (on_SendMessage i t) by done. rewrite (send_of_still i s t) by done.
    set (w2 := set_sessions _ _). apply wp_bind. cbn [negb].
    eapply wp_conseq; [by apply (wp_db_well _ _ _ w2 (MarkDelivered_law (id p)) (MarkDelivered_well (id p)))| |].
    + intros _ w3 (s3 & -> & Hs3 & Hv & _ & Hn). apply wp_ret. split; [done|].
      split; [split; try done; apply Hn|]. split.
      { eapply (marked_one _ p (fun _ => true) STATUS_DELIVERED); try done.
        unfold sent_status. by rewrite En. }
      split; [done|]. eexists. cbn. rewrite lookup_insert_eq. split; [done|]. by split.
    + intros w3 (s3 & -> & Hs3 & Hv & _ & Hn). split; [split; try done; intros n Hw; by destruct (Hn n)|].
      split; [exact Hn|]. change (sview (set_storage s3 w2)) with (view s3). rewrite Hv.
      split; [done|]. exists true. split; [|done]. split; [done|]. by rewrite En.
Qed.

#[local] Instance running_preorder : Transitive running.
Proof. intros w1 w2 w3 [] []. split; try congruence. auto. Qed.

Lemma sends_of_cons i s p l : sends_of i s (p :: l) = send_of i s (msg p) ++ sends_of i s l.
Proof. done. Qed.

(** The loop came to the end of [l]: the messages [done] were given, in the order of [l], and
    marked; something is left only behind one that did not serialise. *)
Definition delivered_upto (final : Message -> Z) (i : nat) (s : Session)
    (l done rest : list PendingMessage) (w w' : World St) : Prop :=
  l = done ++ rest /\ marked final done w w' /\
  pending_sends_ w' = pending_sends_ w ++ sends_of i s done /\
  (rest = [] \/ exists p, last done = Some p /\ serialises (msg p) = false).

(** The storage failed at the message [p] of [l]. *)
Definition delivered_cut (final : Message -> Z)
    (half : PendingMessage -> bool -> gmap Z (Message * Z) -> gmap Z (Message * Z) -> Prop)
    (i : nat) (s : Session) (l : list PendingMessage) (w w' : World St) : Prop :=
  exists done p rest b, l = done ++ p :: rest /\
    half p b (foldl (mark final) (rows (sview w)) done) (rows (sview w')) /\
    corrs (sview w') = corrs (sview w) /\
    pending_sends_ w' = pending_sends_ w ++ sends_of i s done ++
      if b then send_of i s (msg p) else [].

(** The loop from a session [t] that may be offline. *)
Lemma deliver_loop from final half step i s t l w :
  delivers from final half step ->
  sessions w !! i = Some t -> still s t -> running w w ->
  NoDup (map id l) -> (forall p, p ∈ l -> stored_in from p (rows (sview w))) ->
  wp never (for_each l (step i)) w
    (fun _ w' => running w w' /\
       (exists t', sessions w' !! i = Some t' /\ still s t' /\ (is_online_ t = true ->
          (forall p, p ∈ l -> serialises (msg p) = true) -> is_online_ t' = true)) /\
       exists done rest, l = done ++ rest /\ marked final done w w' /\
         pending_sends_ w' = pending_sends_ w ++ sends_of i s done /\
         (rest = [] \/ (done = [] /\ is_online_ t = false) \/
          exists p, last done = Some p /\ serialises (msg p) = false))
    (fun w' => running w w' /\ unwell w /\ delivered_cut final half i s l w w').
Proof.
  intros Hstep. revert w t.
  induction l as [|p l IH]; intros w t Ht Hst Hrun Hnd Hl; cbn [for_each].
  { apply wp_ret. split; [done|]. split; [by exists t|]. exists [], []. unfold marked. cbn.
    rewrite app_nil_r. tauto. }
  apply wp_bind. destruct (is_online_ t) eqn:Eo.
  2:{ unfold wp at 1. rewrite (delivers_offline _ _ _ _ Hstep i t) by done. apply wp_ret.
      split; [done|]. split; [by exists t|]. exists [], (p :: l). unfold marked. cbn.
      rewrite app_nil_r. tauto. }
  cbn in Hnd. apply NoDup_cons in Hnd as [Hni Hnd].
  eapply wp_conseq; [apply (delivers_online _ _ _ _ Hstep i s t p w); try done; try apply Hrun; apply Hl;
    by left| |].
  2:{ intros w1 (Hr1 & Hu & Hc1 & b & Hh & Hp1). split; [done|]. split; [done|].
      exists [], p, l, b. by split_and!. }
  intros c w1 (-> & Hr1 & Hm1 & Hp1 & t1 & Ht1 & Hst1 & Ho1). cbn.
  assert (running w1 w1) as Hrun1 by (destruct Hr1; by split).
  eapply wp_conseq; [apply (IH w1 t1); try done| |].
  - intros q Hq. destruct Hm1 as [-> _]. cbn. apply mark_other.
    + apply Hl. by right.
    + apply Hl. by left.
    + intros E. apply Hni. rewrite E. apply list_elem_of_fmap. by exists q.
  - intros _ w2 (Hr2 & (t2 & Ht2 & Hst2 & Ho2) & d & r & Hlr & Hm2 & Hp2 & Hend).
    split; [by transitivity w1|]. split.
    { exists t2. split; [done|]. split; [done|]. intros _ Hser. apply Ho2.
      - rewrite Ho1. apply Hser. by left.
      - intros q Hq. apply Hser. by right. }
    exists (p :: d), r. split; [by rewrite Hlr|].
    split; [|split].
    + destruct Hm1 as [Hm1 Hc1], Hm2 as [Hm2 Hc2]. split; [|congruence].
      by rewrite Hm2, Hm1.
    + rewrite Hp2, Hp1, sends_of_cons. by rewrite app_assoc.
    + destruct Hend as [->|[[-> Hoff]|(q & Hq & Hs)]]; [by left| |].
      * right; right. exists p. split; [done|]. congruence.
      * right; right. exists q. split; [|done]. rewrite last_cons. by rewrite Hq.
  - intros w2 (Hr2 & Hu & d & q & r & b & Hlr & Hh & Hc2 & Hp2). split; [by transitivity w1|].
    split; [intros n Hn; by apply (Hu n), (run_well _ _ Hr1)|].
    exists (p :: d), q, r, b. split; [by rewrite Hlr|]. destruct Hm1 as [Hm1 Hc1].
    split; [|split; [congruence|]].
    + by rewrite Hm1 in Hh.
    + by rewrite Hp2, Hp1, sends_of_cons, !app_assoc.
Qed.

(** The loop over what was loaded, with the clocks of an online session [s] set first. *)
Lemma deliver_loaded from final half step i s t l w :
  delivers from final half step ->
  sessions w !! i = Some t -> still s t -> is_online_ t = true -> running w w ->
  NoDup (map id l) -> (forall p, p ∈ l -> stored_in from p (rows (sview w))) ->
  wp never (for_each l (step i)) w
    (fun _ w' => running w w' /\
       (exists t', sessions w' !! i = Some t' /\ still s t' /\
          ((forall p, p ∈ l -> serialises (msg p) = true) -> is_online_ t' = true)) /\
       exists done rest, delivered_upto final i s l done rest w w')
    (fun w' => running w w' /\ unwell w /\ delivered_cut final half i s l w w').
Proof.
  intros Hstep Ht Hst Ho Hrun Hnd Hl. eapply wp_conseq; [by apply (deliver_loop from final half step i s t)| |done].
  intros _ w' (Hr & (t' & Ht' & Hst' & Ho') & d & r & Hlr & Hm & Hp & Hend). split; [done|].
  split; [exists t'; split; [done|]; split; [done|]; by apply Ho'|].
  exists d, r. split; [done|]. split; [done|]. split; [done|].
  destruct Hend as [|[[_ Hoff]|]]; [by left|congruence|by right].
Qed.

(** ** [DeliverOfflineMessages] *)

(** The messages [DeliverOfflineMessages] is about. *)
Definition waiting_for (n : string) (p : Message * Z) : Prop :=
  snd p = STATUS_PENDING /\ type_ (fst p) <> MT_Reply /\ destination_ (fst p) = c_str n.

(** What it may leave: the load answered with [l], or failed. *)
Definition offline_outcome (n : string) (i : nat) (s : Session) (w : World St)
    (o : result unit * World St) : Prop :=
  match fst (iLoadPendingMessagesOnly n (storage_ w)), o with
  | Ret l, (Ret _, w') =>
      loads (fun p _ => waiting_for n p) l (sview w) /\
      exists done rest, delivered_upto sent_status i s l done rest w w'
  | Ret l, (Throw _, w') =>
      loads (fun p _ => waiting_for n p) l (sview w) /\
      delivered_cut sent_status half_offline i s l w w'
  | Throw _, (Throw _, w') => sview w' = sview w /\ pending_sends_ w' = pending_sends_ w
  | _, _ => False
  end.

Definition offline_post n i s w (returned : bool) w' : Prop :=
  offline_outcome n i s w (if returned then Ret tt else Throw zmq_error, w') /\
  if returned
  then (forall k, st_well k (storage_ w) -> st_well k (storage_ w') /\
          exists l, fst (iLoadPendingMessagesOnly n (storage_ w)) = Ret l /\
                    all_rows (fun _ => waiting_for n) l (sview w)) /\
       forall l, fst (iLoadPendingMessagesOnly n (storage_ w)) = Ret l ->
         (forall p, p ∈ l -> serialises (msg p) = true) ->
         exists t, Online n i t w' /\ still s t
  else unwell w.

Lemma same_view_upto final i s l done rest w0 w w' w1 :
  sview w = sview w0 -> pending_sends_ w = pending_sends_ w0 ->
  sview w1 = sview w' -> pending_sends_ w1 = pending_sends_ w' ->
  delivered_upto final i s l done rest w w' -> delivered_upto final i s l done rest w0 w1.
Proof.
  intros Hv Hp Hv' Hp'. unfold delivered_upto, marked. by rewrite Hv, Hp, Hv', Hp'.
Qed.

Lemma same_view_cut final half i s l w0 w w' w1 :
  sview w = sview w0 -> pending_sends_ w = pending_sends_ w0 ->
  sview w1 = sview w' -> pending_sends_ w1 = pending_sends_ w' ->
  delivered_cut final half i s l w w' -> delivered_cut final half i s l w0 w1.
Proof.
  intros Hv Hp Hv' Hp'. unfold delivered_cut. by rewrite Hv, Hp, Hv', Hp'.
Qed.

Lemma DeliverOfflineMessages_posts P n i s w :
  rok P w -> Online n i s w -> outgoing_queue_ s = [] ->
  wp never (DeliverOfflineMessages n) w (fun _ => offline_post n i s w true)
    (offline_post n i s w false).
Proof.
  intros Hw [Hn Hs Ho] Hq. destruct (wok_heap _ _ _ _ Hw i s Hs) as [_ Hqm].
  apply wp_scoped_find; [apply Hw|]. cbv zeta. rewrite Hn. set (w1 := set_locals _ w).
  apply wp_bind. eapply wp_conseq;
    [apply (wp_db_well _ _ _ w1 (LoadPendingMessagesOnly_law n) (LoadPendingMessagesOnly_well n)); apply Hw| |].
  2:{ intros w2 (s2 & -> & Hs2 & Hv2 & [e Ee] & Hu). split; [done|]. split; [|exact Hu].
      unfold offline_outcome. change (storage_ w1) with (storage_ w) in Ee. rewrite Ee.
      by split. }
  intros l w2 (s2 & -> & Hs2 & (Hv2 & Hnd & Hl) & El & Hwell).
  change (storage_ w1) with (storage_ w) in El, Hwell. change (sview w1) with (sview w) in Hv2, Hl.
  unfold offline_post, offline_outcome. rewrite El.
  assert (forall p, p ∈ l -> stored_in (eq STATUS_PENDING) p (rows (sview w))) as Hl'.
  { intros p Hp. destruct (Hl p Hp) as (Hid & st & Hr & Hst & _). cbn in Hst.
    split; [done|]. by exists st. }
  assert (loads (fun p _ => waiting_for n p) l (sview w)) as Hloads by by split.
  destruct l as [|p l].
  { apply wp_ret. split; [done|]. split; [split; [done|]|].
    - exists [], []. unfold delivered_upto, marked. cbn. rewrite app_nil_r.
      change (sview (set_locals (locals w) (set_storage s2 w1))) with (view s2). rewrite Hv2. tauto.
    - split; [intros k Hk; destruct (Hwell k Hk) as [Hk' Hall]; split; [done|]; by exists []|].
      intros _ _ _. by exists s. }
  set (loaded := p :: l) in *. apply wp_bind, wp_modify, wp_bind.
  unfold wp at 1, on at 1. cbn. rewrite Hs. cbn.
  apply wp_bind. unfold wp at 1, on at 1. cbn. rewrite lookup_insert_eq. cbn.
  rewrite insert_insert_eq.
  set (t := set_last_receive _ _). set (w3 := set_sessions _ _).
  assert (sview w3 = sview w) as Hv3 by exact Hv2.
  apply wp_bind. eapply wp_conseq;
    [apply (deliver_loaded _ _ _ _ i s t loaded w3 deliver_offline_delivers); try done| |].
  - cbn. by rewrite lookup_insert_eq.
  - split; try done; apply Hw.
  - by rewrite Hv3.
  - intros _ w4 (Hr4 & (t4 & Ht4 & Hst4 & Ho4) & d & r & Hup).
    unfold wp. rewrite (flush_empty i t4) by (done || apply Hst4).
    split; [split; apply Hr4|]. split; [split; [done|]|].
    + exists d, r. by eapply same_view_upto.
    + split.
      * intros k Hk. destruct (Hwell k Hk) as [Hk' Hall]. split; [by apply (run_well _ _ Hr4)|].
        by exists loaded.
      * intros l' [= <-] Hser. exists t4. split; [|done]. split; [|done|by apply Ho4].
        change (active_clients_ w4 !! n = Some i). by rewrite (run_active _ _ Hr4).
  - intros w4 (Hr4 & Hu & Hcut). split; [split; apply Hr4|]. split; [split; [done|]|].
    + by eapply same_view_cut.
    + intros k Hk. by destruct (Hu k), (Hwell k Hk).
Qed.

(** C10. [DeliverOfflineMessages] for a client that has just come online.  The messages are
    those the load answers with, which are stored PENDING for the client, each once.  When
    the call returns, all of them, in the order of the load, have been given to the sender
    under the client's identity, and end SENT if they ask for an ACK and DELIVERED if not;
    only behind a message that did not serialise, which takes the session offline, some may
    be left as they were.  If the storage fails at one of them, the exception leaves those
    before it so; the one it failed at is still PENDING, given if it asks for no ACK.  No
    other stored message and no correlation changes, and nothing does if the load fails.  On
    a storage that is well the call returns and the messages are all that wait for the
    client. *)
Theorem DeliverOfflineMessages_outcome (n : string) i s w :
  rok [] w -> Online n i s w -> outgoing_queue_ s = [] ->
  offline_outcome n i s w (DeliverOfflineMessages n w) /\
  forall k, st_well k (storage_ w) ->
    fst (DeliverOfflineMessages n w) = Ret tt /\
    st_well k (storage_ (snd (DeliverOfflineMessages n w))) /\
    exists l, fst (iLoadPendingMessagesOnly n (storage_ w)) = Ret l /\
              all_rows (fun _ => waiting_for n) l (sview w).
Proof.
  intros Hw Hon Hq. pose proof (DeliverOfflineMessages_posts [] n i s w Hw Hon Hq) as Hk. unfold wp in Hk.
  destruct (DeliverOfflineMessages n w) as [[[]|e|f] w']; [| |done]; destruct Hk as [Ho Hk].
  - split; [done|]. intros k Hn. split; [done|]. by apply Hk.
  - split; [exact Ho|]. intros k Hn. by destruct (Hk k).
Qed.
End Offline.
