(* ===== verification/Registration.v ===== *)
(** What registering and unregistering do to the registry.

    [RegisterHandler] makes a session, puts it in the place of the one the name had
    ([upserted]), and delivers what was stored for the name; [delivering] is what these
    deliveries leave alone, whatever the storage answers.  [UnregisterHandler] takes
    the session out again.  [idle] is assumed: no message waits in a session, so that
    destroying one persists nothing. *)
From Stdlib Require Import ZArith Lia Strings.Byte.
From S2P Require Import Prelude Words Message Interfaces Config Metrics Session World.
From S2P Require Import Router RouterSpec Handlers HandlersSpec Cleanup Routing.
Open Scope Z_scope.
Open Scope broker_scope.

Section Delivering.
Context {St : Type} `{IStorageLaws St} `{Host} `{HashOrder}.
Implicit Types (w : World St) (L : list (option nat)).

Lemma on_GetQueueSize j t w :
  sessions w !! j = Some t -> queue_mutex_ t = false ->
  on j GetQueueSize w = (Ret (length (outgoing_queue_ t)), w).
Proof.
  intros Hs Hq. unfold on. rewrite Hs. unfold GetQueueSize, with_queue_lock, lock_guard. cbn.
  rewrite Hq. cbn. f_equal. replace (set_queue_mutex false (set_queue_mutex true t)) with t
    by (destruct t; cbn in *; by subst). by apply set_same_session.
Qed.

(** [w0] with stored messages being delivered to the session [i]: nothing of the registry
    moves, and no other session. *)
Record delivering (lk : bool) (i : nat) w0 L w : Prop := {
  dl_lock : registry_mutex_ w = lk;
  dl_sends : pending_sends_mutex_ w = false;
  dl_alive : storage_alive w = true;
  dl_store : st_ok (storage_ w);
  dl_active : active_clients_ w = active_clients_ w0;
  dl_ids : identity_to_name_ w = identity_to_name_ w0;
  dl_locals : locals w = L;
  dl_others : forall j, j <> i -> sessions w !! j = sessions w0 !! j;
  dl_session : exists s0 s, sessions w0 !! i = Some s0 /\ sessions w !! i = Some s /\
                 same_session s0 s /\ queue_mutex_ s = false;
}.

Context (i : nat) (w0 : World St).
Hypothesis registered : forall n j, active_clients_ w0 !! n = Some j ->
  exists t, sessions w0 !! j = Some t /\ queue_mutex_ t = false.

Abbreviation keeps_delivering lk L := (keeps (delivering lk i w0 L) never).

Lemma delivering_db {A} (m : M St A) lk L : storage_op m -> keeps_delivering lk L (db m).
Proof.
  intros Hm w Hw. unfold wp, db. rewrite (dl_alive _ _ _ _ _ Hw).
  pose proof (Hm (storage_ w) (dl_store _ _ _ _ _ Hw)) as Hk. unfold wp in Hk.
  destruct (m (storage_ w)) as [[a|e|f] s]; [| |done]; destruct Hw; by split.
Qed.

Lemma delivering_metric op lk L : keeps_delivering lk L (metric op).
Proof. apply keeps_modify. intros w []. by split. Qed.

(** A member function that comes back, whatever its session. *)
Definition never_stuck {A} (m : M (Session * World St) A) : Prop := forall s0 w0,
  keeps (session_inv s0 (outside w0)) never m.

Lemma never_SendMessage this m : never_stuck (SendMessage this m).
Proof. intros s w. apply keeps_SendMessage; [apply keeps_SendToClient | apply keeps_persist]. Qed.
Lemma never_FlushQueue this : never_stuck (FlushQueue this).
Proof. intros s w. apply keeps_FlushQueue, keeps_SendToClient. Qed.
Lemma never_UpdateLastReceive : never_stuck UpdateLastReceive.
Proof. intros s w. by apply keeps_modify. Qed.
Lemma never_UpdateLastActivity : never_stuck UpdateLastActivity.
Proof. intros s w. by apply keeps_modify. Qed.
Lemma never_GetQueueSize : never_stuck GetQueueSize.
Proof. intros s w. apply keeps_GetQueueSize. Qed.
Lemma never_self {A} (f : Session -> A) : never_stuck (self f).
Proof. intros s w. apply keeps_gets. Qed.

Lemma delivering_on {A} (m : M (Session * World St) A) lk L :
  never_stuck m -> keeps_delivering lk L (on i m).
Proof.
  intros Hm w Hw. destruct (dl_session _ _ _ _ _ Hw) as (s0 & s & Hs0 & Hs & Hsame & Hq).
  unfold wp, on. rewrite Hs.
  assert (session_inv s (outside w) (s, w)) as Hinv.
  { split; [done|]. split; [done|]. by destruct Hw. }
  specialize (Hm s w (s, w) Hinv). unfold wp in Hm.
  destruct (m (s, w)) as [[a|e|f] [s' w']]; [| |done];
    destruct Hm as (Hss & Hqs & Ho); cbn in Hss, Hqs, Ho; destruct Ho, Hw; split; cbn;
    try congruence;
    first [ intros j Hj; rewrite lookup_insert_ne, <- dl_others0 by done; congruence
          | exists s0, s'; rewrite lookup_insert_eq; unfold same_session in *; intuition congruence ].
Qed.

(** A scope over the registered client [n]. *)
Lemma delivering_find {A} n (k : option nat -> M (World St) A) L :
  active_clients_ w0 !! n = Some i ->
  keeps_delivering false (Some i :: L) (k (Some i)) ->
  keeps_delivering false L (scoped (FindSession n) k).
Proof.
  intros Hn Hk w Hw. unfold scoped, bind, wp, finally.
  rewrite FindSession_eq by apply Hw. rewrite (dl_active _ _ _ _ _ Hw), Hn, (dl_locals _ _ _ _ _ Hw).
  assert (delivering false i w0 (Some i :: L) (set_locals (Some i :: L) w)) as Hw1
    by (destruct Hw; by split).
  specialize (Hk _ Hw1). unfold wp in Hk.
  destruct (k (Some i) (set_locals (Some i :: L) w)) as [[a|e|f] w']; [| |done];
    (rewrite (pop_registered (Some i) L w');
      [destruct Hk; by split|apply Hk|intros j [= <-]; exists n; by rewrite (dl_active _ _ _ _ _ Hk)]).
Qed.

Ltac delivering_call :=
  first
    [ apply delivering_metric
    | apply delivering_db; solve [eauto with broker nocore]
    | apply delivering_on; first [ apply never_SendMessage | apply never_FlushQueue
        | apply never_UpdateLastReceive | apply never_UpdateLastActivity | apply never_self ] ].

Lemma delivering_offline n L :
  active_clients_ w0 !! n = Some i -> keeps_delivering false L (DeliverOfflineMessages n).
Proof.
  intros Hn. apply (delivering_find n); [done|]. unfold deliver_offline, IsOnline.
  solve_keeps ltac:(delivering_call).
Qed.

Lemma delivering_replies n L :
  active_clients_ w0 !! n = Some i -> keeps_delivering false L (DeliverPendingReplies n).
Proof.
  intros Hn. apply (delivering_find n); [done|]. unfold deliver_reply, IsOnline.
  solve_keeps ltac:(delivering_call).
Qed.

Lemma delivering_print L : keeps_delivering false L PrintActiveClients.
Proof.
  intros w Hw. apply wp_lock_guard; [apply Hw|].
  eapply wp_conseq with (Q := fun _ => delivering true i w0 L) (E := delivering true i w0 L);
    [|intros _ w'; intros []; by split|intros w'; intros []; by split].
  apply wp_bind, wp_gets.
  apply wp_for_each; [destruct Hw; by split|]. intros [n j] w1 Hp Hw1.
  apply hash_order_elem in Hp. cbn in Hp. rewrite (dl_active _ _ _ _ _ Hw) in Hp. cbn [snd].
  destruct (registered n j Hp) as (t & Ht & Hq). apply wp_bind.
  destruct (decide (j = i)) as [->|Hne].
  - eapply wp_conseq; [by apply (delivering_on _ true L never_GetQueueSize)| |done].
    intros ? w2 Hw2. by apply wp_ret.
  - unfold wp at 1. rewrite (on_GetQueueSize j t w1) by (done || by rewrite (dl_others _ _ _ _ _ Hw1)). by apply wp_ret.
Qed.

(** All that follows [UpsertClient]. *)
Lemma delivering_all n L :
  active_clients_ w0 !! n = Some i ->
  keeps_delivering false L
    (DeliverOfflineMessages n ;;; DeliverPendingReplies n ;;; PrintActiveClients).
Proof.
  intros Hn. apply keeps_bind; [by apply delivering_offline|]. intros _.
  apply keeps_bind; [by apply delivering_replies|]. intros _. apply delivering_print.
Qed.
End Delivering.

Section Registration.
Context {St : Type} `{IStorageLaws St} `{Host} `{HashOrder}.
Implicit Types (w : World St).

(** The last pointer to an idle session goes away, and the session with it. *)
Lemma pop_last j t l w :
  locals w = Some j :: l -> Some j ∉ l -> (forall n, active_clients_ w !! n <> Some j) ->
  sessions w !! j = Some t -> outgoing_queue_ t = [] -> queue_mutex_ t = false ->
  pop_local w = (Ret tt, set_sessions (delete j (sessions w)) (set_locals l w)).
Proof.
  intros Hl Hj Ha Ht Hq Hm. unfold pop_local, bind, gets, modify. rewrite Hl. cbn [tail].
  unfold release, bind, gets. destruct (referenced j (set_locals l w)) eqn:Er.
  { apply elem_of_referenced in Er as [Hr|[n Hn]]; [done|]. by apply Ha in Hn. }
  unfold try_catch, Session_dtor. by rewrite (on_persist_idle j t).
Qed.

Lemma on_MarkOffline j t w :
  sessions w !! j = Some t ->
  on j MarkOffline w = (Ret tt, set_sessions (<[j := set_online false t]> (sessions w)) w).
Proof. apply (on_upd (set_online false)). Qed.

(** The identities, less the one of the session the name [n] has. *)
Definition forgotten (n : string) w : gmap string string :=
  match active_clients_ w !! n with
  | Some j => match sessions w !! j with
              | Some t => delete (identity_ t) (identity_to_name_ w)
              | None => identity_to_name_ w
              end
  | None => identity_to_name_ w
  end.

(** What a change of the registry leaves alone. *)
Record beside w w' : Prop := {
  be_lock : registry_mutex_ w' = registry_mutex_ w;
  be_mutex : pending_sends_mutex_ w' = pending_sends_mutex_ w;
  be_sends : pending_sends_ w' = pending_sends_ w;
  be_storage : storage_ w' = storage_ w;
  be_alive : storage_alive w' = storage_alive w;
}.

(** [i] in the place of the client [n]. *)
Record upserted (n : string) (i : nat) (a : string) w w' : Prop := {
  up_active : active_clients_ w' = <[n := i]> (active_clients_ w);
  up_ids : identity_to_name_ w' = <[a := n]> (forgotten n w);
  up_locals : locals w' = active_clients_ w !! n :: locals w;
  up_sessions : sessions w' = match active_clients_ w !! n with
                              | Some j => alter (set_online false) j (sessions w)
                              | None => sessions w
                              end;
  up_beside : beside w w';
}.

Lemma replace_eq n i j t w :
  active_clients_ w !! n = Some j -> Some j ∈ locals w -> sessions w !! j = Some t ->
  outgoing_queue_ t = [] -> queue_mutex_ t = false ->
  (on j PersistQueueToDatabase ;;; on j MarkOffline ;;;
   old_identity <- GetIdentity j ;; erase_identity old_identity ;;; assign_client n i) w =
    (Ret tt, set_active_clients (<[n := i]> (active_clients_ w))
               (set_identity_to_name (delete (identity_ t) (identity_to_name_ w))
                  (set_sessions (<[j := set_online false t]> (sessions w)) w))).
Proof.
  intros Hn Hl Ht Hq Hm. unfold bind at 1. rewrite (on_persist_idle j t) by done.
  unfold bind at 1. rewrite (on_MarkOffline j t) by done. set (w1 := set_sessions _ w).
  assert (sessions w1 !! j = Some (set_online false t)) as Hj by (cbn; by rewrite lookup_insert_eq).
  unfold bind at 1, GetIdentity. rewrite (on_self _ _ _ _ Hj).
  unfold bind at 1, erase_identity, modify at 1. set (w2 := set_identity_to_name _ w1).
  unfold assign_client, find_client, bind, gets, modify.
  change (active_clients_ w2) with (active_clients_ w). rewrite Hn.
  apply release_referenced, elem_of_referenced. by left.
Qed.

Lemma upsert_tail_eq n i s (it : option nat) w :
  sessions w !! i = Some s ->
  exists mt,
    (new_identity <- GetIdentity i ;;
     modify (fun w => set_identity_to_name (<[new_identity := n]> (identity_to_name_ w)) w) ;;;
     report_sessions ;;;
     match it with
     | Some _ => metric IncrementClientsUnregistered ;;; metric IncrementClientsRegistered
     | None => metric IncrementClientsRegistered
     end ;;; ret it) w =
      (Ret it, set_metrics mt (set_identity_to_name (<[identity_ s := n]> (identity_to_name_ w)) w)).
Proof.
  intros Hs. unfold bind at 1, GetIdentity. rewrite (on_self _ _ _ _ Hs).
  destruct it; eexists; reflexivity.
Qed.

Lemma UpsertClient_outcome n i s w :
  registry_mutex_ w = false -> sessions w !! i = Some s ->
  (forall j, active_clients_ w !! n = Some j -> j <> i /\
     exists t, sessions w !! j = Some t /\ outgoing_queue_ t = [] /\ queue_mutex_ t = false) ->
  exists w', UpsertClient n (Some i) w = (Ret (active_clients_ w !! n), w') /\
    upserted n i (identity_ s) w w'.
Proof.
  intros Hm Hs Hold. unfold UpsertClient, with_registry_lock, lock_guard. rewrite Hm.
  set (w1 := set_registry_mutex true w). unfold bind at 1, find_client, gets.
  change (active_clients_ w1) with (active_clients_ w).
  unfold bind at 1, push_local, modify at 1. set (w2 := set_locals _ w1).
  unfold returning, bind at 1. destruct (active_clients_ w !! n) as [j|] eqn:Ej.
  - destruct (Hold j eq_refl) as (Hne & t & Ht & Hq & Htm).
    rewrite (replace_eq n i j t w2) by (done || by left). set (w3 := set_active_clients _ _).
    assert (sessions w3 !! i = Some s) as Hi by (cbn; by rewrite lookup_insert_ne).
    destruct (upsert_tail_eq n i s (Some j) w3 Hi) as [mt ->]. eexists. split; [done|].
    split; cbn; [done| |by rewrite Ej| |by split; rewrite ?Hm].
    + unfold forgotten. by rewrite Ej, Ht.
    + rewrite Ej. symmetry. rewrite <- (insert_id (sessions w) j t) at 1 by done.
      by rewrite alter_insert_eq.
  - unfold assign_client, find_client, bind at 1 2, gets, modify at 1.
    change (active_clients_ w2) with (active_clients_ w). rewrite Ej. cbn [ret].
    set (w3 := set_active_clients _ w2). assert (sessions w3 !! i = Some s) as Hi by done.
    destruct (upsert_tail_eq n i s None w3 Hi) as [mt ->]. eexists. split; [done|].
    split; cbn; [done| |by rewrite Ej|by rewrite Ej|by split; rewrite ?Hm].
    unfold forgotten. by rewrite Ej.
Qed.

(** The session [RegisterHandler] makes. *)
Definition new_session (n a : string) (now : Z) : Session :=
  SetPersistCallback (set_last_receive now (set_last_activity now (SetName n (Session_ctor a now)))).

Lemma prepare_eq n i s w (k : M (World St) unit) :
  sessions w !! i = Some s ->
  (on i (upd (SetName n)) ;;; on i UpdateLastActivity ;;; on i UpdateLastReceive ;;;
   on i (upd SetPersistCallback) ;;; k) w =
    k (set_sessions (<[i := SetPersistCallback (set_last_receive (clock_ w)
         (set_last_activity (clock_ w) (SetName n s)))]> (sessions w)) w).
Proof.
  intros Hs. unfold bind at 1. rewrite (on_upd _ _ _ _ Hs).
  unfold bind at 1, on at 1. cbn [sessions set_sessions]. rewrite lookup_insert_eq. cbn.
  rewrite insert_insert_eq.
  unfold bind at 1, on at 1. cbn [sessions set_sessions]. rewrite lookup_insert_eq. cbn.
  rewrite insert_insert_eq.
  unfold bind at 1, on at 1. cbn [sessions set_sessions]. rewrite lookup_insert_eq. cbn.
  by rewrite insert_insert_eq.
Qed.

Lemma scoped_eq {A B} (m : M (World St) A) (k : A -> M (World St) B) a r w w1 w2 w3 :
  m w = (Ret a, w1) -> k a w1 = (r, w2) -> is_stuck r = false -> pop_local w2 = (Ret tt, w3) ->
  scoped m k w = (r, w3).
Proof.
  intros Hm Hk Hr Hp. unfold scoped, bind, finally. rewrite Hm, Hk, Hp. by destruct r.
Qed.

(** What a registration leaves behind. *)
Record registered (n a : string) w w' : Prop := {
  rg_active : active_clients_ w' = <[n := next_address w]> (active_clients_ w);
  rg_ids : identity_to_name_ w' = <[a := n]> (forgotten n w);
  rg_session : exists s, sessions w' !! next_address w = Some s /\
                 identity_ s = a /\ name_ s = n /\ persist_callback_ s = true;
  rg_old : forall j, active_clients_ w !! n = Some j -> sessions w' !! j = None;
  rg_others : forall j, j <> next_address w -> active_clients_ w !! n <> Some j ->
                sessions w' !! j = sessions w !! j;
}.

Lemma delivered w0 i L n :
  active_clients_ w0 !! n = Some i -> wok false L None w0 ->
  exists r w', (DeliverOfflineMessages n ;;; DeliverPendingReplies n ;;; PrintActiveClients) w0 =
    (r, w') /\ is_stuck r = false /\ delivering false i w0 L w'.
Proof.
  intros Hn Hw.
  assert (delivering false i w0 L w0) as Hd.
  { destruct (wok_active _ _ _ _ Hw n i Hn) as (s & Hs & _).
    destruct (wok_heap _ _ _ _ Hw i s Hs) as [_ Hq]. destruct Hw. split; try done.
    exists s, s. by split_and!. }
  assert (forall n j, active_clients_ w0 !! n = Some j ->
    exists t, sessions w0 !! j = Some t /\ queue_mutex_ t = false) as Hreg.
  { intros n' j (t & Ht & _)%(wok_active _ _ _ _ Hw). exists t. split; [done|].
    by apply (wok_heap _ _ _ _ Hw j). }
  pose proof (delivering_all i w0 Hreg n L Hn w0 Hd) as Hk. unfold wp in Hk.
  destruct ((DeliverOfflineMessages n ;;; DeliverPendingReplies n ;;; PrintActiveClients) w0)
    as [[u|e|f] w']; [| |done]; eexists _, _; by split_and!.
Qed.

(** The registry keeps the invariant up to the deliveries. *)
Lemma prepared_ok n a w :
  rok [] w ->
  let i := next_address w in
  let w1 := snd (make_session a w) in
  let w2 := set_sessions (<[i := new_session n a (clock_ w)]> (sessions w1)) w1 in
  rok [Some i] w2 /\ sessions w2 !! i = Some (new_session n a (clock_ w)).
Proof.
  intros Hw i w1 w2. pose proof (make_session_private a w [] Hw) as Hp.
  unfold wp, make_session in Hp. destruct Hp as (Hw1 & Hp & Hi).
  pose proof (ok_prepare_session [Some i] i n w1 Hw1 Hp Hi (ret tt)
    (fun w' Hw' _ => Hw')) as Ho.
  unfold wp in Ho. rewrite (prepare_eq n i (Session_ctor a (clock_ w))) in Ho
    by (cbn; by rewrite lookup_insert_eq).
  split; [exact Ho|]. cbn. by rewrite lookup_insert_eq.
Qed.

(** The pointer to the session that was replaced goes away, and the session with it. *)
Lemma pop_replaced n i a L w2 w3 w4 :
  rok (Some i :: L) w2 -> idle w2 -> active_clients_ w2 !! n <> Some i ->
  (forall j, active_clients_ w2 !! n = Some j -> Some j ∉ Some i :: L) ->
  upserted n i a w2 w3 -> delivering false i w3 (active_clients_ w2 !! n :: Some i :: L) w4 ->
  pop_local w4 =
    (Ret tt, set_sessions (match active_clients_ w2 !! n with
                           | Some j => delete j (sessions w4)
                           | None => sessions w4
                           end) (set_locals (Some i :: L) w4)).
Proof.
  intros Hw Hidle Hni Hnl [] Hd. destruct (active_clients_ w2 !! n) as [j|] eqn:Ej.
  2:{ rewrite (pop_registered None (Some i :: L)); [|apply Hd|done]. by destruct w4. }
  assert (j <> i) as Hne by congruence.
  destruct (wok_active _ _ _ _ Hw n j Ej) as (t & Ht & Htn).
  destruct (wok_heap _ _ _ _ Hw j t Ht) as [_ Hq].
  apply (pop_last j (set_online false t)); [apply Hd|by apply Hnl| | |by apply (Hidle j t)|done].
  - intros n' Hn'. rewrite (dl_active _ _ _ _ _ Hd), up_active0 in Hn'.
    apply lookup_insert_Some in Hn' as [[_ Heq]|[Hn' Hj]]; [congruence|].
    destruct (wok_active _ _ _ _ Hw n' j Hj) as (t' & Ht' & Htn'). congruence.
  - rewrite (dl_others _ _ _ _ _ Hd) by done. rewrite up_sessions0, lookup_alter_eq, Ht. done.
Qed.

Lemma forgotten_ext n w w' :
  active_clients_ w' = active_clients_ w -> identity_to_name_ w' = identity_to_name_ w ->
  (forall j, active_clients_ w !! n = Some j -> sessions w' !! j = sessions w !! j) ->
  forgotten n w' = forgotten n w.
Proof.
  intros Ha Hi Hs. unfold forgotten. rewrite Ha, Hi.
  destruct (active_clients_ w !! n) as [j|]; [|done]. by rewrite Hs.
Qed.

Lemma up_others n i a w w' k :
  upserted n i a w w' -> active_clients_ w !! n <> Some k -> sessions w' !! k = sessions w !! k.
Proof.
  intros [_ _ _ -> _] Hk. destruct (active_clients_ w !! n) as [j|]; [|done].
  apply lookup_alter_ne. congruence.
Qed.

Lemma lookup_dropped (o : option nat) (t : gmap nat Session) k :
  o <> Some k -> match o with Some j => delete j t | None => t end !! k = t !! k.
Proof. destruct o; [|done]. intros Hk. apply lookup_delete_ne. congruence. Qed.

Lemma RegisterHandler_eq m a w :
  sender_ m <> EmptyString ->
  RegisterHandler_Handle m a w =
    scoped (make_session a) (fun i =>
      on i (upd (SetName (sender_ m))) ;;; on i UpdateLastActivity ;;; on i UpdateLastReceive ;;;
      on i (upd SetPersistCallback) ;;;
      scoped (UpsertClient (sender_ m) (Some i)) (fun _ =>
        DeliverOfflineMessages (sender_ m) ;;; DeliverPendingReplies (sender_ m) ;;;
        PrintActiveClients)) w.
Proof. intros Hn. unfold RegisterHandler_Handle. by destruct (sender_ m). Qed.

Lemma next_unregistered P w n : rok P w -> active_clients_ w !! n <> Some (next_address w).
Proof.
  intros Hw Hn. destruct (wok_active _ _ _ _ Hw n _ Hn) as (t & Ht & _).
  destruct (wok_heap _ _ _ _ Hw _ t Ht). lia.
Qed.

(** The world with the new session prepared: the others are as they were. *)
Definition prepared (n a : string) w : World St :=
  let w1 := snd (make_session a w) in
  set_sessions (<[next_address w := new_session n a (clock_ w)]> (sessions w1)) w1.

Lemma prepared_others n a w j :
  j <> next_address w -> sessions (prepared n a w) !! j = sessions w !! j.
Proof. intros Hj. cbn. by rewrite !lookup_insert_ne by done. Qed.

Lemma prepared_idle n a w : idle w -> idle (prepared n a w).
Proof.
  intros Hi j t. destruct (decide (j = next_address w)) as [->|Hj].
  - cbn. rewrite lookup_insert_eq. by intros [= <-].
  - rewrite prepared_others by done. apply Hi.
Qed.

(** The calls of [RegisterHandler] one after the other. *)
Lemma register_run m a w :
  let n := sender_ m in
  let i := next_address w in
  let w2 := prepared n a w in
  n <> EmptyString -> rok [] w -> idle w ->
  exists r w3 w4,
    upserted n i a w2 w3 /\ rok [active_clients_ w !! n; Some i] w3 /\
    (DeliverOfflineMessages n ;;; DeliverPendingReplies n ;;; PrintActiveClients) w3 = (r, w4) /\
    delivering false i w3 [active_clients_ w !! n; Some i] w4 /\ is_stuck r = false /\
    RegisterHandler_Handle m a w =
      (r, set_sessions (match active_clients_ w !! n with
                        | Some j => delete j (sessions w4)
                        | None => sessions w4
                        end) (set_locals [] w4)).
Proof.
  intros n i w2 Hn0 Hw Hidle. pose proof (next_unregistered [] w n Hw) as Hni.
  destruct (prepared_ok n a w Hw) as [Hw2 Hs2]. fold (prepared n a w) i w2 in Hw2, Hs2.
  destruct (UpsertClient_outcome n i (new_session n a (clock_ w)) w2) as (w3 & HU & Hup);
    [apply Hw2|done| |].
  { intros j Hj. assert (j <> i) as Hne by (intros ->; by apply Hni). split; [done|].
    destruct (wok_active _ _ _ _ Hw n j Hj) as (t & Ht & _). exists t.
    unfold w2. rewrite prepared_others by done. split; [done|]. split; [by apply (Hidle j)|].
    by apply (wok_heap _ _ _ _ Hw j). }
  pose proof (ok_UpsertClient [Some i] n i _ w2 Hw2 ltac:(by left) Hs2 eq_refl) as Hw3.
  unfold wp in Hw3. rewrite HU in Hw3.
  assert (active_clients_ w3 !! n = Some i) as Ha3
    by (rewrite (up_active _ _ _ _ _ Hup); apply lookup_insert_eq).
  destruct (delivered w3 i [active_clients_ w2 !! n; Some i] n Ha3 Hw3) as (r & w4 & HD & Hr & Hd).
  assert (forall j, active_clients_ w2 !! n = Some j -> Some j ∉ [Some i]) as Hnl
    by (intros j Hj [= ->]%list_elem_of_singleton; by apply Hni).
  pose proof (pop_replaced n i a [] w2 w3 w4 Hw2 (prepared_idle n a w Hidle) Hni Hnl Hup Hd) as Hpop.
  exists r, w3, w4. do 5 (split; [done|]). rewrite RegisterHandler_eq by done.
  eapply scoped_eq; [reflexivity| |done|].
  - rewrite (prepare_eq _ _ (Session_ctor a (clock_ w))) by (cbn; by rewrite lookup_insert_eq).
    eapply scoped_eq; [exact HU|exact HD|done|exact Hpop].
  - rewrite (pop_registered (Some i) []); [done|done|]. intros j [= <-]. exists n. cbn.
    by rewrite (dl_active _ _ _ _ _ Hd).
Qed.

(** C18. [RegisterHandler] always comes back, and whatever the storage does to the deliveries
    the client is registered when it does: its name has the new session, which has the
    identity the message came from and can persist its queue; the identity leads to the
    name, the one the name had before leads nowhere, the session it had is destroyed, and no
    other session is touched. *)
Theorem RegisterHandler_outcome m a w :
  sender_ m <> EmptyString -> rok [] w -> idle w ->
  match RegisterHandler_Handle m a w with
  | (Stuck _, _) => False
  | (_, w') => rok [] w' /\ registered (sender_ m) a w w'
  end.
Proof.
  intros Hn0 Hw Hidle. pose proof (ok_RegisterHandler [] m a w Hw) as Hok.
  pose proof (next_unregistered [] w (sender_ m) Hw) as Hni.
  destruct (prepared_ok (sender_ m) a w Hw) as [_ Hs2].
  fold (prepared (sender_ m) a w) in Hs2.
  destruct (register_run m a w Hn0 Hw Hidle) as (r & w3 & w4 & Hup & _ & _ & Hd & Hr & HR).
  set (n := sender_ m) in *. set (i := next_address w) in *. set (w2 := prepared n a w) in *.
  assert (forgotten n w2 = forgotten n w) as Hf.
  { apply forgotten_ext; [done|done|]. intros j Hj. apply prepared_others. intros ->. by apply Hni. }
  set (w' := set_sessions _ _) in HR.
  assert (registered n a w w') as Hreg.
  { split; cbn.
    - by rewrite (dl_active _ _ _ _ _ Hd), (up_active _ _ _ _ _ Hup).
    - by rewrite (dl_ids _ _ _ _ _ Hd), (up_ids _ _ _ _ _ Hup), Hf.
    - destruct (dl_session _ _ _ _ _ Hd) as (s0 & s4 & Hs0 & Hs4 & (E1 & E2 & E3) & _).
      rewrite (up_others _ _ _ _ _ _ Hup Hni), Hs2 in Hs0. injection Hs0 as <-.
      exists s4. rewrite lookup_dropped by done. by split_and!.
    - intros j ->. apply lookup_delete_eq.
    - intros j Hj Hold. rewrite lookup_dropped by done.
      rewrite (dl_others _ _ _ _ _ Hd), (up_others _ _ _ _ _ _ Hup Hold) by done.
      by apply prepared_others. }
  unfold wp in Hok. rewrite HR in *. destruct r; [by split|by split|done].
Qed.

(** ** Unregistering *)
Lemma UnregisterClient_eq n j t w :
  registry_mutex_ w = false -> active_clients_ w !! n = Some j -> sessions w !! j = Some t ->
  Some j ∈ locals w ->
  exists mt, UnregisterClient n w =
    (Ret tt, set_metrics mt (set_active_clients (delete n (active_clients_ w))
               (set_identity_to_name (delete (identity_ t) (identity_to_name_ w)) w))).
Proof.
  intros Hm Hn Ht Hl. unfold UnregisterClient, with_registry_lock, lock_guard. rewrite Hm.
  set (w1 := set_registry_mutex true w). unfold bind at 1, find_client, gets.
  change (active_clients_ w1) with (active_clients_ w). rewrite Hn.
  unfold bind at 1, GetIdentity. rewrite (on_self _ _ t w1) by done.
  unfold bind at 1, erase_identity, modify at 1. set (w2 := set_identity_to_name _ w1).
  unfold bind at 1, erase_client, find_client. unfold bind at 1, gets.
  change (active_clients_ w2) with (active_clients_ w). rewrite Hn.
  unfold bind at 1, modify at 1. rewrite release_referenced by (apply elem_of_referenced; by left).
  eexists. cbn. rewrite <- Hm. by destruct w.
Qed.

(** C19. [UnregisterHandler] always comes back: the name is gone from the registry, the identity
    of its session leads nowhere, and the session is destroyed; nothing is sent, stored or
    changed for anyone else, and an unknown name changes nothing. *)
Theorem UnregisterHandler_outcome m w :
  rok [] w -> idle w ->
  exists w', UnregisterHandler_Handle m w = (Ret tt, w') /\ rok [] w' /\
    active_clients_ w' = delete (sender_ m) (active_clients_ w) /\
    identity_to_name_ w' = forgotten (sender_ m) w /\
    sessions w' = match active_clients_ w !! sender_ m with
                  | Some j => delete j (sessions w)
                  | None => sessions w
                  end /\
    beside w w'.
Proof.
  intros Hw Hidle. pose proof (ok_UnregisterHandler [] m w Hw) as Hok. set (n := sender_ m) in *.
  destruct (active_clients_ w !! n) as [j|] eqn:Ej.
  2:{ assert (UnregisterHandler_Handle m w = (Ret tt, w)) as HR.
      { unfold UnregisterHandler_Handle. fold n. eapply scoped_eq; [by apply FindSession_eq, Hw| |done|].
        - by rewrite Ej.
        - rewrite (pop_registered None (locals w)) by done. by destruct w. }
      exists w. unfold wp in Hok. rewrite HR in *. rewrite delete_id by done.
      unfold forgotten. rewrite Ej. by split_and!. }
  destruct (wok_active _ _ _ _ Hw n j Ej) as (t & Ht & Htn).
  destruct (wok_heap _ _ _ _ Hw j t Ht) as [_ Hq].
  set (w1 := set_locals (Some j :: locals w) w).
  set (w2 := set_sessions (<[j := set_online false t]> (sessions w)) w1).
  destruct (UnregisterClient_eq n j (set_online false t) w2) as [mt HU];
    [apply Hw|done|cbn; by rewrite lookup_insert_eq|by left|].
  set (w3 := set_metrics mt _) in HU.
  assert (pop_local w3 = (Ret tt, set_sessions (delete j (sessions w3)) (set_locals (locals w) w3)))
    as Hpop.
  { apply (pop_last j (set_online false t)); [done| | | |by apply (Hidle j t)|done].
    - rewrite (wok_locals _ _ _ _ Hw). by intros Hj%elem_of_nil.
    - intros n'. cbn. intros [Hne Hn']%lookup_delete_Some.
      destruct (wok_active _ _ _ _ Hw n' j Hn') as (t' & Ht' & Htn'). congruence.
    - cbn. by rewrite lookup_insert_eq. }
  assert (UnregisterHandler_Handle m w =
    (Ret tt, set_sessions (delete j (sessions w3)) (set_locals (locals w) w3))) as HR.
  { unfold UnregisterHandler_Handle. fold n.
    eapply scoped_eq; [by apply FindSession_eq, Hw| |done|exact Hpop]. rewrite Ej. fold w1.
    unfold bind at 1. rewrite (on_persist_idle j t w1) by (done || by apply (Hidle j)).
    unfold bind at 1. by rewrite (on_MarkOffline j t w1). }
  eexists. split; [exact HR|]. unfold wp in Hok. rewrite HR in Hok. split; [exact Hok|].
  split; [done|]. unfold forgotten. rewrite Ej, Ht. split; [done|]. split; [|by split].
  cbn. by rewrite delete_insert_eq.
Qed.
End Registration.
