(* ===== verification/Idle.v ===== *)
(** One handler at a time, no message ever waits in a session: every caller of
    [Session::SendMessage] has just seen the session online, so that the queue of a
    session, its threshold and what persists it are reached only through a race.

    [quiet] adds this to the registry's invariant; [awake] is the part of a handler
    between the look at a session and the send.  A quiet world cannot stop a handler:
    no destructor has anything to persist, and so none throws. *)
From Stdlib Require Import ZArith Lia Strings.Byte.
From S2P Require Import Prelude Words Message Interfaces Config Metrics Session World.
From S2P Require Import Router RouterSpec Handlers HandlersSpec Cleanup Routing Registration.
Open Scope Z_scope.
Open Scope broker_scope.

Section Quiet.
Context {St : Type} `{IStorageLaws St} `{Host} `{HashOrder}.
Implicit Types (w : World St) (P : list (option nat)).

Definition quiet (lk : bool) P w : Prop := wok lk P None w /\ idle w.

Definition online_at (i : nat) w : Prop :=
  exists s, sessions w !! i = Some s /\ is_online_ s = true.
Definition awake (lk : bool) i P w : Prop := quiet lk P w /\ online_at i w.

(** ** The calls of a handler *)

Lemma outside_idle w w' : outside w w' -> idle w -> idle w'.
Proof. intros Ho Hi i s. rewrite (out_sessions _ _ Ho). apply Hi. Qed.

Lemma quiet_db {A} (m : M St A) lk P : storage_op m -> keeps (quiet lk P) never (db m).
Proof.
  intros Hm w [Hw Hi]. pose proof (keeps_db_outside m never w Hm w (wok_outside _ _ _ _ Hw)) as Hk.
  unfold wp in *. destruct (db m w) as [[]?]; [| |done];
    (split; [by eapply outside_wok|by eapply outside_idle]).
Qed.

Lemma awake_db {A} (m : M St A) lk i P : storage_op m -> keeps (awake lk i P) never (db m).
Proof.
  intros Hm w [[Hw Hi] Ho].
  pose proof (keeps_db_outside m never w Hm w (wok_outside _ _ _ _ Hw)) as Hk.
  unfold wp in *. destruct (db m w) as [[]?]; [| |done];
    (split; [split; [by eapply outside_wok|by eapply outside_idle]|]);
    unfold online_at; by rewrite (out_sessions _ _ Hk).
Qed.

Lemma quiet_metric op lk P : keeps (quiet lk P) never (metric op).
Proof. apply keeps_modify. intros w [[] Hi]. by split. Qed.

Lemma awake_metric op lk i P : keeps (awake lk i P) never (metric op).
Proof. apply keeps_modify. intros w [[[] Hi] Ho]. by split. Qed.

(** A member function that only sets a field, seen as the function it is. *)
Definition sets {A} (m : M (Session * World St) A) : Prop := forall s w, exists a f,
  m (s, w) = (Ret a, (f s, w)) /\ same_session s (f s) /\
  queue_mutex_ (f s) = queue_mutex_ s /\ outgoing_queue_ (f s) = outgoing_queue_ s.

(** ... and does not take the session offline. *)
Definition sets_online {A} (m : M (Session * World St) A) : Prop := forall s w, exists a f,
  m (s, w) = (Ret a, (f s, w)) /\ same_session s (f s) /\
  queue_mutex_ (f s) = queue_mutex_ s /\ outgoing_queue_ (f s) = outgoing_queue_ s /\
  is_online_ (f s) = is_online_ s.

Lemma sets_MarkOffline : sets MarkOffline.
Proof. intros s w. by exists tt, (set_online false). Qed.
Lemma sets_UpdateLastReceive : sets_online UpdateLastReceive.
Proof. intros s w. by exists tt, (set_last_receive (clock_ w)). Qed.
Lemma sets_UpdateLastActivity : sets_online UpdateLastActivity.
Proof. intros s w. by exists tt, (set_last_activity (clock_ w)). Qed.
Lemma sets_self {A} (f : Session -> A) : sets_online (self f).
Proof. intros s w. by exists (f s), (fun s => s). Qed.
Lemma sets_any {A} (m : M (Session * World St) A) : sets_online m -> sets m.
Proof. intros Hm s w. destruct (Hm s w) as (a & f & E & Hs & Hq & Ho & _). by exists a, f. Qed.

Lemma quiet_on {A} (m : M (Session * World St) A) lk P i :
  sets m -> Some i ∈ P -> keeps (quiet lk P) never (on i m).
Proof.
  intros Hm Hi w [Hw Hid]. destruct (wok_pinned _ _ _ _ Hw i Hi) as [s Hs].
  destruct (Hm s w) as (a & f & E & Hss & Hq & Ho). unfold wp, on. rewrite Hs, E.
  split.
  - eapply wok_on; [done|done|]. split; [done|]. split; [|by eapply wok_outside].
    cbn. rewrite Hq. by apply (wok_heap _ _ _ _ Hw i).
  - intros j t. cbn. intros [(_ & <-)|(_ & Hj)]%lookup_insert_Some; [|by apply (Hid j)].
    rewrite Ho. by apply (Hid i).
Qed.

Lemma awake_on {A} (m : M (Session * World St) A) lk P i :
  sets_online m -> Some i ∈ P -> keeps (awake lk i P) never (on i m).
Proof.
  intros Hm Hi w [Hw (s & Hs & Hon)]. pose proof (quiet_on m lk P i (sets_any m Hm) Hi w Hw) as Hk.
  destruct (Hm s w) as (a & f & E & _ & _ & _ & Ho). unfold wp, on in *. rewrite Hs, E in *.
  split; [done|]. exists (f s). cbn. rewrite lookup_insert_eq, Ho. done.
Qed.

(** Sending to a session that was seen online. *)
Lemma awake_send i m lk P :
  Some i ∈ P -> forall w, awake lk i P w ->
  wp never (on i (SendMessage i m)) w (fun _ => quiet lk P) (quiet lk P).
Proof.
  intros Hi w [[Hw Hid] (s & Hs & Hon)].
  pose proof (ok_on (SendMessage i m) lk P None i w (op_SendMessage i m) ltac:(by exists s) Hw) as Hk.
  unfold wp in *. rewrite (on_SendMessage i s m w Hs Hon (wok_sends _ _ _ _ Hw)) in *.
  split; [done|]. intros j t. cbn. intros [(_ & <-)|(_ & Hj)]%lookup_insert_Some; [|by apply (Hid j)].
  by apply (Hid i s).
Qed.

(** ** Scopes and the lock *)
Lemma quiet_pop lk P o w :
  quiet lk (o :: P) w -> wp never pop_local w (fun _ => quiet lk P) (fun _ => False).
Proof.
  intros [Hw Hid]. pose proof (ok_pop_local lk P o w Hw) as Hk.
  assert (exists w', pop_local w = (Ret tt, w') /\ idle w') as (w' & E & Hi').
  { unfold pop_local, bind at 1 2, gets, modify at 1. rewrite (wok_locals _ _ _ _ Hw). cbn [tail].
    destruct o as [i|]; [|by eexists].
    destruct (wok_pinned _ _ _ _ Hw i) as [s Hs]; [by left|].
    destruct (release_idle i s (set_locals P w)) as (w' & E & _ & _ & Hi');
      [done|by apply (Hid i)|by apply (wok_heap _ _ _ _ Hw i)|]. exists w'. split; [done|]. by apply Hi'. }
  unfold wp in *. by rewrite E in *.
Qed.

Lemma quiet_scoped {A B} (m : M (World St) A) (k : A -> M (World St) B) (o : A -> option nat)
    (R : A -> World St -> Prop) lk P w :
  wp never m w (fun a w' => quiet lk (o a :: P) w' /\ R a w') (quiet lk P) ->
  (forall a w', quiet lk (o a :: P) w' -> R a w' ->
     wp never (k a) w' (fun _ => quiet lk (o a :: P)) (quiet lk (o a :: P))) ->
  wp never (scoped m k) w (fun _ => quiet lk P) (quiet lk P).
Proof.
  intros Hm Hk. unfold scoped. apply wp_bind. eapply wp_conseq; [exact Hm| |done].
  intros a w1 [Hw1 HR]. specialize (Hk a w1 Hw1 HR). unfold wp, finally in *.
  destruct (k a w1) as [[b|e|f] w2]; [| |done];
    pose proof (quiet_pop lk P (o a) w2 Hk) as Hp; unfold wp in Hp;
    by destruct (pop_local w2) as [[]?].
Qed.

Lemma quiet_set_lock lk lk' P w : quiet lk P w -> quiet lk' P (set_registry_mutex lk' w).
Proof. intros [Hw Hi]. split; [by eapply wok_set_lock|done]. Qed.

Lemma quiet_with_lock {A} (m : M (World St) A) P P' w (Q : A -> World St -> Prop) :
  quiet false P w ->
  (forall w', quiet true P w' ->
     wp never m w' (fun a w'' => Q a (set_registry_mutex false w'')) (quiet true P')) ->
  wp never (with_registry_lock m) w Q (quiet false P').
Proof.
  intros Hw Hm. apply wp_lock_guard; [apply Hw|].
  eapply wp_conseq; [apply Hm; by eapply quiet_set_lock|done|]. intros w'. apply quiet_set_lock.
Qed.

Lemma quiet_push_client lk P w n :
  quiet lk P w ->
  quiet lk (active_clients_ w !! n :: P) (set_locals (active_clients_ w !! n :: locals w) w).
Proof. intros [Hw Hi]. split; [by apply wok_push_client|done]. Qed.

Lemma quiet_FindSession P n w :
  quiet false P w -> wp never (FindSession n) w (fun o => quiet false (o :: P)) (quiet false P).
Proof.
  intros Hw. unfold wp. rewrite FindSession_eq by apply Hw. by apply quiet_push_client.
Qed.

Lemma quiet_find {A} n (k : option nat -> M (World St) A) P :
  (forall o, keeps (quiet false (o :: P)) never (k o)) ->
  keeps (quiet false P) never (scoped (FindSession n) k).
Proof.
  intros Hk w Hw. apply (quiet_scoped _ _ (fun o => o) (fun _ _ => True)); [|intros; by apply Hk].
  eapply wp_conseq; [by apply quiet_FindSession|by split|done].
Qed.

(** [session && session->IsOnline()], and what its answer allows. *)
Lemma quiet_online_then {A} (k : bool -> M (World St) A) o lk P :
  o ∈ P ->
  (forall i, o = Some i -> forall w, awake lk i P w ->
     wp never (k true) w (fun _ => quiet lk P) (quiet lk P)) ->
  keeps (quiet lk P) never (k false) ->
  keeps (quiet lk P) never (b <- session_online o ;; k b).
Proof.
  intros Ho Ht Hf w Hw. apply wp_bind. destruct o as [i|]; [|by apply Hf].
  destruct (wok_pinned _ _ _ _ (proj1 Hw) i Ho) as [s Hs].
  unfold wp at 1, session_online, IsOnline. rewrite (on_self _ _ s w Hs).
  destruct (is_online_ s) eqn:Eo; [|by apply Hf]. apply (Ht i); [done|]. split; [done|].
  by exists s.
Qed.
End Quiet.

Ltac quiet_call :=
  idtac;
  first
    [ apply quiet_metric
    | apply awake_metric
    | apply quiet_db; solve [eauto with broker nocore]
    | apply awake_db; solve [eauto with broker nocore]
    | apply awake_on; [first [apply sets_UpdateLastReceive | apply sets_UpdateLastActivity | apply sets_self] | set_solver]
    | apply quiet_on; [first [apply sets_MarkOffline | apply sets_any; first [apply sets_UpdateLastReceive | apply sets_UpdateLastActivity | apply sets_self]] | set_solver] ].
Ltac quiet_world := solve_keeps ltac:(quiet_call).

(** ** The handlers *)
Section Handlers.
Context {St : Type} `{IStorageLaws St} `{Host} `{HashOrder}.
Implicit Types (w : World St) (P : list (option nat)).

Lemma quiet_roll_back P i n : Some i ∈ P -> keeps (quiet false P) never (roll_back (St := St) i n).
Proof. intros Hi. unfold roll_back. quiet_world. Qed.

Lemma awake_quiet lk i P w : awake lk i P w -> quiet lk P w.
Proof. by intros []. Qed.

(** A prefix that keeps the session online, then the rest. *)
Lemma awake_bind {A B} (m : M (World St) A) (k : A -> M (World St) B) lk i P w :
  keeps (awake lk i P) never m ->
  (forall a w', awake lk i P w' -> wp never (k a) w' (fun _ => quiet lk P) (quiet lk P)) ->
  awake lk i P w -> wp never (bind m k) w (fun _ => quiet lk P) (quiet lk P).
Proof.
  intros Hm Hk Hw. apply wp_bind. eapply wp_conseq; [by apply Hm|by apply Hk|].
  intros w'. apply awake_quiet.
Qed.

Lemma awake_send_then {B} (k : bool -> M (World St) B) i m lk P w :
  Some i ∈ P -> (forall b, keeps (quiet lk P) never (k b)) ->
  awake lk i P w ->
  wp never (b <- on i (SendMessage i m) ;; k b) w (fun _ => quiet lk P) (quiet lk P).
Proof.
  intros Hi Hk Hw. apply wp_bind. eapply wp_conseq; [by apply awake_send| |done].
  intros b w' Hw'. by apply Hk.
Qed.

Lemma awake_try {A} (m : M (World St) A) h lk i P w :
  (awake lk i P w -> wp never m w (fun _ => quiet lk P) (quiet lk P)) ->
  (forall e, keeps (quiet lk P) never (h e)) ->
  awake lk i P w -> wp never (try_catch m h) w (fun _ => quiet lk P) (quiet lk P).
Proof.
  intros Hm Hh Hw. apply wp_try_catch. eapply wp_conseq; [by apply Hm|done|].
  intros w' Hw' e. by apply Hh.
Qed.

Lemma awake_send_message P m i n w :
  Some i ∈ P -> awake false i P w ->
  wp never (send_message (St := St) m i n) w (fun _ => quiet false P) (quiet false P).
Proof.
  intros Hi. unfold send_message. apply awake_try; [|intros; by apply quiet_roll_back].
  apply awake_bind; [quiet_call|]. intros _ w1. apply awake_send_then; [done|].
  intros b. solve_keeps ltac:(quiet_call || by apply quiet_roll_back).
Qed.

Lemma awake_send_reply P m i n w :
  Some i ∈ P -> awake false i P w ->
  wp never (send_reply (St := St) m i n) w (fun _ => quiet false P) (quiet false P).
Proof.
  intros Hi. unfold send_reply. apply awake_try; [|intros; by apply quiet_roll_back].
  apply awake_bind; [quiet_world|]. intros _ w1. apply awake_send_then; [done|].
  intros b. quiet_world.
Qed.

Lemma quiet_store_message P m : keeps (quiet false P) never (store_message (St := St) m false).
Proof. unfold store_message. quiet_world. Qed.

Lemma awake_store_message P m i : keeps (awake false i P) never (store_message (St := St) m true).
Proof. unfold store_message. quiet_world. Qed.

Lemma store_message_None m w r w' :
  store_message (St := St) m false w = (Ret r, w') -> r = None.
Proof.
  unfold store_message, try_catch, bind, ret, metric, modify, db.
  repeat case_match; intros; by simplify_eq.
Qed.

Lemma quiet_MessageHandler P m : keeps (quiet false P) never (MessageHandler_Handle (St := St) m).
Proof.
  apply quiet_find. intros o. apply quiet_online_then; [by left| |].
  - intros i -> w Hw. apply wp_bind. eapply wp_conseq; [by apply awake_store_message| |].
    2:{ intros w'. apply awake_quiet. }
    intros [n|] w1 Hw1; [|by apply wp_ret, (awake_quiet _ i)]. apply awake_send_message; [by left|done].
  - intros w Hw. apply wp_bind. pose proof (quiet_store_message _ m w Hw) as Hs.
    pose proof (store_message_None m w) as Hn. unfold wp at 1 in Hs. unfold wp at 1.
    destruct (store_message m false w) as [[r|e|f] w1]; [|done|done].
    specialize (Hn r w1 eq_refl). by subst r.
Qed.

Lemma quiet_store_reply P m : keeps (quiet false P) never (store_reply (St := St) m).
Proof. unfold store_reply. quiet_world. Qed.

Lemma quiet_ReplyHandler P m : keeps (quiet false P) never (ReplyHandler_Handle (St := St) m).
Proof.
  apply keeps_bind; [apply quiet_store_reply|]. intros [[r n]|]; [|apply keeps_pure].
  apply quiet_find. intros o. apply quiet_online_then; [by left| |].
  - intros i -> w Hw. apply awake_send_reply; [by left|done].
  - destruct o; apply keeps_pure.
Qed.

Lemma quiet_notify_sender P a n c : keeps (quiet false P) never (notify_sender (St := St) a n c).
Proof.
  apply quiet_find. intros o. apply quiet_online_then; [by left| |].
  - intros i -> w Hw. cbv zeta. apply awake_send_then; [by left|intros b; apply keeps_pure|done].
  - destruct o; quiet_world.
Qed.

Lemma quiet_AckHandler P m : keeps (quiet false P) never (AckHandler_Handle (St := St) m).
Proof.
  unfold AckHandler_Handle. solve_keeps ltac:(quiet_call || apply quiet_notify_sender).
Qed.

(** *** Registering *)
Lemma quiet_on_persist lk P i :
  Some i ∈ P -> keeps (quiet lk P) never (on i PersistQueueToDatabase).
Proof.
  intros Hi w [Hw Hid]. destruct (wok_pinned _ _ _ _ Hw i Hi) as [s Hs]. unfold wp.
  by rewrite (on_persist_idle i s w Hs (Hid i s Hs) (proj2 (wok_heap _ _ _ _ Hw i s Hs))).
Qed.

(** [erase_client] destroys the session unless a pointer is left; it has nothing to persist. *)
Lemma UnregisterClient_idle P n w :
  rok P w -> idle w -> exists w', UnregisterClient n w = (Ret tt, w') /\ idle w'.
Proof.
  intros Hw Hid. unfold UnregisterClient, with_registry_lock, lock_guard.
  rewrite (wok_lock _ _ _ _ Hw). set (w1 := set_registry_mutex true w).
  unfold bind at 1, find_client, gets. change (active_clients_ w1) with (active_clients_ w).
  destruct (active_clients_ w !! n) as [i|] eqn:Ei; [|by eexists].
  destruct (wok_active _ _ _ _ Hw n i Ei) as (s & Hs & _).
  destruct (wok_heap _ _ _ _ Hw i s Hs) as [_ Hm].
  unfold bind at 1, GetIdentity. rewrite (on_self _ _ s w1) by done.
  unfold bind at 1, erase_identity, modify at 1. set (w2 := set_identity_to_name _ w1).
  unfold bind at 1, erase_client, find_client. unfold bind at 1, gets.
  change (active_clients_ w2) with (active_clients_ w). rewrite Ei.
  unfold bind at 1, modify at 1. set (w3 := set_active_clients _ w2).
  destruct (release_idle i s w3) as (w4 & -> & _ & _ & Hi4); [done|by apply (Hid i)|done|].
  eexists. split; [done|]. by apply Hi4.
Qed.

Lemma quiet_UnregisterClient P n : keeps (quiet false P) never (UnregisterClient (St := St) n).
Proof.
  intros w [Hw Hid]. pose proof (ok_UnregisterClient P n w Hw) as Hk.
  destruct (UnregisterClient_idle P n w Hw Hid) as (w' & E & Hi).
  unfold wp in *. rewrite E in *. by split.
Qed.

Lemma quiet_UnregisterHandler P m :
  keeps (quiet false P) never (UnregisterHandler_Handle (St := St) m).
Proof.
  apply quiet_find. intros [i|]; [|apply keeps_pure].
  apply keeps_bind; [apply quiet_on_persist; by left|]. intros _.
  apply keeps_bind; [quiet_call|]. intros _. apply quiet_UnregisterClient.
Qed.

Lemma quiet_deliver_offline P i p :
  Some i ∈ P -> keeps (quiet false P) never (deliver_offline (St := St) i p).
Proof.
  intros Hi. apply (quiet_online_then _ (Some i)); [done| |apply keeps_pure].
  intros j [= <-] w. cbn [negb]. apply awake_bind; [quiet_world|]. intros _ w1.
  apply awake_send_then; [done|]. intros b. quiet_world.
Qed.

Lemma quiet_deliver_reply P i p :
  Some i ∈ P -> keeps (quiet false P) never (deliver_reply (St := St) i p).
Proof.
  intros Hi. apply (quiet_online_then _ (Some i)); [done| |apply keeps_pure].
  intros j [= <-] w. cbn [negb]. apply awake_bind; [quiet_world|]. intros _ w1.
  apply awake_send_then; [done|]. intros b. quiet_world.
Qed.

Lemma quiet_flush P i : Some i ∈ P -> keeps (quiet false P) never (on i (FlushQueue i)).
Proof.
  intros Hi w [Hw Hid]. destruct (wok_pinned _ _ _ _ Hw i Hi) as [s Hs]. unfold wp.
  by rewrite (flush_empty i s w Hs (Hid i s Hs) (proj2 (wok_heap _ _ _ _ Hw i s Hs))).
Qed.

Lemma quiet_DeliverOffline P n : keeps (quiet false P) never (DeliverOfflineMessages (St := St) n).
Proof.
  apply quiet_find. intros [i|]; [|apply keeps_pure].
  solve_keeps ltac:(quiet_call || (apply quiet_deliver_offline; by left)
                    || (apply quiet_flush; by left)).
Qed.

Lemma quiet_DeliverReplies P n : keeps (quiet false P) never (DeliverPendingReplies (St := St) n).
Proof.
  apply quiet_find. intros [i|]; [|apply keeps_pure].
  solve_keeps ltac:(quiet_call || (apply quiet_deliver_reply; by left)).
Qed.

Lemma quiet_Print P : keeps (quiet false P) never (PrintActiveClients (St := St)).
Proof.
  intros w Hw. apply (quiet_with_lock _ P P); [done|]. intros w1 Hw1. apply wp_bind, wp_gets.
  eapply wp_conseq with (Q := fun _ w' => w' = w1) (E := fun _ => False);
    [|intros _ w' ->; by eapply quiet_set_lock|done].
  apply wp_for_each; [done|]. intros [n i] w2 Hn ->.
  apply hash_order_elem in Hn. destruct (wok_active _ _ _ _ (proj1 Hw1) n i Hn) as (s & Hs & _).
  apply wp_bind. unfold wp at 1. rewrite (on_GetQueueSize i s) by (done || by eapply wok_heap, Hs; apply Hw1).
  by apply wp_ret.
Qed.

(** A new session is nobody else's, has no messages, and is on the stack. *)
Definition newborn (a : string) (i : nat) w : Prop :=
  private i w /\ sessions w !! i = Some (Session_ctor a (clock_ w)).

Lemma quiet_make_session P a w :
  quiet false P w ->
  wp never (make_session a) w (fun i w' => quiet false (Some i :: P) w' /\ newborn a i w')
    (quiet false P).
Proof.
  intros [Hw Hid]. pose proof (make_session_private a w P Hw) as Hp.
  unfold wp, make_session in *. destruct Hp as (Hw1 & Hp & _). split; [split; [done|]|split; [done|]].
  - intros j t. cbn. intros [(_ & <-)|(_ & Hj)]%lookup_insert_Some; [done|by apply (Hid j)].
  - cbn. by rewrite lookup_insert_eq.
Qed.

(** The new session prepared under the name [n]. *)
Lemma quiet_prepared P n s i w :
  quiet false P w -> private i w -> sessions w !! i = Some s -> outgoing_queue_ s = [] ->
  let t := SetPersistCallback (set_last_receive (clock_ w) (set_last_activity (clock_ w) (SetName n s))) in
  let w1 := set_sessions (<[i := t]> (sessions w)) w in
  quiet false P w1 /\ private i w1 /\ sessions w1 !! i = Some t.
Proof.
  intros [Hw Hid] Hp Hs Hq t w1. split; [split|split; [done|]].
  - apply wok_private; [done|done| |by exists s]. by apply (wok_heap _ _ _ _ Hw i s).
  - intros j u. cbn. intros [(_ & <-)|(_ & Hj)]%lookup_insert_Some; [done|by apply (Hid j)].
  - cbn. by rewrite lookup_insert_eq.
Qed.

Lemma upserted_idle n i a w w' : upserted n i a w w' -> idle w -> idle w'.
Proof.
  intros [_ _ _ Hs _] Hi j t. rewrite Hs. destruct (active_clients_ w !! n) as [k|]; [|apply Hi].
  intros [(_ & u & Hu & ->)|(_ & Hj)]%lookup_alter_Some; [by apply (Hi j u)|by apply (Hi j t)].
Qed.

Lemma quiet_UpsertClient P n i s w :
  quiet false P w -> private i w -> Some i ∈ P -> sessions w !! i = Some s -> name_ s = n ->
  wp never (UpsertClient n (Some i)) w (fun o w' => quiet false (o :: P) w') (quiet false P).
Proof.
  intros [Hw Hid] Hp Hi Hs Hn. pose proof (ok_UpsertClient P n i s w Hw Hi Hs Hn) as Hk.
  destruct (UpsertClient_outcome n i s w) as (w' & E & Hup); [apply Hw|done| |].
  { intros j Hj. split; [intros ->; by apply (Hp n)|].
    destruct (wok_active _ _ _ _ Hw n j Hj) as (t & Ht & _). exists t. split; [done|].
    split; [by apply (Hid j)|]. by apply (wok_heap _ _ _ _ Hw j t). }
  unfold wp in *. rewrite E in *. split; [done|]. by eapply upserted_idle.
Qed.

Lemma quiet_RegisterHandler P m a :
  keeps (quiet false P) never (RegisterHandler_Handle (St := St) m a).
Proof.
  intros w Hw. destruct (decide (sender_ m = EmptyString)) as [E|Hn].
  { unfold RegisterHandler_Handle. by rewrite E. }
  unfold wp. rewrite RegisterHandler_eq by done.
  apply (quiet_scoped _ _ Some (newborn a)); [by apply quiet_make_session|].
  intros i w1 Hw1 [Hp Hs]. unfold wp. rewrite (prepare_eq _ _ _ _ _ Hs).
  destruct (quiet_prepared _ (sender_ m) _ i w1 Hw1 Hp Hs eq_refl) as (Hw2 & Hp2 & Hs2).
  apply (quiet_scoped _ _ (fun o => o) (fun _ _ => True)).
  - eapply wp_conseq; [eapply quiet_UpsertClient; try done; by left|by split|done].
  - intros o w3 Hw3 _.
    apply (keeps_bind _ _ _ _ (quiet_DeliverOffline _ _)); [|done]. intros _.
    apply (keeps_bind _ _ _ _ (quiet_DeliverReplies _ _)). intros _. apply quiet_Print.
Qed.

Lemma quiet_sender_session P a w :
  quiet false P w -> wp never (sender_session a) w (fun o => quiet false (o :: P)) (quiet false P).
Proof.
  intros Hw. apply (quiet_with_lock _ P P); [done|]. intros w1 Hw1. apply wp_bind, wp_gets.
  destruct (identity_to_name_ w1 !! a) as [n|].
  2:{ apply wp_bind, wp_modify, wp_ret. eapply quiet_set_lock. destruct Hw1 as [Hw1 Hi].
      split; [by apply wok_push|done]. }
  apply wp_bind, wp_gets, wp_bind, wp_modify.
  pose proof (quiet_push_client true P w1 n Hw1) as Hw2. set (w2 := set_locals _ w1) in *.
  destruct (active_clients_ w1 !! n) as [i|]; [|apply wp_ret; by eapply quiet_set_lock].
  destruct (wok_pinned _ _ _ _ (proj1 Hw2) i) as [s Hs]; [by left|].
  pose proof (quiet_on UpdateLastReceive true (Some i :: P) i
    (sets_any _ sets_UpdateLastReceive) ltac:(by left) w2 Hw2) as Hk.
  apply wp_bind. unfold wp in *. rewrite (on_UpdateLastReceive i s w2 Hs) in *.
  by eapply quiet_set_lock.
Qed.

Lemma quiet_RouteMessage m identity : keeps (quiet false []) never (RouteMessage (St := St) m identity).
Proof.
  intros w Hw. apply (quiet_scoped _ _ (fun o => o) (fun _ _ => True)).
  - eapply wp_conseq; [by apply quiet_sender_session|by split|done].
  - intros o w1 Hw1 _. destruct (type_ m); cbn [MessageHandlerFactory_Create];
      [by apply quiet_RegisterHandler | by apply quiet_MessageHandler
      | by apply quiet_ReplyHandler | by apply quiet_AckHandler
      | by apply quiet_UnregisterHandler | by apply wp_ret].
Qed.

(** C3. No message waits and nothing gets stuck: from a world whose sessions have empty
    queues, [RouteMessage] always comes back, whatever the message and whatever the storage
    does, with the registry consistent and every queue empty again.  One handler at a
    time, the queue of a session, its threshold and its persistence are never used, and the
    destructor that [RouteMessage_safe] has to except has nothing to throw for. *)
Theorem RouteMessage_quiet (m : Message) (identity : string) w :
  rok [] w -> idle w ->
  match RouteMessage m identity w with
  | (Stuck _, _) => False
  | (_, w') => rok [] w' /\ idle w'
  end.
Proof.
  intros Hw Hi. pose proof (quiet_RouteMessage m identity w (conj Hw Hi)) as Hr.
  unfold wp in Hr. by destruct (RouteMessage m identity w) as [[]?].
Qed.
End Handlers.
