(* ===== verification/Redelivery.v ===== *)
(** The two loops of [Router] that deliver what the store holds, other than
    [DeliverOfflineMessages]: the replies a client missed, when it registers, and the
    messages that were sent and not acknowledged in time, when the timer says so. *)
From Stdlib Require Import ZArith Lia Strings.Byte.
From S2P Require Import Prelude Words Message Interfaces Config Metrics Session World.
From S2P Require Import Router RouterSpec Handlers HandlersSpec Cleanup Routing Offline.
Open Scope Z_scope.
Open Scope broker_scope.

(** The statuses [LoadPendingRepliesForSenderOnly] loads. *)
Definition undelivered (st : Z) : Prop := st = STATUS_PENDING \/ st = STATUS_SENT.

Section Redelivery.
Context {St : Type} `{IStorageHealth St} `{Host} `{HashOrder}.
Implicit Types (w : World St).

(** ** Replies *)
Lemma marked_delivered p (a : store) w w' :
  stored_in undelivered p (rows (sview w)) ->
  corrs a = corrs (sview w) ->
  (exists f st, rows a = alter (set_status f st) (s64 (id p)) (rows (sview w))) ->
  sview w' = set_rows (alter (set_status (fun _ => true) STATUS_DELIVERED) (s64 (id p))) a ->
  marked (fun _ => STATUS_DELIVERED) [p] w w'.
Proof.
  intros (Hp & st0 & _ & Hr) Hc (f & st & Ha) Hv. unfold marked. rewrite Hv. cbn.
  split; [|done]. rewrite Ha. unfold mark. apply map_eq. intros j. rewrite !lookup_alter.
  case_decide as Hj; [subst j|done]. rewrite (s64_row (id p)) by done. rewrite Hr. cbn.
  rewrite decide_True by done. unfold set_status. cbn. by destruct (f st0).
Qed.

(** Where a failing storage leaves a reply: not given and as it was when [MarkSent] failed,
    which only a reply that asks for an ACK needs; given, and SENT if it was PENDING and asks
    for an ACK, when [MarkDelivered] did. *)
Definition half_reply (p : PendingMessage) (b : bool) (t t' : gmap Z (Message * Z)) : Prop :=
  if b
  then t' = if NeedsAck (msg p)
            then alter (set_status (Z.eqb STATUS_PENDING) STATUS_SENT) (s64 (id p)) t else t
  else NeedsAck (msg p) = true /\ t' = t.

Lemma deliver_reply_delivers :
  delivers undelivered (fun _ => STATUS_DELIVERED) half_reply (deliver_reply (St := St)).
Proof.
  split.
  { intros i t p w Ht Ho. unfold deliver_reply, IsOnline, bind.
    rewrite (on_self is_online_ i t) by done. by rewrite Ho. }
  intros i s t p w Ht Hst Ho Hm Ha Hok Hp. unfold deliver_reply, IsOnline. apply wp_bind.
  unfold wp at 1. rewrite (on_self is_online_ i t), Ho by done. cbn [negb]. apply wp_bind.
  set (E := fun w' => running w w' /\ unwell w /\ corrs (sview w') = corrs (sview w) /\
         exists b : bool, half_reply p b (rows (sview w)) (rows (sview w')) /\
         pending_sends_ w' = pending_sends_ w ++ if b then send_of i s (msg p) else []).
  eapply wp_conseq with
    (Q := fun _ w1 => exists s1, w1 = set_storage s1 w /\ st_ok s1 /\
       (forall n, st_well n (storage_ w) -> st_well n s1) /\
       corrs (view s1) = corrs (sview w) /\ half_reply p true (rows (sview w)) (rows (view s1)))
    (E := E); [| |done].
  - unfold half_reply. destruct (NeedsAck (msg p)) eqn:En.
    + eapply wp_conseq;
        [by apply (wp_db_well _ _ _ w (MarkSent_law (id p)) (MarkSent_well (id p)))| |].
      * intros _ w1 (s1 & -> & Hs1 & Hv & _ & Hn). exists s1. split; [done|]. split; [done|].
        split; [apply Hn|]. by rewrite Hv.
      * intros w1 (s1 & -> & Hs1 & Hv & _ & Hn). split; [split; try done; intros n Hw; by destruct (Hn n)|].
        split; [done|]. change (sview (set_storage s1 w)) with (view s1). rewrite Hv. split; [done|].
        exists false. rewrite app_nil_r. by split.
    + apply wp_ret. exists (storage_ w). by destruct w.
  - intros _ w1 (s1 & -> & Hs1 & Hn1 & Hc & Hf). apply wp_bind. unfold wp at 1.
    rewrite (on_SendMessage i t) by done. rewrite (send_of_still i s t) by done.
    set (w2 := set_sessions _ _). apply wp_bind.
    eapply wp_conseq;
      [by apply (wp_db_well _ _ _ w2 (MarkDelivered_law (id p)) (MarkDelivered_well (id p)))| |].
    + intros _ w3 (s3 & -> & Hs3 & Hv & _ & Hn). apply wp_ret. split; [done|].
      split; [split; try done; intros n Hw; by apply Hn, Hn1|]. split.
      { eapply (marked_delivered p (view s1)); [done|done| |exact Hv]. red in Hf.
        destruct (NeedsAck (msg p)); [by eexists _, _|]. exists (fun _ => false), 0. rewrite Hf.
        symmetry. apply alter_id. by intros []. }
      split; [done|]. eexists. cbn. rewrite lookup_insert_eq. split; [done|]. by split.
    + intros w3 (s3 & -> & Hs3 & Hv & _ & Hn).
      assert (unwell w) as Hu by (intros n Hw; by apply (Hn n), Hn1).
      split; [split; try done; intros n Hw; by destruct (Hu n)|]. split; [done|].
      change (sview (set_storage s3 w2)) with (view s3). rewrite Hv. split; [exact Hc|].
      by exists true.
Qed.

(** The replies [DeliverPendingReplies] is about. *)
Definition reply_for_sender (n : string) (p : Message * Z) (a : store) : Prop :=
  undelivered (snd p) /\ type_ (fst p) = MT_Reply /\
  exists j, (j, s64 (correlation_id_ (fst p)), c_str n) ∈ corrs a.

(** What it may leave: the load answered with [l], or failed. *)
Definition replies_outcome (n : string) (i : nat) (s : Session) (w : World St)
    (o : result unit * World St) : Prop :=
  match fst (iLoadPendingRepliesForSenderOnly n (storage_ w)), o with
  | Ret l, (Ret _, w') =>
      loads (reply_for_sender n) l (sview w) /\
      exists done rest, delivered_upto (fun _ => STATUS_DELIVERED) i s l done rest w w'
  | Ret l, (Throw _, w') =>
      loads (reply_for_sender n) l (sview w) /\
      delivered_cut (fun _ => STATUS_DELIVERED) half_reply i s l w w'
  | Throw _, (Throw _, w') => sview w' = sview w /\ pending_sends_ w' = pending_sends_ w
  | _, _ => False
  end.

Definition replies_post n i s w (returned : bool) w' : Prop :=
  replies_outcome n i s w (if returned then Ret tt else Throw zmq_error, w') /\
  if returned
  then forall k, st_well k (storage_ w) -> st_well k (storage_ w') /\
         exists l, fst (iLoadPendingRepliesForSenderOnly n (storage_ w)) = Ret l /\
                   all_rows (fun _ p => reply_for_sender n p (sview w)) l (sview w)
  else unwell w.

Lemma DeliverPendingReplies_posts P n i s w :
  rok P w -> Online n i s w -> outgoing_queue_ s = [] ->
  wp never (DeliverPendingReplies n) w (fun _ => replies_post n i s w true)
    (replies_post n i s w false).
Proof.
  intros Hw [Hn Hs Ho] Hq. destruct (wok_heap _ _ _ _ Hw i s Hs) as [_ Hqm].
  apply wp_scoped_find; [apply Hw|]. cbv zeta. rewrite Hn. set (w1 := set_locals _ w).
  apply wp_bind. eapply wp_conseq;
    [apply (wp_db_well _ _ _ w1 (LoadPendingRepliesForSenderOnly_law n)
       (LoadPendingRepliesForSenderOnly_well n)); apply Hw| |].
  2:{ intros w2 (s2 & -> & Hs2 & Hv2 & [e Ee] & Hu). split; [done|]. split; [|exact Hu].
      unfold replies_outcome. change (storage_ w1) with (storage_ w) in Ee. rewrite Ee.
      by split. }
  intros l w2 (s2 & -> & Hs2 & (Hv2 & Hnd & Hl) & El & Hwell).
  change (storage_ w1) with (storage_ w) in El, Hwell. change (sview w1) with (sview w) in Hv2, Hl.
  unfold replies_post, replies_outcome. rewrite El.
  assert (forall p, p ∈ l -> stored_in undelivered p (rows (sview w))) as Hl'.
  { intros p Hp. destruct (Hl p Hp) as (Hid & st & Hr & Hst & _). split; [done|]. by exists st. }
  assert (loads (reply_for_sender n) l (sview w)) as Hloads by by split.
  destruct l as [|p l].
  { apply wp_ret. split; [done|]. split; [split; [done|]|].
    - exists [], []. unfold delivered_upto, marked. cbn. rewrite app_nil_r.
      change (sview (set_locals (locals w) (set_storage s2 w1))) with (view s2). rewrite Hv2. tauto.
    - intros k Hk. destruct (Hwell k Hk) as [Hk' Hall]. split; [done|]. by exists []. }
  set (loaded := p :: l) in *. apply wp_bind.
  unfold wp at 1, on at 1. cbn. rewrite Hs. cbn.
  apply wp_bind. unfold wp at 1, on at 1. cbn. rewrite lookup_insert_eq. cbn.
  rewrite insert_insert_eq.
  set (t := set_last_receive _ _). set (w3 := set_sessions _ _).
  assert (sview w3 = sview w) as Hv3 by exact Hv2.
  eapply wp_conseq;
    [apply (deliver_loaded _ _ _ _ i s t loaded w3 deliver_reply_delivers); try done| |].
  - cbn. by rewrite lookup_insert_eq.
  - split; try done; apply Hw.
  - by rewrite Hv3.
  - intros _ w4 (Hr4 & _ & d & r & Hup).
    split; [split; apply Hr4|]. split; [split; [done|]|].
    + exists d, r. by eapply same_view_upto.
    + intros k Hk. destruct (Hwell k Hk) as [Hk' Hall]. split; [by apply (run_well _ _ Hr4)|].
      by exists loaded.
  - intros w4 (Hr4 & Hu & Hcut). split; [split; apply Hr4|]. split; [split; [done|]|].
    + by eapply same_view_cut.
    + intros k Hk. by destruct (Hu k), (Hwell k Hk).
Qed.

(** C20. [DeliverPendingReplies].  The replies are those the load answers with: undelivered
    ones whose request the client sent, by the correlations, each once.  When the call
    returns, all of them, in the order of the load, have been given to the sender under the
    client's identity, and end DELIVERED, whether they ask for an ACK or not; only behind a
    reply that did not serialise, which takes the session offline, some may be left as they
    were.  If the storage fails at one of them, the exception leaves those before it so, and
    that one as [half_reply] says.  No other stored message and no correlation changes, and
    nothing does if the load fails.  On a storage that is well the call returns and the
    replies are all there are for the client. *)
Theorem DeliverPendingReplies_outcome (n : string) i s w :
  rok [] w -> Online n i s w -> outgoing_queue_ s = [] ->
  replies_outcome n i s w (DeliverPendingReplies n w) /\
  forall k, st_well k (storage_ w) ->
    fst (DeliverPendingReplies n w) = Ret tt /\
    st_well k (storage_ (snd (DeliverPendingReplies n w))) /\
    exists l, fst (iLoadPendingRepliesForSenderOnly n (storage_ w)) = Ret l /\
              all_rows (fun _ p => reply_for_sender n p (sview w)) l (sview w).
Proof.
  intros Hw Hon Hq. pose proof (DeliverPendingReplies_posts [] n i s w Hw Hon Hq) as Hk. unfold wp in Hk.
  destruct (DeliverPendingReplies n w) as [[[]|e|f] w']; [| |done]; destruct Hk as [Ho Hk].
  - split; [done|]. intros k Hn. split; [done|]. by apply Hk.
  - split; [exact Ho|]. intros k Hn. by destruct (Hk k).
Qed.

(** ** Messages whose ACK did not come *)

(** The address of the session of [d], if it is online. *)
Definition target w (d : string) : option nat :=
  i ← active_clients_ w !! d; s ← sessions w !! i; if is_online_ s then Some i else None.

Record ready w : Prop := {
  ready_lock : registry_mutex_ w = false;
  ready_sends : pending_sends_mutex_ w = false;
  ready_alive : storage_alive w = true;
  ready_store : st_ok (storage_ w);
  ready_active : forall n i, active_clients_ w !! n = Some i -> is_Some (sessions w !! i);
}.

Lemma rok_ready P w : rok P w -> ready w.
Proof.
  intros []. split; try done. intros n i (s & Hs & _)%wok_active. by exists s.
Qed.

Lemma find_online_eq d w :
  ready w -> find_online d w = (Ret (target w d), set_locals (target w d :: locals w) w).
Proof.
  intros Hw. unfold find_online, with_registry_lock, lock_guard. rewrite (ready_lock _ Hw).
  unfold target, find_client, bind at 1, gets at 1.
  change (active_clients_ (set_registry_mutex true w)) with (active_clients_ w).
  destruct (active_clients_ w !! d) as [i|] eqn:Ei; cbn [mbind option_bind].
  - destruct (ready_active _ Hw d i Ei) as [s Hs]. unfold bind at 1, IsOnline.
    rewrite (on_self is_online_ i s) by done. rewrite Hs. cbn [mbind option_bind].
    unfold push_local, bind, modify, ret. do 2 f_equal.
    pose proof (ready_lock _ Hw). destruct w; cbn in *. by subst.
  - unfold push_local, bind, modify, ret. do 2 f_equal.
    pose proof (ready_lock _ Hw). destruct w; cbn in *. by subst.
Qed.

Lemma wp_scoped_online {A} d (k : option nat -> M (World St) A) w Q E :
  ready w ->
  (let w1 := set_locals (target w d :: locals w) w in
   wp never (k (target w d)) w1
     (fun a w' => same_registry w1 w' /\ Q a (set_locals (locals w) w'))
     (fun w' => same_registry w1 w' /\ E (set_locals (locals w) w'))) ->
  wp never (scoped (find_online d) k) w Q E.
Proof.
  intros Hw Hk. cbv zeta in Hk. unfold scoped, bind, wp, finally in *.
  rewrite find_online_eq by done.
  assert (forall i, target w d = Some i -> exists n, active_clients_ w !! n = Some i) as Ht.
  { unfold target. intros i Hi. exists d. destruct (active_clients_ w !! d) as [j|]; [|done].
    cbn in Hi. destruct (sessions w !! j) as [s|]; [|done]. cbn in Hi.
    destruct (is_online_ s); congruence. }
  destruct (k (target w d) _) as [[a|e|f] w']; [| |done];
    destruct Hk as [[Ha Hl] Hq]; cbn in Ha, Hl;
    rewrite (pop_registered (target w d) (locals w)); try done;
    intros i (n & Hn)%Ht; exists n; congruence.
Qed.

(** The reference: what becomes of one expired message. *)
Definition requeue (p : PendingMessage) (t : gmap Z (Message * Z)) : gmap Z (Message * Z) :=
  alter (fun q => (fst q, STATUS_PENDING)) (id p) t.

Definition retry_ref (a : gmap string nat) (now : Z)
    (x : gmap Z (Message * Z) * list PendingSend * gmap nat Session) (p : PendingMessage) :=
  let '(t, q, m) := x in
  match i ← a !! destination_ (msg p); s ← m !! i; Some (i, s) with
  | Some (i, s) =>
      if is_online_ s
      then (t, q ++ send_of i s (msg p),
            <[i := set_online (serialises (msg p)) (set_last_activity now s)]> m)
      else (requeue p t, q, m)
  | None => (requeue p t, q, m)
  end.

Definition retries (l : list PendingMessage) w :=
  foldl (retry_ref (active_clients_ w) (clock_ w))
    (rows (sview w), pending_sends_ w, sessions w) l.

(** From [w] to [w'] the messages of [l] were retried. *)
Record retried (l : list PendingMessage) w w' : Prop := {
  retried_active : active_clients_ w' = active_clients_ w;
  retried_clock : clock_ w' = clock_ w;
  retried_corrs : corrs (sview w') = corrs (sview w);
  retried_ref : (rows (sview w'), pending_sends_ w', sessions w') = retries l w;
}.

Definition is_sent : Z -> Prop := eq STATUS_SENT.

Lemma requeued p t :
  stored_in is_sent p t -> alter (set_status (Z.eqb STATUS_SENT) STATUS_PENDING) (s64 (id p)) t =
    requeue p t.
Proof.
  intros (Hp & st & <- & Hr). rewrite s64_row by done. apply map_eq. intros j.
  unfold requeue. rewrite !lookup_alter. case_decide as Hj; [subst j|done]. by rewrite Hr.
Qed.

Lemma requeued_sent p t :
  stored_in is_sent p t ->
  alter (set_status (Z.eqb STATUS_PENDING) STATUS_SENT) (s64 (id p)) (requeue p t) = t.
Proof.
  intros (Hp & st & <- & Hr). rewrite s64_row by done. apply map_eq. intros j.
  unfold requeue. rewrite !lookup_alter. case_decide as Hj; [subst j|done].
  rewrite decide_True by done. by rewrite Hr.
Qed.

Lemma requeue_other p q t :
  stored_in is_sent q t -> id p <> id q -> stored_in is_sent q (requeue p t).
Proof.
  intros (Hq & st & Hf & Hr) Hne. split; [done|]. exists st. split; [done|].
  unfold requeue. by rewrite lookup_alter_ne.
Qed.

Lemma ready_storage w s : ready w -> st_ok s -> ready (set_storage s w).
Proof. intros [] Hs. by split. Qed.

(** What an exception leaves of the message it came with. *)
Definition half_retried (p : PendingMessage) w w' : Prop :=
  pending_sends_ w' = pending_sends_ w /\ sessions w' = sessions w /\
  (rows (sview w') = rows (sview w) \/ rows (sview w') = requeue p (rows (sview w))).

(** Nothing fails on a storage that was well. *)
Definition stays_well w w' : Prop :=
  forall n, st_well n (storage_ w) -> st_well n (storage_ w').

Lemma retry_step p w :
  ready w -> stored_in is_sent p (rows (sview w)) ->
  wp never (retry_expired p) w
    (fun c w' => c = Continue /\ ready w' /\ stays_well w w' /\ retried [p] w w')
    (fun w' => unwell w /\ half_retried p w w').
Proof.
  intros Hw Hp. apply wp_bind.
  eapply wp_conseq;
    [apply (wp_db_well _ _ _ w (MarkPending_law (id p)) (MarkPending_well (id p))); apply Hw| |].
  2:{ intros w1 (s1 & -> & _ & Hv & _ & Hu). split; [exact Hu|]. split; [done|]. split; [done|]. left.
      unfold sview at 1. cbn. by rewrite Hv. }
  intros _ w1 (s1 & -> & Hs1 & Hv1 & _ & Hn1). rewrite (set_rows_ext _ (requeue p)) in Hv1 by by apply requeued.
  pose proof (ready_storage w s1 Hw Hs1) as Hw1.
  apply wp_scoped_online; [done|]. cbv zeta.
  change (target (set_storage s1 w) (destination_ (msg p))) with (target w (destination_ (msg p))).
  unfold target. assert (forall o, same_registry (set_locals (o :: locals (set_storage s1 w))
    (set_storage s1 w)) (set_locals (o :: locals (set_storage s1 w)) (set_storage s1 w))) as Hsame by done.
  assert (match (i ← active_clients_ w !! destination_ (msg p); s ← sessions w !! i; Some (i, s)) with
          | Some (i, s) => is_online_ s = false
          | None => True
          end ->
          retried [p] w (set_locals (locals w) (set_storage s1 w)) /\
          ready (set_locals (locals w) (set_storage s1 w)) /\
          stays_well w (set_locals (locals w) (set_storage s1 w))) as Hoff.
  { intros Ho. split; [|split; [by destruct Hw1|by intros n Hn; apply Hn1]]. split; [done|done| |].
    - change (corrs (view s1) = corrs (sview w)). by rewrite Hv1.
    - change (sview (set_locals (locals w) (set_storage s1 w))) with (view s1). rewrite Hv1.
      unfold retries. cbn.
      destruct (active_clients_ w !! destination_ (msg p)) as [i|]; cbn in *; [|done].
      destruct (sessions w !! i) as [s|]; cbn in *; [|done]. by rewrite Ho. }
  destruct (active_clients_ w !! destination_ (msg p)) as [i|] eqn:Ei; cbn [mbind option_bind] in *.
  2:{ apply wp_ret. split; [done|]. split; [done|]. by destruct Hoff as (? & ? & ?). }
  destruct (sessions w !! i) as [s|] eqn:Es; cbn [mbind option_bind] in *.
  2:{ apply wp_ret. split; [done|]. split; [done|]. by destruct Hoff as (? & ? & ?). }
  destruct (is_online_ s) eqn:Eo.
  2:{ apply wp_ret. split; [done|]. split; [done|]. by destruct Hoff as (? & ? & ?). }
  clear Hoff Hsame. set (w2 := set_locals _ _). apply wp_bind.
  eapply wp_conseq;
    [apply (wp_db_well _ _ _ w2 (MarkSent_law (id p)) (MarkSent_well (id p))); try done; apply Hw| |].
  2:{ intros w3 (s3 & -> & _ & Hv3 & _ & Hu). split; [done|].
      split; [intros n Hn; by apply (Hu n), Hn1|]. split; [done|]. split; [done|]. right.
      change (rows (view s3) = requeue p (rows (sview w))). rewrite Hv3.
      change (sview w2) with (view s1). by rewrite Hv1. }
  intros _ w3 (s3 & -> & Hs3 & Hv3 & _ & Hn3). change (sview w2) with (view s1) in Hv3.
  apply wp_bind. unfold wp at 1.
  rewrite (on_SendMessage i s) by (done || apply Hw). apply wp_ret.
  split; [done|]. split; [done|]. split; [|split; [intros n Hn; by apply Hn3, Hn1|]].
  - split; try done; try apply Hw. intros n j Hj. cbn. rewrite lookup_insert_is_Some'. right.
    by apply (ready_active _ Hw n).
  - split; [done|done| |].
    + change (corrs (view s3) = corrs (sview w)). by rewrite Hv3, Hv1.
    + unfold retries. cbn. rewrite Ei. cbn. rewrite Es. cbn. rewrite Eo.
      change (sview _) with (view s3) at 1. rewrite Hv3, Hv1. cbn. by rewrite requeued_sent.
Qed.

Lemma retried_nil w : retried [] w w.
Proof. by split. Qed.

Lemma retried_cons p l w w1 w2 : retried [p] w w1 -> retried l w1 w2 -> retried (p :: l) w w2.
Proof.
  intros [Ha1 Ht1 Hc1 Hr1] [Ha2 Ht2 Hc2 Hr2]. split; [congruence..|].
  rewrite Hr2. unfold retries in *. cbn [foldl] in *. by rewrite Hr1, Ha1, Ht1.
Qed.

(** Retrying one message leaves the rows of the others alone. *)
Lemma retried_row p q w w' :
  retried [p] w w' -> stored_in is_sent q (rows (sview w)) -> id p <> id q ->
  stored_in is_sent q (rows (sview w')).
Proof.
  intros [_ _ _ Hr] Hq Hne. unfold retries in Hr. cbn in Hr.
  repeat case_match; injection Hr as -> _ _; done || by apply requeue_other.
Qed.

Lemma retry_loop l w :
  ready w -> NoDup (map id l) -> (forall p, p ∈ l -> stored_in is_sent p (rows (sview w))) ->
  wp never (for_each l retry_expired) w
    (fun _ w' => stays_well w w' /\ retried l w w')
    (fun w' => unwell w /\ exists done p rest w1, l = done ++ p :: rest /\ retried done w w1 /\
       half_retried p w1 w').
Proof.
  revert w. induction l as [|p l IH]; intros w Hw Hnd Hl; cbn [for_each].
  { apply wp_ret. split; [by intros n|apply retried_nil]. }
  cbn in Hnd. apply NoDup_cons in Hnd as [Hni Hnd].
  apply wp_bind. eapply wp_conseq; [apply (retry_step p w); [done|]; apply Hl; by left| |].
  - intros c w1 (-> & Hw1 & Hn1 & Hr1). cbn. eapply wp_conseq; [apply (IH w1); try done| |].
    + intros q Hq. eapply retried_row; [done|apply Hl; by right|].
      intros E. apply Hni. rewrite E. apply list_elem_of_fmap. by exists q.
    + intros _ w2 [Hn2 Hr2]. split; [|by eapply retried_cons].
      intros n Hn. by apply Hn2, Hn1.
    + intros w2 (Hu & d & q & r & w1' & -> & Hd & Hq). split; [intros n Hn; by apply (Hu n), Hn1|].
      exists (p :: d), q, r, w1'. split; [done|]. split; [by eapply retried_cons|done].
  - intros w1 [Hu Hh]. split; [done|]. exists [], p, l, w. split; [done|]. split; [apply retried_nil|done].
Qed.

(** What [CheckExpiredAcks] may leave, for a timeout of [t] seconds: the load answered with
    [l], or failed. *)
Definition expired_outcome (t : Z) (w : World St) (o : result unit * World St) : Prop :=
  match fst (iLoadExpiredSent t (storage_ w)), o with
  | Ret l, (Ret _, w') => loads (fun p _ => snd p = STATUS_SENT) l (sview w) /\ retried l w w'
  | Ret l, (Throw _, w') =>
      loads (fun p _ => snd p = STATUS_SENT) l (sview w) /\
      exists done p rest w1, l = done ++ p :: rest /\ retried done w w1 /\ half_retried p w1 w'
  | Throw _, (Throw _, w') => sview w' = sview w /\ pending_sends_ w' = pending_sends_ w
  | _, _ => False
  end.

Definition expired_post t w (returned : bool) w' : Prop :=
  expired_outcome t w (if returned then Ret tt else Throw zmq_error, w') /\
  if returned
  then forall k, st_well k (storage_ w) -> st_well k (storage_ w') /\
         exists l, fst (iLoadExpiredSent t (storage_ w)) = Ret l /\
                   all_rows (fun i p => snd p = STATUS_SENT /\ st_expired t (storage_ w) i) l (sview w)
  else unwell w.

(** The handler, once the timeout is known. *)
Definition retry_all (t : Z) : M (World St) unit :=
  expired_messages <- db (iLoadExpiredSent t) ;;
  match expired_messages with
  | [] => ret tt
  | _ => metric IncrementMessagesExpired
  end ;;;
  for_each expired_messages retry_expired.

Lemma CheckExpiredAcks_eq w :
  CheckExpiredAcks w =
    if AckTimeout (config_ w) <=? 0 then (Ret tt, w) else retry_all (AckTimeout (config_ w)) w.
Proof. unfold CheckExpiredAcks, bind at 1, gets at 1. by destruct (_ <=? 0). Qed.

Lemma retry_all_posts t w :
  rok [] w ->
  wp never (retry_all t) w
    (fun _ => expired_post t w true) (expired_post t w false).
Proof.
  intros Hw. apply wp_bind. eapply wp_conseq;
    [apply (wp_db_well _ _ _ w (LoadExpiredSent_law t) (LoadExpiredSent_well t)); apply Hw| |].
  2:{ intros w1 (s1 & -> & _ & Hv & [e Ee] & Hu). split; [|exact Hu].
      unfold expired_outcome. by rewrite Ee. }
  intros l w1 (s1 & -> & Hs1 & (Hv & Hnd & Hl) & El & Hwell).
  unfold expired_post, expired_outcome. rewrite El.
  assert (forall p, p ∈ l -> stored_in is_sent p (rows (sview w))) as Hl'.
  { intros p Hp. destruct (Hl p Hp) as (Hid & st & Hr & Hst). split; [done|].
    exists st. split; [|done]. symmetry. exact Hst. }
  assert (loads (fun p _ => snd p = STATUS_SENT) l (sview w)) as Hloads by by split.
  apply wp_bind. set (w2 := set_storage s1 w).
  assert (exists mt, (match l with [] => ret tt | _ => metric IncrementMessagesExpired end) w2 =
            (Ret tt, set_metrics mt w2)) as [mt Hmt].
  { destruct l; [exists (metrics_ w); by destruct w|by eexists]. }
  unfold wp at 1. rewrite Hmt. set (w3 := set_metrics mt w2).
  assert (ready w3) as Hw3.
  { pose proof (ready_storage w s1 (rok_ready _ _ Hw) Hs1) as Hr. by destruct Hr. }
  assert (sview w3 = sview w) as Hv3 by exact Hv.
  assert (forall l' w', retried l' w3 w' -> retried l' w w') as Hback.
  { intros l' w' [Ha Ht Hc Hr]. split; [done|done|by rewrite <- Hv3|].
    rewrite Hr. unfold retries. by rewrite Hv3. }
  eapply wp_conseq; [apply (retry_loop l w3 Hw3 Hnd); by rewrite Hv3| |].
  - intros _ w4 [Hn4 Hr]. split; [split; [done|by apply Hback]|]. intros k Hk.
    destruct (Hwell k Hk) as [Hk' Hall]. split; [by apply Hn4|]. by exists l.
  - intros w4 (Hu & d & p & r & w5 & -> & Hd & Hh). split.
    + split; [done|]. exists d, p, r, w5. split; [done|]. split; [by apply Hback|done].
    + intros k Hk. by destruct (Hu k), (Hwell k Hk).
Qed.

(** C16. [CheckExpiredAcks]: without a timeout nothing happens.  Otherwise the messages are
    those the load answers with, which are SENT, each once.  When the call returns, every one
    of them was retried, in the order of the load, as the reference says: to a destination
    that is online it is given again, once, and stays SENT; else it is PENDING again and
    waits for the destination to register.  No other stored message and no correlation
    changes.  If the storage fails at a message, those before it were retried and it was not
    given to the sender; if the load fails nothing changes.  On a storage that is well the
    call returns and the messages are all that are SENT and have expired. *)
Theorem CheckExpiredAcks_outcome w :
  rok [] w ->
  let t := AckTimeout (config_ w) in
  if t <=? 0 then CheckExpiredAcks w = (Ret tt, w)
  else
    expired_outcome t w (CheckExpiredAcks w) /\
    forall k, st_well k (storage_ w) ->
      fst (CheckExpiredAcks w) = Ret tt /\ st_well k (storage_ (snd (CheckExpiredAcks w))) /\
      exists l, fst (iLoadExpiredSent t (storage_ w)) = Ret l /\
        all_rows (fun i p => snd p = STATUS_SENT /\ st_expired t (storage_ w) i) l (sview w).
Proof.
  intros Hw. cbv zeta. rewrite CheckExpiredAcks_eq. destruct (AckTimeout (config_ w) <=? 0); [done|].
  pose proof (retry_all_posts (AckTimeout (config_ w)) w Hw) as Hk. unfold wp in Hk.
  destruct (retry_all _ w) as [[[]|e|f] w']; [| |done]; destruct Hk as [Ho Hk].
  - split; [done|]. intros k Hn. split; [done|]. by apply Hk.
  - split; [exact Ho|]. intros k Hn. by destruct (Hk k).
Qed.
End Redelivery.
