(* ===== verification/Forward.v ===== *)
(** Store and forward: what waited in the store for a client is given to it when it
    registers.  [RegisterHandler] makes the session ([Registration.v]) and runs the two
    delivery loops ([Offline.v], [Redelivery.v]); on a storage that is well their loads are
    complete, and the second finds what it would have found before the first. *)
From Stdlib Require Import ZArith Lia Strings.Byte.
From S2P Require Import Prelude Words Message Interfaces Config Metrics Session World.
From S2P Require Import Router RouterSpec Handlers HandlersSpec Cleanup Routing Offline.
From S2P Require Import Registration Idle Redelivery.
Open Scope Z_scope.
Open Scope broker_scope.

Section Forward.
Context {St : Type} `{IStorageHealth St} `{Host} `{HashOrder}.
Implicit Types (w : World St).











End Forward.
