(* ===== verification/Server.v ===== *)
(** The event loop: [class Server] of [include/server.hpp] and [src/server.cpp], on the
    state of [World.v].

    [ProcessPendingSends] takes the whole send queue and sends each message as three
    frames; [OnZmqEvent] reads the socket dry and routes what it reads; the two timers
    run the periodic work of [Router]; [Stop] ends it all.  A Boost.Asio handler that
    throws ends the process ([handler]): [io_context::run] lets the exception out of
    the thread function.  Binding the socket and waiting for its descriptor for the first
    time are in [Startup.v]. *)
From Stdlib Require Import ZArith Lia Strings.Byte.
From S2P Require Import Prelude Words Message Interfaces Config Metrics Session World.
From S2P Require Import Router Handlers.
Open Scope Z_scope.
Open Scope broker_scope.

(** The [error_code] a wait completes with. *)
Inductive error_code : Type := no_error | operation_aborted | other_error.

Section Server.
Context {St : Type} `{IStorage St} `{Host} `{HashOrder}.
Implicit Types w : World St.

(** ** The socket *)
Definition set_wire (l : list frame) (s : Socket) : Socket :=
  mkSocket (inbox s) (recv_errors s) (send_results s) l (socket_open s).
Definition set_results (l : list send_result) (s : Socket) : Socket :=
  mkSocket (inbox s) (recv_errors s) l (wire s) (socket_open s).
Definition set_inbox (l : list (list byte)) (s : Socket) : Socket :=
  mkSocket l (recv_errors s) (send_results s) (wire s) (socket_open s).
Definition set_errors (l : list bool) (s : Socket) : Socket :=
  mkSocket (inbox s) l (send_results s) (wire s) (socket_open s).
Definition set_open (b : bool) (s : Socket) : Socket :=
  mkSocket (inbox s) (recv_errors s) (send_results s) (wire s) b.

(** [router_socket_.send(frame, dontwait | sndmore?)]: [false] for EAGAIN. *)
Definition socket_send (b : list byte) (more : bool) : M (World St) bool := fun w =>
  let s := socket w in
  if negb (socket_open s) then (Throw zmq_error, w)
  else
    match send_results s with
    | SendAgain :: l => (Ret false, set_socket (set_results l s) w)
    | SendError :: l => (Throw zmq_error, set_socket (set_results l s) w)
    | _ => (Ret true, set_socket (set_wire (wire s ++ [mkFrame b more])
                                    (set_results (tail (send_results s)) s)) w)
    end.

(** A call that reads the socket throws [zmq::error_t] when the socket is closed, and may
    throw it when it is open. *)
Definition socket_error : M (World St) unit := fun w =>
  let s := socket w in
  if negb (socket_open s) then (Throw zmq_error, w)
  else
    match recv_errors s with
    | true :: l => (Throw zmq_error, set_socket (set_errors l s) w)
    | false :: l => (Ret tt, set_socket (set_errors l s) w)
    | [] => (Ret tt, w)
    end.

(** [router_socket_.recv(frame, dontwait)]; [None] for EAGAIN. *)
Definition socket_recv : M (World St) (option (list byte)) :=
  socket_error ;;;
  l <- gets (fun w => inbox (socket w)) ;;
  match l with
  | f :: l' => modify (fun w => set_socket (set_inbox l' (socket w)) w) ;;; ret (Some f)
  | [] => ret None
  end.

(** [router_socket_.get(zmq::sockopt::events) & ZMQ_POLLIN] *)
Definition socket_readable : M (World St) bool :=
  socket_error ;;;
  gets (fun w => match inbox (socket w) with [] => false | _ => true end).

(** ** Sending *)

(** [if (send.callback) send.callback(success)], the closure of [SendZmqMessage]. *)
Definition call_back (c : option SendCallback) (success : bool) : M (World St) unit :=
  match c with
  | Some c => if success then ret tt else on (cb_this c) MarkOffline
  | None => ret tt
  end.

(** How one turn of the loop ends: [continue], or its end with [success]. *)
Inductive turn : Type := Skipped | Finished (success : bool).

Definition send_frames (s : PendingSend) : M (World St) turn :=
  try_catch
    (result <- socket_send (bytes_of_string (identity s)) true ;;
     if negb result then call_back (callback s) false ;;; ret Skipped
     else
       result <- socket_send [] true ;;
       if negb result then call_back (callback s) false ;;; ret Skipped
       else
         result <- socket_send (data s) false ;;
         if negb result then call_back (callback s) false ;;; ret (Finished false)
         else call_back (callback s) true ;;; ret (Finished true))
    (fun _ => call_back (callback s) false ;;; ret (Finished false)).

Definition process_send (s : PendingSend) : M (World St) ctl :=
  t <- send_frames s ;;
  match t with
  | Skipped => ret Continue
  | Finished true => metric IncrementMessagesSent ;;; ret Continue
  | Finished false => metric IncrementMessagesFailed ;;; ret Continue
  end.

Definition UpdateQueueMetrics : M (World St) unit :=
  has_metrics <- gets (fun w => match metrics_ w with Some _ => true | None => false end) ;;
  if (has_metrics : bool) then
    with_sends_lock (
      n <- gets (fun w => Z.of_nat (length (pending_sends_ w))) ;;
      metric (SetPendingSendQueueSize n))
  else ret tt.

(** [sends.swap(pending_sends_)] under the mutex; [None] when there is nothing to do. *)
Definition take_sends : M (World St) (option (list PendingSend)) :=
  with_sends_lock (
    sends <- gets pending_sends_ ;;
    match sends with
    | [] => modify (set_sending_in_progress false) ;;; ret None
    | _ =>
        modify (set_pending_sends []) ;;;
        modify (set_sending_in_progress true) ;;;
        ret (Some sends)
    end).

(** The block after the loop. *)
Definition finish_sends : M (World St) unit :=
  with_sends_lock (
    modify (set_sending_in_progress false) ;;;
    left <- gets pending_sends_ ;;
    match left with
    | [] => ret tt
    | _ => ScheduleSendProcessing
    end).

Definition ProcessPendingSends : M (World St) unit :=
  sends <- take_sends ;;
  match sends with
  | None => ret tt
  | Some sends =>
      for_each sends process_send ;;;
      finish_sends ;;;
      UpdateQueueMetrics
  end.

(** ** Handlers of the io context *)
Definition handler (m : M (World St) unit) : M (World St) unit :=
  try_catch m (fun _ => hang Terminate).

(** The handler [ScheduleSendProcessing] posts. *)
Definition posted_handler : M (World St) unit :=
  modify (fun w => set_posted (pred (posted w)) w) ;;;
  go <- gets (fun w => running_ w && negb (sending_in_progress_ w)) ;;
  if (go : bool) then ProcessPendingSends else ret tt.

(** [zmq_fd_->async_wait(...)] *)
Definition async_wait : M (World St) unit := modify (set_waiting true).

(** A [ScopedMetricsTimer] as a local of the block [m]: its constructor reads the clock, its
    destructor reports the time, if the metrics object still exists. *)
Definition ScopedMetricsTimer {A} (m : M (World St) A) : M (World St) A :=
  start <- gets clock_ ;;
  finally m (now <- gets clock_ ;; metric (AddMessageProcessingTime (now - start))).

(** The body of the receive loop for one pair of frames. *)
Definition receive_message (identity data : list byte) : M (World St) unit :=
  try_catch
    (ScopedMetricsTimer
       (metric IncrementMessagesReceived ;;;
        metric (ObservePayloadSize (Z.of_nat (length data))) ;;;
        m <- lift (Deserialize glibcxx_assertions host_endian data) ;;
        RouteMessage m (string_of_bytes identity)))
    (fun _ => metric IncrementMessagesFailed).

Definition receive_turn : M (World St) ctl :=
  identity <- socket_recv ;;
  match identity with
  | None => ret Break
  | Some identity =>
      data <- socket_recv ;;
      match data with
      | None => ret Break
      | Some data => receive_message identity data ;;; ret Continue
      end
  end.

(** [while (running_)]; every turn takes a frame, so the frames there are bound it. *)
Definition receive_loop : M (World St) unit :=
  n <- gets (fun w => length (inbox (socket w))) ;;
  while_fuel (S n) (gets running_) receive_turn.

Definition OnZmqEvent (ec : error_code) : M (World St) unit :=
  modify (set_waiting false) ;;;
  running <- gets running_ ;;
  if negb running then ret tt
  else
    match ec with
    | operation_aborted => ret tt
    | other_error => async_wait
    | no_error =>
        UpdateQueueMetrics ;;;
        ProcessPendingSends ;;;
        readable <- socket_readable ;;
        (if (readable : bool) then receive_loop else ret tt) ;;;
        running <- gets running_ ;;
        if (running : bool) then async_wait else ret tt
    end.

(** ** Timers; the deadline is a reading of the steady clock, in nanoseconds *)
Definition SetupCleanupTimer : M (World St) unit :=
  running <- gets running_ ;;
  if negb running then ret tt
  else modify (fun w => set_cleanup_timer (Some (clock_ w + 10 * 10 ^ 9)) w).

Definition on_cleanup_timer (ec : error_code) : M (World St) unit :=
  running <- gets running_ ;;
  match ec with
  | no_error => if (running : bool) then CleanupInactiveSessions ;;; SetupCleanupTimer else ret tt
  | _ => ret tt
  end.

Definition SetupAckTimeoutTimer : M (World St) unit :=
  running <- gets running_ ;;
  timeout <- gets (fun w => AckTimeout (config_ w)) ;;
  if negb running || (timeout <=? 0) then ret tt
  else modify (fun w => set_ack_timeout_timer (Some (clock_ w + timeout * 10 ^ 9)) w).

Definition on_ack_timer (ec : error_code) : M (World St) unit :=
  running <- gets running_ ;;
  match ec with
  | no_error => if (running : bool) then CheckExpiredAcks ;;; SetupAckTimeoutTimer else ret tt
  | _ => ret tt
  end.

(** ** Starting and stopping *)

(** The server as [Server::Server] leaves it once the storage [st] is open and the socket
    bound; [exposed] is whether the Prometheus exposer could be started, a failure of
    which is caught. *)
Definition Server_ctor (config : Config) (exposed : bool) (st : St) (now : Z) : World St :=
  let metrics_manager :=
    if EnableMetrics config && exposed then StartUpdater MetricsManager_ctor
    else MetricsManager_ctor in
  mkWorld st true ∅ 0 [] ∅ ∅ false [] false false 0 true (mkSocket [] [] [] [] true)
    true None None true false (Some metrics_manager) config now.

(** [Run] up to the start of the workers, whose number it is. *)
Definition Run_start : M (World St) nat :=
  SetupCleanupTimer ;;;
  SetupAckTimeoutTimer ;;;
  n <- gets (fun w => Threads (config_ w)) ;;
  ret (Z.to_nat n).

(** One turn of the loop of [Stop] over the queue, with the mutex held. *)
Definition drop_front : M (World St) ctl :=
  l <- gets pending_sends_ ;;
  match l with
  | s :: l' => call_back (callback s) false ;;; modify (set_pending_sends l') ;;; ret Continue
  | [] => hang OutOfBounds
  end.

Definition Stop : M (World St) unit :=
  was_running <- gets running_ ;;
  modify (set_running false) ;;;
  if negb was_running then ret tt
  else
    with_sends_lock (
      n <- gets (fun w => length (pending_sends_ w)) ;;
      while_fuel n (gets (fun w => match pending_sends_ w with [] => false | _ => true end))
        drop_front) ;;;
    modify (set_cleanup_timer None) ;;;
    modify (set_ack_timeout_timer None) ;;;
    modify (fun w => set_socket (set_open false (socket w)) w) ;;;
    modify (set_work_guard false) ;;;
    modify (set_io_stopped true).

(** The order in which [~Server] destroys the members that matter here: [storage_] is
    declared after [router_], so it goes first; then the router's sessions. *)
Definition Server_dtor : M (World St) unit :=
  Stop ;;;
  metric StopUpdater ;;;
  modify (set_storage_alive false) ;;;
  l <- gets (fun w => hash_order (active_clients_ w)) ;;
  modify (set_active_clients ∅) ;;;
  for_each l (fun p => release (snd p) ;;; ret Continue).
End Server.
