(* ===== verification/ServerSpec.v ===== *)
(** What the event loop guarantees: the send queue is emptied in order with every
    message accounted for ([sends_ref] is the reference), and a stop answers every message
    still queued. *)
From Stdlib Require Import ZArith Lia Strings.Byte.
From S2P Require Import Prelude Words Message Interfaces Config Metrics Session World.
From S2P Require Import Router RouterSpec Handlers HandlersSpec Cleanup Server.
Open Scope Z_scope.
Open Scope broker_scope.

(** ** The reference for sending

    What the socket does with one frame, with three, with a queue of messages, given
    the results it will answer: how the turn ends, the frames that went out, the results
    that are left. *)
Definition attempt (up : bool) (rs : list send_result) (b : list byte) (more : bool)
    : send_result * list frame * list send_result :=
  if negb up then (SendError, [], rs)
  else
    match rs with
    | SendAgain :: l => (SendAgain, [], l)
    | SendError :: l => (SendError, [], l)
    | _ => (SendOk, [mkFrame b more], tail rs)
    end.

Definition send_ref (up : bool) (rs : list send_result) (s : PendingSend)
    : turn * list frame * list send_result :=
  let '(r1, f1, rs1) := attempt up rs (bytes_of_string (identity s)) true in
  match r1 with
  | SendAgain => (Skipped, f1, rs1)
  | SendError => (Finished false, f1, rs1)
  | SendOk =>
      let '(r2, f2, rs2) := attempt up rs1 [] true in
      match r2 with
      | SendAgain => (Skipped, f1 ++ f2, rs2)
      | SendError => (Finished false, f1 ++ f2, rs2)
      | SendOk =>
          let '(r3, f3, rs3) := attempt up rs2 (data s) false in
          (Finished (match r3 with SendOk => true | _ => false end), f1 ++ f2 ++ f3, rs3)
      end
  end.

Fixpoint sends_ref (up : bool) (rs : list send_result) (l : list PendingSend)
    : list turn * list frame * list send_result :=
  match l with
  | [] => ([], [], rs)
  | s :: l' =>
      let '(t, f, rs1) := send_ref up rs s in
      let '(ts, fs, rs2) := sends_ref up rs1 l' in
      (t :: ts, f ++ fs, rs2)
  end.

(** The callback of a turn, on the sessions: a failure takes the session offline. *)
Definition answered (s : PendingSend) (t : turn) (m : gmap nat Session) : gmap nat Session :=
  match t, callback s with
  | Finished true, _ => m
  | _, Some c => alter (set_online false) (cb_this c) m
  | _, None => m
  end.

(** The metrics of a turn; a turn left by [continue] counts nothing. *)
Definition counted (m : option Metrics) (t : turn) : option Metrics :=
  match t with
  | Skipped => m
  | Finished true => option_map IncrementMessagesSent m
  | Finished false => option_map IncrementMessagesFailed m
  end.

Definition answered_all (l : list PendingSend) (ts : list turn) (m : gmap nat Session)
    : gmap nat Session :=
  foldl (fun m p => answered (fst p) (snd p) m) m (combine l ts).

Section ServerSpec.
Context {St : Type} `{IStorageLaws St} `{Host} `{HashOrder}.
Implicit Types w : World St.

(** The session a callback points to exists. *)
Definition callback_alive w (s : PendingSend) : Prop :=
  forall c, callback s = Some c -> is_Some (sessions w !! cb_this c).

(** It has gone: no session is at the address the callback holds. *)
Definition callback_gone w (s : PendingSend) : Prop :=
  exists c, callback s = Some c /\ sessions w !! cb_this c = None.

Lemma callback_alive_dec w s : callback_alive w s \/ callback_gone w s.
Proof.
  unfold callback_alive, callback_gone. destruct (callback s) as [c|]; [|by left].
  destruct (sessions w !! cb_this c) as [t|] eqn:Ht; [|right; by exists c].
  left. intros d [= <-]. by exists t.
Qed.

(** The turns a pass can take: one that fails calls back a session that must exist. *)
Definition turn_safe w (p : PendingSend * turn) : Prop :=
  snd p = Finished true \/ callback_alive w (fst p).
Definition turn_dangles w (p : PendingSend * turn) : Prop :=
  snd p <> Finished true /\ callback_gone w (fst p).

Lemma turn_safe_dec w p : turn_safe w p \/ turn_dangles w p.
Proof.
  unfold turn_safe, turn_dangles. destruct (callback_alive_dec w (fst p)) as [Ha|Hg]; [by left; right|].
  destruct (snd p) as [|[]]; [by right|by left; left|by right].
Qed.

Lemma turns_safe_dec w l : Forall (turn_safe w) l \/ Exists (turn_dangles w) l.
Proof.
  induction l as [|p l [IH|IH]]; [by left| |right; by apply Exists_cons_tl].
  destruct (turn_safe_dec w p); [left; by apply Forall_cons|right; by apply Exists_cons_hd].
Qed.

Lemma turns_alive w l ts : Forall (callback_alive w) l -> Forall (turn_safe w) (combine l ts).
Proof.
  rewrite !Forall_forall. intros Hl [s t] Hp. right. apply Hl. apply list_elem_of_In.
  eapply in_combine_l. by apply list_elem_of_In.
Qed.

Definition out (fs : list frame) (rs : list send_result) (s : Socket) : Socket :=
  set_wire (wire s ++ fs) (set_results rs s).

Lemma socket_send_eq b more w :
  socket_send b more w =
    let '(r, f, rs) := attempt (socket_open (socket w)) (send_results (socket w)) b more in
    (match r with SendOk => Ret true | SendAgain => Ret false | SendError => Throw zmq_error end,
     set_socket (out f rs (socket w)) w).
Proof.
  unfold socket_send, attempt, out.
  destruct (socket w) as [i es rs wi up] eqn:Es. cbn. destruct up; cbn.
  - destruct rs as [|[] rs]; cbn; by rewrite ?app_nil_r.
  - rewrite app_nil_r. unfold set_wire, set_results. cbn. rewrite <- Es. by destruct w.
Qed.

Lemma call_back_eq c success w :
  (forall d, c = Some d -> is_Some (sessions w !! cb_this d)) ->
  call_back c success w =
    (Ret tt, set_sessions (match c with
                           | Some d => if success then sessions w
                                       else alter (set_online false) (cb_this d) (sessions w)
                           | None => sessions w
                           end) w).
Proof.
  intros Hc. destruct c as [d|]; cbn; [|by destruct w]. destruct success; [by destruct w|].
  destruct (Hc d eq_refl) as [s Hs]. unfold on. rewrite Hs. cbn.
  do 2 f_equal. apply map_eq. intros j. rewrite lookup_alter, lookup_insert.
  case_decide; [subst|done]. by rewrite Hs.
Qed.

Lemma call_back_sent c w : call_back c true w = (Ret tt, w).
Proof. by destruct c. Qed.

Lemma call_back_gone w w' s :
  callback_gone w s -> sessions w' = sessions w ->
  call_back (callback s) false w' = (Stuck UseAfterFree, w').
Proof. intros (c & Hc & Hg) E. unfold call_back, on. by rewrite Hc, E, Hg. Qed.

(** A turn of the loop, against the reference. *)
Lemma send_frames_eq s w t f rs :
  send_ref (socket_open (socket w)) (send_results (socket w)) s = (t, f, rs) ->
  turn_safe w (s, t) ->
  send_frames s w =
    (Ret t, set_sessions (answered s t (sessions w)) (set_socket (out f rs (socket w)) w)).
Proof.
  intros Er Hs. unfold send_frames, try_catch, bind. unfold send_ref in Er. rewrite socket_send_eq.
  set (up := socket_open (socket w)) in *.
  destruct (attempt up (send_results (socket w)) _ true) as [[[] f1] rs1]; cbn.
  2,3: injection Er as <- <- <-; destruct Hs as [?|Hs]; [done|];
    rewrite call_back_eq by exact Hs; cbn; unfold answered; by destruct (callback s).
  rewrite socket_send_eq. cbn. fold up.
  destruct (attempt up rs1 [] true) as [[[] f2] rs2]; cbn.
  2,3: injection Er as <- <- <-; destruct Hs as [?|Hs]; [done|];
    rewrite call_back_eq by exact Hs; cbn; unfold answered, out; cbn; rewrite <- app_assoc;
    by destruct (callback s).
  rewrite socket_send_eq. cbn. fold up.
  destruct (attempt up rs2 (data s) false) as [[[] f3] rs3]; cbn; injection Er as <- <- <-.
  - rewrite call_back_sent. unfold answered, out. cbn. by rewrite <- !app_assoc.
  - destruct Hs as [?|Hs]; [done|]. rewrite call_back_eq by exact Hs; cbn; unfold answered, out; cbn;
      rewrite <- !app_assoc; by destruct (callback s).
  - destruct Hs as [?|Hs]; [done|]. rewrite call_back_eq by exact Hs; cbn; unfold answered, out; cbn;
      rewrite <- !app_assoc; by destruct (callback s).
Qed.

Lemma send_frames_gone s w t f rs :
  send_ref (socket_open (socket w)) (send_results (socket w)) s = (t, f, rs) ->
  turn_dangles w (s, t) -> fst (send_frames s w) = Stuck UseAfterFree.
Proof.
  intros Er [Ht Hg]. unfold send_frames, try_catch, bind. unfold send_ref in Er. rewrite socket_send_eq.
  set (up := socket_open (socket w)) in *.
  destruct (attempt up (send_results (socket w)) _ true) as [[[] f1] rs1]; cbn;
    [|by rewrite (call_back_gone w)..].
  rewrite socket_send_eq. cbn. fold up.
  destruct (attempt up rs1 [] true) as [[[] f2] rs2]; cbn; [|by rewrite (call_back_gone w)..].
  rewrite socket_send_eq. cbn. fold up.
  destruct (attempt up rs2 (data s) false) as [[[] f3] rs3]; cbn; [|by rewrite (call_back_gone w)..].
  by injection Er as <- <- <-.
Qed.

Lemma answered_alive s t m j : is_Some (answered s t m !! j) <-> is_Some (m !! j).
Proof.
  unfold answered. repeat case_match; try done; rewrite lookup_alter; case_decide; try done;
    subst; apply fmap_is_Some.
Qed.

Lemma out_nil s : out [] (send_results s) s = s.
Proof. unfold out, set_wire, set_results. cbn. rewrite app_nil_r. by destruct s. Qed.

(** The world after the turns [ts], with the frames [fs] out and [rs] left. *)
Definition after_sends (l : list PendingSend) (ts : list turn) (fs : list frame)
    (rs : list send_result) w : World St :=
  set_metrics (foldl counted (metrics_ w) ts)
    (set_sessions (answered_all l ts (sessions w)) (set_socket (out fs rs (socket w)) w)).

Lemma process_turn_eq s w t f rs :
  send_ref (socket_open (socket w)) (send_results (socket w)) s = (t, f, rs) ->
  turn_safe w (s, t) ->
  process_send s w =
    (Ret Continue, set_metrics (counted (metrics_ w) t)
       (set_sessions (answered s t (sessions w)) (set_socket (out f rs (socket w)) w))).
Proof.
  intros Er Hs. unfold process_send, bind at 1. rewrite (send_frames_eq _ _ _ _ _ Er Hs).
  destruct t as [|[]]; [by destruct w|done|done].
Qed.

Lemma answered_safe w s t f rs l :
  Forall (turn_safe w) l <->
  Forall (turn_safe (set_metrics (counted (metrics_ w) t)
       (set_sessions (answered s t (sessions w)) (set_socket (out f rs (socket w)) w)))) l.
Proof.
  apply Forall_iff. intros p. unfold turn_safe, callback_alive.
  setoid_rewrite (answered_alive s t (sessions w)). done.
Qed.

Lemma process_sends_eq l w ts fs rs :
  sends_ref (socket_open (socket w)) (send_results (socket w)) l = (ts, fs, rs) ->
  Forall (turn_safe w) (combine l ts) ->
  for_each l process_send w = (Ret tt, after_sends l ts fs rs w).
Proof.
  revert w ts fs. induction l as [|s l IH]; intros w ts fs Er Hl.
  { injection Er as <- <- <-. cbn. unfold after_sends. cbn. rewrite out_nil. by destruct w. }
  cbn [sends_ref] in Er.
  destruct (send_ref _ _ s) as [[t f] rs1] eqn:Es.
  destruct (sends_ref _ rs1 l) as [[ts1 fs1] rs2] eqn:El. injection Er as <- <- <-.
  cbn [combine] in Hl. apply Forall_cons in Hl as [Hs Hl]. cbn [for_each].
  unfold bind at 1. rewrite (process_turn_eq _ _ _ _ _ Es Hs).
  set (w1 := set_metrics _ _). rewrite (IH w1 ts1 fs1).
  - unfold after_sends, out. cbn. by rewrite <- app_assoc.
  - exact El.
  - by apply answered_safe.
Qed.

Lemma process_sends_gone l w ts fs rs :
  sends_ref (socket_open (socket w)) (send_results (socket w)) l = (ts, fs, rs) ->
  Exists (turn_dangles w) (combine l ts) -> fst (for_each l process_send w) = Stuck UseAfterFree.
Proof.
  revert w ts fs. induction l as [|s l IH]; intros w ts fs Er Hl; [by inversion Hl|].
  cbn [sends_ref] in Er.
  destruct (send_ref _ _ s) as [[t f] rs1] eqn:Es.
  destruct (sends_ref _ rs1 l) as [[ts1 fs1] rs2] eqn:El. injection Er as <- <- <-.
  cbn [combine] in Hl. cbn [for_each]. unfold bind at 1.
  destruct (turn_safe_dec w (s, t)) as [Hs|Hs].
  - rewrite (process_turn_eq _ _ _ _ _ Es Hs). set (w1 := set_metrics _ _).
    apply (IH w1 ts1 fs1 El). apply Exists_cons in Hl as [[Ht (c & Hc & Hg)]|Hl].
    { destruct Hs as [|Ha]; [done|]. destruct (Ha c Hc). cbn in *. congruence. }
    destruct (turns_safe_dec w1 (combine l ts1)) as [Hw1|]; [|done].
    apply answered_safe in Hw1. apply Exists_exists in Hl as (p & Hp & Ht & c & Hc & Hg).
    rewrite Forall_forall in Hw1. destruct (Hw1 p Hp) as [|Ha]; [done|]. destruct (Ha c Hc). congruence.
  - unfold process_send, bind at 1. pose proof (send_frames_gone _ _ _ _ _ Es Hs) as Hg.
    destruct (send_frames s w) as [r w']. cbn in Hg. by subst r.
Qed.

Lemma sends_ref_length up rs l ts fs rs' :
  sends_ref up rs l = (ts, fs, rs') -> length ts = length l.
Proof.
  revert rs ts fs rs'. induction l as [|s l IH]; intros rs ts fs rs'; cbn.
  { by intros [= <- _ _]. }
  destruct (send_ref up rs s) as [[t f] rs1].
  destruct (sends_ref up rs1 l) as [[ts' fs'] rs2] eqn:E. intros [= <- _ _]. cbn.
  f_equal. by eapply IH.
Qed.

(** The three frames of a message. *)
Definition frames_of (s : PendingSend) : list frame :=
  [mkFrame (bytes_of_string (identity s)) true; mkFrame [] true; mkFrame (data s) false].

Lemma send_ref_sent up rs s f rs' :
  send_ref up rs s = (Finished true, f, rs') -> f = frames_of s.
Proof.
  unfold send_ref, attempt, frames_of. destruct up; cbn; [|done].
  destruct rs as [|[] [|[] [|[] rs]]]; cbn; intros E; by simplify_eq/=.
Qed.

(** The frames of the messages that went out whole. *)
Fixpoint whole (l : list PendingSend) (ts : list turn) : list frame :=
  match l, ts with
  | s :: l', Finished true :: ts' => frames_of s ++ whole l' ts'
  | _ :: l', _ :: ts' => whole l' ts'
  | _, _ => []
  end.

Lemma sends_ref_whole up rs l ts fs rs' :
  sends_ref up rs l = (ts, fs, rs') -> whole l ts `sublist_of` fs.
Proof.
  revert rs ts fs rs'. induction l as [|s l IH]; intros rs ts fs rs'; cbn.
  { intros [= <- <- _]. done. }
  destruct (send_ref up rs s) as [[t f] rs1] eqn:Es.
  destruct (sends_ref up rs1 l) as [[ts' fs'] rs2] eqn:E. intros [= <- <- _].
  apply IH in E. destruct t as [|[]]; cbn; [by apply sublist_inserts_l| |by apply sublist_inserts_l].
  rewrite (send_ref_sent _ _ _ _ _ Es). by apply (sublist_app (frames_of s)); [|apply E].
Qed.

Lemma sends_ref_all_ok l :
  sends_ref true [] l = (map (fun _ => Finished true) l, flat_map frames_of l, []).
Proof. induction l as [|s l IH]; [done|]. cbn. by rewrite IH. Qed.

Lemma take_sends_eq w :
  pending_sends_mutex_ w = false ->
  take_sends w =
    match pending_sends_ w with
    | [] => (Ret None, set_sending_in_progress false w)
    | l => (Ret (Some l), set_sending_in_progress true (set_pending_sends [] w))
    end.
Proof.
  intros Hm. unfold take_sends, with_sends_lock, lock_guard. rewrite Hm.
  destruct (pending_sends_ w) as [|s l] eqn:Ep; destruct w; cbn in *; by subst.
Qed.

Lemma finish_sends_eq w :
  pending_sends_mutex_ w = false -> pending_sends_ w = [] ->
  finish_sends w = (Ret tt, set_sending_in_progress false w).
Proof.
  intros Hm Hp. unfold finish_sends, with_sends_lock, lock_guard. rewrite Hm.
  destruct w; cbn in *. by subst.
Qed.

Lemma UpdateQueueMetrics_eq w :
  pending_sends_mutex_ w = false ->
  UpdateQueueMetrics w =
    (Ret tt, set_metrics (option_map (SetPendingSendQueueSize (Z.of_nat (length (pending_sends_ w))))
                            (metrics_ w)) w).
Proof.
  intros Hm. unfold UpdateQueueMetrics, with_sends_lock, lock_guard, bind, gets.
  destruct (metrics_ w) as [mt|] eqn:Emt; destruct w; cbn in *; by subst.
Qed.

(** The world after a pass over the queue. *)
Definition sends_done (ts : list turn) (fs : list frame) (rs : list send_result) w : World St :=
  let w' := set_sending_in_progress false
              (after_sends (pending_sends_ w) ts fs rs (set_pending_sends [] w)) in
  match pending_sends_ w with
  | [] => set_sending_in_progress false w
  | _ => set_metrics (option_map (SetPendingSendQueueSize 0) (metrics_ w')) w'
  end.

Lemma ProcessPendingSends_safe w ts fs rs :
  pending_sends_mutex_ w = false ->
  sends_ref (socket_open (socket w)) (send_results (socket w)) (pending_sends_ w) = (ts, fs, rs) ->
  Forall (turn_safe w) (combine (pending_sends_ w) ts) ->
  ProcessPendingSends w = (Ret tt, sends_done ts fs rs w).
Proof.
  intros Hm Er Hl. unfold ProcessPendingSends, bind at 1. rewrite take_sends_eq by done.
  unfold sends_done. destruct (pending_sends_ w) as [|s l] eqn:Ep; [done|].
  set (w1 := set_sending_in_progress _ _). unfold bind at 1.
  rewrite (process_sends_eq (s :: l) w1 ts fs rs) by done. set (w2 := after_sends _ _ _ _ w1).
  unfold bind. rewrite finish_sends_eq by done. rewrite UpdateQueueMetrics_eq by done. done.
Qed.

Lemma ProcessPendingSends_gone w ts fs rs :
  pending_sends_mutex_ w = false ->
  sends_ref (socket_open (socket w)) (send_results (socket w)) (pending_sends_ w) = (ts, fs, rs) ->
  Exists (turn_dangles w) (combine (pending_sends_ w) ts) ->
  fst (ProcessPendingSends w) = Stuck UseAfterFree.
Proof.
  intros Hm Er Hl. unfold ProcessPendingSends, bind at 1. rewrite take_sends_eq by done.
  destruct (pending_sends_ w) as [|s l] eqn:Ep; [by inversion Hl|].
  set (w1 := set_sending_in_progress _ _). unfold bind at 1.
  pose proof (process_sends_gone (s :: l) w1 ts fs rs Er Hl) as Hg.
  destruct (for_each _ _ w1) as [r w']. cbn in Hg. by subst r.
Qed.

Lemma ProcessPendingSends_eq w :
  pending_sends_mutex_ w = false -> Forall (callback_alive w) (pending_sends_ w) ->
  ProcessPendingSends w =
    let '(ts, fs, rs) :=
      sends_ref (socket_open (socket w)) (send_results (socket w)) (pending_sends_ w) in
    (Ret tt, sends_done ts fs rs w).
Proof.
  intros Hm Hl. destruct (sends_ref _ _ _) as [[ts fs] rs] eqn:Er.
  apply ProcessPendingSends_safe; [done|done|by apply turns_alive].
Qed.

(** What [ProcessPendingSends] leaves alone. *)
Record send_frame w w' : Prop := {
  sf_pending : pending_sends_ w' = [];
  sf_progress : sending_in_progress_ w' = false;
  sf_active : active_clients_ w' = active_clients_ w;
  sf_ids : identity_to_name_ w' = identity_to_name_ w;
  sf_storage : storage_ w' = storage_ w;
  sf_locals : locals w' = locals w;
  sf_posted : posted w' = posted w;
}.

(** C11. [ProcessPendingSends] empties the queue: every message that was in it has exactly one
    turn, in order, whatever the socket answers.  A turn ends with the message's three
    frames out, in a row on its turn, and counts it as sent; or it takes the session that
    sent it offline, once.  Nothing else of the broker changes, the flag is clear and the
    call returns; if the socket takes every frame, exactly the frames of the messages go
    out, in the order of the queue.  The call comes back exactly when every turn that fails
    has a session to take offline: a callback keeps a bare pointer to its session, and a
    failed send on behalf of one that has gone is a use after free. *)
Theorem ProcessPendingSends_outcome w :
  pending_sends_mutex_ w = false ->
  exists ts fs rs,
    sends_ref (socket_open (socket w)) (send_results (socket w)) (pending_sends_ w) = (ts, fs, rs) /\
    length ts = length (pending_sends_ w) /\
    whole (pending_sends_ w) ts `sublist_of` fs /\
    (socket_open (socket w) = true -> send_results (socket w) = [] ->
     ts = map (fun _ => Finished true) (pending_sends_ w) /\
     fs = flat_map frames_of (pending_sends_ w)) /\
    match ProcessPendingSends w with
    | (Ret _, w') =>
        Forall (turn_safe w) (combine (pending_sends_ w) ts) /\ send_frame w w' /\
        wire (socket w') = wire (socket w) ++ fs /\
        sessions w' = answered_all (pending_sends_ w) ts (sessions w) /\
        metrics_ w' = match pending_sends_ w with
                      | [] => metrics_ w
                      | _ => option_map (SetPendingSendQueueSize 0) (foldl counted (metrics_ w) ts)
                      end
    | (Throw _, _) => False
    | (Stuck f, _) =>
        f = UseAfterFree /\ Exists (turn_dangles w) (combine (pending_sends_ w) ts)
    end.
Proof.
  intros Hm. destruct (sends_ref _ _ _) as [[ts fs] rs] eqn:Er.
  exists ts, fs, rs. split; [done|]. split; [by eapply sends_ref_length|].
  split; [by eapply sends_ref_whole|]. split.
  { intros Ho Hr. rewrite Ho, Hr, sends_ref_all_ok in Er. by injection Er as <- <- _. }
  destruct (turns_safe_dec w (combine (pending_sends_ w) ts)) as [Hs|Hg].
  - rewrite (ProcessPendingSends_safe _ _ _ _ Hm Er Hs). split; [done|].
    unfold sends_done. destruct (pending_sends_ w) as [|s l] eqn:Ep; [|split; [by split|done]].
    cbn in Er. injection Er as <- <- <-. split; [by split|]. cbn. by rewrite app_nil_r.
  - pose proof (ProcessPendingSends_gone _ _ _ _ Hm Er Hg) as E.
    destruct (ProcessPendingSends w) as [r w']. cbn in E. by subst r.
Qed.

(** ** Stopping *)
Definition offline_for (m : gmap nat Session) (s : PendingSend) : gmap nat Session :=
  match callback s with
  | Some c => alter (set_online false) (cb_this c) m
  | None => m
  end.

Definition sends_left : M (World St) bool :=
  gets (fun w => match pending_sends_ w with [] => false | _ => true end).

Lemma drop_front_eq w s l :
  pending_sends_ w = s :: l -> callback_alive w s ->
  drop_front w =
    (Ret Continue, set_pending_sends l (set_sessions (offline_for (sessions w) s) w)).
Proof.
  intros Hp Hs. unfold drop_front, bind, gets. rewrite Hp. rewrite call_back_eq by exact Hs.
  unfold modify, ret, offline_for. by destruct (callback s), w.
Qed.

Lemma callbacks_after w w' s l :
  sessions w' = offline_for (sessions w) s ->
  Forall (callback_alive w) l -> Forall (callback_alive w') l.
Proof.
  intros Hw Hl. eapply Forall_impl; [exact Hl|]. intros s' Ha c Hc. rewrite Hw. unfold offline_for.
  destruct (callback s) as [d|]; [|by apply Ha]. rewrite lookup_alter.
  specialize (Ha c Hc). case_decide as Hd; [|done]. apply fmap_is_Some. by rewrite Hd.
Qed.

Lemma drop_all l w n :
  pending_sends_ w = l -> (length l <= n)%nat -> Forall (callback_alive w) l ->
  while_fuel n sends_left drop_front w =
    (Ret tt, set_pending_sends [] (set_sessions (foldl offline_for (sessions w) l) w)).
Proof.
  revert w n. induction l as [|s l IH]; intros w n Hp Hn Hl.
  - destruct n; cbn; unfold bind, sends_left, gets; rewrite Hp; destruct w; cbn in *; by subst.
  - destruct n as [|n]; [cbn in Hn; lia|]. apply Forall_cons in Hl as [Hs Hl].
    cbn [while_fuel]. unfold bind at 1. unfold sends_left at 1, gets. rewrite Hp.
    unfold bind at 1. rewrite (drop_front_eq w s l) by done.
    rewrite IH; [done|done|cbn in Hn; lia|]. by eapply callbacks_after.
Qed.

Lemma drop_queue w :
  pending_sends_mutex_ w = false -> Forall (callback_alive w) (pending_sends_ w) ->
  with_sends_lock (
    n <- gets (fun w => length (pending_sends_ w)) ;;
    while_fuel n sends_left drop_front) w =
  (Ret tt, set_pending_sends []
             (set_sessions (foldl offline_for (sessions w) (pending_sends_ w)) w)).
Proof.
  intros Hm Hl. unfold with_sends_lock, lock_guard. rewrite Hm. unfold bind, gets.
  rewrite (drop_all (pending_sends_ w)) by done. destruct w; cbn in *. by subst.
Qed.

Lemma Stop_idle w : running_ w = false -> Stop w = (Ret tt, w).
Proof. intros Hr. unfold Stop, bind, gets. rewrite Hr. destruct w; cbn in *. by subst. Qed.

(** The world after a stop. *)
Definition dropped w : World St :=
  set_pending_sends [] (set_sessions (foldl offline_for (sessions w) (pending_sends_ w)) w).
Definition shut w : World St :=
  set_io_stopped true (set_work_guard false (set_socket (set_open false (socket w))
    (set_ack_timeout_timer None (set_cleanup_timer None w)))).
Definition stopped w : World St := shut (dropped (set_running false w)).

Lemma shut_eq w :
  (modify (set_cleanup_timer None) ;;;
   modify (set_ack_timeout_timer None) ;;;
   modify (fun w => set_socket (set_open false (socket w)) w) ;;;
   modify (set_work_guard false) ;;;
   modify (set_io_stopped true)) w = (Ret tt, shut w).
Proof. reflexivity. Qed.

Lemma Stop_running w :
  running_ w = true -> pending_sends_mutex_ w = false ->
  Forall (callback_alive w) (pending_sends_ w) -> Stop w = (Ret tt, stopped w).
Proof.
  intros Er Em Hl. unfold Stop, bind at 1 2, gets at 1, modify at 1. rewrite Er. cbn [negb].
  fold sends_left. unfold bind at 1. rewrite (drop_queue (set_running false w)) by done.
  apply shut_eq.
Qed.

Lemma Stop_locked w :
  running_ w = true -> pending_sends_mutex_ w = true -> fst (Stop w) = Stuck Deadlock.
Proof.
  intros Er Em. unfold Stop, bind, gets, modify. rewrite Er. cbn [negb].
  unfold with_sends_lock, lock_guard. change (pending_sends_mutex_ (set_running false w))
    with (pending_sends_mutex_ w). by rewrite Em.
Qed.

(** C34. [Stop], when the sessions of the queued sends are alive (as [callback_outlives_session]
    of [Scenarios.v] shows, they need not be), ends a running server: every message still queued for sending has its
    callback called once, with failure, which takes its session offline; the queue is
    empty, the timers are cancelled, the socket is closed, the event loop is told to
    stop; the store and the registry are untouched.  A stop of a stopped server does
    nothing, and a stop by a thread that already holds the mutex of the send queue, as
    a signal handler may, never comes back. *)
Theorem Stop_outcome w :
  Forall (callback_alive w) (pending_sends_ w) ->
  if running_ w then
    if pending_sends_mutex_ w then fst (Stop w) = Stuck Deadlock
    else Stop w = (Ret tt, stopped w) /\ Stop (stopped w) = (Ret tt, stopped w)
  else Stop w = (Ret tt, w).
Proof.
  intros Hl. destruct (running_ w) eqn:Er; [|by apply Stop_idle].
  destruct (pending_sends_mutex_ w) eqn:Em; [by apply Stop_locked|].
  split; [by apply Stop_running|by apply Stop_idle].
Qed.
End ServerSpec.
