(* ===== verification/Concurrency.v ===== *)
(** The send queue under concurrency: the workers of [Server::Run] as threads, at the
    grain of the mutex sections, the atomic flags and the calls of the socket.

    [Server.v] runs one handler at a time.  Here a worker is a program counter
    ([worker]), the shared part of the sending code is [net], and [net_step] is one
    step of one thread: what [SendToClient], the posted handler, [ProcessPendingSends]
    and [Stop] do between two points where another thread may run.  [alone] shows that
    one worker left alone does what [ProcessPendingSends] of [Server.v] does.

    [submitted] and [finished] are ghost state: the messages ever given to
    [SendToClient], and those whose turn is over, with its result. *)
From Stdlib Require Import ZArith Lia Strings.Byte.
From S2P Require Import Prelude Words Message Interfaces Config Metrics Session World.
From S2P Require Import Server ServerSpec.
Open Scope Z_scope.
Open Scope broker_scope.

(** Where a worker is: in [io_context::run]; in [SendToClient], before the post; in the
    posted handler, having seen [running_]; at the lock of [ProcessPendingSends]; in
    its loop over the local queue, before the [k]-th frame of the first message. *)
Inductive worker : Type :=
| Idle
| Posting
| Testing
| Taking
| Sending (k : nat) (sends : list PendingSend).

Record net : Type := mkNet {
  queue : list PendingSend;
  in_progress : bool;
  handlers : nat;
  up : bool;
  stopping : bool;
  workers : list worker;
  frames : list frame;
  submitted : list PendingSend;
  finished : list (PendingSend * bool);
}.

Definition set_worker (i : nat) (p : worker) (n : net) : net :=
  mkNet (queue n) (in_progress n) (handlers n) (up n) (stopping n) (<[i := p]> (workers n))
    (frames n) (submitted n) (finished n).
Definition set_handlers (k : nat) (n : net) : net :=
  mkNet (queue n) (in_progress n) k (up n) (stopping n) (workers n) (frames n)
    (submitted n) (finished n).
Definition set_flag (b : bool) (n : net) : net :=
  mkNet (queue n) b (handlers n) (up n) (stopping n) (workers n) (frames n)
    (submitted n) (finished n).
Definition set_net_queue (l : list PendingSend) (n : net) : net :=
  mkNet l (in_progress n) (handlers n) (up n) (stopping n) (workers n) (frames n)
    (submitted n) (finished n).
Definition set_up (b s : bool) (n : net) : net :=
  mkNet (queue n) (in_progress n) (handlers n) b s (workers n) (frames n)
    (submitted n) (finished n).
Definition emit (f : frame) (n : net) : net :=
  mkNet (queue n) (in_progress n) (handlers n) (up n) (stopping n) (workers n)
    (frames n ++ [f]) (submitted n) (finished n).
Definition submit (s : PendingSend) (n : net) : net :=
  mkNet (queue n ++ [s]) (in_progress n) (handlers n) (up n) (stopping n) (workers n)
    (frames n) (submitted n ++ [s]) (finished n).
Definition finish (l : list (PendingSend * bool)) (n : net) : net :=
  mkNet (queue n) (in_progress n) (handlers n) (up n) (stopping n) (workers n)
    (frames n) (submitted n) (finished n ++ l).

(** A server started with [k] workers. *)
Definition start (k : nat) : net := mkNet [] false 0 true false (replicate k Idle) [] [] [].

Inductive net_event : Type :=
| Submit (i : nat) (s : PendingSend)     (* the locked push of [SendToClient] *)
| Post (i : nat)                         (* its [boost::asio::post] *)
| RunHandler (i : nat)                   (* a posted handler starts and reads [running_] *)
| TestFlag (i : nat)                     (* ... and [sending_in_progress_] *)
| ZmqEvent (i : nat)                     (* [OnZmqEvent] calls [ProcessPendingSends] *)
| Take (i : nat)                         (* the first locked block *)
| SendFrame (i : nat) (r : send_result)  (* one [router_socket_.send] *)
| Finish (i : nat)                       (* the second locked block *)
| StopFlag                               (* [running_.exchange(false)] of [Stop] *)
| StopDrain.                             (* its locked loop over the queue *)

(** The [k]-th frame of a message went out, or did not. *)
Definition send_step (k : nat) (s : PendingSend) (l : list PendingSend) (r : send_result)
    (i : nat) (n : net) : option net :=
  f ← frames_of s !! k;
  match r with
  | SendOk =>
      Some (if Nat.eqb k 2
            then finish [(s, true)] (set_worker i (Sending 0 l) (emit f n))
            else set_worker i (Sending (S k) (s :: l)) (emit f n))
  | _ => Some (finish [(s, false)] (set_worker i (Sending 0 l) n))
  end.

(** One step; [None] when the thread is not where the step starts. *)
Definition net_step (e : net_event) (n : net) : option net :=
  match e with
  | Submit i s =>
      match workers n !! i with
      | Some Idle => Some (set_worker i Posting (submit s n))
      | _ => None
      end
  | Post i =>
      match workers n !! i with
      | Some Posting => Some (set_worker i Idle (set_handlers (S (handlers n)) n))
      | _ => None
      end
  | RunHandler i =>
      match workers n !! i, handlers n with
      | Some Idle, S k =>
          Some (set_worker i (if up n then Testing else Idle) (set_handlers k n))
      | _, _ => None
      end
  | TestFlag i =>
      match workers n !! i with
      | Some Testing => Some (set_worker i (if in_progress n then Idle else Taking) n)
      | _ => None
      end
  | ZmqEvent i =>
      match workers n !! i with
      | Some Idle => if up n then Some (set_worker i Taking n) else None
      | _ => None
      end
  | Take i =>
      match workers n !! i, queue n with
      | Some Taking, [] => Some (set_worker i Idle (set_flag false n))
      | Some Taking, l => Some (set_worker i (Sending 0 l) (set_flag true (set_net_queue [] n)))
      | _, _ => None
      end
  | SendFrame i r =>
      match workers n !! i with
      | Some (Sending k (s :: l)) => send_step k s l r i n
      | _ => None
      end
  | Finish i =>
      match workers n !! i with
      | Some (Sending _ []) =>
          let n' := set_worker i Idle (set_flag false n) in
          Some (match queue n with [] => n' | _ => set_handlers (S (handlers n)) n' end)
      | _ => None
      end
  | StopFlag => if up n then Some (set_up false true n) else None
  | StopDrain =>
      if stopping n
      then Some (set_up (up n) false
                   (finish (map (fun s => (s, false)) (queue n)) (set_net_queue [] n)))
      else None
  end.

Fixpoint run_trace (l : list net_event) (n : net) : option net :=
  match l with
  | [] => Some n
  | e :: l' => n' ← net_step e n; run_trace l' n'
  end.

Definition step (n n' : net) : Prop := exists e, net_step e n = Some n'.

(** The steps that are the server's own: no new message, no event of the socket, no stop. *)
Definition internal (e : net_event) : bool :=
  match e with Submit _ _ | ZmqEvent _ | StopFlag | StopDrain => false | _ => true end.
Definition istep (n n' : net) : Prop := exists e, internal e = true /\ net_step e n = Some n'.

Inductive reachable (k : nat) : net -> Prop :=
| reachable_start : reachable k (start k)
| reachable_step n n' : reachable k n -> step n n' -> reachable k n'.

(** ** The invariant *)
Definition inflight (p : worker) : list PendingSend :=
  match p with Sending _ l => l | _ => [] end.
Definition all_inflight (n : net) : list PendingSend := flat_map inflight (workers n).

(** Messages a thread holds, the queue holds, or that are over. *)
Definition accounted (n : net) : list PendingSend :=
  queue n ++ all_inflight n ++ map fst (finished n).

Definition at_work (n : net) : Prop := exists i p, workers n !! i = Some p /\ p <> Idle.
Definition one_sends (n : net) : Prop := exists i k l, workers n !! i = Some (Sending k l).

Record net_ok (w : nat) (n : net) : Prop := {
  ok_size : length (workers n) = w;
  ok_conserved : submitted n ≡ₚ accounted n;
  ok_frames : forall i k l, workers n !! i = Some (Sending k l) ->
    (k < 3)%nat /\ (l = [] -> k = 0%nat);
  ok_flag : in_progress n = true -> one_sends n;
  ok_woken : up n = true -> queue n <> [] -> (0 < handlers n)%nat \/ at_work n;
  ok_stop : stopping n = true -> up n = false;
}.

Lemma flat_map_insert i p q (l : list worker) :
  l !! i = Some p ->
  inflight p ++ flat_map inflight (<[i := q]> l) ≡ₚ inflight q ++ flat_map inflight l.
Proof.
  revert i. induction l as [|x l IH]; intros [|i] Hi; simplify_eq/=.
  - rewrite !app_assoc. apply Permutation_app_tail, Permutation_app_comm.
  - rewrite (Permutation_app_swap_app (inflight p)), (Permutation_app_swap_app (inflight q)).
    by rewrite (IH i).
Qed.

Lemma inflight_set i p q n :
  workers n !! i = Some p ->
  inflight p ++ all_inflight (set_worker i q n) ≡ₚ inflight q ++ all_inflight n.
Proof. apply flat_map_insert. Qed.

(** A worker that holds nothing goes on to hold nothing. *)
Lemma inflight_same i p q n :
  workers n !! i = Some p -> inflight p = [] -> inflight q = [] ->
  all_inflight (set_worker i q n) ≡ₚ all_inflight n.
Proof. intros Hi Hp Hq. pose proof (inflight_set i p q n Hi) as Hf. by rewrite Hp, Hq in Hf. Qed.

Lemma one_sends_at_work n : one_sends n -> at_work n.
Proof. intros (i & k & l & Hi). by exists i, (Sending k l). Qed.

Lemma one_sends_other i p q n :
  workers n !! i = Some p -> inflight p = [] -> (forall k l, p <> Sending k l) ->
  one_sends n -> one_sends (set_worker i q n).
Proof.
  intros Hi _ Hp (j & k & l & Hj). exists j, k, l. cbn. rewrite list_lookup_insert_ne; [done|].
  intros ->. rewrite Hi in Hj. injection Hj as ->. by eapply Hp.
Qed.

Lemma frames_other i q n :
  (forall k l, q = Sending k l -> (k < 3)%nat /\ (l = [] -> k = 0%nat)) ->
  (forall i k l, workers n !! i = Some (Sending k l) -> (k < 3)%nat /\ (l = [] -> k = 0%nat)) ->
  forall j k l, workers (set_worker i q n) !! j = Some (Sending k l) ->
    (k < 3)%nat /\ (l = [] -> k = 0%nat).
Proof.
  intros Hq Hn j k l. cbn. intros [(-> & E & _)|(_ & Hj)]%list_lookup_insert_Some.
  - by apply Hq.
  - by eapply Hn.
Qed.

Lemma at_work_set i p q n : workers n !! i = Some p -> q <> Idle -> at_work (set_worker i q n).
Proof.
  intros Hi Hq. exists i, q. split; [|done]. cbn. apply list_lookup_insert_eq.
  by eapply lookup_lt_Some.
Qed.

Lemma one_sends_set i p k l n :
  workers n !! i = Some p -> one_sends (set_worker i (Sending k l) n).
Proof.
  intros Hi. exists i, k, l. cbn. apply list_lookup_insert_eq. by eapply lookup_lt_Some.
Qed.

Lemma send_step_cases k s l r i n n' :
  send_step k s l r i n = Some n' -> workers n !! i = Some (Sending k (s :: l)) ->
  (exists b n0, n' = finish [(s, b)] (set_worker i (Sending 0 l) n0) /\
     (n0 = n \/ exists f, n0 = emit f n)) \/
  ((k < 2)%nat /\ exists f, n' = set_worker i (Sending (S k) (s :: l)) (emit f n)).
Proof.
  unfold send_step. intros Hs Hi. destruct (frames_of s !! k) as [f|] eqn:Ef; [|done]. cbn in Hs.
  destruct r; [|by left; exists false, n; split; [congruence|left]..].
  injection Hs as <-. destruct (Nat.eqb_spec k 2) as [->|Hk].
  - left. exists true, (emit f n). split; [done|]. right. by exists f.
  - right. split; [|by exists f]. apply lookup_lt_Some in Ef. cbn in Ef. lia.
Qed.

(** Bookkeeping for a worker that moves from [p] to [q] in a state whose other fields
    are [n']'s. *)
Lemma accounted_move i p q n :
  workers n !! i = Some p -> inflight p = inflight q ->
  accounted (set_worker i q n) ≡ₚ accounted n.
Proof.
  intros Hi Hpq. unfold accounted. cbn. pose proof (inflight_set i p q n Hi) as Hf.
  rewrite Hpq in Hf. apply Permutation_app_inv_l in Hf. by rewrite Hf.
Qed.

Lemma start_ok w : net_ok w (start w).
Proof.
  assert (flat_map inflight (replicate w Idle) = []) as Hf by (by induction w).
  split; cbn; try done.
  - by rewrite length_replicate.
  - unfold accounted, all_inflight. cbn. by rewrite Hf.
  - by intros i k l [[=] _]%lookup_replicate.
Qed.

(** The facts about the workers, for a worker that moves from [p] to [q]. *)
Lemma net_ok_workers w i p q n :
  net_ok w n -> workers n !! i = Some p ->
  (forall k l, q = Sending k l -> (k < 3)%nat /\ (l = [] -> k = 0%nat)) ->
  length (workers (set_worker i q n)) = w /\
  forall j k l, workers (set_worker i q n) !! j = Some (Sending k l) ->
    (k < 3)%nat /\ (l = [] -> k = 0%nat).
Proof.
  intros [] Hi Hq. split; [cbn; by rewrite length_insert|]. by apply frames_other.
Qed.

Lemma not_sending p : (forall k l, p <> Sending k l) -> inflight p = [].
Proof. intros Hp. destruct p as [| | | |k l]; try done. by destruct (Hp k l). Qed.

(** Steps at which a worker that is not sending goes on to something other than
    sending; [h] posted handlers are left. *)
Lemma move_ok w i p q h n :
  net_ok w n -> workers n !! i = Some p ->
  (forall k l, p <> Sending k l) -> (forall k l, q <> Sending k l) ->
  (up n = true -> queue n <> [] -> (0 < h)%nat \/ at_work (set_worker i q n)) ->
  net_ok w (set_worker i q (set_handlers h n)).
Proof.
  intros Hn Hi Hp Hq Hw.
  pose proof (not_sending p Hp) as Ep. pose proof (not_sending q Hq) as Eq.
  destruct (net_ok_workers w i p q n Hn Hi) as [H1 H2]; [intros k l ->; by edestruct Hq|].
  destruct Hn. split; try done.
  - rewrite (accounted_move i p q (set_handlers h n)) by (done || congruence). done.
  - intros Hf. by apply (one_sends_other i p q n); [..|apply ok_flag0].
Qed.

Lemma submit_ok w s n : net_ok w n -> at_work n -> net_ok w (submit s n).
Proof.
  intros [] Ha. split; try done; [|by right].
  unfold accounted. cbn. rewrite ok_conserved0. unfold accounted. rewrite <- (app_assoc _ _ [s]).
  rewrite <- (app_assoc _ [s]). apply Permutation_app_head, Permutation_app_comm.
Qed.

Lemma flag_off_ok w n : net_ok w n -> net_ok w (set_flag false n).
Proof. intros []. by split. Qed.

(** The first locked block, with something to send. *)
Lemma take_ok w i s l n :
  net_ok w n -> workers n !! i = Some Taking -> queue n = s :: l ->
  net_ok w (set_worker i (Sending 0 (s :: l)) (set_flag true (set_net_queue [] n))).
Proof.
  intros Hn Hi Hq.
  destruct (net_ok_workers w i Taking (Sending 0 (s :: l)) n Hn Hi) as [H1 H2].
  { intros k l' [= <- <-]. split; [lia|done]. }
  destruct Hn. split; try done.
  - unfold accounted. cbn [queue set_worker set_flag set_net_queue app].
    pose proof (inflight_set i Taking (Sending 0 (s :: l)) n Hi) as Hf. cbn in Hf.
    change (submitted n ≡ₚ all_inflight (set_worker i (Sending 0 (s :: l)) n) ++
              map fst (finished n)).
    rewrite ok_conserved0. unfold accounted. rewrite Hf, Hq. cbn. by rewrite <- app_assoc.
  - intros _. by eapply (one_sends_set i Taking).
Qed.

(** The end of a turn. *)
Lemma turn_ok w i k s l b n :
  net_ok w n -> workers n !! i = Some (Sending k (s :: l)) ->
  net_ok w (finish [(s, b)] (set_worker i (Sending 0 l) n)).
Proof.
  intros Hn Hi. destruct (net_ok_workers w i _ (Sending 0 l) n Hn Hi) as [H1 H2].
  { intros k' l' [= <- <-]. split; [lia|done]. }
  destruct Hn. split; try done.
  - pose proof (inflight_set i _ (Sending 0 l) n Hi) as Hf. cbn in Hf.
    unfold accounted. cbn [queue finish set_worker]. rewrite ok_conserved0. unfold accounted.
    apply Permutation_app_head.
    change (all_inflight (finish [(s, b)] (set_worker i (Sending 0 l) n))) with
      (all_inflight (set_worker i (Sending 0 l) n)).
    change (finished (finish [(s, b)] (set_worker i (Sending 0 l) n))) with
      (finished n ++ [(s, b)]).
    rewrite map_app. cbn [map fst].
    assert (all_inflight n ≡ₚ s :: all_inflight (set_worker i (Sending 0 l) n)) as ->.
    { apply (Permutation_app_inv_l l). rewrite <- Hf. by rewrite Permutation_middle. }
    cbn [app]. rewrite app_assoc. by rewrite <- Permutation_cons_append.
  - intros _. by eapply (one_sends_set i).
  - intros _ _. right. by eapply (at_work_set i).
Qed.

Lemma emit_ok w f n : net_ok w n -> net_ok w (emit f n).
Proof. intros []. by split. Qed.

(** The next frame of the same message. *)
Lemma next_frame_ok w i k s l n :
  net_ok w n -> workers n !! i = Some (Sending k (s :: l)) -> (k < 2)%nat ->
  net_ok w (set_worker i (Sending (S k) (s :: l)) n).
Proof.
  intros Hn Hi Hk. destruct (net_ok_workers w i _ (Sending (S k) (s :: l)) n Hn Hi) as [H1 H2].
  { intros k' l' [= <- <-]. split; [lia|done]. }
  destruct Hn. split; try done.
  - by rewrite (accounted_move i (Sending k (s :: l))).
  - intros _. by eapply (one_sends_set i).
  - intros _ _. right. by eapply (at_work_set i).
Qed.

(** The second locked block. *)
Lemma finish_ok w i k n :
  net_ok w n -> workers n !! i = Some (Sending k []) ->
  net_ok w (match queue n with
            | [] => set_worker i Idle (set_flag false n)
            | _ => set_handlers (S (handlers n)) (set_worker i Idle (set_flag false n))
            end).
Proof.
  intros Hn Hi. destruct (net_ok_workers w i _ Idle n Hn Hi) as [H1 H2]; [done|].
  pose proof (accounted_move i (Sending k []) Idle n Hi eq_refl) as Hf.
  destruct Hn. destruct (queue n) as [|s l] eqn:Eq; split; try done; cbn in *;
    try (by rewrite ok_conserved0, <- Hf); intros _ Hq; left; lia.
Qed.

Lemma drain_ok w n :
  net_ok w n -> stopping n = true ->
  net_ok w (set_up (up n) false
              (finish (map (fun s => (s, false)) (queue n)) (set_net_queue [] n))).
Proof.
  intros [] Hs. split; try done.
  unfold accounted. cbn. rewrite map_app, map_map, map_id.
  change (all_inflight _) with (all_inflight n). rewrite ok_conserved0. unfold accounted.
  rewrite (Permutation_app_comm (queue n)), <- app_assoc. done.
Qed.

Lemma step_ok w n n' : net_ok w n -> step n n' -> net_ok w n'.
Proof.
  intros Hn [e He].
  destruct e as [i s|i|i|i|i|i|i r|i| |]; cbn in He;
    try (destruct (workers n !! i) as [p|] eqn:Hi; [|done]; destruct p; try done).
  - injection He as <-. change (net_ok w (submit s (set_worker i Posting n))).
    apply submit_ok; [|by eapply (at_work_set i)].
    apply (move_ok w i Idle Posting (handlers n)); try done.
    intros _ _. right. by eapply (at_work_set i).
  - injection He as <-. apply (move_ok w i Posting Idle); try done. intros _ _. left. lia.
  - destruct (handlers n) as [|k] eqn:Hk; [done|]. injection He as <-.
    apply (move_ok w i Idle); try done; [by destruct (up n)|].
    intros -> _. right. by eapply (at_work_set i).
  - injection He as <-. apply (move_ok w i Testing _ (handlers n)); try done;
      [by destruct (in_progress n)|]. intros _ _. right.
    destruct (in_progress n) eqn:Ef; [|by eapply (at_work_set i)].
    apply one_sends_at_work, (one_sends_other i Testing); [done..|]. by apply (ok_flag _ _ Hn).
  - destruct (up n); [|done]. injection He as <-.
    apply (move_ok w i Idle _ (handlers n)); try done. intros _ _. right. by eapply (at_work_set i).
  - destruct (queue n) as [|s l] eqn:Hq; injection He as <-; [|by apply take_ok].
    apply (flag_off_ok w (set_worker i Idle n)), (move_ok w i Taking _ (handlers n)); try done.
  - destruct sends as [|s l]; [done|].
    destruct (send_step_cases _ _ _ _ _ _ _ He Hi) as [(b & n0 & -> & Hn0)|(Hk & f & ->)].
    + destruct Hn0 as [->|[f ->]]; eapply turn_ok; try done. by apply emit_ok.
    + by apply next_frame_ok; [apply emit_ok| |].
  - destruct sends; [|done]. injection He as <-. by eapply finish_ok.
  - destruct (up n); [|done]. injection He as <-. destruct Hn. by split.
  - destruct (stopping n) eqn:Hs; [|done]. injection He as <-. by apply drain_ok.
Qed.

Lemma reachable_ok w n : reachable w n -> net_ok w n.
Proof. induction 1; [apply start_ok|by eapply step_ok]. Qed.

(** ** Every message is answered

    Each internal step makes [measure] smaller; a state without one is at rest. *)
Definition weight (p : worker) : nat :=
  match p with
  | Idle => 0
  | Posting => 5
  | Testing => 3
  | Taking => 2
  | Sending k l => 5 + 3 * length l - k
  end.

Definition measure (n : net) : nat :=
  10 * length (queue n) + 4 * handlers n + sum_list_with weight (workers n).

Lemma sum_weight_insert i p q (l : list worker) :
  l !! i = Some p ->
  (sum_list_with weight (<[i := q]> l) + weight p = sum_list_with weight l + weight q)%nat.
Proof.
  revert i. induction l as [|x l IH]; intros [|i] Hi; simplify_eq/=; [lia|].
  specialize (IH i Hi). lia.
Qed.

Lemma measure_decreases w n n' : net_ok w n -> istep n n' -> (measure n' < measure n)%nat.
Proof.
  intros Hn (e & Hint & He). unfold measure.
  destruct e as [i s|i|i|i|i|i|i r|i| |]; cbn in Hint, He; try done;
    (destruct (workers n !! i) as [p|] eqn:Hi; [|done]; destruct p as [| | | |k sends]; try done).
  - injection He as <-. pose proof (sum_weight_insert i _ Idle _ Hi). cbn in *. lia.
  - destruct (handlers n) as [|h]; [done|]. injection He as <-.
    pose proof (sum_weight_insert i _ (if up n then Testing else Idle) _ Hi) as Hs.
    cbn in *. destruct (up n); cbn in *; lia.
  - injection He as <-.
    pose proof (sum_weight_insert i _ (if in_progress n then Idle else Taking) _ Hi) as Hs.
    cbn in *. destruct (in_progress n); cbn in *; lia.
  - destruct (queue n) as [|s l] eqn:Hq; injection He as <-; cbn.
    + pose proof (sum_weight_insert i _ Idle _ Hi). rewrite Hq. cbn in *. lia.
    + pose proof (sum_weight_insert i _ (Sending 0 (s :: l)) _ Hi). cbn in *. lia.
  - destruct sends as [|s l]; [done|]. destruct (ok_frames _ _ Hn i k _ Hi) as [Hk _].
    destruct (send_step_cases _ _ _ _ _ _ _ He Hi) as [(b & n0 & -> & Hn0)|(Hk' & f & ->)].
    + pose proof (sum_weight_insert i _ (Sending 0 l) _ Hi).
      destruct Hn0 as [->|[f ->]]; cbn in *; lia.
    + pose proof (sum_weight_insert i _ (Sending (S k) (s :: l)) _ Hi). cbn in *. lia.
  - destruct sends; [|done]. destruct (ok_frames _ _ Hn i k _ Hi) as [_ Hk]. rewrite Hk in * by done.
    pose proof (sum_weight_insert i _ Idle _ Hi). injection He as <-.
    destruct (queue n) eqn:Hq; cbn in *; rewrite ?Hq; cbn in *; lia.
Qed.

Lemma istep_step n n' : istep n n' -> step n n'.
Proof. intros (e & _ & He). by exists e. Qed.

Lemma istep_same n n' : istep n n' -> up n' = up n /\ submitted n' = submitted n.
Proof.
  intros (e & Hint & He).
  destruct e as [i s|i|i|i|i|i|i r|i| |]; cbn in Hint, He; try done;
    (destruct (workers n !! i) as [p|] eqn:Hi; [|done]; destruct p as [| | | |k sends]; try done).
  - by injection He as <-.
  - destruct (handlers n); [done|]. by injection He as <-.
  - by injection He as <-.
  - by destruct (queue n); injection He as <-.
  - destruct sends as [|s l]; [done|].
    destruct (send_step_cases _ _ _ _ _ _ _ He Hi) as [(b & n0 & -> & Hn0)|(Hk' & f & ->)];
      [|done]. by destruct Hn0 as [->|[f ->]].
  - destruct sends; [|done]. injection He as <-. by destruct (queue n).
Qed.

Lemma worker_steps w n i p :
  net_ok w n -> workers n !! i = Some p -> p <> Idle -> exists n', istep n n'.
Proof.
  intros Hn Hi Hp. destruct p as [| | | |k l]; [done|..].
  - eexists. exists (Post i). split; [done|]. cbn. by rewrite Hi.
  - eexists. exists (TestFlag i). split; [done|]. cbn. by rewrite Hi.
  - destruct (queue n) eqn:Hq; eexists; exists (Take i); (split; [done|]); cbn;
      by rewrite Hi, Hq.
  - destruct l as [|s l].
    + eexists. exists (Finish i). split; [done|]. cbn. by rewrite Hi.
    + destruct (ok_frames _ _ Hn i k _ Hi) as [Hk _].
      destruct (frames_of s !! k) as [f|] eqn:Ef.
      * eexists. exists (SendFrame i SendAgain). split; [done|]. cbn. rewrite Hi.
        unfold send_step. by rewrite Ef.
      * apply lookup_ge_None in Ef. cbn in Ef. lia.
Qed.

Lemma at_rest w n :
  (0 < w)%nat -> net_ok w n -> (forall n', ~ istep n n') ->
  handlers n = 0%nat /\ workers n = replicate w Idle.
Proof.
  intros Hw Hn Hr.
  assert (forall i p, workers n !! i = Some p -> p = Idle) as Hidle.
  { intros i p Hi. destruct p; [done|..];
      (edestruct (worker_steps w n i) as [n' Hs]; [done|exact Hi|done|by destruct (Hr n')]). }
  assert (workers n = replicate w Idle) as Hwk.
  { rewrite <- (ok_size _ _ Hn). symmetry. apply replicate_as_Forall. split; [done|].
    apply Forall_lookup. intros i p Hi. symmetry. by eapply Hidle. }
  split; [|done]. destruct (handlers n) as [|h] eqn:Eh; [done|].
  destruct (Hr (set_worker 0 (if up n then Testing else Idle) (set_handlers h n))).
  exists (RunHandler 0). split; [done|]. cbn. rewrite Hwk, Eh. by destruct w; [lia|].
Qed.

Lemma rtc_steps w n n' :
  net_ok w n -> rtc istep n n' ->
  net_ok w n' /\ up n' = up n /\ submitted n' = submitted n.
Proof.
  intros Hn Hs. induction Hs as [n|n1 n2 n3 H12 _ IH]; [done|].
  destruct (istep_same _ _ H12) as [<- <-]. apply IH. eapply step_ok; [done|].
  by apply istep_step.
Qed.

Lemma nsteps_measure w m n n' :
  net_ok w n -> nsteps istep m n n' -> (m + measure n' <= measure n)%nat.
Proof.
  intros Hn Hs. induction Hs as [n|m n1 n2 n3 H12 _ IH]; [lia|].
  pose proof (measure_decreases w _ _ Hn H12).
  assert (net_ok w n2) as H2 by (eapply step_ok; [done|]; by apply istep_step).
  specialize (IH H2). lia.
Qed.

(** ** One worker alone

    The steps of a worker that is not interrupted, against the reference [sends_ref]
    that [ProcessPendingSends] of [Server.v] is proved to follow. *)
Definition turn_sent (t : turn) : bool := match t with Finished b => b | Skipped => false end.

(** [n'] is [n] after worker [i], with [l] left to send, sent [fs] and ended [ends]. *)
Record sent_by (i : nat) (l : list PendingSend) (fs : list frame)
    (ends : list (PendingSend * bool)) (n n' : net) : Prop := {
  by_worker : workers n' = <[i := Sending 0 l]> (workers n);
  by_frames : frames n' = frames n ++ fs;
  by_finished : finished n' = finished n ++ ends;
  by_queue : queue n' = queue n;
  by_handlers : handlers n' = handlers n;
  by_flag : in_progress n' = in_progress n;
}.

Lemma run_trace_app l1 l2 n n1 n2 :
  run_trace l1 n = Some n1 -> run_trace l2 n1 = Some n2 -> run_trace (l1 ++ l2) n = Some n2.
Proof.
  revert n. induction l1 as [|e l1 IH]; intros n; cbn; [by intros [= ->]|].
  destruct (net_step e n) as [n0|]; cbn; [|done]. apply IH.
Qed.

Lemma turn_alone i b rs s t f rs1 l n :
  send_ref b rs s = (t, f, rs1) -> workers n !! i = Some (Sending 0 (s :: l)) ->
  exists tr n', run_trace tr n = Some n' /\ sent_by i l f [(s, turn_sent t)] n n'.
Proof.
  intros Ht Hi. pose proof (lookup_lt_Some _ _ _ Hi) as Hlt.
  unfold send_ref in Ht. destruct (attempt b rs _ true) as [[r1 f1] rs'] eqn:E1.
  assert (f1 = match r1 with SendOk => [mkFrame (bytes_of_string (identity s)) true] | _ => [] end)
    as Ef1 by (unfold attempt in E1; repeat case_match; by simplify_eq/=).
  destruct r1; [|exists [SendFrame i SendAgain]|exists [SendFrame i SendError]]; cbn;
    rewrite ?Hi; cbn; [|injection Ht as <- <- <-; rewrite Ef1; eexists; (split; [done|]);
      split; cbn; by rewrite ?app_nil_r..].
  destruct (attempt b rs' [] true) as [[r2 f2] rs''] eqn:E2.
  assert (f2 = match r2 with SendOk => [mkFrame [] true] | _ => [] end)
    as Ef2 by (unfold attempt in E2; repeat case_match; by simplify_eq/=).
  destruct r2; [|exists [SendFrame i SendOk; SendFrame i SendAgain]
                |exists [SendFrame i SendOk; SendFrame i SendError]]; cbn;
    rewrite ?Hi; cbn; rewrite ?list_lookup_insert_eq by done; cbn;
    [|injection Ht as <- <- <-; rewrite Ef1, Ef2; eexists; (split; [done|]);
      split; cbn; by rewrite ?list_insert_insert_eq, ?app_nil_r..].
  destruct (attempt b rs'' (data s) false) as [[r3 f3] rs3] eqn:E3.
  assert (f3 = match r3 with SendOk => [mkFrame (data s) false] | _ => [] end)
    as Ef3 by (unfold attempt in E3; repeat case_match; by simplify_eq/=).
  injection Ht as <- <- <-. exists [SendFrame i SendOk; SendFrame i SendOk; SendFrame i r3].
  cbn. rewrite Hi. cbn. rewrite list_lookup_insert_eq by done. cbn.
  rewrite list_lookup_insert_eq by (by rewrite length_insert). cbn.
  rewrite Ef1, Ef2, Ef3.
  destruct r3; eexists; (split; [done|]); split; cbn;
    rewrite ?list_insert_insert_eq, <- ?app_assoc; done.
Qed.

Lemma sends_alone i b rs l ts fs rs1 n :
  sends_ref b rs l = (ts, fs, rs1) -> workers n !! i = Some (Sending 0 l) ->
  exists tr n', run_trace tr n = Some n' /\ sent_by i [] fs (combine l (map turn_sent ts)) n n'.
Proof.
  revert rs ts fs rs1 n. induction l as [|s l IH]; intros rs ts fs rs1 n Hs Hi; cbn in Hs.
  { injection Hs as <- <- <-. exists [], n. split; [done|].
    split; cbn; rewrite ?app_nil_r; try done. by rewrite list_insert_id. }
  destruct (send_ref b rs s) as [[t f] rs'] eqn:Et.
  destruct (sends_ref b rs' l) as [[ts' fs'] rs''] eqn:Es. injection Hs as <- <- <-.
  destruct (turn_alone i b rs s t f rs' l n Et Hi) as (tr1 & n1 & Htr1 & H1).
  assert (workers n1 !! i = Some (Sending 0 l)) as Hi1.
  { rewrite (by_worker _ _ _ _ _ _ H1). apply list_lookup_insert_eq. by eapply lookup_lt_Some. }
  destruct (IH _ _ _ _ n1 Es Hi1) as (tr2 & n2 & Htr2 & H2).
  exists (tr1 ++ tr2), n2. split; [by eapply run_trace_app|].
  destruct H1, H2. split; try congruence.
  - by rewrite by_worker1, by_worker0, list_insert_insert_eq.
  - by rewrite by_frames1, by_frames0, <- app_assoc.
  - by rewrite by_finished1, by_finished0, <- app_assoc.
Qed.

(** ** Properties *)

(** C13. No message is lost or sent twice by the send queue, however the workers, the posted
    handlers, the events of the socket and a stop interleave: at any time each message
    given to [SendToClient] is in the queue, in the hands of exactly one worker, or had
    its one turn. *)
Theorem sends_conserved w n : reachable w n -> submitted n ≡ₚ accounted n.
Proof. intros Hn. by apply (ok_conserved w), reachable_ok. Qed.

(** C12. No wake-up is lost: on a server that is not stopped and has a worker, whatever was
    done so far, if no more messages come then the server's own steps come to an end,
    within [measure] steps whatever the schedule, and where they end the queue is empty,
    no handler is posted, every worker waits, and every message ever given to
    [SendToClient] has had its turn. *)
Theorem every_send_is_answered w n :
  (0 < w)%nat -> reachable w n -> up n = true ->
  (forall m n', nsteps istep m n n' -> (m <= measure n)%nat) /\
  (forall n', rtc istep n n' -> (forall n'', ~ istep n' n'') ->
     queue n' = [] /\ handlers n' = 0%nat /\ workers n' = replicate w Idle /\
     submitted n ≡ₚ map fst (finished n')).
Proof.
  intros Hw Hn%reachable_ok Hu. split.
  { intros m n' Hs. pose proof (nsteps_measure w m n n' Hn Hs). lia. }
  intros n' Hs Hr. destruct (rtc_steps w n n' Hn Hs) as (Hn' & Hu' & Hsub).
  destruct (at_rest w n' Hw Hn' Hr) as [Hh Hwk].
  assert (queue n' = []) as Hq.
  { destruct (queue n') as [|s l] eqn:Eq; [done|].
    destruct (ok_woken _ _ Hn') as [Hp|(i & p & Hi & Hp)]; [congruence|congruence|lia|].
    rewrite Hwk in Hi. by apply lookup_replicate in Hi as [-> _]. }
  split; [done|]. split; [done|]. split; [done|].
  rewrite <- Hsub, (ok_conserved _ _ Hn'). unfold accounted, all_inflight. rewrite Hq, Hwk. cbn.
  assert (flat_map inflight (replicate w Idle) = []) as -> by (clear; by induction w). done.
Qed.

(** What a pass puts on the wire of [Server.v]. *)
Lemma pass_wire {St} `{IStorage St} `{Host} `{HashOrder} (w : World St) ts fs rs :
  pending_sends_mutex_ w = false -> Forall (callback_alive w) (pending_sends_ w) ->
  sends_ref (socket_open (socket w)) (send_results (socket w)) (pending_sends_ w) = (ts, fs, rs) ->
  exists w', ProcessPendingSends w = (Ret tt, w') /\ wire (socket w') = wire (socket w) ++ fs /\
    pending_sends_ w' = [] /\ sending_in_progress_ w' = false.
Proof.
  intros Hm Hl Hs. rewrite ProcessPendingSends_eq, Hs by done. eexists. split; [done|].
  unfold sends_done. destruct (pending_sends_ w) as [|s l] eqn:Ep; [|done].
  cbn in Hs. injection Hs as _ <- _. cbn. by rewrite app_nil_r.
Qed.

(** C24. [ProcessPendingSends] of the sequential model is the run of one worker that nobody
    interrupts, when the sessions of the queued sends are alive: from the same queue, the
    steps of the worker put the same frames on the wire, empty the queue, clear the flag and
    come back. *)
Theorem uninterrupted_pass {St} `{IStorage St} `{Host} `{HashOrder} (w : World St) n i :
  pending_sends_mutex_ w = false -> Forall (callback_alive w) (pending_sends_ w) ->
  workers n !! i = Some Taking -> queue n = pending_sends_ w ->
  exists tr n' fs w', run_trace tr n = Some n' /\ ProcessPendingSends w = (Ret tt, w') /\
    frames n' = frames n ++ fs /\ wire (socket w') = wire (socket w) ++ fs /\
    queue n' = pending_sends_ w' /\ in_progress n' = sending_in_progress_ w' /\
    workers n' = <[i := Idle]> (workers n).
Proof.
  intros Hm Hl Hi Hq. pose proof (lookup_lt_Some _ _ _ Hi) as Hlt.
  destruct (sends_ref (socket_open (socket w)) (send_results (socket w)) (pending_sends_ w))
    as [[ts fs] rs] eqn:Hs.
  destruct (pass_wire w ts fs rs Hm Hl Hs) as (w' & Hw' & Hwire & Hp & Hf).
  destruct (pending_sends_ w) as [|s l] eqn:Ep.
  { cbn in Hs. injection Hs as _ <- _.
    exists [Take i], (set_worker i Idle (set_flag false n)), [], w'. cbn. rewrite Hi, Hq, Hp, Hf, Hwire.
    by rewrite !app_nil_r. }
  set (n1 := set_worker i (Sending 0 (s :: l)) (set_flag true (set_net_queue [] n))).
  assert (workers n1 !! i = Some (Sending 0 (s :: l))) as Hi1 by by apply list_lookup_insert_eq.
  destruct (sends_alone i _ _ _ _ _ _ n1 Hs Hi1) as (tr & n2 & Htr & []).
  assert (workers n2 !! i = Some (Sending 0 [])) as Hi2
    by (rewrite by_worker0; apply list_lookup_insert_eq; cbn; by rewrite length_insert).
  exists (Take i :: tr ++ [Finish i]), (set_worker i Idle (set_flag false n2)), fs, w'.
  split; [|rewrite Hp, Hf, Hwire; repeat split; try done].
  - cbn [run_trace net_step]. rewrite Hi, Hq. cbn. eapply run_trace_app; [done|].
    cbn. rewrite Hi2. cbn. by rewrite by_queue0.
  - cbn. rewrite by_worker0. cbn. by rewrite !list_insert_insert_eq.
Qed.

(** Two messages, two workers. *)
Definition first : PendingSend := mkSend "a" [x01] None.
Definition second : PendingSend := mkSend "b" [x02] None.

(** The flag does not keep two workers from the socket: the one that handles an event of the
    socket does not look at it, and the frames of two messages end up in each other. *)
Definition overlap : list net_event :=
  [Submit 0 first; Post 0; RunHandler 0; TestFlag 0; Take 0; SendFrame 0 SendOk;
   Submit 1 second; Post 1; ZmqEvent 1; Take 1;
   SendFrame 1 SendOk; SendFrame 0 SendOk; SendFrame 0 SendOk; SendFrame 1 SendOk;
   SendFrame 1 SendOk].

Example overlapping_sends :
  option_map (fun n => (workers n, map frame_bytes (frames n))) (run_trace overlap (start 2)) =
    Some ([Sending 0 []; Sending 0 []], [[x61]; [x62]; []; [x01]; []; [x02]]).
Proof. vm_compute. reflexivity. Qed.

Lemma reachable_trace w tr n n' : reachable w n -> run_trace tr n = Some n' -> reachable w n'.
Proof.
  revert n. induction tr as [|e tr IH]; intros n Hn; cbn; [by intros [= <-]|].
  destruct (net_step e n) as [n1|] eqn:E; cbn; [|done]. apply IH.
  eapply reachable_step; [done|]. by exists e.
Qed.

Definition overlapped : net := default (start 2) (run_trace overlap (start 2)).

Lemma overlapped_reachable : reachable 2 overlapped.
Proof.
  apply (reachable_trace 2 overlap (start 2)); [apply reachable_start|]. vm_compute. reflexivity.
Qed.

Lemma sends_conserved_witness :
  reachable 2 overlapped /\ submitted overlapped = [first; second] /\
  [first; second] ≡ₚ accounted overlapped.
Proof.
  split; [exact overlapped_reachable|]. split; [vm_compute; reflexivity|].
  exact (sends_conserved 2 overlapped overlapped_reachable).
Defined.

(** Both workers finish; one posted handler is left and finds nothing: this is where the
    server's own steps end. *)
Definition settle : list net_event := [Finish 0; Finish 1; RunHandler 0; TestFlag 0; Take 0].

Example overlap_settles :
  option_map (fun n => (queue n, handlers n, workers n, finished n)) (run_trace settle overlapped) =
    Some ([], 0%nat, [Idle; Idle], [(first, true); (second, true)]).
Proof. vm_compute. reflexivity. Qed.

Lemma every_send_is_answered_witness :
  reachable 2 overlapped /\ (measure overlapped <= 14)%nat /\
  (forall m n', nsteps istep m overlapped n' -> (m <= 14)%nat).
Proof.
  split; [exact overlapped_reachable|].
  assert (measure overlapped <= 14)%nat as Hm by (apply Nat.leb_le; vm_compute; reflexivity).
  split; [exact Hm|]. intros m n' Hs.
  assert (0 < 2)%nat as H2 by lia. assert (up overlapped = true) as Hu by (vm_compute; reflexivity).
  pose proof (proj1 (every_send_is_answered 2 overlapped H2 overlapped_reachable Hu) m n' Hs). lia.
Defined.
