(* ===== verification/EventLoop.v ===== *)
(** The event loop as a whole: [OnZmqEvent] reads the socket dry, two frames at a time
    ([routed] is the reference), keeps the registry consistent and waits for the
    descriptor again, or throws what a read of the socket throws; a posted handler is worth a pass over the queue exactly when
    nothing else is sending. *)
From Stdlib Require Import ZArith Lia Strings.Byte.
From S2P Require Import Prelude Words Message Interfaces Config Metrics Session World.
From S2P Require Import Router RouterSpec Handlers HandlersSpec Server ServerSpec.
Open Scope Z_scope.
Open Scope broker_scope.

(** What may keep a handler from coming back: a destructor that throws, and the check
    of [data[pos]] in a build with [_GLIBCXX_ASSERTIONS]. *)
Definition asserts `{Host} (f : stuck) : Prop := f = AssertionFailed /\ glibcxx_assertions = true.
Definition loop_stuck `{Host} (f : stuck) : Prop := f = Terminate \/ asserts f.

Lemma decoded `{Host} d :
  match Deserialize glibcxx_assertions host_endian d with
  | Stuck f => asserts f
  | _ => True
  end.
Proof.
  destruct (Z.ltb_spec (Z.of_nat (length d)) 15) as [Hlt|Hge].
  { unfold Deserialize, HEADER_SIZE. by rewrite (proj2 (Z.ltb_lt _ _)) by done. }
  rewrite (Deserialize_cases _ _ d Hge). destruct (negb _); [done|]. destruct (negb _); [done|].
  cbn zeta. destruct (_ && _) eqn:Ea; [|done]. by apply andb_true_iff in Ea as [Ea _].
Qed.

Section EventLoop.
Context {St : Type} `{IStorageLaws St} `{Host} `{HashOrder}.
Implicit Types w : World St.

(** ** The reference for receiving: the frames of the socket taken two by two

    Each read of a frame, and the last one that finds none, is a call that may throw. *)
Definition unread (l : list (list byte)) : M (World St) unit :=
  modify (fun w => set_socket (set_inbox l (socket w)) w).

Fixpoint routed (l : list (list byte)) : M (World St) unit :=
  socket_error ;;;
  match l with
  | [] => ret tt
  | identity :: l1 =>
      unread l1 ;;;
      socket_error ;;;
      match l1 with
      | [] => ret tt
      | data :: l' =>
          unread l' ;;;
          receive_message identity data ;;;
          routed l'
      end
  end.

(** A message changes neither the socket nor the flags of the loop. *)
Lemma receive_message_loop i d : preserves same_loop (receive_message (St := St) i d).
Proof.
  assert (forall op, preserves same_loop (metric (St := St) op)) as Hm
    by (intros op; apply preserves_modify; by intros w).
  unfold receive_message, ScopedMetricsTimer. apply preserves_try_catch; [apply _| |by intros _; apply Hm].
  apply preserves_bind; [apply _|apply preserves_gets, _|]. intros t.
  apply preserves_finally; [apply _| |].
  - apply preserves_bind; [apply _|apply Hm|]. intros _.
    apply preserves_bind; [apply _|apply Hm|]. intros _.
    apply preserves_bind; [apply _|apply preserves_lift, _|]. intros m.
    apply refines_RouteMessage, _.
  - apply preserves_bind; [apply _|apply preserves_gets, _|]. intros u. apply Hm.
Qed.

(** What a read may do to the world: the errors left to come. *)
Lemma socket_error_cases w :
  socket_open (socket w) = true ->
  (exists es, socket_error w = (Ret tt, set_socket (set_errors es (socket w)) w) /\
              forall b, b ∈ es -> b ∈ recv_errors (socket w)) \/
  (exists es, socket_error w = (Throw zmq_error, set_socket (set_errors es (socket w)) w) /\
              recv_errors (socket w) = true :: es).
Proof.
  intros Ho. unfold socket_error. rewrite Ho. cbn [negb].
  destruct (recv_errors (socket w)) as [|[] es] eqn:Ee.
  - left. exists []. split; [|intros b Hb; by apply elem_of_nil in Hb].
    unfold set_errors. rewrite <- Ee. by destruct w as [????????????? []].
  - right. by exists es.
  - left. exists es. split; [done|]. intros b Hb. by right.
Qed.

Lemma while_receive l n w :
  inbox (socket w) = l -> (length l < n)%nat ->
  running_ w = true -> socket_open (socket w) = true ->
  while_fuel n (gets running_) receive_turn w = routed l w.
Proof.
  revert n w. induction l as [l IH] using (induction_ltof1 _ (@length _)). unfold ltof in IH.
  intros n w Hi Hn Hr Ho. destruct n as [|n]; [lia|]. cbn [while_fuel].
  unfold receive_turn, socket_recv, unread, modify, gets, ret, bind. rewrite Hr.
  destruct l as [|i l]; cbn [routed]; unfold unread, modify, ret, bind;
    destruct (socket_error_cases w Ho) as [(es & -> & _)|(es & -> & _)]; try done;
    cbn [socket set_socket set_errors inbox]; rewrite Hi; [done|].
  set (w1 := set_socket (set_inbox l _) _).
  destruct (socket_error_cases w1 Ho) as [(es' & -> & _)|(es' & -> & _)]; [|done].
  destruct l as [|d l]; [done|].
  cbn [socket set_socket set_errors inbox set_inbox w1].
  set (w2 := set_socket (set_inbox l _) _).
  pose proof (receive_message_loop i d w2) as Hl.
  destruct (receive_message i d w2) as [[[]|e|f] w3]; [|done|done].
  cbn in Hl. apply IH; [cbn; lia| |cbn in Hn; lia| |]; destruct Hl as [Hs Hrn _ _ _ _ _].
  + by rewrite Hs.
  + by rewrite Hrn.
  + by rewrite Hs.
Qed.

(** ** The registry through the loop *)
Lemma wok_online lk P x w i :
  wok lk P x w -> wok lk P x (set_sessions (alter (set_online false) i (sessions w)) w).
Proof.
  intros Hw. destruct (sessions w !! i) as [s|] eqn:Hi.
  - assert (alter (set_online false) i (sessions w) = <[i := set_online false s]> (sessions w))
      as ->.
    { apply map_eq. intros j. rewrite lookup_alter, lookup_insert.
      case_decide; [subst; by rewrite Hi|done]. }
    eapply (wok_on lk P x w i s (set_online false s) w); [done|done|].
    split; [done|]. split; [apply (wok_heap _ _ _ _ Hw i s Hi)|]. by eapply wok_outside.
  - assert (alter (set_online false) i (sessions w) = sessions w) as ->.
    { apply alter_id. intros s Hs. congruence. }
    by destruct w.
Qed.

Lemma wok_sessions lk P x w w' :
  wok lk P x w -> registry_mutex_ w' = registry_mutex_ w -> locals w' = locals w ->
  storage_alive w' = storage_alive w -> pending_sends_mutex_ w' = pending_sends_mutex_ w ->
  storage_ w' = storage_ w -> active_clients_ w' = active_clients_ w ->
  identity_to_name_ w' = identity_to_name_ w -> next_address w' = next_address w ->
  sessions w' = sessions w -> wok lk P x w'.
Proof.
  intros [] E1 E2 E3 E4 E5 E6 E7 E8 E9.
  split; rewrite ?E1, ?E2, ?E3, ?E4, ?E5, ?E6, ?E7, ?E8, ?E9; done.
Qed.

Lemma wok_answered lk P x l ts w :
  wok lk P x w -> wok lk P x (set_sessions (answered_all l ts (sessions w)) w).
Proof.
  unfold answered_all. generalize (combine l ts). clear. intros l. revert w.
  induction l as [|[s t] l IH]; intros w Hw; cbn; [by destruct w|].
  assert (wok lk P x (set_sessions (answered s t (sessions w)) w)) as Hw'.
  { unfold answered. destruct t as [|[]]; [| |]; destruct (callback s) as [c|];
      try (by apply wok_online); by destruct w. }
  apply (IH _ Hw').
Qed.

Lemma wok_sends_done P ts fs rs w : rok P w -> rok P (sends_done ts fs rs w).
Proof.
  intros Hw. unfold sends_done, after_sends.
  destruct (pending_sends_ w) as [|s l]; [by apply (wok_sessions _ _ _ w)|].
  eapply wok_sessions; [by apply (wok_answered _ _ _ (s :: l) ts w)|done..].
Qed.

Lemma ok_receive_message P i d : keeps (rok P) loop_stuck (receive_message (St := St) i d).
Proof.
  assert (forall op, keeps (rok P) loop_stuck (metric (St := St) op)) as Hm.
  { intros op. eapply keeps_stuck, ok_metric. by left. }
  unfold receive_message, ScopedMetricsTimer. apply keeps_try_catch; [|by intros _; apply Hm].
  apply keeps_bind; [apply keeps_gets|]. intros t. apply keeps_finally; [by left| |].
  - apply keeps_bind; [apply Hm|]. intros _. apply keeps_bind; [apply Hm|]. intros _.
    intros w Hw. apply wp_bind. unfold wp, lift. pose proof (decoded d) as Hd.
    destruct (Deserialize _ _ _) as [m|e|f]; [|done|by right].
    eapply keeps_stuck, Hw; [|apply ok_RouteMessage]. by left.
  - apply keeps_bind; [apply keeps_gets|]. intros u. apply Hm.
Qed.

Lemma keeps_socket_error I F :
  (forall s w, I w -> I (set_socket s w)) -> keeps I F (socket_error (St := St)).
Proof.
  intros HI w Hw. unfold wp, socket_error. destruct (negb _); [done|].
  destruct (recv_errors _) as [|[] es]; [done|by apply HI..].
Qed.

Lemma keeps_routed I F l :
  (forall s w, I w -> I (set_socket s w)) ->
  (forall i d, keeps I F (receive_message (St := St) i d)) -> keeps I F (routed l).
Proof.
  intros HI Hm. induction l as [l IH] using (induction_ltof1 _ (@length _)). unfold ltof in IH.
  assert (forall l', keeps I F (unread l')) as Hu by (intros l'; apply keeps_modify; auto).
  destruct l as [|i l]; cbn [routed]; (apply keeps_bind; [by apply keeps_socket_error|]); intros _.
  { apply keeps_pure. }
  apply keeps_bind; [apply Hu|]. intros _. apply keeps_bind; [by apply keeps_socket_error|]. intros _.
  destruct l as [|d l]; [apply keeps_pure|]. apply keeps_bind; [apply Hu|]. intros _.
  apply keeps_bind; [apply Hm|]. intros _. apply IH. cbn. lia.
Qed.

Lemma ok_routed P l : keeps (rok P) loop_stuck (routed l).
Proof.
  apply keeps_routed; [|apply ok_receive_message]. intros s w Hw. by apply (wok_sessions _ _ _ w).
Qed.

Lemma receive_message_returns i d w e w' : receive_message i d w <> (Throw e, w').
Proof.
  unfold receive_message, try_catch. destruct (ScopedMetricsTimer _ w) as [[]?]; done.
Qed.

(** What reading leaves alone, and how it ends: everything read, or one of the reads threw. *)
Record reads w w' : Prop := {
  rd_running : running_ w' = running_ w;
  rd_open : socket_open (socket w') = socket_open (socket w);
  rd_wire : wire (socket w') = wire (socket w);
  rd_waiting : waiting w' = waiting w;
  rd_errors : forall b, b ∈ recv_errors (socket w') -> b ∈ recv_errors (socket w);
}.

Definition read_to_end (w : World St) (o : result unit * World St) : Prop :=
  match o with
  | (Ret _, w') => reads w w' /\ inbox (socket w') = []
  | (Throw e, w') => reads w w' /\ e = zmq_error /\ true ∈ recv_errors (socket w)
  | (Stuck _, _) => True
  end.

Lemma read_to_end_trans w w1 o : reads w w1 -> read_to_end w1 o -> read_to_end w o.
Proof.
  assert (forall w', reads w w1 -> reads w1 w' -> reads w w') as Ht.
  { intros w' [] []. split; try congruence. auto. }
  unfold read_to_end. intros Hw. destruct o as [[[]|e|f] w']; [naive_solver| |done].
  intros (Hw' & -> & He). split; [by apply Ht|]. split; [done|]. by apply (rd_errors _ _ Hw).
Qed.

Lemma routed_end l w :
  inbox (socket w) = l -> socket_open (socket w) = true -> read_to_end w (routed l w).
Proof.
  revert w. induction l as [l IH] using (induction_ltof1 _ (@length _)). unfold ltof in IH.
  intros w Hi Ho. destruct l as [|i l]; cbn [routed]; unfold bind at 1.
  all: destruct (socket_error_cases w Ho) as [(es & -> & He)|(es & -> & He)];
    [|split; [split; try done; rewrite He; by right|rewrite He; split; [done|by left]]].
  { by split. }
  unfold unread, modify, bind. set (w1 := set_socket (set_inbox l _) _).
  apply (read_to_end_trans w w1); [by split|].
  destruct (socket_error_cases w1 Ho) as [(es' & -> & He')|(es' & -> & He')];
    [|split; [split; try done; rewrite He'; by right|rewrite He'; split; [done|by left]]].
  destruct l as [|d l]; [by split|]. set (w2 := set_socket (set_inbox l _) _).
  pose proof (receive_message_loop i d w2) as Hl.
  pose proof (receive_message_returns i d w2) as Hn.
  destruct (receive_message i d w2) as [[[]|e|f] w3]; [|by destruct (Hn e w3)|done].
  cbn in Hl. destruct Hl as [Hs Hr _ Hwt _ _ _].
  apply (read_to_end_trans w1 w3); [by split; rewrite ?Hs|]. apply IH; [cbn; lia|by rewrite Hs..].
Qed.

(** ** Properties *)

(** C25. The receive loop is the reference: it comes back after routing the frames that were
    there two by two, in the order they came, the first of a pair as the identity and
    the second as the message; an odd frame at the end is dropped.  No message, however
    broken, stops it or makes it skip a frame, so the bound on its turns is never met. *)
Theorem receive_loop_routed w :
  running_ w = true -> socket_open (socket w) = true ->
  receive_loop w = routed (inbox (socket w)) w.
Proof.
  intros Hr Ho. unfold receive_loop, bind, gets. apply while_receive; [done|lia|done|done].
Qed.

(** The frames of the queue that go out, and whether a turn of the pass calls back a session
    that has gone: it fails, with the answers the socket has ready, and its callback dangles. *)
Definition frames_out w : list frame :=
  let '(_, fs, _) :=
    sends_ref (socket_open (socket w)) (send_results (socket w)) (pending_sends_ w) in fs.
Definition refused_for_gone w : Prop :=
  let '(ts, _, _) :=
    sends_ref (socket_open (socket w)) (send_results (socket w)) (pending_sends_ w) in
  Exists (turn_dangles w) (combine (pending_sends_ w) ts).

(** The pass in [OnZmqEvent]. *)
Lemma event_sends w :
  rok [] w -> running_ w = true -> socket_open (socket w) = true ->
  (refused_for_gone w /\ fst (ProcessPendingSends w) = Stuck UseAfterFree) \/
  (~ refused_for_gone w /\ exists w1, ProcessPendingSends w = (Ret tt, w1) /\
     rok [] w1 /\ running_ w1 = true /\ socket_open (socket w1) = true /\
     wire (socket w1) = wire (socket w) ++ frames_out w /\ waiting w1 = waiting w /\
     recv_errors (socket w1) = recv_errors (socket w) /\ inbox (socket w1) = inbox (socket w)).
Proof.
  intros Hw Hr Ho. assert (pending_sends_mutex_ w = false) as Hm by apply Hw.
  unfold refused_for_gone, frames_out. destruct (sends_ref _ _ _) as [[ts fs] rs] eqn:Er.
  destruct (turns_safe_dec w (combine (pending_sends_ w) ts)) as [Hs|Hg].
  - right. split.
    { intros (p & Hp & Ht & c & Hc & Hn)%Exists_exists. rewrite Forall_forall in Hs.
      destruct (Hs p Hp) as [|Ha]; [done|]. destruct (Ha c Hc). congruence. }
    exists (sends_done ts fs rs w). split; [by apply ProcessPendingSends_safe|].
    split; [by apply wok_sends_done|]. unfold sends_done. destruct (pending_sends_ w) as [|s l]; [|done].
    cbn in Er. injection Er as <- <- <-. by rewrite app_nil_r.
  - left. split; [done|]. by eapply ProcessPendingSends_gone.
Qed.

(** Reading the socket, when it is readable, is reading it through the reference or not at
    all. *)
Lemma read_socket w :
  running_ w = true -> socket_open (socket w) = true ->
  (if match inbox (socket w) with [] => false | _ => true end then receive_loop else ret tt) w =
    match inbox (socket w) with [] => (Ret tt, w) | l => routed l w end.
Proof.
  intros Hr Ho. destruct (inbox (socket w)) as [|f l] eqn:Ei; [done|].
  unfold receive_loop, bind, gets. rewrite Ei. apply while_receive; [done|lia|done|done].
Qed.

(** The rest of [OnZmqEvent], from the look at [events] on. *)
Definition event_reads : M (World St) unit :=
  readable <- socket_readable ;;
  (if (readable : bool) then receive_loop else ret tt) ;;;
  running <- gets running_ ;;
  if (running : bool) then async_wait else ret tt.

Lemma event_reads_outcome w :
  rok [] w -> running_ w = true -> socket_open (socket w) = true -> waiting w = false ->
  match event_reads w with
  | (Ret _, w') => rok [] w' /\ inbox (socket w') = [] /\ waiting w' = true /\
                   running_ w' = true /\ wire (socket w') = wire (socket w)
  | (Throw e, w') => e = zmq_error /\ true ∈ recv_errors (socket w) /\ rok [] w' /\
                     waiting w' = false /\ wire (socket w') = wire (socket w)
  | (Stuck f, _) => loop_stuck f
  end.
Proof.
  intros Hw Hr Ho Hwt. unfold event_reads, socket_readable, bind at 1 2, gets at 1.
  assert (forall es, rok [] (set_socket (set_errors es (socket w)) w)) as Hes
    by (intros es; by apply (wok_sessions _ _ _ w)).
  destruct (socket_error_cases w Ho) as [(es & -> & He)|(es & -> & He)];
    [|split; [done|]; rewrite He; split; [by left|done]].
  set (w1 := set_socket _ w). assert (rok [] w1) as Hw1 by apply Hes.
  unfold bind at 1. rewrite read_socket by done.
  pose proof (ok_routed [] (inbox (socket w1)) w1 Hw1) as Hk. unfold wp in Hk.
  pose proof (routed_end (inbox (socket w1)) w1 eq_refl Ho) as Hend.
  destruct (inbox (socket w1)) as [|f l] eqn:Ei.
  { cbn. rewrite Hr. split; [by apply (wok_sessions _ _ _ w1)|done]. }
  destruct (routed (f :: l) w1) as [[[]|e|st] w2]; [| |done]; cbn in Hend.
  - destruct Hend as [[Hrn _ Hwr _ _] Hi]. unfold bind, gets, async_wait, modify. rewrite Hrn.
    change (running_ w1) with (running_ w). rewrite Hr.
    split; [by apply (wok_sessions _ _ _ w2)|]. split; [done|]. split; [done|].
    split; [|exact Hwr]. change (running_ w2 = true). by rewrite Hrn.
  - destruct Hend as ([Hrn _ Hwr Hwt' _] & -> & Ht). split; [done|].
    split; [by apply He|]. split; [done|]. split; [by rewrite Hwt'|exact Hwr].
Qed.

(** C21. [OnZmqEvent] on a running server with a consistent registry: when it comes back, it
    has sent what the socket took of the queue and read the socket dry, the registry is
    consistent and the descriptor is waited for again.  It throws only what a read of the
    socket throws, after the sending, and nobody has waited for the descriptor then.  It is
    stopped only by a refused send on behalf of a session that has gone, which always stops
    it, by a destructor that throws and, in a hardened build, by the check of
    [data[pos]]. *)
Theorem OnZmqEvent_outcome w :
  rok [] w -> running_ w = true -> socket_open (socket w) = true ->
  match OnZmqEvent no_error w with
  | (Ret _, w') =>
      ~ refused_for_gone w /\ wire (socket w') = wire (socket w) ++ frames_out w /\
      rok [] w' /\ inbox (socket w') = [] /\ waiting w' = true /\ running_ w' = true
  | (Throw e, w') =>
      e = zmq_error /\ true ∈ recv_errors (socket w) /\ ~ refused_for_gone w /\
      wire (socket w') = wire (socket w) ++ frames_out w /\ rok [] w' /\ waiting w' = false
  | (Stuck f, _) =>
      (f = UseAfterFree /\ refused_for_gone w) \/ (loop_stuck f /\ ~ refused_for_gone w)
  end.
Proof.
  intros Hw Hr Ho. unfold OnZmqEvent, bind at 1, modify at 1. set (w1 := set_waiting false w).
  unfold bind at 1, gets at 1. change (running_ w1) with (running_ w). rewrite Hr. cbn [negb].
  unfold bind at 1. rewrite UpdateQueueMetrics_eq by apply Hw. set (w2 := set_metrics _ w1).
  fold event_reads. unfold bind at 1.
  change (refused_for_gone w) with (refused_for_gone w2).
  change (frames_out w) with (frames_out w2).
  destruct (event_sends w2) as [[Hg E]|(Hg & w3 & E & Hw3 & Hr3 & Ho3 & Hwr & Hwt & He & _)];
    [by apply (wok_sessions _ _ _ w)|done|done| |].
  { destruct (ProcessPendingSends w2) as [r w3]. cbn in E. subst r. by left. }
  rewrite E. pose proof (event_reads_outcome w3 Hw3 Hr3 Ho3 Hwt) as Hk.
  destruct (event_reads w3) as [[[]|e|f] w4]; [| |by right].
  - destruct Hk as (? & ? & ? & ? & Hw4). split; [done|]. split; [by rewrite Hw4|done].
  - destruct Hk as (? & He' & ? & ? & Hw4). split; [done|]. rewrite He in He'. split; [exact He'|].
    split; [done|]. split; [by rewrite Hw4|done].
Qed.
End EventLoop.
