(* ===== verification/Reachable.v ===== *)
(** A running server, whatever happens to it: any sequence of arriving frames, answers of
    the socket, passing time, descriptor events, posted handlers, timers and stops, one
    handler at a time, and what of it can stop the server. *)
From Stdlib Require Import ZArith Lia Strings.Byte.
From S2P Require Import Prelude Words Message Interfaces Config Metrics Session World.
From S2P Require Import Router RouterSpec Handlers HandlersSpec Cleanup Routing Registration Idle.
From S2P Require Import Redelivery Server ServerSpec EventLoop.
Open Scope Z_scope.
Open Scope broker_scope.

(** ** Sequences of events

    While time passes the database changes by itself: its clock moves, and so does which of
    its next statements fail; [tick] is that change, free but for [tick_ok]. *)
Inductive server_event (St : Type) : Type :=
| Arrives (frames : list (list byte))
| Answers (results : list send_result)
| Read_errors (errors : list bool)
| Passes (ns : Z) (tick : St -> St)
| Socket_ready (ec : error_code)
| Posted_runs
| Ack_timer_fires (ec : error_code)
| Cleanup_timer_fires (ec : error_code)
| Stop_called.
Arguments Arrives {St} _.
Arguments Answers {St} _.
Arguments Read_errors {St} _.
Arguments Passes {St} _ _.
Arguments Socket_ready {St} _.
Arguments Posted_runs {St}.
Arguments Ack_timer_fires {St} _.
Arguments Cleanup_timer_fires {St} _.
Arguments Stop_called {St}.

Section Serve.
Context {St : Type} `{IStorage St} `{Host} `{HashOrder}.

(** One event: the environment's share, or the handler the loop runs for it. *)
Definition serve_one (e : server_event St) : M (World St) unit :=
  match e with
  | Arrives fs => modify (fun w => set_socket (set_inbox (inbox (socket w) ++ fs) (socket w)) w)
  | Answers rs => modify (fun w =>
      set_socket (set_results (send_results (socket w) ++ rs) (socket w)) w)
  | Read_errors es => modify (fun w =>
      set_socket (set_errors (recv_errors (socket w) ++ es) (socket w)) w)
  | Passes ns tick => modify (fun w =>
      set_storage (tick (storage_ w)) (set_clock (clock_ w + ns) w))
  | Socket_ready ec => handler (OnZmqEvent ec)
  | Posted_runs => handler posted_handler
  | Ack_timer_fires ec => handler (on_ack_timer ec)
  | Cleanup_timer_fires ec => handler (on_cleanup_timer ec)
  | Stop_called => Stop
  end.

Fixpoint serve (l : list (server_event St)) : M (World St) unit :=
  match l with
  | [] => ret tt
  | e :: l' => serve_one e ;;; serve l'
  end.
End Serve.

(** ** Calls that do not throw *)
Definition is_throw {A} (r : result A) : bool := match r with Throw _ => true | _ => false end.
Definition no_throw {S A} (m : M S A) : Prop := forall s, is_throw (fst (m s)) = false.

Section NoThrow.
Context {S : Type}.

Lemma no_throw_bind {A B} (m : M S A) (k : A -> M S B) :
  no_throw m -> (forall a, no_throw (k a)) -> no_throw (bind m k).
Proof.
  intros Hm Hk s. specialize (Hm s). unfold bind. destruct (m s) as [[a|e|f] s']; [apply Hk|done|done].
Qed.

Lemma no_throw_try {A} (m : M S A) h : (forall e, no_throw (h e)) -> no_throw (try_catch m h).
Proof. intros Hh s. unfold try_catch. destruct (m s) as [[a|e|f] s']; [done|apply Hh|done]. Qed.

Lemma no_throw_for_each {A} (l : list A) body :
  (forall x, no_throw (body x)) -> no_throw (for_each (S := S) l body).
Proof.
  intros Hb. induction l as [|x l IH]; [done|]. apply no_throw_bind; [apply Hb|]. by intros [].
Qed.

Lemma no_throw_lock {A} held set (m : M S A) : no_throw m -> no_throw (lock_guard held set m).
Proof.
  intros Hm s. unfold lock_guard. destruct (held s); [done|]. specialize (Hm (set true s)).
  by destruct (m (set true s)) as [[]?].
Qed.
End NoThrow.

Ltac no_throws tac := repeat first
  [ solve [tac] | done
  | apply no_throw_bind; [|intros ?] | apply no_throw_try; intros ?
  | apply no_throw_for_each; intros ? | apply no_throw_lock | case_match ].

(** ** What can stop the server *)
Definition takes_all (rs : list send_result) : Prop := Forall (eq SendOk) rs.
Definition reads_all (es : list bool) : Prop := Forall (eq false) es.

Lemma reads_all_not es : reads_all es -> true ∉ es.
Proof. unfold reads_all. rewrite Forall_forall. intros Hes Ht. by specialize (Hes true Ht). Qed.

(** The ways out, and what each needs: a hardened build; a refused send, or a stop, when a
    session has gone that the queue still names; a storage that throws under a timer, or a
    read of the socket that throws; a cleanup.  [fair] and [firm] say that no send is
    refused and that no read throws. *)
Definition blame {St} `{Host} (firm fair : bool) (e : server_event St) (f : stuck) : Prop :=
  match f with
  | AssertionFailed => glibcxx_assertions = true
  | UseAfterFree => fair = false \/ e = Stop_called
  | Terminate => e = Ack_timer_fires no_error \/ (firm = false /\ e = Socket_ready no_error)
  | Deadlock => e = Cleanup_timer_fires no_error
  | _ => False
  end.

Definition fair_event {St} (fair : bool) (e : server_event St) : Prop :=
  match e with
  | Answers rs => fair = true -> takes_all rs
  | _ => True
  end.

Definition firm_event {St} (firm : bool) (e : server_event St) : Prop :=
  match e with
  | Read_errors es => firm = true -> reads_all es
  | _ => True
  end.

Definition tick_ok {St} `{IStorageLaws St} (e : server_event St) : Prop :=
  match e with
  | Passes _ tick => forall s, st_ok s -> st_ok (tick s) /\ view (tick s) = view s
  | _ => True
  end.

Section Sound.
Context {St : Type} `{IStorageLaws St} `{Host} `{HashOrder}.
Implicit Types (w : World St) (P : list (option nat)).
Context (firm : bool).

Record sound (fair : bool) w : Prop := {
  sd_quiet : quiet false [] w;
  sd_open : running_ w = true -> socket_open (socket w) = true;
  sd_fair : fair = true -> takes_all (send_results (socket w));
  sd_firm : firm = true -> reads_all (recv_errors (socket w));
}.

Lemma sound_loop fair w w' : sound fair w -> quiet false [] w' -> same_loop w w' -> sound fair w'.
Proof. intros [_ Ho Hf Hm] Hq [Hs Hr]. split; [done|by rewrite Hs, Hr|by rewrite Hs..]. Qed.

(** A call of the router. *)
Lemma sound_call {A} F fair (m : M (World St) A) :
  keeps (quiet false []) F m -> preserves same_loop m -> keeps (sound fair) F m.
Proof.
  intros Hm Hl w Hw. specialize (Hm w (sd_quiet _ _ Hw)). specialize (Hl w). unfold wp in *.
  destruct (m w) as [[a|e|f] w']; [| |done]; by eapply sound_loop.
Qed.

(** ** Sending, with callbacks that may dangle *)
Definition dangles (fair : bool) (f : stuck) : Prop := f = UseAfterFree /\ fair = false.

Lemma quiet_set_online lk P i s w :
  sessions w !! i = Some s -> quiet lk P w ->
  quiet lk P (set_sessions (<[i := set_online false s]> (sessions w)) w).
Proof.
  intros Hs [Hw Hid]. split.
  - assert (<[i := set_online false s]> (sessions w) = alter (set_online false) i (sessions w))
      as ->; [|by apply wok_online].
    apply map_eq. intros j. rewrite lookup_alter, lookup_insert. case_decide; [|done].
    subst. by rewrite Hs.
  - intros j t. cbn. intros [(_ & <-)|(_ & Hj)]%lookup_insert_Some; [|by apply (Hid j)].
    by apply (Hid i s).
Qed.

(** A running server at work on its socket. *)
Definition busy (fair : bool) w : Prop := sound fair w /\ running_ w = true.

(** A callback after a failure; a socket that takes everything never calls one so. *)
Lemma busy_callback fair c :
  fair = false -> keeps (busy fair) (dangles fair) (call_back (St := St) c false).
Proof.
  intros ->. destruct c as [c|]; [|apply keeps_pure]. intros w [[Hq Ho Hf Hm] Hr].
  unfold wp, call_back, on, MarkOffline.
  destruct (sessions w !! cb_this c) as [s|] eqn:Hs; [|by split].
  cbn. split; [|done]. split; [|done..]. by apply quiet_set_online.
Qed.

Lemma quiet_set_socket lk P s w : quiet lk P w -> quiet lk P (set_socket s w).
Proof. intros [Hw Hi]. split; [by apply (wok_sessions _ _ _ w)|done]. Qed.

Lemma busy_socket_send fair b more w :
  busy fair w ->
  wp (dangles fair) (socket_send b more) w
    (fun r w' => busy fair w' /\ (r = false -> fair = false))
    (fun w' => busy fair w' /\ fair = false).
Proof.
  intros [[Hq Ho Hf Hm] Hr]. unfold wp, socket_send. specialize (Ho Hr). rewrite Ho. cbn [negb].
  assert (forall s : Socket, socket_open s = true -> (fair = true -> takes_all (send_results s)) ->
    recv_errors s = recv_errors (socket w) -> busy fair (set_socket s w)) as Hb.
  { intros s Hs Ht He. split; [|done]. split; [by apply quiet_set_socket|done|done|].
    cbn. by rewrite He. }
  destruct (send_results (socket w)) as [|[] rs] eqn:Er.
  - split; [|done]. apply Hb; [done| |done]. intros _. apply Forall_nil_2.
  - split; [|done]. apply Hb; [done| |done]. intros E. by apply Hf, Forall_cons in E as [_ ?].
  - destruct fair; [by specialize (Hf eq_refl); apply Forall_cons in Hf as []|].
    split; [|done]. by apply Hb.
  - destruct fair; [by specialize (Hf eq_refl); apply Forall_cons in Hf as []|].
    split; [|done]. by apply Hb.
Qed.

(** One frame, and then the answer of the socket. *)
Lemma busy_send_then {A} fair b more (k : bool -> M (World St) A) w E :
  busy fair w ->
  (forall w', busy fair w' -> fair = false -> E w') ->
  (forall w', busy fair w' -> wp (dangles fair) (k true) w' (fun _ => busy fair) E) ->
  (fair = false -> forall w', busy fair w' -> wp (dangles fair) (k false) w' (fun _ => busy fair) E) ->
  wp (dangles fair) (r <- socket_send b more ;; k r) w (fun _ => busy fair) E.
Proof.
  intros Hw HE Ht Hf. apply wp_bind. eapply wp_conseq; [by apply busy_socket_send| |].
  - intros [] w' [Hw' Hr]; [by apply Ht|apply Hf; [by apply Hr|done]].
  - intros w' []. by apply HE.
Qed.

Lemma busy_send_frames fair s : keeps (busy fair) (dangles fair) (send_frames (St := St) s).
Proof.
  assert (forall t : turn, fair = false -> keeps (busy fair) (dangles fair)
    (call_back (St := St) (callback s) false ;;; ret t)) as Hc.
  { intros t Hf. apply keeps_bind; [by apply busy_callback|]. intros _. apply keeps_pure. }
  intros w Hw. unfold send_frames. apply wp_try_catch.
  assert (forall w', busy fair w' -> fair = false -> forall e : exn,
    wp (dangles fair) (call_back (callback s) false ;;; ret (Finished false)) w'
      (fun _ => busy fair) (busy fair)) as HE by (intros; by apply Hc).
  assert (forall t : turn, fair = false -> forall w', busy fair w' ->
    wp (dangles fair) (call_back (callback s) false ;;; ret t) w' (fun _ => busy fair)
      (fun w' => forall e : exn,
        wp (dangles fair) (call_back (callback s) false ;;; ret (Finished false)) w'
          (fun _ => busy fair) (busy fair))) as Hfail.
  { intros t Hf w' Hw'. eapply wp_conseq; [by apply Hc|done|]. intros w2 Hw2. by apply HE. }
  apply busy_send_then; [done|done| |exact (Hfail Skipped)]. clear w Hw. intros w Hw. cbn [negb].
  apply busy_send_then; [done|done| |exact (Hfail Skipped)]. clear w Hw. intros w Hw. cbn [negb].
  apply busy_send_then; [done|done| |exact (Hfail (Finished false))]. clear w Hw. intros w Hw.
  cbn [negb]. apply wp_bind. destruct (callback s); by apply wp_ret, wp_ret.
Qed.

(** What a busy server may do to the rest of its state. *)
Lemma busy_local fair f w :
  busy fair w -> (quiet false [] w -> quiet false [] (f w)) -> socket (f w) = socket w ->
  running_ (f w) = running_ w -> busy fair (f w).
Proof.
  intros [[Hq Ho Hf Hm] Hr] Hf1 Hs Hr'. split; [|congruence].
  split; [by apply Hf1|by rewrite Hs, Hr'|by rewrite Hs..].
Qed.

Lemma quiet_flags w w' :
  quiet false [] w -> registry_mutex_ w' = registry_mutex_ w -> locals w' = locals w ->
  storage_alive w' = storage_alive w -> pending_sends_mutex_ w' = pending_sends_mutex_ w ->
  storage_ w' = storage_ w -> active_clients_ w' = active_clients_ w ->
  identity_to_name_ w' = identity_to_name_ w -> next_address w' = next_address w ->
  sessions w' = sessions w -> quiet false [] w'.
Proof.
  intros [Hw Hi] **. split; [by apply (wok_sessions _ _ _ w)|]. intros j t Hj. apply (Hi j). congruence.
Qed.

Lemma busy_flags fair w w' :
  busy fair w -> registry_mutex_ w' = registry_mutex_ w -> locals w' = locals w ->
  storage_alive w' = storage_alive w -> pending_sends_mutex_ w' = pending_sends_mutex_ w ->
  storage_ w' = storage_ w -> active_clients_ w' = active_clients_ w ->
  identity_to_name_ w' = identity_to_name_ w -> next_address w' = next_address w ->
  sessions w' = sessions w -> socket w' = socket w -> running_ w' = running_ w -> busy fair w'.
Proof. intros Hw **. apply (busy_local fair (fun _ => w') w Hw); [|done..]. intros Hq. by apply (quiet_flags w). Qed.

Lemma busy_unlocked fair w : busy fair w -> pending_sends_mutex_ w = false.
Proof. intros [[[Hw _] _ _] _]. apply Hw. Qed.

Lemma busy_metric fair F op : keeps (busy fair) F (metric (St := St) op).
Proof. apply keeps_modify. intros w Hw. by apply (busy_flags fair w). Qed.

Lemma busy_UpdateQueueMetrics fair F : keeps (busy fair) F (UpdateQueueMetrics (St := St)).
Proof.
  intros w Hw. unfold wp. rewrite UpdateQueueMetrics_eq by by eapply busy_unlocked.
  by apply (busy_flags fair w).
Qed.

Lemma busy_finish fair F : keeps (busy fair) F (finish_sends (St := St)).
Proof.
  intros w Hw. unfold wp, finish_sends, with_sends_lock, lock_guard.
  pose proof (busy_unlocked _ _ Hw) as Hm. rewrite Hm. unfold bind, modify, gets. cbn.
  destruct (pending_sends_ w); cbn; by apply (busy_flags fair w).
Qed.

Lemma busy_process_send fair s : keeps (busy fair) (dangles fair) (process_send (St := St) s).
Proof.
  unfold process_send. apply keeps_bind; [apply busy_send_frames|]. intros t.
  solve_keeps ltac:(apply busy_metric).
Qed.

Lemma busy_ProcessPendingSends fair :
  keeps (busy fair) (dangles fair) (ProcessPendingSends (St := St)).
Proof.
  assert (forall l, keeps (busy fair) (dangles fair)
    (for_each l process_send ;;; finish_sends ;;; UpdateQueueMetrics (St := St))) as Hk.
  { intros l. apply keeps_bind.
    { apply keeps_for_each. intros s _. apply busy_process_send. }
    intros _. apply keeps_bind; [apply busy_finish|]. intros _. apply busy_UpdateQueueMetrics. }
  intros w Hw. unfold ProcessPendingSends. apply wp_bind. unfold wp at 1.
  rewrite take_sends_eq by by eapply busy_unlocked.
  destruct (pending_sends_ w) as [|s l]; [by apply (busy_flags fair w)|].
  apply (Hk (s :: l)). by apply (busy_flags fair w).
Qed.

(** ** Receiving *)
Lemma quiet_receive_message i d :
  keeps (quiet false []) asserts
    (receive_message (St := St) i d).
Proof.
  assert (forall op, keeps (quiet false []) asserts (metric (St := St) op)) as Hm
    by (intros op; eapply keeps_stuck, quiet_metric; by intros f []).
  unfold receive_message, ScopedMetricsTimer. apply keeps_try_catch; [|by intros _; apply Hm].
  apply keeps_bind; [apply keeps_gets|]. intros t. apply keeps_finally_returns.
  - apply keeps_bind; [apply Hm|]. intros _. apply keeps_bind; [apply Hm|]. intros _ w Hw.
    apply wp_bind. unfold wp at 1, lift. pose proof (decoded d) as Hd.
    destruct (Deserialize _ _ d) as [m|e|f]; [|done|done].
    eapply keeps_stuck, Hw; [|apply quiet_RouteMessage]. done.
  - intros w Hw. eexists. split; [reflexivity|]. by apply (quiet_flags w).
Qed.

(** What a read of the socket does to the errors to come. *)
Lemma sound_errors fair es w :
  sound fair w -> (forall b, b ∈ es -> b ∈ recv_errors (socket w)) ->
  sound fair (set_socket (set_errors es (socket w)) w).
Proof.
  intros [Hq Ho Hf Hm] He. split; [by apply quiet_set_socket|done|done|].
  intros E. cbn. apply Forall_forall. intros b Hb. specialize (Hm E). unfold reads_all in Hm.
  rewrite Forall_forall in Hm. by apply Hm, He.
Qed.

Lemma sound_socket_error fair F : keeps (sound fair) F (socket_error (St := St)).
Proof.
  intros w Hw. unfold wp. destruct (socket_open (socket w)) eqn:Ho.
  - destruct (socket_error_cases w Ho) as [(es & -> & He)|(es & -> & He)]; apply sound_errors; try done.
    intros b Hb. rewrite He. by right.
  - unfold socket_error. by rewrite Ho.
Qed.

Lemma sound_routed fair l : keeps (sound fair) asserts (routed (St := St) l).
Proof.
  assert (forall l', keeps (sound fair) asserts (unread (St := St) l')) as Hu.
  { intros l'. apply keeps_modify. intros w [Hq Ho Hf Hm]. split; [by apply quiet_set_socket|done..]. }
  induction l as [l IH] using (induction_ltof1 _ (@length _)). unfold ltof in IH.
  destruct l as [|i l]; cbn [routed]; (apply keeps_bind; [apply sound_socket_error|]); intros _.
  { apply keeps_pure. }
  apply keeps_bind; [apply Hu|]. intros _. apply keeps_bind; [apply sound_socket_error|]. intros _.
  destruct l as [|d l]; [apply keeps_pure|]. apply keeps_bind; [apply Hu|]. intros _.
  apply keeps_bind.
  - apply sound_call; [apply quiet_receive_message|apply receive_message_loop].
  - intros _. apply IH. cbn. lia.
Qed.

Lemma firm_false fair w : sound fair w -> true ∈ recv_errors (socket w) -> firm = false.
Proof.
  intros [_ _ _ Hm] Ht. destruct firm; [|done]. by destruct (reads_all_not _ (Hm eq_refl)).
Qed.

(** Reading the socket dry, when it is readable. *)
Lemma busy_receive fair (F : stuck -> Prop) w :
  (forall f, asserts f -> F f) -> busy fair w ->
  wp F (if match inbox (socket w) with [] => false | _ => true end then receive_loop else ret tt) w
    (fun _ => busy fair) (fun _ => firm = false).
Proof.
  intros HF [Hw Hr]. pose proof (sd_open _ _ Hw Hr) as Ho.
  pose proof (sound_routed fair (inbox (socket w)) w Hw) as Hk.
  pose proof (routed_end (inbox (socket w)) w eq_refl Ho) as He. unfold wp in *.
  rewrite read_socket by done. destruct (inbox (socket w)) as [|i l]; [done|].
  destruct (routed _ w) as [[[]|e|f] w4]; [| |by apply HF].
  - destruct He as ([Hr4 _ _ _ _] & _). split; [done|congruence].
  - destruct He as (_ & _ & Ht). by apply (firm_false fair w).
Qed.

(** ** The handlers *)
Lemma no_throw_call_back c b : no_throw (call_back (St := St) c b).
Proof.
  destruct c as [c|], b; try done. intros w. unfold call_back, on. by destruct (sessions w !! cb_this c).
Qed.

Lemma no_throw_ProcessPendingSends : no_throw (ProcessPendingSends (St := St)).
Proof.
  unfold ProcessPendingSends, take_sends, finish_sends, UpdateQueueMetrics, process_send, send_frames,
    with_sends_lock. no_throws ltac:(apply no_throw_call_back).
Qed.

Lemma sends_returns fair (e : server_event St) w :
  busy fair w ->
  wp (blame firm fair e) (ProcessPendingSends (St := St)) w (fun _ => busy fair) (fun _ => False).
Proof.
  intros Hw. pose proof (busy_ProcessPendingSends fair w Hw) as Hk.
  pose proof (no_throw_ProcessPendingSends w) as Hn. unfold wp in *.
  destruct (ProcessPendingSends w) as [[a|x|f] w']; [done|done|].
  destruct Hk as [-> Hf]. by left.
Qed.

Lemma wp_handler F (m : M (World St) unit) w Q :
  wp F m w Q (fun _ => F Terminate) -> wp F (handler m) w Q (fun _ => False).
Proof. intros Hm. unfold wp, handler, try_catch in *. by destruct (m w) as [[]?]. Qed.

Lemma sound_flags fair w w' :
  sound fair w -> socket w' = socket w -> (running_ w' = true -> running_ w = true) ->
  registry_mutex_ w' = registry_mutex_ w -> locals w' = locals w ->
  storage_alive w' = storage_alive w -> pending_sends_mutex_ w' = pending_sends_mutex_ w ->
  storage_ w' = storage_ w -> active_clients_ w' = active_clients_ w ->
  identity_to_name_ w' = identity_to_name_ w -> next_address w' = next_address w ->
  sessions w' = sessions w -> sound fair w'.
Proof.
  intros [Hq Ho Hf Hm] Hs Hr **. split; [by apply (quiet_flags w)|rewrite Hs; auto|by rewrite Hs..].
Qed.

Lemma sound_OnZmqEvent fair (e : server_event St) ec w :
  sound fair w ->
  wp (blame firm fair e) (OnZmqEvent ec) w (fun _ => sound fair)
    (fun _ => firm = false /\ ec = no_error).
Proof.
  intros Hw. unfold OnZmqEvent. apply wp_bind, wp_modify.
  assert (sound fair (set_waiting false w)) as Hw1
    by (by apply (sound_flags fair w)).
  clear Hw. set (w1 := set_waiting false w) in *. clearbody w1. apply wp_bind, wp_gets.
  assert (forall w', sound fair w' -> wp (blame firm fair e) async_wait w' (fun _ => sound fair)
    (fun _ => firm = false /\ ec = no_error))
    as Hwait by (intros w' Hw'; by apply (sound_flags fair w')).
  destruct (running_ w1) eqn:Hr; [|by apply wp_ret]. cbn [negb].
  destruct ec; [|by apply wp_ret|by apply Hwait].
  assert (busy fair w1) as Hb by done. apply wp_bind. unfold wp at 1.
  rewrite UpdateQueueMetrics_eq by by eapply busy_unlocked.
  apply wp_bind. eapply wp_conseq; [apply sends_returns; by apply (busy_flags fair w1)| |done].
  intros ? w2 [Hw2 Hr2]. apply wp_bind. unfold wp at 1, socket_readable, bind at 1, gets at 1.
  destruct (socket_error_cases w2 (sd_open _ _ Hw2 Hr2)) as [(es & -> & He)|(es & -> & He)].
  2: { split; [|done]. apply (firm_false fair w2 Hw2). rewrite He. by left. }
  set (w2' := set_socket _ w2). assert (busy fair w2') as Hb2 by (split; [by apply sound_errors|done]).
  apply wp_bind. eapply wp_conseq; [apply (busy_receive fair); [|exact Hb2]| |done].
  { intros f [-> Hg]. done. }
  intros _ w3 [Hw3 _]. apply wp_bind, wp_gets. destruct (running_ w3); [by apply Hwait|done].
Qed.

Lemma sound_posted fair (e : server_event St) w :
  sound fair w -> wp (blame firm fair e) posted_handler w (fun _ => sound fair) (fun _ => False).
Proof.
  intros Hw. unfold posted_handler. apply wp_bind, wp_modify.
  assert (sound fair (set_posted (pred (posted w)) w)) as Hw1
    by (by apply (sound_flags fair w)).
  apply wp_bind, wp_gets. case_match eqn:Hg; [|done]. apply andb_true_iff in Hg as [Hr _].
  eapply wp_conseq; [by apply sends_returns| |done]. by intros _ w' [].
Qed.

(** *** The timers *)
Lemma target_online w n i :
  target w n = Some i ->
  active_clients_ w !! n = Some i /\ exists s, sessions w !! i = Some s /\ is_online_ s = true.
Proof.
  unfold target. destruct (active_clients_ w !! n) as [j|]; [|done]. cbn.
  destruct (sessions w !! j) as [s|] eqn:Hs; [|done]. cbn.
  destruct (is_online_ s) eqn:Ho; [|done]. intros [= <-]. split; [done|]. by exists s.
Qed.

Lemma quiet_find_online {A} n (k : option nat -> M (World St) A) P w :
  quiet false P w ->
  (forall w', quiet false (None :: P) w' -> wp never (k None) w' (fun _ => quiet false (None :: P)) (quiet false (None :: P))) ->
  (forall i w', awake false i (Some i :: P) w' ->
     wp never (k (Some i)) w' (fun _ => quiet false (Some i :: P)) (quiet false (Some i :: P))) ->
  wp never (scoped (find_online n) k) w (fun _ => quiet false P) (quiet false P).
Proof.
  intros Hw Hn Hk.
  apply (quiet_scoped _ _ (fun o => o) (fun o w' => forall i, o = Some i -> online_at i w')).
  - unfold wp. rewrite find_online_eq by by apply (rok_ready P), Hw. split.
    + destruct Hw as [Hw Hi]. split; [|done]. apply wok_push; [done|]. intros i (Ha & s & Hs & _)%target_online.
      by exists s.
    + intros i (Ha & s & Hs & Ho)%target_online. by exists s.
  - intros [i|] w' Hw' Ho; [|by apply Hn]. apply Hk. split; [done|]. by apply Ho.
Qed.

Lemma quiet_retry_expired p : keeps (quiet false []) never (retry_expired (St := St) p).
Proof.
  unfold retry_expired. apply keeps_bind; [quiet_call|]. intros _ w Hw.
  apply quiet_find_online; [done|by intros|]. intros i w0. apply awake_bind; [quiet_call|].
  intros _ w1. apply awake_send_then; [by left|]. intros b. quiet_world.
Qed.

Lemma quiet_CheckExpiredAcks : keeps (quiet false []) never (CheckExpiredAcks (St := St)).
Proof. unfold CheckExpiredAcks. solve_keeps ltac:(quiet_call || apply quiet_retry_expired). Qed.

Lemma sound_ack_timer fair ec w :
  sound fair w ->
  wp (blame firm fair (Ack_timer_fires (St := St) ec)) (handler (on_ack_timer ec)) w (fun _ => sound fair)
    (fun _ => False).
Proof.
  intros Hw. apply wp_handler. unfold on_ack_timer. apply wp_bind, wp_gets.
  destruct ec; [|done|done]. destruct (running_ w); [|done]. apply wp_bind.
  pose proof (sound_call never fair CheckExpiredAcks quiet_CheckExpiredAcks
    (refines_CheckExpiredAcks same_loop) w Hw) as Hk.
  unfold wp at 1. unfold wp in Hk. destruct (CheckExpiredAcks w) as [[[]|x|f] w1]; [|by left|done].
  unfold SetupAckTimeoutTimer. do 2 apply wp_bind, wp_gets. case_match; [done|].
  by apply (sound_flags fair w1).
Qed.

(** A cleanup comes back, or waits for the mutex it holds. *)
Lemma quiet_cleanup w :
  quiet false [] w ->
  wp (eq Deadlock) (CleanupInactiveSessions (St := St)) w (fun _ => quiet false []) (fun _ => False).
Proof.
  intros [Hw Hi]. destruct (cleanup_loops w Hw Hi) as (w' & Hw' & Hi' & _ & _ & Hf & Hs).
  set (m := match _ with [] => ret tt | _ => UpdateSessionMetrics end) in *.
  assert (m w' = (Ret tt, w') \/ fst (m w') = Stuck Deadlock) as [E|E].
  { subst m. case_match; [by left|]. unfold UpdateSessionMetrics, bind, gets.
    destruct (metrics_ w'); [|by left]. right. unfold with_registry_lock, lock_guard.
    by rewrite (wok_lock _ _ _ _ Hw'). }
  - rewrite E in *. cbn in *. unfold wp. specialize (Hs Hf).
    destruct (CleanupInactiveSessions w) as [r w2]. cbn in *. subst. split; [by eapply wok_set_lock|done].
  - rewrite E in Hf. unfold wp. destruct (CleanupInactiveSessions w) as [r w2]. cbn in *. by subst.
Qed.

Lemma sound_cleanup_timer fair ec w :
  sound fair w ->
  wp (blame firm fair (Cleanup_timer_fires (St := St) ec)) (handler (on_cleanup_timer ec)) w (fun _ => sound fair)
    (fun _ => False).
Proof.
  intros Hw. apply wp_handler. unfold on_cleanup_timer. apply wp_bind, wp_gets.
  destruct ec; [|done|done]. destruct (running_ w); [|done]. apply wp_bind.
  pose proof (quiet_cleanup w (sd_quiet _ _ Hw)) as Hk.
  pose proof (refines_CleanupInactiveSessions same_loop w) as Hl. unfold wp at 1. unfold wp in Hk.
  destruct (CleanupInactiveSessions w) as [[[]|x|f] w1]; [|done|by subst].
  pose proof (sound_loop _ _ _ Hw Hk Hl) as Hw1. unfold SetupCleanupTimer. apply wp_bind, wp_gets.
  case_match; [done|]. by apply (sound_flags fair w1).
Qed.

(** *** The stop *)
(** A queue that names a session that has gone stops the loop of [Stop] there. *)
Lemma drop_all_outcome l w n :
  pending_sends_ w = l -> (length l <= n)%nat ->
  Forall (callback_alive w) l \/ fst (while_fuel n sends_left drop_front w) = Stuck UseAfterFree.
Proof.
  revert w n. induction l as [|s l IH]; intros w n Hp Hn; [by left|].
  destruct n as [|n]; [cbn in Hn; lia|]. cbn [while_fuel]. unfold bind at 1.
  unfold sends_left at 1, gets. rewrite Hp. unfold bind at 1.
  destruct (callback_alive_dec w s) as [Ha|(c & Hc & Hg)].
  - rewrite (drop_front_eq w s l) by done.
    set (w1 := set_pending_sends l _).
    destruct (IH w1 n eq_refl) as [Hl|E]; [cbn in Hn; lia| |by right].
    left. apply Forall_cons. split; [done|]. eapply Forall_impl; [exact Hl|].
    intros s' Hs' d Hd. specialize (Hs' d Hd). revert Hs'. cbn. unfold offline_for.
    destruct (callback s) as [e|]; [|done]. rewrite lookup_alter.
    case_decide as He; [|done]. by rewrite He, fmap_is_Some.
  - right. unfold drop_front, bind, gets. rewrite Hp. unfold call_back, on. by rewrite Hc, Hg.
Qed.

Lemma quiet_offline lk P l w :
  quiet lk P w -> quiet lk P (set_sessions (foldl offline_for (sessions w) l) w).
Proof.
  revert w. induction l as [|s l IH]; intros w Hw; [by destruct w|]. cbn [foldl].
  assert (quiet lk P (set_sessions (offline_for (sessions w) s) w)) as Hw1; [|by apply (IH _ Hw1)].
  unfold offline_for. destruct (callback s) as [c|]; [|by destruct w]. destruct Hw as [Hw Hi].
  split; [by apply wok_online|]. intros j t. cbn.
  intros [(_ & u & Hu & ->)|(_ & Hj)]%lookup_alter_Some; [by apply (Hi j u)|by apply (Hi j t)].
Qed.

Lemma sound_Stop fair w :
  sound fair w ->
  wp (blame firm fair (Stop_called (St := St))) Stop w
    (fun _ w' => sound fair w' /\ running_ w' = false) (fun _ => False).
Proof.
  intros Hw. destruct (running_ w) eqn:Er; [|by unfold wp; rewrite Stop_idle]. destruct Hw as [Hq Ho Hf Hm].
  assert (pending_sends_mutex_ w = false) as Hx by apply Hq.
  destruct (drop_all_outcome (pending_sends_ w) (set_pending_sends_mutex true (set_running false w))
    (length (pending_sends_ w))) as [Hl|E]; [done|done| |].
  - unfold wp. rewrite Stop_running by done. split; [|done]. split; [|done..].
    apply (quiet_flags (set_sessions (foldl offline_for (sessions w) (pending_sends_ w)) w));
      [by apply quiet_offline|done..].
  - unfold wp, Stop, bind at 1 2, gets at 1, modify at 1. rewrite Er. cbn [negb]. fold (sends_left (St := St)).
    unfold bind at 1, with_sends_lock, lock_guard. cbn [pending_sends_mutex_ set_running]. rewrite Hx.
    unfold bind at 1, gets at 1. cbn.
    match type of E with fst ?m = _ => destruct m as [r w'] end. cbn in E. subst r. by right.
Qed.

(** ** Every sequence of events *)
Lemma sound_serve_one fair e w :
  sound fair w -> fair_event fair e -> firm_event firm e -> tick_ok e ->
  wp (blame firm fair e) (serve_one e) w (fun _ => sound fair) (fun _ => False).
Proof.
  intros Hw He Hr Ht. destruct e as [fs|rs|es|ns tick|ec| |ec|ec|]; cbn [serve_one].
  - destruct Hw as [Hq Ho Hf Hm]. split; [by apply quiet_set_socket|done..].
  - destruct Hw as [Hq Ho Hf Hm]. split; [by apply quiet_set_socket|done| |done].
    intros E. apply Forall_app. split; [by apply Hf|by apply He].
  - destruct Hw as [Hq Ho Hf Hm]. split; [by apply quiet_set_socket|done..|].
    intros E. apply Forall_app. split; [by apply Hm|by apply Hr].
  - destruct Hw as [[[] Hi] Ho Hf Hm]. split; [|done..]. split; [|done]. split; try done. cbn. by apply Ht.
  - apply wp_handler. eapply wp_conseq; [by apply sound_OnZmqEvent|done|].
    intros w' [Hf ->]. by right.
  - apply wp_handler. eapply wp_conseq; [by apply sound_posted|done|done].
  - by apply sound_ack_timer.
  - by apply sound_cleanup_timer.
  - eapply wp_conseq; [by apply sound_Stop| |done]. by intros _ w' [].
Qed.

Lemma sound_serve fair l w :
  sound fair w -> Forall (fair_event fair) l -> Forall (firm_event firm) l -> Forall tick_ok l ->
  wp (fun f => exists e, e ∈ l /\ blame firm fair e f) (serve l) w (fun _ => sound fair) (fun _ => False).
Proof.
  revert w. induction l as [|e l IH]; intros w Hw Hl Hm Ht; [done|].
  apply Forall_cons in Hl as [He Hl]. apply Forall_cons in Hm as [Hme Hm].
  apply Forall_cons in Ht as [Hte Ht].
  cbn [serve]. pose proof (sound_serve_one fair e w Hw He Hme Hte) as Hk. unfold wp, bind in *.
  destruct (serve_one e w) as [[[]|x|f] w1]; [|done|].
  - specialize (IH w1 Hk Hl Hm Ht). destruct (serve l w1) as [[[]|x|f] w2]; [done|done|].
    destruct IH as (e' & He' & Hb). exists e'. split; [by right|done].
  - exists e. split; [by left|done].
Qed.

(** ** The store *)
Lemma stores_modify f :
  (forall w, storage_ (f w) = storage_ w) -> preserves (world_refines (St := St)) (modify f).
Proof. intros Hf. apply preserves_modify. intros w. unfold world_refines. by rewrite Hf. Qed.

Lemma stores_keep {A} (m : M (World St) A) :
  (forall w, storage_ (snd (m w)) = storage_ w) -> preserves world_refines m.
Proof. intros Hm w. unfold world_refines. by rewrite Hm. Qed.
End Sound.

Ltac stores_call :=
  idtac;
  first
    [ apply stores_modify; intros; reflexivity
    | intros ? ?; unfold world_refines; reflexivity
    | solve [eauto with refines nocore]
    | apply refines_RouteMessage; apply _
    | apply refines_CheckExpiredAcks; apply _
    | apply refines_CleanupInactiveSessions; apply _ ].

Section Store.
Context {St : Type} `{IStorageLaws St} `{Host} `{HashOrder}.

Lemma stores_socket_send b more : preserves world_refines (socket_send (St := St) b more).
Proof. apply stores_keep. intros w. unfold socket_send. by repeat case_match. Qed.
Lemma stores_socket_error : preserves world_refines (socket_error (St := St)).
Proof. apply stores_keep. intros w. unfold socket_error. by repeat case_match. Qed.
Lemma stores_socket_recv : preserves world_refines (socket_recv (St := St)).
Proof. unfold socket_recv. solve_preserves ltac:(stores_call || apply stores_socket_error). Qed.
Lemma stores_socket_readable : preserves world_refines (socket_readable (St := St)).
Proof. unfold socket_readable. solve_preserves ltac:(stores_call || apply stores_socket_error). Qed.
Lemma stores_call_back c b : preserves world_refines (call_back (St := St) c b).
Proof.
  apply stores_keep. intros w. unfold call_back, on. destruct c; [|done]. destruct b; [done|].
  by destruct (sessions w !! _).
Qed.

Lemma stores_ProcessPendingSends : preserves world_refines (ProcessPendingSends (St := St)).
Proof.
  unfold ProcessPendingSends, take_sends, finish_sends, UpdateQueueMetrics, process_send, send_frames,
    with_sends_lock, ScheduleSendProcessing.
  solve_preserves ltac:(stores_call || apply stores_socket_send || apply stores_call_back).
Qed.

Lemma stores_receive_turn : preserves world_refines (receive_turn (St := St)).
Proof.
  unfold receive_turn, receive_message, ScopedMetricsTimer. solve_preserves ltac:(stores_call || apply stores_socket_recv).
Qed.

Lemma stores_OnZmqEvent ec : preserves world_refines (OnZmqEvent (St := St) ec).
Proof.
  unfold OnZmqEvent, UpdateQueueMetrics, receive_loop, async_wait, with_sends_lock.
  solve_preserves ltac:(stores_call || apply stores_ProcessPendingSends
    || apply stores_socket_readable || apply stores_receive_turn).
Qed.

Lemma stores_tick ns tick :
  tick_ok (Passes ns tick) ->
  preserves world_refines (modify (fun w : World St =>
    set_storage (tick (storage_ w)) (World.set_clock (clock_ w + ns) w))).
Proof.
  intros Ht w Hs. destruct (Ht _ Hs) as [Hs' Hv]. split; [done|]. cbn. rewrite Hv. reflexivity.
Qed.

Lemma stores_serve_one e : tick_ok e -> preserves world_refines (serve_one (St := St) e).
Proof.
  intros Ht. destruct e; cbn [serve_one]; unfold handler, posted_handler, on_ack_timer, on_cleanup_timer,
    SetupAckTimeoutTimer, SetupCleanupTimer, Stop, drop_front, with_sends_lock;
    solve_preserves ltac:(stores_call || by apply stores_tick || apply stores_OnZmqEvent || apply stores_ProcessPendingSends
      || apply stores_call_back).
Qed.

Lemma stores_serve l : Forall tick_ok l -> preserves world_refines (serve (St := St) l).
Proof.
  induction 1 as [|e l He _ IH]; [apply preserves_ret, _|]. cbn [serve].
  apply preserves_bind; [apply _|by apply stores_serve_one|by intros _].
Qed.

(** ** Properties *)
Definition may_stop (w : World St) (l : list (server_event St)) (f : stuck) : Prop :=
  match f with
  | AssertionFailed => glibcxx_assertions = true
  | UseAfterFree => Stop_called ∈ l \/ ~ takes_all (send_results (socket w)) \/
      exists rs, Answers rs ∈ l /\ ~ takes_all rs
  | Terminate => Ack_timer_fires no_error ∈ l \/
      (Socket_ready no_error ∈ l /\
       (true ∈ recv_errors (socket w) \/ exists es, Read_errors es ∈ l /\ true ∈ es))
  | Deadlock => Cleanup_timer_fires no_error ∈ l
  | _ => False
  end.

#[export] Instance send_result_eq_dec : EqDecision send_result.
Proof. solve_decision. Defined.

#[export] Instance fair_event_dec (e : server_event St) : Decision (fair_event true e).
Proof. destruct e; cbn; apply _. Defined.
#[export] Instance firm_event_dec (e : server_event St) : Decision (firm_event true e).
Proof. destruct e; cbn; apply _. Defined.

(** Whether no read throws in a run; when one may, there is an error to blame. *)
Definition firm_run (w : World St) (l : list (server_event St)) : bool :=
  bool_decide (reads_all (recv_errors (socket w))) && bool_decide (Forall (firm_event true) l).

Lemma firm_run_reads w l : firm_run w l = true -> reads_all (recv_errors (socket w)).
Proof. intros [Hf _]%andb_true_iff. by apply bool_decide_eq_true in Hf. Qed.

Lemma firm_run_events w l : Forall (firm_event (firm_run w l)) l.
Proof.
  destruct (firm_run w l) eqn:Ef; [apply andb_true_iff in Ef as [_ Hf]; by apply bool_decide_eq_true in Hf|].
  apply Forall_forall. by intros [].
Qed.

Lemma not_firm w l :
  firm_run w l = false ->
  true ∈ recv_errors (socket w) \/ exists es, Read_errors es ∈ l /\ true ∈ es.
Proof.
  assert (forall es, ~ reads_all es -> true ∈ es) as Hes.
  { intros es (b & Hb & Hn)%not_Forall_Exists%Exists_exists; [by destruct b|apply _]. }
  intros [Hb|Hb]%andb_false_iff; [left; by apply Hes; apply bool_decide_eq_false in Hb|right].
  apply bool_decide_eq_false, not_Forall_Exists, Exists_exists in Hb as (x & Hx & Hn); [|apply _].
  destruct x as [| |es| | | | | |]; try (by destruct (Hn I)). exists es. split; [done|].
  apply Hes. intros Hrs. by apply Hn; intros _.
Qed.

(** C1. Safety of every run, one handler at a time: whatever frames arrive, whatever the
    socket answers, whatever the storage does, between the calls too, and in whatever order the loop runs its
    handlers, a server with a consistent registry and empty session queues stays one,
    and its store goes only through steps of the contract.  A run never ends in an
    exception; it can be stopped in five ways only, each with its cause: a cleanup that
    waits for its own mutex, a storage that throws under the ACK timer, a read of the socket
    that throws under [OnZmqEvent], a failed send (or a stop) on behalf of a session that
    has gone, and a hardened build. *)
Theorem serve_outcome (l : list (server_event St)) (w : World St) :
  Forall tick_ok l -> rok [] w -> idle w -> (running_ w = true -> socket_open (socket w) = true) ->
  world_refines w (snd (serve l w)) /\
  match serve l w with
  | (Ret _, w') =>
      rok [] w' /\ idle w' /\ (running_ w' = true -> socket_open (socket w') = true)
  | (Throw _, _) => False
  | (Stuck f, _) => may_stop w l f
  end.
Proof.
  intros Ht Hw Hi Ho. split; [by apply stores_serve|].
  set (fair := bool_decide (takes_all (send_results (socket w))) &&
               bool_decide (Forall (fair_event true) l)).
  assert (sound (firm_run w l) fair w) as Hs.
  { split; [by split|done| |apply firm_run_reads].
    intros [Hf _]%andb_true_iff; by apply bool_decide_eq_true in Hf. }
  assert (Forall (fair_event fair) l) as Hl.
  { destruct fair eqn:Ef; [apply andb_true_iff in Ef as [_ Hf]; by apply bool_decide_eq_true in Hf|].
    apply Forall_forall. by intros []. }
  pose proof (sound_serve _ fair l w Hs Hl (firm_run_events w l) Ht) as Hk. unfold wp in Hk.
  destruct (serve l w) as [[[]|x|f] w']; [by destruct Hk as [[] ?]|done|].
  destruct Hk as (e & He & Hb). destruct f; cbn in *; try done; [by subst| |].
  - destruct Hb as [->|[Hb ->]]; [by left|]. right. split; [done|]. by apply not_firm.
  - destruct Hb as [Hb| ->]; [|by left]. right. apply andb_false_iff in Hb as [Hb|Hb].
    + left. by apply bool_decide_eq_false in Hb.
    + right. apply bool_decide_eq_false, not_Forall_Exists, Exists_exists in Hb as (x & Hx & Hn);
        [|apply _].
      destruct x as [| rs | | | | | | |]; try (by destruct (Hn I)). exists rs. split; [done|].
      intros Hrs. by apply Hn; intros _.
Qed.
End Store.
