(* ===== verification/Typed.v ===== *)
(** The types of what moves through the broker: whatever arrives, every message in the
    store and in the queues is one the protocol has room for, and every message the broker
    puts on the wire is one its codec reads back.

    [gives I Q m]: [m] keeps [I], whatever the outcome, and returns a value in [Q].
    [typed] is the invariant of the world. *)
From Stdlib Require Import ZArith Lia Strings.Byte.
From S2P Require Import Prelude Words Message Interfaces Config Metrics Session World.
From S2P Require Import Router RouterSpec Handlers HandlersSpec Server ServerSpec EventLoop Reachable.
Open Scope Z_scope.
Open Scope broker_scope.

Definition gives {S A} (I : S -> Prop) (Q : A -> Prop) (m : M S A) : Prop :=
  forall s, I s -> I (snd (m s)) /\ forall a, fst (m s) = Ret a -> Q a.

Definition any {A} (a : A) : Prop := True.

Section Gives.
Context {S : Type} (I : S -> Prop).

Lemma gives_any {A} (Q : A -> Prop) (m : M S A) : gives I Q m -> gives I any m.
Proof. intros Hm s Hs. split; [by apply Hm|done]. Qed.

Lemma gives_ret {A} (Q : A -> Prop) a : Q a -> gives I Q (ret a).
Proof. intros Ha s Hs. split; [done|]. by intros b [= <-]. Qed.

Lemma gives_throw {A} (Q : A -> Prop) e : gives I Q (throw e).
Proof. intros s Hs. by split. Qed.

Lemma gives_hang {A} (Q : A -> Prop) f : gives I Q (hang f).
Proof. intros s Hs. by split. Qed.

Lemma gives_lift {A} (Q : A -> Prop) r : (forall a, r = Ret a -> Q a) -> gives I Q (lift r).
Proof. intros Hr s Hs. by split. Qed.

Lemma gives_gets {A} (Q : A -> Prop) f : (forall s, I s -> Q (f s)) -> gives I Q (gets f).
Proof. intros Hf s Hs. split; [done|]. intros a [= <-]. by apply Hf. Qed.

Lemma gives_modify f : (forall s, I s -> I (f s)) -> gives I any (modify f).
Proof. intros Hf s Hs. split; [by apply Hf|done]. Qed.

Lemma gives_bind {A B} (P : A -> Prop) (Q : B -> Prop) (m : M S A) (k : A -> M S B) :
  gives I P m -> (forall a, P a -> gives I Q (k a)) -> gives I Q (bind m k).
Proof.
  intros Hm Hk s Hs. destruct (Hm s Hs) as [Hs1 Ha]. unfold bind.
  destruct (m s) as [[a|e|f] s1]; [|by split..]. by apply (Hk a (Ha a eq_refl)).
Qed.

Lemma gives_try {A} (Q : A -> Prop) (m : M S A) h :
  gives I Q m -> (forall e, gives I Q (h e)) -> gives I Q (try_catch m h).
Proof.
  intros Hm Hh s Hs. specialize (Hm s Hs). unfold try_catch.
  destruct (m s) as [[a|e|f] s1]; [done| |done]. by apply Hh, Hm.
Qed.

Lemma gives_finally {A} (Q : A -> Prop) (m : M S A) fin :
  gives I Q m -> gives I any fin -> gives I Q (finally m fin).
Proof.
  intros Hm Hf s Hs. specialize (Hm s Hs). unfold finally.
  destruct (m s) as [[a|e|f] s1]; [| |done]; cbn in Hm;
    destruct (Hf s1 ltac:(apply Hm)) as [Hs2 _]; destruct (fin s1) as [[] s2]; cbn in *;
    by (split; [done|]; try apply Hm).
Qed.

Lemma gives_for_each {A} (l : list A) body :
  (forall x, x ∈ l -> gives I any (body x)) -> gives I any (for_each l body).
Proof.
  induction l as [|x l IH]; intros Hb; [by apply gives_ret|]. cbn [for_each].
  apply (gives_bind any); [apply Hb; by left|]. intros [] _; [|by apply gives_ret].
  apply IH. intros y Hy. apply Hb. by right.
Qed.

Lemma gives_while n cond body :
  gives I any cond -> gives I any body -> gives I any (while_fuel n cond body).
Proof.
  intros Hc Hb. induction n as [|n IH]; cbn [while_fuel];
    (apply (gives_bind any); [done|]; intros [] _; [|by apply gives_ret]);
    [apply gives_hang|]. apply (gives_bind any); [done|]. intros [] _; [done|by apply gives_ret].
Qed.

Lemma gives_lock {A} (Q : A -> Prop) held set (m : M S A) :
  (forall b s, I s -> I (set b s)) -> gives I Q m -> gives I Q (lock_guard held set m).
Proof.
  intros Hset Hm s Hs. unfold lock_guard. destruct (held s); [by split|].
  specialize (Hm (set true s) (Hset true s Hs)).
  destruct (m (set true s)) as [[a|e|f] s1]; cbn in *;
    (split; [|try done; apply Hm]); try apply Hset; apply Hm.
Qed.
End Gives.

Ltac gives_step :=
  lazymatch goal with
  | |- gives _ _ (ret _) => apply gives_ret; try exact I
  | |- gives _ _ (throw _) => apply gives_throw
  | |- gives _ _ (hang _) => apply gives_hang
  | |- gives _ any (gets _) => apply gives_gets; intros; exact I
  | |- gives _ any (lift _) => apply gives_lift; intros; exact I
  | |- gives _ _ (bind _ _) => apply (gives_bind _ any); [|intros ? _]
  | |- gives _ _ (try_catch _ _) => apply gives_try; [|intros ?]
  | |- gives _ any (for_each _ _) => apply gives_for_each; intros ? ?
  | |- gives _ any (while_fuel _ _ _) => apply gives_while
  | |- gives _ _ (let _ := _ in _) => cbv zeta
  | |- gives _ _ (match ?x with _ => _ end) => destruct x
  end.

Ltac solve_gives tac := repeat first [ solve [tac] | gives_step ].

(** ** The invariant *)
Section Typed.
Context {St : Type} `{IStorageLaws St} `{Host} `{HashOrder}.
Implicit Types (w : World St).

(** What the codec of this host writes for a message, and reads back. *)
Definition readable (b : list byte) : Prop :=
  exists m, wf_message m /\ Serialize host_endian m = Ret b /\
    Deserialize false host_endian b = Ret m.

Definition typed_rows (a : store) : Prop :=
  forall i m st, rows a !! i = Some (m, st) -> wf_message m.

Record typed w : Prop := {
  ty_ok : st_ok (storage_ w);
  ty_rows : typed_rows (view (storage_ w));
  ty_queues : forall i s, sessions w !! i = Some s -> Forall wf_message (outgoing_queue_ s);
  ty_sends : Forall (fun p => readable (data p)) (pending_sends_ w);
  ty_wire : Forall (fun f => sndmore f = false -> readable (frame_bytes f)) (wire (socket w));
}.

(** *** The store: whatever is saved is read back through the column types *)
Lemma db_copy_typed m : wf_message (db_copy m).
Proof.
  unfold db_copy. split; cbn; [|apply u8_range|apply u64_range].
  apply wf_MessageType_of_u8, u8_range.
Qed.

Lemma abs_step_typed a a' : abs_step a a' -> typed_rows a -> typed_rows a'.
Proof.
  intros Hs Ht. destruct Hs; intros j n st'; cbn; try apply Ht;
    intros [[_ [= <- <-]]|[_ Hj]]%lookup_insert_Some; try (by eapply Ht);
    apply db_copy_typed.
Qed.

Lemma refines_typed s s' :
  refines_steps s s' -> st_ok s -> typed_rows (view s) -> st_ok s' /\ typed_rows (view s').
Proof.
  intros Hr Hs Ht. destruct (Hr Hs) as [Hs' Hst]. split; [done|]. clear Hr.
  induction Hst as [|a b c Hab _ IH]; [done|]. by apply IH, (abs_step_typed a).
Qed.

Lemma typed_db {A} (m : M St A) : preserves refines_steps m -> gives typed any (db m).
Proof.
  intros Hm w Hw. split; [|done]. unfold db. specialize (Hm (storage_ w)).
  destruct (storage_alive w); [|done]. destruct (m (storage_ w)) as [r s]. cbn in *.
  destruct Hw as [Ho Hr ???]. by destruct (refines_typed _ _ Hm Ho Hr).
Qed.

(** A load gives rows of the store. *)
Lemma typed_load (m : M St (list PendingMessage)) P :
  preserves refines_steps m -> implements st_ok view m (answers (loads P)) ->
  gives typed (Forall (fun p => wf_message (msg p))) (db m).
Proof.
  intros Hm Hl w Hw. destruct (typed_db m Hm w Hw) as [Hw' _]. split; [done|].
  unfold db in *. destruct (storage_alive w); [|done]. specialize (Hl _ (ty_ok _ Hw)).
  destruct (m (storage_ w)) as [r s]. intros l E. cbn in E. subst r.
  destruct Hl as (_ & _ & _ & Hp). apply Forall_forall. intros p Hi.
  destruct (Hp p Hi) as (_ & st & Hr & _). by apply (ty_rows _ Hw _ _ _ Hr).
Qed.

(** *** What does not touch the messages *)
Record same_types w w' : Prop := {
  st_storage : storage_ w' = storage_ w;
  st_sessions : forall i s, sessions w' !! i = Some s ->
    exists t, sessions w !! i = Some t /\ outgoing_queue_ s = outgoing_queue_ t;
  st_sends : pending_sends_ w' = pending_sends_ w;
  st_wire : wire (socket w') = wire (socket w);
}.

Lemma typed_same w w' : typed w -> same_types w w' -> typed w'.
Proof.
  intros [] [Hs Hq Hp Hw]. split; rewrite ?Hs, ?Hp, ?Hw; try done.
  intros i s (t & Ht & ->)%Hq. by eapply ty_queues0.
Qed.

Lemma typed_modify f : (forall w, same_types w (f w)) -> gives typed any (modify f).
Proof. intros Hf. apply gives_modify. intros w Hw. by eapply typed_same. Qed.

Lemma typed_metric op : gives typed any (metric op).
Proof. apply typed_modify. intros w. split; try done. intros i s Hs. by exists s. Qed.

(** *** Sending *)
Lemma readable_of e m b :
  e = host_endian -> wf_message m -> Serialize e m = Ret b -> readable b.
Proof.
  intros -> Hm Hb. exists m. split; [done|]. split; [done|]. by apply Serialize_read.
Qed.

Lemma decoded_typed a d m : Deserialize a host_endian d = Ret m -> wf_message m.
Proof.
  intros Hd. apply (Serialize_Deserialize_wf host_endian d). revert Hd.
  destruct (Z.ltb_spec (Z.of_nat (length d)) 15) as [Hlt|Hge].
  { unfold Deserialize, HEADER_SIZE. by rewrite (proj2 (Z.ltb_lt _ _)) by done. }
  rewrite !Deserialize_cases by done. destruct (negb _); [done|]. destruct (negb _); [done|].
  cbn zeta. cbn [andb]. by destruct (_ && _).
Qed.

(** *** Sessions *)
Definition typed_both (p : Session * World St) : Prop :=
  Forall wf_message (outgoing_queue_ p.1) /\ typed p.2.

Lemma both_upd f : (forall s, outgoing_queue_ (f s) = outgoing_queue_ s) -> gives typed_both any (upd f).
Proof. intros Hf. apply gives_modify. intros [s w] [Hs Hw]. split; [|done]. cbn. by rewrite Hf. Qed.

Lemma both_modify f :
  (forall s w, outgoing_queue_ (f (s, w)).1 = outgoing_queue_ s /\ (f (s, w)).2 = w) ->
  gives typed_both any (modify f).
Proof.
  intros Hf. apply gives_modify. intros [s w] [Hs Hw]. destruct (Hf s w) as [E1 E2].
  split; [by rewrite E1|by rewrite E2].
Qed.

Lemma both_env {A} Q (m : M (World St) A) : gives typed Q m -> gives typed_both Q (env m).
Proof.
  intros Hm [s w] [Hs Hw]. specialize (Hm w Hw). unfold env. cbn.
  destruct (m w) as [r w']. cbn in *. by destruct Hm.
Qed.

Lemma both_lock {A} Q (m : M (Session * World St) A) :
  gives typed_both Q m -> gives typed_both Q (with_queue_lock m).
Proof. intros Hm. apply gives_lock; [|done]. by intros b [s w] []. Qed.

Lemma both_front : gives typed_both wf_message front.
Proof.
  unfold front. apply (gives_bind _ (Forall wf_message)).
  - apply gives_gets. by intros [s w] [].
  - intros [|m q] Hq; [apply gives_hang|]. apply gives_ret. by apply Forall_cons in Hq as [].
Qed.

Lemma both_pop : gives typed_both any pop.
Proof.
  apply gives_modify. intros [s w] [Hs Hw]. split; [|done]. cbn in *. destruct (outgoing_queue_ s); [done|].
  by apply Forall_cons in Hs as [].
Qed.

Lemma typed_SendToClient i b c :
  readable b -> gives typed any (Server_SendToClient i b c).
Proof.
  intros Hb. unfold Server_SendToClient. apply (gives_bind _ any).
  - apply gives_lock; [by intros ? w []|]. apply gives_modify. intros w []. split; try done.
    cbn. apply Forall_app. by split; [|apply Forall_singleton].
  - intros _ _. apply typed_modify. intros w. split; try done. intros j s Hs. by exists s.
Qed.

Lemma both_persist_front : gives typed_both any persist_front.
Proof.
  unfold persist_front. apply (gives_bind _ any); [by apply gives_gets|]. intros n _.
  apply (gives_bind _ wf_message); [apply both_front|]. intros m _.
  apply (gives_bind _ any); [|intros _ _; apply both_pop]. apply both_env.
  apply (gives_bind _ any); [|intros; by apply gives_ret]. apply typed_db, refines_SaveMessage.
Qed.

Lemma both_Persist : gives typed_both any PersistQueueToDatabase.
Proof.
  unfold PersistQueueToDatabase, queue_nonempty.
  apply (gives_bind _ any); [by apply gives_gets|]. intros b _. destruct b; [|by apply gives_ret].
  apply both_lock. solve_gives ltac:((by apply gives_gets) || apply both_persist_front).
Qed.

Lemma both_SendZmqMessage i m : wf_message m -> gives typed_both any (SendZmqMessage i m).
Proof.
  intros Hm. unfold SendZmqMessage. apply gives_try; [|intros _; by apply both_upd].
  apply (gives_bind _ readable).
  { apply gives_lift. intros b Hb. by eapply readable_of. }
  intros b Hb. do 2 (apply (gives_bind _ any); [by apply gives_gets|intros ? _]).
  by apply both_env, typed_SendToClient.
Qed.

Lemma both_EnqueueMessage m : wf_message m -> gives typed_both any (EnqueueMessage m).
Proof.
  intros Hm. apply both_lock. apply (gives_bind _ any).
  - apply gives_modify. intros [s w] [Hs Hw]. split; [|done]. cbn.
    apply Forall_app. by split; [|apply Forall_singleton].
  - intros _ _. unfold queue_nonempty. solve_gives ltac:((by apply gives_gets) || apply both_persist_front).
Qed.

Lemma both_SendMessage i m : wf_message m -> gives typed_both any (SendMessage i m).
Proof.
  intros Hm. unfold SendMessage, IsOnline.
  solve_gives ltac:((by apply gives_gets) || (by apply both_modify) || by apply both_EnqueueMessage || by apply both_SendZmqMessage).
Qed.

Lemma both_FlushQueue i : gives typed_both any (FlushQueue i).
Proof.
  apply both_lock. unfold queue_nonempty, IsOnline. apply (gives_bind _ any); [by apply gives_gets|].
  intros q _. apply gives_while; [by apply gives_gets|]. apply (gives_bind _ any); [by apply gives_gets|].
  intros b _. destruct b; [|by apply gives_ret]. cbn [negb].
  apply (gives_bind _ wf_message); [apply both_front|]. intros m Hm.
  solve_gives ltac:(apply both_pop || by apply both_SendZmqMessage).
Qed.

Lemma typed_on {A} Q i (m : M (Session * World St) A) :
  gives typed_both Q m -> gives typed Q (on i m).
Proof.
  intros Hm w Hw. unfold on. destruct (sessions w !! i) as [s|] eqn:Hs; [|by split].
  destruct (Hm (s, w)) as [[Hq Hw'] Ha]; [split; [by eapply ty_queues|done]|].
  destruct (m (s, w)) as [r [s' w']]. cbn in *. split; [|done]. destruct Hw' as []. split; try done.
  intros j t. cbn. intros [(_ & <-)|(_ & Hj)]%lookup_insert_Some; [done|by eapply ty_queues0].
Qed.
End Typed.

(** The leaves of the router's and the handlers' bodies. *)
Ltac same_types_tac := intros ?w; split; try done; intros ?i ?s ?Hs; by eexists.
Ltac typed_leaf :=
  idtac;
  first
    [ apply typed_metric
    | apply typed_modify; solve [same_types_tac]
    | apply typed_db; solve [eauto with refines nocore]
    | apply typed_on; first
        [ by apply gives_gets | by apply both_upd | by apply both_modify | apply both_Persist
        | apply both_FlushQueue | by apply both_SendMessage ] ].
Ltac typed_world tac := solve_gives ltac:(typed_leaf || tac).

Section TypedRouter.
Context {St : Type} `{IStorageLaws St} `{Host} `{HashOrder}.
Implicit Types (w : World St).

Lemma typed_release i : gives typed any (release (St := St) i).
Proof.
  unfold release, Session_dtor. typed_world fail. apply gives_modify. intros w Hw.
  apply (typed_same w); [done|]. split; try done. intros j s. cbn.
  intros [_ Hj]%lookup_delete_Some. by exists s.
Qed.

Lemma typed_push o : gives typed any (push_local (St := St) o).
Proof. typed_leaf. Qed.

Lemma typed_pop : gives typed any (pop_local (St := St)).
Proof. unfold pop_local. typed_world ltac:(apply typed_release). Qed.

Lemma typed_scoped {A B} Q (m : M (World St) A) (k : A -> M (World St) B) :
  gives typed any m -> (forall a, gives typed Q (k a)) -> gives typed Q (scoped m k).
Proof.
  intros Hm Hk. apply (gives_bind _ any); [done|]. intros a _. apply gives_finally; [done|apply typed_pop].
Qed.

Lemma typed_returning {A} (m : M (World St) A) : gives typed any m -> gives typed any (returning m).
Proof.
  intros Hm w Hw. split; [|done]. destruct (Hm w Hw) as [Hw1 _]. unfold returning.
  destruct (m w) as [[a|e|f] w1]; [done| |done]. cbn in Hw1.
  destruct (typed_pop w1 Hw1) as [Hw2 _]. by destruct (pop_local w1) as [[]?].
Qed.

Lemma typed_registry {A} Q (m : M (World St) A) :
  gives typed Q m -> gives typed Q (with_registry_lock m).
Proof. intros Hm. apply gives_lock; [by intros b w []|done]. Qed.

Lemma typed_make_session a : gives typed any (make_session (St := St) a).
Proof.
  intros w []. split; [|done]. split; try done. intros i s. cbn.
  intros [(_ & <-)|(_ & Hi)]%lookup_insert_Some; [done|by eapply ty_queues0].
Qed.
End TypedRouter.

Ltac typed_router tac :=
  repeat first
    [ solve [typed_leaf | tac | apply typed_release | apply typed_push | apply typed_make_session]
    | lazymatch goal with
      | |- gives _ _ (with_registry_lock _) => apply typed_registry
      | |- gives _ _ (scoped _ _) => apply typed_scoped; [|intros ?]
      | |- gives _ _ (returning _) => apply typed_returning
      end
    | gives_step ].

Section TypedHandlers.
Context {St : Type} `{IStorageLaws St} `{Host} `{HashOrder}.
Implicit Types (w : World St).

Lemma typed_UpsertClient n o : gives typed any (UpsertClient (St := St) n o).
Proof.
  unfold UpsertClient, assign_client, GetIdentity, erase_identity, report_sessions, find_client.
  typed_router fail.
Qed.

Lemma typed_UnregisterClient n : gives typed any (UnregisterClient (St := St) n).
Proof.
  unfold UnregisterClient, erase_client, GetIdentity, erase_identity, report_sessions, find_client.
  typed_router fail.
Qed.

Lemma typed_FindSession n : gives typed any (FindSession (St := St) n).
Proof. unfold FindSession, find_client. typed_router fail. Qed.

Lemma typed_find_online n : gives typed any (find_online (St := St) n).
Proof. unfold find_online, find_client, IsOnline. typed_router fail. Qed.

(** The loops over what a load returned. *)
Lemma typed_loop {B} (l : list PendingMessage) body (k : M (World St) B) :
  Forall (fun p => wf_message (msg p)) l ->
  (forall p, wf_message (msg p) -> gives typed any (body p)) -> gives typed any k ->
  gives typed any (for_each l body ;;; k).
Proof.
  intros Hl Hb Hk. apply (gives_bind _ any); [|by intros]. apply gives_for_each. intros p Hp.
  apply Hb. rewrite Forall_forall in Hl. by apply Hl.
Qed.

Lemma typed_DeliverOffline n : gives typed any (DeliverOfflineMessages (St := St) n).
Proof.
  apply typed_scoped; [apply typed_FindSession|]. intros [i|]; [|by apply gives_ret].
  eapply gives_bind; [eapply typed_load; [apply refines_LoadPendingMessages|apply LoadPendingMessagesOnly_law]|].
  intros l Hl. destruct l as [|p l]; [by apply gives_ret|].
  do 3 (apply (gives_bind _ any); [typed_leaf|intros _ _]).
  apply typed_loop; [done| |typed_leaf]. intros q Hq.
  unfold deliver_offline, IsOnline. typed_router fail.
Qed.

Lemma typed_DeliverReplies n : gives typed any (DeliverPendingReplies (St := St) n).
Proof.
  apply typed_scoped; [apply typed_FindSession|]. intros [i|]; [|by apply gives_ret].
  eapply gives_bind; [eapply typed_load; [apply refines_LoadPendingReplies|apply LoadPendingRepliesForSenderOnly_law]|].
  intros l Hl. destruct l as [|p l]; [by apply gives_ret|].
  do 2 (apply (gives_bind _ any); [typed_leaf|intros _ _]). apply gives_for_each. intros q Hq.
  rewrite Forall_forall in Hl. specialize (Hl q Hq).
  unfold deliver_reply, IsOnline. typed_router fail.
Qed.

Lemma typed_CheckExpiredAcks : gives typed any (CheckExpiredAcks (St := St)).
Proof.
  unfold CheckExpiredAcks. apply (gives_bind _ any); [by apply gives_gets|]. intros t _.
  destruct (t <=? 0); [by apply gives_ret|].
  eapply gives_bind; [eapply typed_load; [apply refines_LoadExpiredSent|apply LoadExpiredSent_law]|].
  intros l Hl. apply (gives_bind _ any); [destruct l; typed_router fail|]. intros _ _.
  apply gives_for_each. intros q Hq. rewrite Forall_forall in Hl. specialize (Hl q Hq).
  unfold retry_expired. typed_router ltac:(apply typed_find_online).
Qed.

Lemma typed_Cleanup : gives typed any (CleanupInactiveSessions (St := St)).
Proof.
  assert (forall t l, gives typed any (collect_inactive (St := St) t l)) as Hc.
  { intros t l. induction l as [|[n i] l IH]; cbn [collect_inactive]; unfold inactive, IsOnline;
      typed_router ltac:(exact IH). }
  unfold CleanupInactiveSessions, remove_client, UpdateSessionMetrics, report_sessions,
    erase_client, GetIdentity, erase_identity, find_client. typed_router ltac:(apply Hc).
Qed.

Lemma typed_Print : gives typed any (PrintActiveClients (St := St)).
Proof.
  unfold PrintActiveClients. typed_router ltac:(apply typed_on, both_lock; by apply gives_gets).
Qed.

(** *** The handlers of the messages *)
Ltac typed_handler tac :=
  unfold session_online, IsOnline, roll_back;
  typed_router ltac:(apply typed_FindSession || tac).

Lemma typed_RegisterHandler m a : gives typed any (RegisterHandler_Handle (St := St) m a).
Proof.
  unfold RegisterHandler_Handle. typed_handler ltac:(apply typed_UpsertClient
    || apply typed_DeliverOffline || apply typed_DeliverReplies || apply typed_Print).
Qed.

Lemma typed_MessageHandler m : wf_message m -> gives typed any (MessageHandler_Handle (St := St) m).
Proof.
  intros Hm. unfold MessageHandler_Handle, store_message, send_message. typed_handler fail.
Qed.

Lemma typed_store_reply m :
  wf_message m ->
  gives typed (fun o => forall r n, o = Some (r, n) -> wf_message r) (store_reply (St := St) m).
Proof.
  intros Hm. unfold store_reply. apply gives_try.
  - apply (gives_bind _ any); [typed_leaf|]. intros o _. cbv zeta.
    apply (gives_bind _ any); [typed_leaf|]. intros i _. apply (gives_bind _ any); [typed_leaf|].
    intros _ _. apply gives_ret. intros r n [= <- _]. destruct (negb _); [|done]. by destruct Hm.
  - intros e. apply (gives_bind _ any); [typed_leaf|]. intros _ _. by apply gives_ret.
Qed.

Lemma typed_ReplyHandler m : wf_message m -> gives typed any (ReplyHandler_Handle (St := St) m).
Proof.
  intros Hm. eapply gives_bind; [by apply typed_store_reply|]. intros [[r n]|] Hr; [|by apply gives_ret].
  specialize (Hr r n eq_refl). unfold send_reply. typed_handler fail.
Qed.

Lemma ack_notification_wf a o c : 0 <= c < 2 ^ 64 -> wf_message (ack_notification a o c).
Proof. intros Hc. by split. Qed.

Lemma typed_AckHandler m : wf_message m -> gives typed any (AckHandler_Handle (St := St) m).
Proof.
  intros [_ _ Hc]. unfold AckHandler_Handle, notify_sender.
  typed_handler ltac:(apply typed_on, both_SendMessage; by apply ack_notification_wf).
Qed.

Lemma typed_UnregisterHandler m : gives typed any (UnregisterHandler_Handle (St := St) m).
Proof. unfold UnregisterHandler_Handle, MarkOffline. typed_handler ltac:(apply typed_UnregisterClient). Qed.

Lemma typed_RouteMessage m a : wf_message m -> gives typed any (RouteMessage (St := St) m a).
Proof.
  intros Hm. unfold RouteMessage, sender_session, find_client.
  apply typed_scoped; [typed_router fail|]. intros _.
  destruct (type_ m); cbn [MessageHandlerFactory_Create];
    [apply typed_RegisterHandler | by apply typed_MessageHandler | by apply typed_ReplyHandler
    | by apply typed_AckHandler | apply typed_UnregisterHandler | by apply gives_ret].
Qed.
End TypedHandlers.

(** ** The event loop *)
Section TypedServer.
Context {St : Type} `{IStorageLaws St} `{Host} `{HashOrder}.
Implicit Types (w : World St).

Lemma typed_sends_lock {A} Q (m : M (World St) A) :
  gives typed Q m -> gives typed Q (with_sends_lock m).
Proof. intros Hm. apply gives_lock; [by intros b w []|done]. Qed.

Lemma typed_call_back c b : gives typed any (call_back (St := St) c b).
Proof. unfold call_back, MarkOffline. typed_world fail. Qed.

Lemma typed_socket_send b more :
  (more = false -> readable b) -> gives typed any (socket_send (St := St) b more).
Proof.
  intros Hb w Hw. split; [|done]. unfold socket_send. destruct (socket_open (socket w)); [|done].
  assert (forall s, wire s = wire (socket w) -> typed (set_socket s w)) as Hs.
  { intros s Hs. apply (typed_same w); [done|]. split; try done. intros i t Ht. by exists t. }
  assert (typed (set_socket (set_wire (wire (socket w) ++ [mkFrame b more])
    (set_results (tail (send_results (socket w))) (socket w))) w)) as Hok.
  { destruct Hw. split; try done. cbn. apply Forall_app. split; [done|]. by apply Forall_singleton. }
  destruct (send_results (socket w)) as [|[] rs]; [done|done|by apply Hs..].
Qed.

Lemma typed_process_send s : readable (data s) -> gives typed any (process_send (St := St) s).
Proof.
  intros Hs. unfold process_send, send_frames.
  typed_world ltac:(apply typed_call_back || (by apply typed_socket_send)).
Qed.

Lemma typed_UpdateQueueMetrics : gives typed any (UpdateQueueMetrics (St := St)).
Proof.
  unfold UpdateQueueMetrics. typed_world ltac:(apply typed_sends_lock; typed_world fail).
Qed.

Lemma typed_take_sends :
  gives typed (fun o => forall l, o = Some l -> Forall (fun p => readable (data p)) l)
    (take_sends (St := St)).
Proof.
  apply typed_sends_lock. apply (gives_bind _ (Forall (fun p => readable (data p)))).
  { apply gives_gets. by intros w []. }
  intros [|p l] Hl.
  - apply (gives_bind _ any); [typed_leaf|]. intros _ _. by apply gives_ret.
  - apply (gives_bind _ any); [apply gives_modify; by intros w []|]. intros _ _.
    apply (gives_bind _ any); [typed_leaf|]. intros _ _. apply gives_ret. by intros q [= <-].
Qed.

Lemma typed_ProcessPendingSends : gives typed any (ProcessPendingSends (St := St)).
Proof.
  unfold ProcessPendingSends. eapply gives_bind; [apply typed_take_sends|].
  intros [l|] Hl; [|by apply gives_ret]. specialize (Hl l eq_refl).
  apply (gives_bind _ any).
  { apply gives_for_each. intros s Hs. apply typed_process_send. rewrite Forall_forall in Hl. by apply Hl. }
  intros _ _. apply (gives_bind _ any); [|intros; apply typed_UpdateQueueMetrics].
  apply typed_sends_lock. unfold ScheduleSendProcessing. typed_world fail.
Qed.

Lemma typed_receive_message i d : gives typed any (receive_message (St := St) i d).
Proof.
  unfold receive_message, ScopedMetricsTimer. apply gives_try; [|intros; typed_leaf].
  apply (gives_bind _ any); [by apply gives_gets|]. intros t _. apply gives_finally; [|typed_world fail].
  do 2 (apply (gives_bind _ any); [typed_leaf|intros _ _]). apply (gives_bind _ wf_message).
  - apply gives_lift. intros m. apply decoded_typed.
  - intros m Hm. by apply typed_RouteMessage.
Qed.

Lemma typed_set_socket s w : wire s = wire (socket w) -> typed w -> typed (set_socket s w).
Proof.
  intros Hs Hw. apply (typed_same w); [done|]. split; try done. intros i t Ht. by exists t.
Qed.

Lemma typed_socket_error : gives typed any (socket_error (St := St)).
Proof.
  intros w Hw. split; [|done]. unfold socket_error. destruct (negb _); [done|].
  destruct (recv_errors _) as [|[] l]; [done|by apply typed_set_socket..].
Qed.

Lemma typed_socket_recv : gives typed any (socket_recv (St := St)).
Proof.
  unfold socket_recv. apply (gives_bind _ any); [apply typed_socket_error|]. intros _ _.
  apply (gives_bind _ any); [by apply gives_gets|]. intros [|f l] _; [by apply gives_ret|].
  apply (gives_bind _ any); [|intros; by apply gives_ret]. apply gives_modify. intros w Hw.
  by apply typed_set_socket.
Qed.

Lemma typed_receive_loop : gives typed any (receive_loop (St := St)).
Proof.
  unfold receive_loop, receive_turn.
  typed_world ltac:(apply typed_socket_recv || apply typed_receive_message).
Qed.

Lemma typed_drop_front : gives typed any (drop_front (St := St)).
Proof.
  unfold drop_front. apply (gives_bind _ (Forall (fun p => readable (data p)))).
  { apply gives_gets. by intros w []. }
  intros [|p l] Hl; [apply gives_hang|]. apply Forall_cons in Hl as [_ Hl].
  apply (gives_bind _ any); [apply typed_call_back|]. intros _ _.
  apply (gives_bind _ any); [|intros; by apply gives_ret].
  apply gives_modify. by intros w [].
Qed.

Lemma typed_serve_one e : tick_ok e -> gives typed any (serve_one (St := St) e).
Proof.
  intros Ht. destruct e as [fs|rs|es|ns tick|ec| |ec|ec|]; cbn [serve_one]; unfold handler.
  1, 2, 3: typed_world fail.
  - apply gives_modify. intros w []. destruct (Ht _ ty_ok0) as [Hs Hv]. split; try done.
    cbn. by rewrite Hv.
  - unfold OnZmqEvent, async_wait, socket_readable.
    assert (gives typed any (socket_readable (St := St))) as Hr.
    { unfold socket_readable. typed_world ltac:(apply typed_socket_error). }
    typed_world ltac:(exact Hr || apply typed_UpdateQueueMetrics || apply typed_ProcessPendingSends
      || apply typed_receive_loop).
  - unfold posted_handler. typed_world ltac:(apply typed_ProcessPendingSends).
  - unfold on_ack_timer, SetupAckTimeoutTimer. typed_world ltac:(apply typed_CheckExpiredAcks).
  - unfold on_cleanup_timer, SetupCleanupTimer. typed_world ltac:(apply typed_Cleanup).
  - unfold Stop. typed_world ltac:(apply typed_sends_lock; typed_world ltac:(apply typed_drop_front)).
Qed.

(** C2. Types: from a world whose store, session queues, send queue and wire are well typed,
    every run leaves them so, however it ends and whatever arrived, was stored, was
    refused or failed: every stored and every queued message has a type, flags and a
    correlation id of their widths, and the last frame of every message on the wire
    is one [Deserialize] reads back as the message [Serialize] wrote. *)
Theorem serve_typed (l : list (server_event St)) w :
  Forall tick_ok l -> typed w -> typed (snd (serve l w)).
Proof.
  intros Hl Hw. apply (fun Hg : gives typed any (serve l) => proj1 (Hg w Hw)).
  clear w Hw. induction Hl as [|e l He _ IH]; [by apply gives_ret|]. cbn [serve].
  apply (gives_bind _ any); [by apply typed_serve_one|by intros].
Qed.
End TypedServer.
