(* ===== verification/Main.v ===== *)
(** The process: the signal handler and the end of [main] ([src/main.cpp]).

    A signal runs [SignalHandler] on whatever thread it interrupts, with the mutexes
    that thread holds.  Between the start of the server's thread and the shutdown,
    [main] waits on a condition variable for [g_shutdown_requested]; joining the
    server's thread waits for the workers, which leave [io_context::run] once the
    context is stopped. *)
From Stdlib Require Import ZArith Lia.
From S2P Require Import Prelude Words Message Interfaces Config Metrics Session World.
From S2P Require Import Router RouterSpec Handlers HandlersSpec Server ServerSpec.
Open Scope Z_scope.
Open Scope broker_scope.

Record Process (St : Type) : Type := mkProcess {
  g_shutdown_mutex : bool;
  g_shutdown_requested : bool;
  g_server_ptr : bool;
  server : World St;
  notified : nat;
}.
Arguments mkProcess {St} _ _ _ _ _.
Arguments g_shutdown_mutex {St} _.
Arguments g_shutdown_requested {St} _.
Arguments g_server_ptr {St} _.
Arguments server {St} _.
Arguments notified {St} _.

Section Main.
Context {St : Type} `{IStorage St} `{Host} `{HashOrder}.
Implicit Types p : Process St.

Definition set_shutdown_mutex b p : Process St :=
  mkProcess b (g_shutdown_requested p) (g_server_ptr p) (server p) (notified p).
Definition set_requested b p : Process St :=
  mkProcess (g_shutdown_mutex p) b (g_server_ptr p) (server p) (notified p).
Definition set_server_ptr b p : Process St :=
  mkProcess (g_shutdown_mutex p) (g_shutdown_requested p) b (server p) (notified p).
Definition set_server w p : Process St :=
  mkProcess (g_shutdown_mutex p) (g_shutdown_requested p) (g_server_ptr p) w (notified p).
Definition notify_one p : Process St :=
  mkProcess (g_shutdown_mutex p) (g_shutdown_requested p) (g_server_ptr p) (server p)
    (S (notified p)).

Definition of_server {A} (m : M (World St) A) : M (Process St) A := fun p =>
  let '(r, w) := m (server p) in (r, set_server w p).

Definition SignalHandler : M (Process St) unit :=
  already <- lock_guard g_shutdown_mutex set_shutdown_mutex (
    requested <- gets g_shutdown_requested ;;
    if (requested : bool) then ret true
    else modify (set_requested true) ;;; ret false) ;;
  if (already : bool) then ret tt
  else
    server <- gets g_server_ptr ;;
    (if (server : bool) then of_server Stop else ret tt) ;;;
    modify notify_one.

(** What [main] does once the wait is over; the server is a local of its [try] block. *)
Definition main_shutdown : M (Process St) unit :=
  running <- of_server (gets running_) ;;
  (if (running : bool) then of_server Stop else ret tt) ;;;
  modify (set_server_ptr false) ;;;
  of_server Server_dtor.
End Main.

Section MainSpec.
Context {St : Type} `{IStorageLaws St} `{Host} `{HashOrder}.
Implicit Types p : Process St.

(** The process after its first signal. *)
Definition signalled p : Process St :=
  mkProcess false true (g_server_ptr p)
    (if g_server_ptr p then stopped (server p) else server p) (S (notified p)).

Lemma SignalHandler_first p :
  g_shutdown_mutex p = false -> g_shutdown_requested p = false ->
  running_ (server p) = true -> pending_sends_mutex_ (server p) = false ->
  Forall (callback_alive (server p)) (pending_sends_ (server p)) ->
  SignalHandler p = (Ret tt, signalled p).
Proof.
  intros Hx Hq Hr Hm Hl. destruct p as [mx rq ptr w n]. cbn in *. subst.
  unfold SignalHandler, lock_guard, bind, gets, modify, ret. cbn. destruct ptr; cbn; [|done].
  unfold of_server. cbn [server set_shutdown_mutex set_requested]. by rewrite Stop_running.
Qed.

(** C35. The first signal of a running server stops it, when the sessions of the queued sends
    are alive, and wakes [main], every later one
    does nothing; but the handler locks: a signal that interrupts a thread holding the
    mutex of the shutdown flag, or the one of the send queue, never comes back. *)
Theorem SignalHandler_outcome p :
  running_ (server p) = true ->
  Forall (callback_alive (server p)) (pending_sends_ (server p)) ->
  if g_shutdown_mutex p then SignalHandler p = (Stuck Deadlock, p)
  else if g_shutdown_requested p then SignalHandler p = (Ret tt, p)
  else if g_server_ptr p && pending_sends_mutex_ (server p)
  then fst (SignalHandler p) = Stuck Deadlock
  else SignalHandler p = (Ret tt, signalled p) /\
       SignalHandler (signalled p) = (Ret tt, signalled p).
Proof.
  intros Hr Hl. destruct p as [mx rq ptr w n]. cbn in *.
  unfold SignalHandler, lock_guard, bind, gets, modify, ret. cbn.
  destruct mx; [done|]. cbn. destruct rq; [done|]. cbn. destruct ptr; cbn; [|by split].
  unfold of_server. cbn [server set_shutdown_mutex set_requested].
  destruct (pending_sends_mutex_ w) eqn:Em; [|by rewrite Stop_running].
  pose proof (Stop_locked w Hr Em) as Hs. destruct (Stop w) as [r w']. cbn in Hs. by rewrite Hs.
Qed.
End MainSpec.
