(* ===== verification/Startup.v ===== *)
(** From [main] to a running server and back: [main] and [SetupLogging] of [src/main.cpp],
    the constructor of [Server] and what it sets up ([src/server.cpp]), and
    [MetricsManager::InitExposer].

    What the system, ZeroMQ, Prometheus and the storage answer is an argument
    ([Platform]); what the server's threads do between its start and the moment the main
    thread stops waiting is an arbitrary computation ([life]), or a run of [Reachable.v].  [Server_ctor] of
    [Server.v] is the state a construction that succeeds leaves. *)
From Stdlib Require Import ZArith Lia.
From S2P Require Import Prelude Words Message Interfaces Config Metrics Session World.
From S2P Require Import Router RouterSpec Handlers HandlersSpec Cleanup Idle Server ServerSpec.
From S2P Require Import EventLoop Reachable Main.
Open Scope Z_scope.
Open Scope broker_scope.

(** ** Logging *)
Inductive level : Type := level_trace | level_debug | level_info | level_warn | level_err.

(** The level [SetupLogging] gives the logger. *)
Definition log_level (name : string) : level :=
  if String.eqb name "trace" then level_trace
  else if String.eqb name "debug" then level_debug
  else if String.eqb name "info" then level_info
  else if String.eqb name "warn" then level_warn
  else if String.eqb name "error" then level_err
  else level_info.

(** ** The platform *)
Inductive fcntl_command : Type := F_GETFL | F_SETFL.

(** The options the server sets, in order. *)
Inductive sockopt : Type :=
| router_handover | tcp_keepalive | tcp_keepalive_idle | tcp_keepalive_intvl
| tcp_keepalive_cnt | rcvtimeo | sndtimeo.

Definition socket_options : list (sockopt * Z) :=
  [(router_handover, 1); (tcp_keepalive, 1); (tcp_keepalive_idle, 5); (tcp_keepalive_intvl, 2);
   (tcp_keepalive_cnt, 2); (rcvtimeo, 0); (sndtimeo, 0)].

Record Platform (St : Type) : Type := mkPlatform {
  hardware_concurrency : Z;
  log_file_opens : result unit;
  exposer_starts : string -> result unit;
  open_storage : string -> result St;
  binds : string -> bool;
  accepts_option : sockopt -> Z -> bool;
  socket_fd : Z;
  fcntl : Z -> fcntl_command -> Z -> Z;
  O_NONBLOCK : Z;
  started_at : Z;
}.
Arguments hardware_concurrency {St} _.
Arguments log_file_opens {St} _.
Arguments exposer_starts {St} _ _.
Arguments open_storage {St} _ _.
Arguments binds {St} _ _.
Arguments accepts_option {St} _ _ _.
Arguments socket_fd {St} _.
Arguments fcntl {St} _ _ _ _.
Arguments O_NONBLOCK {St} _.
Arguments started_at {St} _.

Section Startup.
Context {St : Type} `{IStorage St} `{Host} `{HashOrder}.
Context (platform : Platform St).

(** [SetupLogging]; [basic_file_sink_mt] throws when it cannot open its file. *)
Definition SetupLogging (name : string) : result level :=
  _ <-? log_file_opens platform ;;
  Ret (log_level name).

(** The exception is logged and thrown again. *)
Definition InitExposer (bind_address : string) : result unit :=
  match exposer_starts platform bind_address with
  | Ret _ => Ret tt
  | Throw e => Throw e
  | Stuck f => Stuck f
  end.

(** The metrics as the constructor of [Server] leaves them: a failure is caught. *)
Definition start_metrics (config : Config) : Metrics :=
  if EnableMetrics config then
    match InitExposer (MetricsBindAddress config) with
    | Ret _ => StartUpdater MetricsManager_ctor
    | _ => MetricsManager_ctor
    end
  else MetricsManager_ctor.

Definition SetupZmqSocket : M (World St) unit :=
  port <- gets (fun w => Port (config_ w)) ;;
  let endpoint := ("tcp://*:" ++ dec port)%string in
  if binds platform endpoint then
    for_each socket_options (fun o =>
      if accepts_option platform o.1 o.2 then ret Continue else throw zmq_error)
  else throw zmq_error.

Definition SetupAsioIntegration : M (World St) unit :=
  let fd := socket_fd platform in
  if fd <=? 0 then throw (runtime_error "Failed to get ZeroMQ file descriptor")
  else
    let flags := fcntl platform fd F_GETFL 0 in
    if flags =? -1 then throw (runtime_error "Failed to get file descriptor flags")
    else if fcntl platform fd F_SETFL (Z.lor flags (O_NONBLOCK platform)) =? -1 then
      throw (runtime_error "Failed to set non-blocking mode")
    else
      modify (set_work_guard true) ;;;
      async_wait.

(** [Server::Server] *)
Definition make_server (config : Config) : result (World St) :=
  st <-? open_storage platform (DbPath config) ;;
  let w := mkWorld st true ∅ 0 [] ∅ ∅ false [] false false 0 true (mkSocket [] [] [] [] true)
             false None None false false (Some (start_metrics config)) config
             (started_at platform) in
  match (SetupZmqSocket ;;; SetupAsioIntegration) w with
  | (Ret _, w) => Ret w
  | (Throw e, _) => Throw e
  | (Stuck f, _) => Stuck f
  end.

(** [main]: its exit code.  An exception after the server's thread has started meets the
    destructor of a joinable [std::thread]. *)
Definition main (argv : list string) (life : M (Process St) unit) : result Z :=
  match (config <-? ParseArgs (hardware_concurrency platform) argv ;;
         _ <-? SetupLogging (LogLevel config) ;;
         make_server config) with
  | Throw e => Ret (exit_code e)
  | Stuck f => Stuck f
  | Ret w =>
      match (life ;;; main_shutdown) (mkProcess false false true w 0) with
      | (Ret _, _) => Ret 0
      | (Throw _, _) => Stuck Terminate
      | (Stuck f, _) => Stuck f
      end
  end.
End Startup.

Section StartupSpec.
Context {St : Type} `{IStorageLaws St} `{Host} `{HashOrder}.
Context (platform : Platform St).
Implicit Types (w : World St).

(** The calls of the platform come back, and do not throw the broker's own [HelpRequested]. *)
Definition fails_properly {A} (r : result A) : Prop :=
  match r with Ret _ => True | Throw e => e <> HelpRequested | Stuck _ => False end.

Record platform_ok : Prop := {
  log_comes_back : fails_properly (log_file_opens platform);
  storage_comes_back : forall path, fails_properly (open_storage platform path);
  storage_opens : forall path st, open_storage platform path = Ret st -> st_ok st;
}.

Definition exposed (config : Config) : bool :=
  match exposer_starts platform (MetricsBindAddress config) with Ret _ => true | _ => false end.

(** A construction that succeeds leaves [Server_ctor]; one that fails throws. *)
Lemma make_server_outcome config :
  platform_ok ->
  match make_server platform config with
  | Ret w => exists st, open_storage platform (DbPath config) = Ret st /\
      binds platform ("tcp://*:" ++ dec (Port config)) = true /\ 0 < socket_fd platform /\
      w = Server_ctor config (exposed config) st (started_at platform)
  | Throw e => e <> HelpRequested
  | Stuck _ => False
  end.
Proof.
  intros [_ Hst _]. specialize (Hst (DbPath config)). unfold make_server.
  destruct (open_storage platform (DbPath config)) as [st|e|f] eqn:Eo; cbn [rbind];
    [|done|done].
  unfold SetupZmqSocket, SetupAsioIntegration, bind, gets. cbn.
  destruct (binds platform _) eqn:Eb; cbn; [|done].
  do 7 (destruct (accepts_option platform _ _); cbn; [|done]).
  destruct (Z.leb_spec (socket_fd platform) 0) as [|Hfd]; cbn; [done|].
  destruct (_ =? -1); cbn; [done|].
  destruct (_ =? -1); cbn; [done|].
  exists st. split_and!; [done..|]. unfold Server_ctor, start_metrics, InitExposer, exposed.
  destruct (EnableMetrics config); [|done]. by destruct (exposer_starts platform _).
Qed.

(** *** The end of the process *)

Lemma offline_for_queue (t : gmap nat Session) l j s :
  foldl offline_for t l !! j = Some s ->
  exists s0, t !! j = Some s0 /\ outgoing_queue_ s = outgoing_queue_ s0 /\
    queue_mutex_ s = queue_mutex_ s0.
Proof.
  revert t. induction l as [|p l IH]; intros t; cbn; [by exists s|].
  intros (s1 & Hs1 & -> & ->)%IH. revert Hs1. unfold offline_for.
  destruct (callback p) as [c|]; [|by exists s1].
  intros [(_ & s0 & Hs0 & ->)|(_ & Hj)]%lookup_alter_Some; [by exists s0|by exists s1].
Qed.

(** Dropping references nobody else holds. *)
Definition droppable (l : list (string * nat)) w : Prop :=
  locals w = [] /\ active_clients_ w = ∅ /\
  forall p, p ∈ l -> exists s, sessions w !! snd p = Some s /\ outgoing_queue_ s = [] /\
    queue_mutex_ s = false.

Lemma release_last i s w :
  locals w = [] -> active_clients_ w = ∅ -> sessions w !! i = Some s ->
  outgoing_queue_ s = [] -> queue_mutex_ s = false ->
  release i w = (Ret tt, set_sessions (delete i (sessions w)) w).
Proof.
  intros Hl Ha Hs Hq Hm. unfold release, bind, gets. destruct (referenced i w) eqn:Er.
  { apply elem_of_referenced in Er as [Hr|[n Hn]].
    - rewrite Hl in Hr. by apply elem_of_nil in Hr.
    - by rewrite Ha, lookup_empty in Hn. }
  unfold try_catch, Session_dtor. by rewrite (on_persist_idle i s).
Qed.

Lemma release_all l w :
  NoDup (map snd l) -> droppable l w ->
  exists w', for_each l (fun p => release (snd p) ;;; ret Continue) w = (Ret tt, w') /\
    forall j, sessions w' !! j = if decide (j ∈ map snd l) then None else sessions w !! j.
Proof.
  revert w. induction l as [|[n i] l IH]; intros w Hnd (Hl & Ha & Hs); [by exists w|].
  apply NoDup_cons in Hnd as [Hni Hnd]. destruct (Hs (n, i)) as (s & Hi & Hq & Hm); [by left|].
  cbn [snd] in Hi. cbn [for_each]. unfold bind at 1 2. cbn [snd].
  rewrite (release_last i s w) by done. cbn [ret]. set (w1 := set_sessions _ w).
  destruct (IH w1) as (w' & E & Hw'); [done| |].
  { split; [done|]. split; [done|]. intros p Hp. destruct (Hs p) as (t & Ht & Hrest); [by right|].
    exists t. split; [|done]. cbn. rewrite lookup_delete_ne; [done|]. intros Heq.
    apply Hni, list_elem_of_fmap. by exists p. }
  exists w'. split; [done|]. intros j. rewrite Hw'. cbn.
  destruct (decide (j = i)) as [->|Hne].
  - rewrite (decide_True (P := i ∈ i :: _)) by by left. case_decide; [done|]. apply lookup_delete_eq.
  - destruct (decide (j ∈ map snd l)) as [Hj|Hj].
    + by rewrite decide_True by by right.
    + rewrite decide_False by (by intros [?|?]%elem_of_cons). by apply lookup_delete_ne.
Qed.

(** What the server's threads leave for the main thread: every session is registered once
    and has nothing to persist, and what a server that still runs has queued for the socket belongs to live sessions. *)
Record at_rest w : Prop := {
  re_locals : locals w = [];
  re_sends_mutex : pending_sends_mutex_ w = false;
  re_callbacks : running_ w = true -> Forall (callback_alive w) (pending_sends_ w);
  re_distinct : NoDup (map snd (hash_order (active_clients_ w)));
  re_registered : forall n i, active_clients_ w !! n = Some i ->
    exists s, sessions w !! i = Some s /\ outgoing_queue_ s = [] /\ queue_mutex_ s = false;
  re_held : forall i, is_Some (sessions w !! i) -> exists n, active_clients_ w !! n = Some i;
}.

Lemma rok_at_rest w :
  rok [] w -> idle w -> (running_ w = true -> Forall (callback_alive w) (pending_sends_ w)) ->
  at_rest w.
Proof.
  intros Hw Hi Hc. split; [apply Hw|apply Hw|done| | |].
  - by eapply clients_distinct.
  - intros n i Hn. destruct (wok_active _ _ _ _ Hw n i Hn) as (s & Hs & _). exists s.
    split; [done|]. split; [by apply (Hi i)|]. by apply (wok_heap _ _ _ _ Hw i s).
  - intros i Hs. destruct (wok_held _ _ _ _ Hw i Hs) as [[=]|[Hl|Hn]]; [|done].
    by apply elem_of_nil in Hl.
Qed.

Lemma offline_for_some (t : gmap nat Session) l j :
  is_Some (t !! j) -> is_Some (foldl offline_for t l !! j).
Proof.
  revert t. induction l as [|p l IH]; intros t Hj; cbn; [done|]. apply IH. unfold offline_for.
  destruct (callback p) as [c|]; [|done]. rewrite lookup_alter. case_decide as Hc; [|done].
  apply fmap_is_Some. by rewrite Hc.
Qed.

Lemma at_rest_stopped w : at_rest w -> at_rest (stopped w).
Proof.
  intros [Hl Hm _ Hd Hr Hh]. split; [done|done|done|done| |].
  - intros n i Hn. destruct (Hr n i Hn) as (s & Hs & Hq & Hmx).
    destruct (offline_for_some (sessions w) (pending_sends_ w) i) as [s' Hs']; [by exists s|].
    exists s'. split; [done|]. destruct (offline_for_queue _ _ _ _ Hs') as (s0 & Hs0 & -> & ->).
    by simplify_eq.
  - intros i [s' Hs']. destruct (offline_for_queue _ _ _ _ Hs') as (s0 & Hs0 & _). apply Hh.
    by exists s0.
Qed.

(** A stopped server is destroyed, and with it every session. *)
Lemma Server_dtor_stopped w :
  running_ w = false -> at_rest w -> exists w', Server_dtor w = (Ret tt, w') /\ sessions w' = ∅.
Proof.
  intros Hr [Hl _ _ Hd Hreg Hh]. unfold Server_dtor, bind at 1. rewrite Stop_idle by done.
  unfold metric. do 2 (unfold bind at 1, modify at 1). unfold bind at 1, gets.
  unfold bind at 1, modify at 1. set (w1 := set_active_clients _ _).
  change (active_clients_ (set_storage_alive false _)) with (active_clients_ w).
  destruct (release_all (hash_order (active_clients_ w)) w1 Hd) as (w' & E & Hw').
  { split; [done|]. split; [done|]. intros [n i] Hp. apply hash_order_elem in Hp. by eapply Hreg. }
  exists w'. split; [exact E|]. apply map_empty. intros j. rewrite Hw'. case_decide as Hj; [done|].
  destruct (sessions w1 !! j) as [s|] eqn:Es; [|done]. destruct Hj.
  destruct (Hh j) as [n Hn]; [by exists s|]. apply list_elem_of_fmap. exists (n, j).
  split; [done|]. by apply hash_order_elem.
Qed.

Lemma of_server_eq {A} (m : M (World St) A) (p : Process St) a w' :
  m (server p) = (Ret a, w') -> of_server m p = (Ret a, set_server w' p).
Proof. intros E. unfold of_server. by rewrite E. Qed.

Lemma set_server_same (p : Process St) : set_server (server p) p = p.
Proof. by destruct p. Qed.

(** The end of [main], whether or not a signal has stopped the server. *)
Lemma main_shutdown_returns (p : Process St) :
  at_rest (server p) ->
  exists p', main_shutdown p = (Ret tt, p') /\ g_server_ptr p' = false /\ sessions (server p') = ∅.
Proof.
  intros Hrest.
  unfold main_shutdown, bind at 1. rewrite (of_server_eq (gets running_) p (running_ (server p))
    (server p)) by done. rewrite set_server_same. destruct (running_ (server p)) eqn:Er.
  - destruct (Server_dtor_stopped (stopped (server p))) as (w' & E & Hs); [done|by apply at_rest_stopped|].
    unfold bind at 1. rewrite (of_server_eq Stop p tt (stopped (server p)))
      by (apply Stop_running; [done|apply Hrest|by apply Hrest]).
    cbn. erewrite of_server_eq by exact E. eexists. by split_and!.
  - destruct (Server_dtor_stopped (server p)) as (w' & E & Hs); [done|done|].
    cbn. erewrite of_server_eq by exact E. eexists. by split_and!.
Qed.

(** What the process exits with. *)
Definition exit_status (argv : list string) : Z :=
  match ParseArgs (hardware_concurrency platform) argv with
  | Throw HelpRequested => 0
  | Ret config =>
      match SetupLogging platform (LogLevel config), make_server platform config with
      | Ret _, Ret _ => 0
      | _, _ => 1
      end
  | _ => 1
  end.

(** [main] always ends, with 0 when help was asked for or the server was built and shut
    down, and with 1 when the arguments, the log file, the database, the bind or the descriptor
    failed: whatever the threads of the server do, if they leave nothing waiting in a session
    when the main thread wakes up, neither the stop (when no signal has done it) nor the
    destruction of the server and of its sessions raises anything. *)
Lemma main_outcome argv (life : M (Process St) unit) :
  platform_ok ->
  (forall config w, ParseArgs (hardware_concurrency platform) argv = Ret config ->
     make_server platform config = Ret w ->
     exists p, life (mkProcess false false true w 0) = (Ret tt, p) /\ at_rest (server p)) ->
  main platform argv life = Ret (exit_status argv).
Proof.
  intros Hp Hlife. unfold main, exit_status.
  pose proof (ParseArgs_comes_back (hardware_concurrency platform) argv) as Ht.
  destruct (ParseArgs _ argv) as [config|e|f] eqn:Ea; cbn [rbind]; [|by destruct e|done].
  pose proof (log_comes_back Hp) as Hlog. unfold SetupLogging.
  destruct (log_file_opens platform) as [?|e|?]; cbn [rbind]; [|by destruct e|done].
  pose proof (make_server_outcome config Hp) as Hm.
  destruct (make_server platform config) as [w|e|f] eqn:E; [|by destruct e|done].
  destruct (Hlife config w eq_refl E) as (p & Ep & Hrest). unfold bind at 1. rewrite Ep.
  by destruct (main_shutdown_returns p Hrest) as (p' & -> & _).
Qed.

(** *** A whole run *)

(** Both clauses of a run's end: what the threads did, and the signal. *)
Definition run_and_signal (l : list (server_event St)) : M (Process St) unit :=
  of_server (serve l) ;;; SignalHandler.

(** What may stop the process, other than its end: as for the server ([may_stop]), where the
    signal itself is a stop. *)
Definition process_may_stop (l : list (server_event St)) (f : stuck) : Prop :=
  match f with
  | AssertionFailed => glibcxx_assertions = true
  | UseAfterFree => True
  | Terminate => Ack_timer_fires no_error ∈ l \/
      (Socket_ready no_error ∈ l /\ exists es, Read_errors es ∈ l /\ true ∈ es)
  | Deadlock => Cleanup_timer_fires no_error ∈ l
  | _ => False
  end.

Lemma Server_ctor_sound firm config e st now :
  st_ok st -> sound firm false (Server_ctor config e st now).
Proof.
  intros Hs. split; [|done|done|by intros _; apply Forall_nil_2]. split; [|by intros i s Hi; cbn in Hi; rewrite lookup_empty in Hi].
  split; try done; cbn.
  - by intros i Hi%elem_of_nil.
  - intros i [s Hi]. by rewrite lookup_empty in Hi.
Qed.

(** The signal, after any run: the server is stopped or the process is. *)
Lemma signal_after_run firm w :
  sound firm false w ->
  match SignalHandler (mkProcess false false true w 0) with
  | (Ret _, p) => sound firm false (server p) /\ running_ (server p) = false
  | (Throw _, _) => False
  | (Stuck f, _) => f = UseAfterFree \/ asserts f
  end.
Proof.
  intros Hw. pose proof (sound_Stop firm false w Hw) as Hs.
  unfold SignalHandler, lock_guard, bind, gets, modify, ret. cbn. unfold of_server.
  cbn [server set_shutdown_mutex set_requested]. unfold wp in Hs.
  destruct (Stop w) as [[[]|e|f] w1]; [done|done|].
  destruct f; try done; [by destruct Hs as [|[]]|by right|by left].
Qed.

(** C26. A whole run of the process: whatever the arguments, whatever arrives and fails in a run
    [l] of the server and the signal after it, [main] ends with [exit_status], unless the
    run was stopped by a cleanup that waits for its own mutex, by a storage that throws
    under the ACK timer, by a read of the socket that throws, in a hardened build by a broken
    message, or by the callback of a session that has gone: the stop, the joins and the destructors do not fail. *)
Theorem main_serves argv l :
  platform_ok -> Forall tick_ok l ->
  match main platform argv (run_and_signal l) with
  | Ret code => code = exit_status argv
  | Throw _ => False
  | Stuck f => process_may_stop l f
  end.
Proof.
  intros Hp Ht. unfold main, exit_status.
  pose proof (ParseArgs_comes_back (hardware_concurrency platform) argv) as Ha.
  destruct (ParseArgs _ argv) as [config|e|f]; cbn [rbind]; [|by destruct e|done].
  pose proof (log_comes_back Hp) as Hlog. unfold SetupLogging.
  destruct (log_file_opens platform) as [?|e|?]; cbn [rbind]; [|by destruct e|done].
  pose proof (make_server_outcome config Hp) as Hm.
  destruct (make_server platform config) as [w|e|f]; [|by destruct e|done].
  destruct Hm as (st & Hst & _ & _ & ->). apply (storage_opens Hp) in Hst.
  set (w := Server_ctor _ _ _ _). pose proof (Server_ctor_sound (firm_run w l) config (exposed config) st (started_at platform) Hst) as Hw.
  pose proof (sound_serve _ false l w Hw ltac:(apply Forall_forall; by intros []) (firm_run_events w l) Ht)
    as Hs.
  unfold bind at 1, run_and_signal, bind at 1, of_server at 1. cbn [server]. unfold wp in Hs.
  destruct (serve l w) as [[[]|e|f] w1]; [|done|].
  - pose proof (signal_after_run _ w1 Hs) as Hsig. unfold set_server. cbn [g_shutdown_mutex
      g_shutdown_requested g_server_ptr notified].
    destruct (SignalHandler _) as [[[]|e|f] p]; [|done|by destruct Hsig as [->|[-> ?]]].
    destruct Hsig as [[[Hok Hi] _ _ _] Hr]. destruct (main_shutdown_returns p) as (p' & -> & _); [|done].
    apply rok_at_rest; [done|done|]. by rewrite Hr.
  - destruct Hs as (e & He & Hb). destruct f; cbn in *; try done; [by subst|].
    destruct Hb as [->|[Hb ->]]; [by left|]. right. split; [done|].
    by destruct (not_firm w l Hb) as [Hn%elem_of_nil|].
Qed.
End StartupSpec.
