(* ===== verification/Client.v ===== *)
(** The client that ships with the broker: [examples/universal_client.cpp].

    It has a codec of its own ([client_Serialize], [client_Deserialize]), a thread that
    reads commands ([ProcessCommand]) and one that polls the socket ([receiver_turn]).
    [Client] is the state of [class UniversalClient]; [interact] runs the two threads in
    any order, a command or a poll at a time.  The random numbers, what [send] answers and
    what [recv] delivers are arbitrary; what is printed on the terminal is not modelled.
    [ClientSpec.v] relates it to the broker. *)
From Stdlib Require Import ZArith Lia Ascii Strings.Byte.
From stdpp Require Import pretty.
From S2P Require Import Prelude Words Message Config.
Open Scope Z_scope.
Open Scope broker_scope.

(** ** The codec *)
Definition client_PROTOCOL_VERSION : Z := 1.
Definition client_HEADER_SIZE : Z := 15.

Definition client_HostToNetwork64 (host : Z) : Z := bswap 8 host.
Definition client_NetworkToHost64 (net : Z) : Z := bswap 8 net.
Definition client_HostToNetwork16 (e : endian) (host : Z) : Z := htons e host.
Definition client_NetworkToHost16 (e : endian) (net : Z) : Z := ntohs e net.

(** The client's own [class Message] has the fields of the broker's. *)
Definition client_Serialize (e : endian) (m : Message) : result (list byte) :=
  if (255 <? str_size (sender_ m)) || (255 <? str_size (destination_ m)) then
    Throw (runtime_error "Name too long")
  else
    let buffer := [byte_of_Z client_PROTOCOL_VERSION] in
    let buffer := buffer ++ [byte_of_Z (u8_of_MessageType (type_ m))] in
    let buffer := buffer ++ [byte_of_Z (flags_ m)] in
    let net_corr := client_HostToNetwork64 (correlation_id_ m) in
    let buffer := buffer ++ mem_bytes e 8 net_corr in
    let buffer := buffer ++ [byte_of_Z (str_size (sender_ m))] in
    let buffer := buffer ++ [byte_of_Z (str_size (destination_ m))] in
    let net_payload_len := client_HostToNetwork16 e (u16 (Z.of_nat (length (payload_ m)))) in
    let buffer := buffer ++ mem_bytes e 2 net_payload_len in
    let buffer := buffer ++ bytes_of_string (sender_ m) in
    let buffer := buffer ++ bytes_of_string (destination_ m) in
    let buffer := buffer ++ payload_ m in
    Ret buffer.

Definition client_Deserialize (assertions : bool) (e : endian) (data : list byte)
    : result Message :=
  if Z.of_nat (length data) <? client_HEADER_SIZE then
    Throw (runtime_error "Message too short")
  else
    let pos := 0%nat in
    version <-? vec_index assertions data pos ;;
    let pos := S pos in
    if negb (Z_of_byte version =? client_PROTOCOL_VERSION) then
      Throw (runtime_error "Wrong protocol version")
    else
      ty <-? vec_index assertions data pos ;;
      let pos := S pos in
      fl <-? vec_index assertions data pos ;;
      let pos := S pos in
      p <-? vec_addr assertions data pos ;;
      corr <-? vec_read data p 8 ;;
      let net_corr := mem_value e corr in
      let pos := (pos + 8)%nat in
      sender_len <-? vec_index assertions data pos ;;
      let pos := S pos in
      dest_len <-? vec_index assertions data pos ;;
      let pos := S pos in
      p <-? vec_addr assertions data pos ;;
      len <-? vec_read data p 2 ;;
      let payload_len := client_NetworkToHost16 e (mem_value e len) in
      let pos := (pos + 2)%nat in
      if negb (Z.of_nat (length data) =?
               client_HEADER_SIZE + Z_of_byte sender_len + Z_of_byte dest_len + payload_len)
      then Throw (runtime_error "Message size mismatch")
      else
        p <-? vec_addr assertions data pos ;;
        sender <-? vec_read data p (Z.to_nat (Z_of_byte sender_len)) ;;
        let pos := (pos + Z.to_nat (Z_of_byte sender_len))%nat in
        p <-? vec_addr assertions data pos ;;
        dest <-? vec_read data p (Z.to_nat (Z_of_byte dest_len)) ;;
        let pos := (pos + Z.to_nat (Z_of_byte dest_len))%nat in
        payload <-? vec_read data pos (Z.to_nat payload_len) ;;
        Ret (mkMessage (MessageType_of_u8 (Z_of_byte ty)) (Z_of_byte fl)
               (client_NetworkToHost64 net_corr)
               (string_of_bytes sender) (string_of_bytes dest) payload).

(** What [--debug] prints. *)
Definition client_ToString (m : Message) : string :=
  (let type_name :=
     match type_ m with
     | MT_Register => "Register"
     | MT_Message => "Message"
     | MT_Reply => "Reply"
     | MT_Ack => "Ack"
     | MT_Unregister => "Unregister"
     | MT_other v => pretty v
     end in
   "Message{type=" ++ type_name ++ ", flags=" ++ pretty (flags_ m)
   ++ ", corr_id=" ++ pretty (correlation_id_ m)
   ++ ", sender=" ++ sender_ m ++ ", dest=" ++ destination_ m
   ++ ", payload_size=" ++ pretty (Z.of_nat (length (payload_ m))) ++ "}")%string.

Definition PayloadToString (m : Message) : string := string_of_bytes (payload_ m).

(** ** The client's state

    [rng_] is what the generator will answer; [incoming] what [recv] will deliver, a
    frame at a time, or its failure ([None]); [failing] whether the next [send]s throw;
    [outgoing] what was sent. *)
Record Client : Type := mkClient {
  client_name_ : string;
  client_running_ : bool;
  receiver_thread_ : bool;
  rng_ : nat -> Z;
  pending_requests_ : gmap Z string;
  pending_mutex_ : bool;
  incoming : list (option (list byte));
  failing : list bool;
  outgoing : list (list byte);
}.

Section Client.
Context (assertions : bool) (e : endian).
Implicit Types c : Client.

Definition set_client_running (b : bool) c : Client :=
  mkClient (client_name_ c) b (receiver_thread_ c) (rng_ c) (pending_requests_ c)
    (pending_mutex_ c) (incoming c) (failing c) (outgoing c).
Definition set_receiver_thread (b : bool) c : Client :=
  mkClient (client_name_ c) (client_running_ c) b (rng_ c) (pending_requests_ c)
    (pending_mutex_ c) (incoming c) (failing c) (outgoing c).
Definition set_rng (f : nat -> Z) c : Client :=
  mkClient (client_name_ c) (client_running_ c) (receiver_thread_ c) f (pending_requests_ c)
    (pending_mutex_ c) (incoming c) (failing c) (outgoing c).
Definition set_requests (r : gmap Z string) c : Client :=
  mkClient (client_name_ c) (client_running_ c) (receiver_thread_ c) (rng_ c) r
    (pending_mutex_ c) (incoming c) (failing c) (outgoing c).
Definition set_pending_mutex (b : bool) c : Client :=
  mkClient (client_name_ c) (client_running_ c) (receiver_thread_ c) (rng_ c)
    (pending_requests_ c) b (incoming c) (failing c) (outgoing c).
Definition set_incoming (l : list (option (list byte))) c : Client :=
  mkClient (client_name_ c) (client_running_ c) (receiver_thread_ c) (rng_ c)
    (pending_requests_ c) (pending_mutex_ c) l (failing c) (outgoing c).
Definition set_outgoing (fs : list bool) (l : list (list byte)) c : Client :=
  mkClient (client_name_ c) (client_running_ c) (receiver_thread_ c) (rng_ c)
    (pending_requests_ c) (pending_mutex_ c) (incoming c) fs l.

Definition with_pending_lock {A} : M Client A -> M Client A :=
  lock_guard pending_mutex_ set_pending_mutex.

(** [socket_.send(zmq_msg, zmq::send_flags::none)]: it waits until the message is taken,
    or throws. *)
Definition client_send (data : list byte) : M Client unit := fun c =>
  match failing c with
  | true :: l => (Throw zmq_error, set_outgoing l (outgoing c) c)
  | l => (Ret tt, set_outgoing (tail l) (outgoing c ++ [data]) c)
  end.

(** [socket_.recv(zmq_msg, zmq::recv_flags::dontwait)] *)
Definition client_recv : M Client (option (list byte)) := fun c =>
  match incoming c with
  | [] => (Ret None, c)
  | Some data :: l => (Ret (Some data), set_incoming l c)
  | None :: l => (Throw zmq_error, set_incoming l c)
  end.

(** ** Sending *)
Definition SendRawMessage (m : Message) : M Client unit :=
  data <- lift (client_Serialize e m) ;;
  client_send data.

Definition GenerateCorrelationId : M Client Z := fun c =>
  (Ret (rng_ c 0%nat), set_rng (fun n => rng_ c (S n)) c).

Definition client_Register : M Client unit :=
  name <- gets client_name_ ;;
  SendRawMessage (mkMessage MT_Register FlagNone 0 name EmptyString []).

Definition client_Unregister : M Client unit :=
  name <- gets client_name_ ;;
  SendRawMessage (mkMessage MT_Unregister FlagNone 0 name EmptyString []).

Definition client_SendMessage (dest text : string) (needs_reply needs_ack : bool)
    : M Client unit :=
  name <- gets client_name_ ;;
  id <- GenerateCorrelationId ;;
  let m := mkMessage MT_Message FlagNone id name dest (bytes_of_string text) in
  let m := if needs_reply then SetFlags (u8 (Z.lor (flags_ m) FlagNeedsReply)) m else m in
  let m := if needs_ack then SetFlags (u8 (Z.lor (flags_ m) FlagNeedsAck)) m else m in
  (if needs_reply
   then with_pending_lock (modify (fun c => set_requests (<[id := dest]> (pending_requests_ c)) c))
   else ret tt) ;;;
  SendRawMessage m.

Definition SendReply (original : Message) (text : string) : M Client unit :=
  name <- gets client_name_ ;;
  SendRawMessage (mkMessage MT_Reply FlagNone (correlation_id_ original) name (sender_ original)
                    (bytes_of_string text)).

Definition SendManualReply (correlation_id : Z) (text : string) : M Client unit :=
  name <- gets client_name_ ;;
  SendRawMessage (mkMessage MT_Reply FlagNone correlation_id name EmptyString
                    (bytes_of_string text)).

Definition SendAck (correlation_id : Z) (original_sender : string) : M Client unit :=
  name <- gets client_name_ ;;
  SendRawMessage (mkMessage MT_Ack FlagNone correlation_id name original_sender []).

(** ** Receiving *)
Definition HandleMessage (m : Message) : M Client unit :=
  let payload_str := PayloadToString m in
  match type_ m with
  | MT_Message =>
      (if negb (Z.land (flags_ m) FlagNeedsAck =? 0)
       then SendAck (correlation_id_ m) (sender_ m) else ret tt) ;;;
      (if negb (Z.land (flags_ m) FlagNeedsReply =? 0)
       then SendReply m ("Auto-reply to: " ++ payload_str) else ret tt)
  | MT_Reply =>
      with_pending_lock (modify (fun c =>
        set_requests (delete (correlation_id_ m) (pending_requests_ c)) c))
  | _ => ret tt
  end.

(** One round of [ReceiverLoop].  An exception of [recv] is not caught: it leaves the
    thread function. *)
Definition receiver_turn : M Client unit :=
  result <- try_catch client_recv (fun _ => hang Terminate) ;;
  match result with
  | None => ret tt
  | Some [] => ret tt
  | Some data =>
      try_catch (m <- lift (client_Deserialize assertions e data) ;; HandleMessage m)
        (fun _ => ret tt)
  end.

(** [ShowStatus]: what it prints is read under the mutex. *)
Definition ShowStatus : M Client unit := with_pending_lock (ret tt).

(** ** Commands *)

(** [stream >> word]: the word and what is left in the stream. *)
Fixpoint take_word (s : string) : string * string :=
  match s with
  | String a s' =>
      if is_space a then (EmptyString, s)
      else let '(w, rest) := take_word s' in (String a w, rest)
  | EmptyString => (EmptyString, EmptyString)
  end.
Definition next_word (s : string) : string * string := take_word (skip_space s).

(** [std::getline(stream, line)] *)
Fixpoint getline (s : string) : string :=
  match s with
  | String a s' => if Ascii.eqb a "010" then EmptyString else String a (getline s')
  | EmptyString => EmptyString
  end.

(** [std::stoull] in base 10; a sign is allowed, and negates modulo 2^64. *)
Definition stoull (s : string) : result Z :=
  let '(neg, rest) := read_sign (skip_space s) in
  match read_digits false 0 rest with
  | None => Throw (invalid_argument "stoull")
  | Some n =>
      if n <? 2 ^ 64 then Ret (u64 (if neg then - n else n)) else Throw (out_of_range "stoull")
  end.

(** The word and the rest of the line a command takes, the rest less its first
    character; [None] is the usage message. *)
Definition arguments (stream : string) : option (string * string) :=
  let '(dest, rest) := next_word stream in
  let message := getline rest in
  match dest, message with
  | String _ _, String _ message => Some (dest, message)
  | _, _ => None
  end.

Definition ProcessCommand (line : string) : M Client unit :=
  let '(cmd, stream) := next_word line in
  if String.eqb cmd "send" then
    match arguments stream with
    | Some (dest, message) => client_SendMessage dest message false false
    | None => ret tt
    end
  else if String.eqb cmd "send_ack" then
    match arguments stream with
    | Some (dest, message) => client_SendMessage dest message false true
    | None => ret tt
    end
  else if String.eqb cmd "request" then
    match arguments stream with
    | Some (dest, message) => client_SendMessage dest message true false
    | None => ret tt
    end
  else if String.eqb cmd "reply" then
    match arguments stream with
    | Some (corr_id_str, message) =>
        corr_id <- lift (stoull corr_id_str) ;;
        SendManualReply corr_id message
    | None => ret tt
    end
  else if String.eqb cmd "status" then ShowStatus
  else if String.eqb cmd "help" then ret tt
  else if String.eqb cmd "quit" || String.eqb cmd "exit" then modify (set_client_running false)
  else ret tt.

(** ** The two threads

    [Typed line] is a round of the loop of [Run], [Polled] one of [ReceiverLoop]; a round
    is one step, so one that [quit] or an exception overtakes is taken to come before. *)
Inductive activity : Type := Typed (line : string) | Polled.

Definition act (a : activity) : M Client unit :=
  match a with
  | Typed EmptyString => ret tt
  | Typed line => ProcessCommand line
  | Polled => receiver_turn
  end.

(** Both loops go on while [running_]; the end of [l] is the end of the input. *)
Definition interact (l : list activity) : M Client unit :=
  for_each l (fun a =>
    running <- gets client_running_ ;;
    if (running : bool) then act a ;;; ret Continue else ret Break).

Definition client_Run (l : list activity) : M Client unit :=
  client_Register ;;;
  modify (set_receiver_thread true) ;;;
  interact l ;;;
  client_Unregister.

(** The rounds of [ReceiverLoop] between the end of [Run] and [running_ = false]. *)
Definition poll_late (late : nat) : M Client unit := interact (replicate late Polled).

Definition client_Stop : M Client unit :=
  modify (set_client_running false) ;;;
  joinable <- gets receiver_thread_ ;;
  if (joinable : bool) then modify (set_receiver_thread false) else ret tt.

(** The constructor; [connected] is whether the socket took its routing id and address. *)
Definition UniversalClient (connected : bool) (name : string) (rng : nat -> Z)
    (inc : list (option (list byte))) (fails : list bool) : result Client :=
  if connected then Ret (mkClient name true false rng ∅ false inc fails [])
  else Throw zmq_error.

(** [main]: the exit code, and the client as its destructor leaves it. *)
Definition client_main (argc : Z) (connected : bool) (name : string) (rng : nat -> Z)
    (inc : list (option (list byte))) (fails : list bool) (l : list activity) (late : nat)
    : result Z * option Client :=
  if argc <? 3 then (Ret 1, None)
  else
    match UniversalClient connected name rng inc fails with
    | Ret c =>
        match finally (client_Run l ;;; poll_late late) client_Stop c with
        | (Ret _, c') => (Ret 0, Some c')
        | (Throw _, c') => (Ret 1, Some c')
        | (Stuck f, c') => (Stuck f, Some c')
        end
    | Throw _ => (Ret 1, None)
    | Stuck f => (Stuck f, None)
    end.
End Client.
