(* ===== verification/ClientSpec.v ===== *)
(** The example client against the broker: the two codecs agree on every message the
    protocol has room for; whatever the client sends is read by the broker as it was
    meant, or refused for its size; a delivered message is acknowledged before it is
    replied to; a command line is sent as the message it names; and what a run of the
    client's [main] leaves behind, however its two threads interleave. *)
From Stdlib Require Import ZArith Lia Ascii Strings.Byte.
From S2P Require Import Prelude Words Message Interfaces Config Metrics Session World.
From S2P Require Import Server ServerSpec Client.
Open Scope Z_scope.
Open Scope broker_scope.

(** ** The two codecs *)

(** The same answer, up to the text of the error. *)
Definition same_result {A} (r1 r2 : result A) : Prop :=
  match r1, r2 with
  | Throw _, Throw _ => True
  | _, _ => r1 = r2
  end.

Lemma same_result_refl {A} (r : result A) : same_result r r.
Proof. by destruct r. Qed.

Lemma same_result_bind {A B} (r : result A) (k1 k2 : A -> result B) :
  (forall a, same_result (k1 a) (k2 a)) -> same_result (rbind r k1) (rbind r k2).
Proof. intros H. destruct r; [apply H|done..]. Qed.

Lemma same_result_if {A} (b : bool) (r1 r2 r3 r4 : result A) :
  same_result r1 r3 -> same_result r2 r4 ->
  same_result (if b then r1 else r2) (if b then r3 else r4).
Proof. by destruct b. Qed.

Definition names_fit (m : Message) : Prop :=
  str_size (sender_ m) <= 255 /\ str_size (destination_ m) <= 255.

Lemma client_Serialize_fits e m :
  names_fit m -> client_Serialize e m = Ret (header e m ++ body m).
Proof.
  intros [Hs Hd]. unfold client_Serialize.
  rewrite !(proj2 (Z.ltb_ge _ _)) by lia. cbn [orb].
  unfold header, body, client_HostToNetwork16. rewrite mem_bytes_htons.
  by rewrite <- !app_assoc.
Qed.

Lemma client_Serialize_throws e m :
  ~ names_fit m -> client_Serialize e m = Throw (runtime_error "Name too long").
Proof.
  intros Hn. unfold client_Serialize, names_fit in *.
  destruct (Z.ltb_spec 255 (str_size (sender_ m))); [done|].
  destruct (Z.ltb_spec 255 (str_size (destination_ m))); [done|]. by destruct Hn.
Qed.

#[local] Instance names_fit_dec m : Decision (names_fit m).
Proof. unfold names_fit. apply _. Defined.

Lemma client_Serialize_Ret e m data :
  client_Serialize e m = Ret data -> names_fit m /\ data = header e m ++ body m.
Proof.
  intros H. destruct (decide (names_fit m)) as [Hf|Hf].
  - rewrite client_Serialize_fits in H by done. by simplify_eq.
  - by rewrite client_Serialize_throws in H.
Qed.

Definition mismatch : exn := runtime_error "Message size mismatch".

(** What the broker makes of a message of the client. *)
Lemma broker_reads e m data :
  wf_message m -> client_Serialize e m = Ret data ->
  Deserialize false e data =
    if Z.of_nat (length (payload_ m)) <=? 65535 then Ret m else Throw mismatch.
Proof.
  intros Hwf Hser. apply client_Serialize_Ret in Hser as [[Hs Hd] ->].
  destruct (Z.leb_spec (Z.of_nat (length (payload_ m))) 65535) as [Hp|Hp].
  { apply Deserialize_Serialize_fits; [done|]. by split_and!. }
  unfold header, body. rewrite <- !app_assoc.
  rewrite Deserialize_eq; [|apply length_mem_bytes | done]. cbn zeta.
  rewrite !Z_of_byte_of_Z, (u8_id PROTOCOL_VERSION) by done.
  rewrite Z.eqb_refl. cbn [negb]. unfold str_size in *. rewrite !u8_id by lia.
  rewrite <- (mem_bytes_htons e). unfold NetworkToHost16. rewrite mem_value_ntohs.
  rewrite !length_app, !length_bytes_of_string.
  pose proof (Z.mod_pos_bound (u16 (Z.of_nat (length (payload_ m)))) (2 ^ 16)).
  rewrite (proj2 (Z.eqb_neq _ _)); [done|]. unfold u16 in *. lia.
Qed.

(** *** What the client sends is what the broker reads *)

(** A message that is the client's: its fields are in range and it names its sender. *)
Definition own (name : string) (m : Message) : Prop := wf_message m /\ sender_ m = name.

(** What the broker makes of [data], if [data] comes from the client [name]. *)
Definition speaks (e : endian) (name : string) (data : list byte) : Prop :=
  match Deserialize false e data with
  | Ret m => own name m
  | Throw ex => ex = mismatch
  | Stuck _ => False
  end.

Lemma own_speaks e name m data :
  own name m -> client_Serialize e m = Ret data -> speaks e name data.
Proof.
  intros [Hwf Hn] Hs. unfold speaks. rewrite (broker_reads e m data Hwf Hs).
  by destruct (_ <=? _).
Qed.

Lemma own_message name t f i d p :
  wf_type t -> 0 <= f < 2 ^ 8 -> 0 <= i < 2 ^ 64 -> own name (mkMessage t f i name d p).
Proof. by intros. Qed.

Lemma client_Deserialize_same a e data :
  same_result (client_Deserialize a e data) (Deserialize a e data).
Proof.
  unfold client_Deserialize, Deserialize. apply same_result_if; [done|].
  apply same_result_bind. intros v. apply same_result_if; [done|]. apply same_result_refl.
Qed.

Lemma client_Deserialize_Ret a e data m :
  client_Deserialize a e data = Ret m <-> Deserialize a e data = Ret m.
Proof.
  pose proof (client_Deserialize_same a e data) as H. unfold same_result in H.
  repeat case_match; split; intros; congruence.
Qed.

(** Whatever it is built with, what comes back is well formed. *)
Lemma Deserialize_wf a e data m : Deserialize a e data = Ret m -> wf_message m.
Proof.
  intros H. apply (Serialize_Deserialize_wf e data). destruct a; [|done].
  rewrite Deserialize_hardened in H. repeat case_match; congruence.
Qed.

Lemma client_Deserialize_nil a e : client_Deserialize a e [] = Throw (runtime_error "Message too short").
Proof. done. Qed.

(** *** The invariant of a run *)
Section Run.
Context (assertions : bool) (e : endian) (name : string) (solid : bool).

(** [pre] has been sent, and then only messages of this client; with [solid], [recv]
    never fails. *)
Record mine (pre : list (list byte)) (c : Client) : Prop := {
  mine_name : client_name_ c = name;
  mine_rng : forall n, 0 <= rng_ c n < 2 ^ 64;
  mine_mutex : pending_mutex_ c = false;
  mine_out : exists l, outgoing c = pre ++ l /\ Forall (speaks e name) l;
  mine_in : solid = true -> None ∉ incoming c;
}.

(** The ways a client may end other than by its [main]. *)
Definition aborted (f : stuck) : Prop :=
  (f = Terminate /\ solid = false) \/ (f = AssertionFailed /\ assertions = true).

Abbreviation keeps_mine pre := (keeps (mine pre) aborted).

Lemma keeps_set_running pre b : keeps_mine pre (modify (set_client_running b)).
Proof. apply keeps_modify. by intros c []. Qed.

Lemma keeps_set_receiver pre b : keeps_mine pre (modify (set_receiver_thread b)).
Proof. apply keeps_modify. by intros c []. Qed.

Lemma keeps_with_pending_lock pre f :
  keeps_mine pre (with_pending_lock (modify (fun c => set_requests (f (pending_requests_ c)) c))).
Proof. intros c []. apply wp_lock_guard; [done|]. apply wp_modify. by split. Qed.

Lemma keeps_status pre : keeps_mine pre ShowStatus.
Proof. intros c []. apply wp_lock_guard; [done|]. apply wp_ret. by split. Qed.

Lemma keeps_send pre m : own name m -> keeps_mine pre (SendRawMessage e m).
Proof.
  intros Hm c Hc. apply wp_bind. unfold wp at 1, lift.
  destruct (client_Serialize e m) as [data|ex|f] eqn:Es; [|done|].
  2:{ unfold client_Serialize in Es. by destruct (_ || _). }
  pose proof (own_speaks _ _ _ _ Hm Es) as Hd. destruct Hc as [? ? ? (l & Hl & Hf) ?].
  unfold wp, client_send. destruct (failing c) as [|[] fs]; split; cbn; try done;
    try (by exists l); exists (l ++ [data]); rewrite Hl, <- app_assoc; (split; [done|]);
    by apply Forall_app_2, Forall_singleton.
Qed.

(** A call that begins by reading the name. *)
Lemma keeps_named {A} pre (k : string -> M Client A) :
  keeps_mine pre (k name) -> keeps_mine pre (n <- gets client_name_ ;; k n).
Proof.
  intros Hk c Hc. apply wp_bind, wp_gets. rewrite (mine_name _ _ Hc). by apply Hk.
Qed.

Lemma keeps_client_SendMessage pre dest text r a :
  keeps_mine pre (client_SendMessage e dest text r a).
Proof.
  unfold client_SendMessage. apply keeps_named. intros c Hc. apply wp_bind.
  unfold wp at 1, GenerateCorrelationId. pose proof (mine_rng _ _ Hc 0%nat) as Hid.
  set (i := rng_ c 0%nat) in *. cbv zeta.
  match goal with |- wp _ ?m _ _ _ => enough (keeps_mine pre m) as Hk end.
  { apply Hk. destruct Hc. split; cbn; auto. }
  apply keeps_bind.
  - destruct r; [apply (keeps_with_pending_lock pre (insert i dest)) | apply keeps_pure].
  - intros _. apply keeps_send. destruct r, a; (apply own_message; [done| |done]); by vm_compute.
Qed.

Lemma keeps_SendAck pre i d :
  0 <= i < 2 ^ 64 -> keeps_mine pre (SendAck e i d).
Proof. intros Hi. unfold SendAck. apply keeps_named, keeps_send. by apply own_message. Qed.

Lemma keeps_SendReply pre m text :
  wf_message m -> keeps_mine pre (SendReply e m text).
Proof.
  intros Hm. unfold SendReply. apply keeps_named, keeps_send.
  apply own_message; [done..|apply Hm].
Qed.

Lemma keeps_HandleMessage pre m : wf_message m -> keeps_mine pre (HandleMessage e m).
Proof.
  intros Hm. unfold HandleMessage. cbv zeta. destruct (type_ m); try apply keeps_pure.
  - solve_keeps ltac:(idtac; lazymatch goal with
      | |- keeps _ _ (SendAck _ _ _) => apply keeps_SendAck, Hm
      | |- keeps _ _ (SendReply _ _ _) => by apply keeps_SendReply
      end).
  - apply (keeps_with_pending_lock pre (delete (correlation_id_ m))).
Qed.

Lemma keeps_handled pre data :
  keeps_mine pre (try_catch (m <- lift (client_Deserialize assertions e data) ;; HandleMessage e m)
                    (fun _ => ret tt)).
Proof.
  apply keeps_try_catch; [|intros; apply keeps_pure]. intros c Hc. apply wp_bind.
  unfold wp at 1, lift. destruct (client_Deserialize assertions e data) as [m|ex|f] eqn:Ed; [|done|].
  - apply keeps_HandleMessage; [|done]. eapply (Deserialize_wf assertions e data).
    by apply client_Deserialize_Ret.
  - pose proof (client_Deserialize_same assertions e data) as Hs. rewrite Ed in Hs.
    right. destruct assertions.
    + rewrite Deserialize_hardened in Hs. pose proof (Deserialize_total e data).
      by repeat case_match; simplify_eq/=.
    + pose proof (Deserialize_total e data). unfold same_result in Hs. by rewrite <- Hs in *.
Qed.

Lemma keeps_receiver_turn pre : keeps_mine pre (receiver_turn assertions e).
Proof.
  intros c Hc. apply wp_bind, wp_try_catch. unfold wp at 1, client_recv.
  destruct (incoming c) as [|[data|] l] eqn:El; [done| |].
  - assert (mine pre (set_incoming l c)) as H1.
    { destruct Hc as [? ? ? ? Hi]. split; try done. rewrite El in Hi. set_solver. }
    destruct data; [done|]. by apply keeps_handled.
  - intros ex. left. split; [done|]. destruct solid eqn:E; [|done].
    pose proof (mine_in _ _ Hc E) as Hi. rewrite El in Hi. set_solver.
Qed.

Lemma stoull_range s n : stoull s = Ret n -> 0 <= n < 2 ^ 64.
Proof.
  unfold stoull. repeat case_match; intros; simplify_eq; apply u64_range.
Qed.

Lemma stoull_comes_back s : is_stuck (stoull s) = false.
Proof. unfold stoull. by repeat case_match. Qed.

Lemma keeps_reply_command pre s text :
  keeps_mine pre (corr_id <- lift (stoull s) ;; SendManualReply e corr_id text).
Proof.
  intros c Hc. apply wp_bind. unfold wp at 1, lift. pose proof (stoull_comes_back s) as Hs.
  destruct (stoull s) as [n|ex|f] eqn:En; [|done|done]. revert c Hc.
  change (keeps_mine pre (SendManualReply e n text)). unfold SendManualReply.
  apply keeps_named, keeps_send. apply stoull_range in En. by apply own_message.
Qed.

Lemma keeps_ProcessCommand pre line : keeps_mine pre (ProcessCommand e line).
Proof.
  unfold ProcessCommand.
  solve_keeps ltac:(first [ apply keeps_client_SendMessage | apply keeps_reply_command
                          | apply keeps_status | apply keeps_set_running ]).
Qed.

Lemma keeps_interact pre l : keeps_mine pre (interact assertions e l).
Proof.
  unfold interact, act.
  solve_keeps ltac:(first [ apply keeps_ProcessCommand | apply keeps_receiver_turn ]).
Qed.

(** A message of the client's is sent when its call returns, and not when it throws. *)
Lemma sends_own pre m c :
  own name m -> mine pre c ->
  wp aborted (SendRawMessage e m) c
    (fun _ c' => exists data, client_Serialize e m = Ret data /\
                   mine (outgoing c ++ [data]) c')
    (fun c' => outgoing c' = outgoing c).
Proof.
  intros Hm Hc. apply wp_bind. unfold wp at 1, lift.
  destruct (client_Serialize e m) as [data|ex|f] eqn:Es; [|done|].
  2:{ unfold client_Serialize in Es. by destruct (_ || _). }
  destruct Hc as [? ? ? _ ?]. unfold wp, client_send.
  destruct (failing c) as [|[] fs]; [|done|];
    (exists data; split; [done|]; split; cbn; try done; exists []; by rewrite app_nil_r).
Qed.

(** What is known of the client when [client_Run] and the rounds after it end. *)
Definition registered (c : Client) : Prop :=
  exists reg rest, outgoing c = reg :: rest /\ Forall (speaks e name) (reg :: rest) /\
    client_Serialize e (mkMessage MT_Register FlagNone 0 name EmptyString []) = Ret reg.

Definition ended (b : bool) (c : Client) : Prop :=
  (b = false /\ outgoing c = []) \/
  (registered c /\
   (b = true -> exists unreg, unreg ∈ outgoing c /\
     client_Serialize e (mkMessage MT_Unregister FlagNone 0 name EmptyString []) = Ret unreg)).

Lemma own_bare t : wf_type t -> own name (mkMessage t FlagNone 0 name EmptyString []).
Proof. intros. by apply own_message. Qed.

Lemma mine_registered reg rest c :
  mine (reg :: rest) c -> Forall (speaks e name) (reg :: rest) ->
  client_Serialize e (mkMessage MT_Register FlagNone 0 name EmptyString []) = Ret reg ->
  registered c.
Proof.
  intros [_ _ _ (l & Hl & Hf) _] Hr Hs. exists reg, (rest ++ l). rewrite Hl.
  split; [done|]. split; [|done]. by apply (Forall_app_2 _ (reg :: rest)).
Qed.

Lemma run_outcome l late c :
  mine [] c -> outgoing c = [] ->
  wp aborted (client_Run assertions e l ;;; poll_late assertions e late) c (fun _ => ended true)
    (ended false).
Proof.
  intros Hc H0. unfold client_Run. apply wp_bind, wp_bind. unfold client_Register.
  apply wp_bind, wp_gets. rewrite (mine_name _ _ Hc).
  eapply wp_conseq; [apply (sends_own []); [by apply own_bare|done] | |].
  2:{ intros c' Hc'. left. by rewrite Hc'. }
  rewrite H0. intros _ c1 (reg & Hreg & H1). cbn [app] in H1.
  assert (Forall (speaks e name) [reg]) as Hs
    by (apply Forall_singleton; eapply own_speaks; [by apply (own_bare MT_Register)|done]).
  assert (forall c', mine [reg] c' -> ended false c') as HE
    by (intros c' Hc'; right; split; [by eapply mine_registered|done]).
  apply wp_bind. eapply wp_conseq; [by apply (keeps_set_receiver [reg]) | |by apply HE].
  intros ? c2 H2. apply wp_bind.
  eapply wp_conseq; [by apply (keeps_interact [reg]) | |by apply HE].
  intros ? c3 H3. unfold client_Unregister. apply wp_bind, wp_gets. rewrite (mine_name _ _ H3).
  destruct (mine_out _ _ H3) as (l3 & Hl3 & Hf3).
  assert (Forall (speaks e name) (reg :: l3)) as Hs3 by by apply (Forall_app_2 _ [reg]).
  eapply wp_conseq; [apply (sends_own [reg]); [by apply (own_bare MT_Unregister)|done] | |].
  2:{ intros c' Hc'. right. split; [|done]. exists reg, l3. by rewrite Hc', Hl3. }
  rewrite Hl3. intros ? c4 (unreg & Hunreg & H4).
  assert (forall b c', mine (reg :: l3 ++ [unreg]) c' -> ended b c') as HE4.
  { intros b c' Hc'. right. split.
    - eapply mine_registered; [done| |done]. rewrite app_comm_cons.
      apply Forall_app_2; [done|]. apply Forall_singleton.
      eapply own_speaks; [by apply (own_bare MT_Unregister)|done].
    - intros _. exists unreg. split; [|done]. destruct (mine_out _ _ Hc') as (l4 & -> & _).
      set_solver. }
  eapply wp_conseq; [by apply (keeps_interact (reg :: l3 ++ [unreg])) | |by apply HE4].
  intros ? c5 H5. by apply HE4.
Qed.
End Run.

Lemma client_Stop_eq c :
  client_Stop c = (Ret tt, set_receiver_thread false (set_client_running false c)).
Proof. by destruct c as [? ? []]. Qed.

(** *** Answers and commands *)
Lemma SendRawMessage_ok e m c :
  names_fit m -> failing c = [] ->
  SendRawMessage e m c = (Ret tt, set_outgoing [] (outgoing c ++ [header e m ++ body m]) c).
Proof.
  intros Hm Hf. unfold SendRawMessage, bind, lift, client_send.
  by rewrite client_Serialize_fits, Hf.
Qed.

Lemma with_pending_lock_ok f c :
  pending_mutex_ c = false ->
  with_pending_lock (modify (fun c => set_requests (f (pending_requests_ c)) c)) c =
    (Ret tt, set_requests (f (pending_requests_ c)) c).
Proof.
  intros Hm. unfold with_pending_lock, lock_guard. rewrite Hm. destruct c. cbn in *. by subst.
Qed.

(** What the client [name] answers to a message. *)
Definition ack_of (name : string) (m : Message) : Message :=
  mkMessage MT_Ack FlagNone (correlation_id_ m) name (sender_ m) [].
Definition reply_of (name : string) (m : Message) : Message :=
  mkMessage MT_Reply FlagNone (correlation_id_ m) name (sender_ m)
    (bytes_of_string "Auto-reply to: " ++ payload_ m).
Definition answers_to (name : string) (m : Message) : list Message :=
  match type_ m with
  | MT_Message =>
      (if NeedsAck m then [ack_of name m] else []) ++ (if NeedsReply m then [reply_of name m] else [])
  | _ => []
  end.

Definition answered (e : endian) (m : Message) (c : Client) : Client :=
  set_outgoing (failing c)
    (outgoing c ++ map (fun r => header e r ++ body r) (answers_to (client_name_ c) m))
    (set_requests (if decide (type_ m = MT_Reply)
                   then delete (correlation_id_ m) (pending_requests_ c)
                   else pending_requests_ c) c).

Lemma set_outgoing_id c : set_outgoing (failing c) (outgoing c) c = c.
Proof. by destruct c. Qed.

Lemma bytes_of_string_app s1 s2 :
  bytes_of_string (s1 ++ s2) = bytes_of_string s1 ++ bytes_of_string s2.
Proof.
  unfold bytes_of_string, String.list_byte_of_string. rewrite <- map_app. f_equal.
  induction s1 as [|x s1 IH]; [done|]. exact (f_equal (cons x) IH).
Qed.

Lemma auto_reply_payload m :
  bytes_of_string ("Auto-reply to: " ++ PayloadToString m) =
    bytes_of_string "Auto-reply to: " ++ payload_ m.
Proof.
  unfold PayloadToString. by rewrite bytes_of_string_app, bytes_of_string_of_bytes.
Qed.

Lemma SendReply_ok e m c :
  str_size (client_name_ c) <= 255 -> str_size (sender_ m) <= 255 -> failing c = [] ->
  SendReply e m ("Auto-reply to: " ++ PayloadToString m) c =
    (Ret tt, set_outgoing []
       (outgoing c ++ [header e (reply_of (client_name_ c) m) ++ body (reply_of (client_name_ c) m)]) c).
Proof.
  intros Hn Hs Hf. unfold SendReply. rewrite auto_reply_payload. unfold bind, gets.
  by apply SendRawMessage_ok.
Qed.

Lemma SendAck_ok e m c :
  str_size (client_name_ c) <= 255 -> str_size (sender_ m) <= 255 -> failing c = [] ->
  SendAck e (correlation_id_ m) (sender_ m) c =
    (Ret tt, set_outgoing []
       (outgoing c ++ [header e (ack_of (client_name_ c) m) ++ body (ack_of (client_name_ c) m)]) c).
Proof. intros Hn Hs Hf. unfold SendAck, bind, gets. by apply SendRawMessage_ok. Qed.

Lemma HandleMessage_ok e m c :
  str_size (client_name_ c) <= 255 -> str_size (sender_ m) <= 255 -> failing c = [] ->
  pending_mutex_ c = false ->
  HandleMessage e m c = (Ret tt, answered e m c).
Proof.
  intros Hn Hs Hf Hm. unfold HandleMessage, answered, answers_to. cbv zeta.
  change (negb (Z.land (flags_ m) FlagNeedsAck =? 0)) with (NeedsAck m).
  change (negb (Z.land (flags_ m) FlagNeedsReply =? 0)) with (NeedsReply m).
  assert (forall c, set_outgoing (failing c) (outgoing c ++ []) (set_requests (pending_requests_ c) c) = c)
    as Hid by (intros []; cbn; by rewrite app_nil_r).
  destruct (type_ m) eqn:Ht; cbn [decide]; rewrite ?decide_False, ?decide_True by done;
    cbn [map]; rewrite ?Hid; try done.
  - unfold bind. destruct (NeedsAck m).
    + rewrite SendAck_ok by done. destruct (NeedsReply m).
      * rewrite SendReply_ok by done. cbn. rewrite <- app_assoc, Hf. by destruct c.
      * cbn. rewrite Hf. by destruct c.
    + cbn [ret app]. destruct (NeedsReply m).
      * rewrite SendReply_ok by done. cbn. rewrite Hf. by destruct c.
      * cbn. by rewrite Hid.
  - rewrite (with_pending_lock_ok (delete (correlation_id_ m))) by done. cbn.
    rewrite app_nil_r. by destruct c.
Qed.

Lemma receiver_turn_delimiter e l c :
  incoming c = Some [] :: l -> receiver_turn false e c = (Ret tt, set_incoming l c).
Proof. intros Hi. unfold receiver_turn, bind, try_catch, client_recv. by rewrite Hi. Qed.

Lemma receiver_turn_data e m data l c :
  incoming c = Some data :: l -> client_Deserialize false e data = Ret m ->
  str_size (client_name_ c) <= 255 -> str_size (sender_ m) <= 255 -> failing c = [] ->
  pending_mutex_ c = false ->
  receiver_turn false e c = (Ret tt, answered e m (set_incoming l c)).
Proof.
  intros Hi Hd Hn Hs Hf Hm. unfold receiver_turn, bind, try_catch, client_recv. rewrite Hi.
  destruct data; [done|]. unfold lift. by rewrite Hd, HandleMessage_ok.
Qed.

(** *** Command lines *)

(** A word of a command line, a text at the end of it, and a number as the client prints
    its ids: twenty digits are enough for 64 bits. *)
Definition is_word (s : string) : bool :=
  negb (String.eqb s EmptyString) && forallb (fun a => negb (is_space a)) (String.list_ascii_of_string s).
Definition one_line (s : string) : bool :=
  forallb (fun a => negb (Ascii.eqb a "010")) (String.list_ascii_of_string s).
Definition decimal (n : Z) : string := dec_digits 19 n EmptyString.

Inductive command : Type :=
| CmdSend (needs_reply needs_ack : bool) (dest text : string)
| CmdReply (correlation_id : Z) (text : string).

Definition keyword (c : command) : string :=
  match c with
  | CmdSend true _ _ _ => "request"
  | CmdSend false true _ _ => "send_ack"
  | CmdSend false false _ _ => "send"
  | CmdReply _ _ => "reply"
  end.

Definition argument (c : command) : string :=
  match c with CmdSend _ _ d _ => d | CmdReply i _ => decimal i end.
Definition text_of (c : command) : string :=
  match c with CmdSend _ _ _ t => t | CmdReply _ t => t end.
Definition command_line (c : command) : string :=
  keyword c ++ String " " (argument c ++ String " " (text_of c)).

(** The commands there are: [request] never asks for an ACK. *)
Definition command_ok (c : command) : Prop :=
  one_line (text_of c) = true /\ Z.of_nat (String.length (text_of c)) <= 65535 /\
  match c with
  | CmdSend r a d _ => (r && a) = false /\ is_word d = true /\ str_size d <= 255
  | CmdReply i _ => 0 <= i < 2 ^ 64
  end.

Definition meaning (name : string) (id : Z) (c : command) : Message :=
  match c with
  | CmdSend r a d t => mkMessage MT_Message ((if r then 1 else 0) + (if a then 2 else 0)) id name d
                         (bytes_of_string t)
  | CmdReply i t => mkMessage MT_Reply 0 i name EmptyString (bytes_of_string t)
  end.

Definition requests_after (id : Z) (c : command) (r : gmap Z string) : gmap Z string :=
  match c with CmdSend true _ d _ => <[id := d]> r | _ => r end.

Lemma take_word_app w rest :
  forallb (fun a => negb (is_space a)) (String.list_ascii_of_string w) = true ->
  take_word (w ++ String " " rest) = (w, String " " rest).
Proof.
  induction w as [|x w IH]; [done|]. intros [Hx Hw]%andb_prop. cbn [take_word].
  change ((String x w ++ String " " rest)%string) with (String x (w ++ String " " rest)).
  apply negb_true_iff in Hx. cbn [take_word]. rewrite Hx.
  change (forallb _ _) with (forallb (fun a => negb (is_space a)) (String.list_ascii_of_string w)) in Hw.
  by rewrite IH.
Qed.

Lemma next_word_app w rest :
  is_word w = true -> next_word (w ++ String " " rest) = (w, String " " rest).
Proof.
  intros [Hn Hw]%andb_prop. unfold next_word. rewrite <- (take_word_app w rest Hw). f_equal.
  destruct w as [|x w]; [done|]. apply andb_prop in Hw as [Hx _]. apply negb_true_iff in Hx.
  change ((String x w ++ String " " rest)%string) with (String x (w ++ String " " rest)).
  cbn [skip_space]. by rewrite Hx.
Qed.

Lemma next_word_space s : next_word (String " " s) = next_word s.
Proof. done. Qed.

Lemma getline_id s : one_line s = true -> getline s = s.
Proof.
  unfold one_line. induction s as [|x s IH]; [done|]. cbn. intros [Hx Hs]%andb_prop.
  apply negb_true_iff in Hx. rewrite Hx. by rewrite IH.
Qed.

Lemma arguments_app w t :
  is_word w = true -> one_line t = true ->
  arguments (String " " (w ++ String " " t)) = Some (w, t).
Proof.
  intros Hw Ht. unfold arguments. rewrite next_word_space, next_word_app by done.
  rewrite getline_id by done. by destruct w.
Qed.

(** A digit is neither a sign nor white space. *)
Lemma dec_digits_word fuel n s :
  (s = EmptyString \/ is_word s = true) -> is_word (dec_digits fuel n s) = true.
Proof.
  assert (forall d, 0 <= d < 10 -> is_space (digit d) = false) as Hd by by apply digit_cases.
  assert (forall d s, 0 <= d < 10 -> s = EmptyString \/ is_word s = true ->
            is_word (String (digit d) s) = true) as Hs.
  { intros d t Hr Ht. unfold is_word. cbn. rewrite (Hd d Hr). cbn.
    destruct Ht as [->|[_ Ht]%andb_prop]; done. }
  revert n s. induction fuel as [|fuel IH]; intros n s H0; cbn [dec_digits];
    pose proof (Z.mod_pos_bound n 10); [apply Hs; [lia|done]|].
  destruct (n <? 10); [apply Hs; [lia|done]|]. apply IH. right. apply Hs; [lia|done].
Qed.

Lemma stoull_decimal n : 0 <= n < 2 ^ 64 -> stoull (decimal n) = Ret n.
Proof.
  intros Hn. assert (2 ^ 64 < 10 ^ Z.of_nat 20) as Hp by by vm_compute.
  unfold stoull, decimal. rewrite dec_digits_not_sign, read_dec_digits by lia. cbn [read_digits].
  replace (n <? 2 ^ 64) with true by lia. by rewrite u64_id.
Qed.

Lemma argument_word c : command_ok c -> is_word (argument c) = true.
Proof. destruct c; [by intros (_ & _ & _ & Hd & _)|]. intros _. apply dec_digits_word. by left. Qed.

Lemma client_SendMessage_ok e r a d t c :
  failing c = [] -> pending_mutex_ c = false -> str_size (client_name_ c) <= 255 ->
  (r && a) = false -> str_size d <= 255 ->
  let m := meaning (client_name_ c) (rng_ c 0%nat) (CmdSend r a d t) in
  client_SendMessage e d t r a c =
    (Ret tt, set_outgoing [] (outgoing c ++ [header e m ++ body m])
       (set_requests (requests_after (rng_ c 0%nat) (CmdSend r a d t) (pending_requests_ c))
          (set_rng (fun n => rng_ c (S n)) c))).
Proof.
  intros Hf Hm Hn Hra Hd m. unfold client_SendMessage.
  assert (names_fit m) as Hfit by done. destruct c as [name ru re rng req mu inc fa out].
  cbn in Hf, Hm. subst fa mu.
  set (c' := mkClient name ru re (fun n => rng (S n))
               (requests_after (rng 0%nat) (CmdSend r a d t) req) false inc [] out).
  refine (eq_trans _ (SendRawMessage_ok e m c' Hfit eq_refl)).
  by destruct r, a.
Qed.

(** The state after a command that sends. *)
Definition commanded (e : endian) (cmd : command) (c : Client) : Client :=
  let m := meaning (client_name_ c) (rng_ c 0%nat) cmd in
  set_outgoing [] (outgoing c ++ [header e m ++ body m])
    (match cmd with
     | CmdSend _ _ _ _ =>
         set_requests (requests_after (rng_ c 0%nat) cmd (pending_requests_ c))
           (set_rng (fun n => rng_ c (S n)) c)
     | CmdReply _ _ => c
     end).

Lemma ProcessCommand_eq e cmd c :
  command_ok cmd -> failing c = [] -> pending_mutex_ c = false -> str_size (client_name_ c) <= 255 ->
  ProcessCommand e (command_line cmd) c = (Ret tt, commanded e cmd c).
Proof.
  intros Hok Hf Hm Hn. pose proof (argument_word cmd Hok) as Ha. destruct Hok as (Ht & Hl & Hok).
  unfold ProcessCommand, command_line.
  rewrite next_word_app by (by destruct cmd as [[] []|]).
  rewrite arguments_app by done. destruct cmd as [r a d t|i t]; cbn [argument text_of].
  - destruct Hok as (Hra & Hd & Hs). pose proof (client_SendMessage_ok e r a d t c) as Hsm.
    destruct r, a; [done|..]; by apply Hsm.
  - change (String.eqb _ "send") with false. change (String.eqb _ "send_ack") with false.
    change (String.eqb _ "request") with false. change (String.eqb _ "reply") with true.
    unfold bind at 1, lift. rewrite stoull_decimal by done.
    unfold SendManualReply, bind, gets. by apply SendRawMessage_ok.
Qed.

(** ** Properties *)

(** The client's codec is the broker's: they give the same bytes to every message whose
    payload the length field has room for, refuse the same names, make the same
    message of the same bytes, on any host and build, and print it alike. *)
Lemma client_codec_agrees a e m data :
  client_ToString m = ToString m /\
  (Z.of_nat (length (payload_ m)) <= 65535 ->
   same_result (client_Serialize e m) (Serialize e m)) /\
  same_result (client_Deserialize a e data) (Deserialize a e data).
Proof.
  split; [done|]. split; [|apply client_Deserialize_same]. intros Hp.
  destruct (decide (names_fit m)) as [Hf|Hf].
  - rewrite client_Serialize_fits by done. destruct Hf. rewrite Serialize_fits; [done|].
    by split_and!.
  - rewrite client_Serialize_throws by done.
    destruct (Serialize e m) eqn:Es; [|done|].
    + apply Serialize_Ret in Es as [(? & ? & _) _]. by destruct Hf.
    + unfold Serialize in Es. by repeat case_match.
Qed.

(** C23. A run of the client, from [main]: whatever is typed, received and drawn, and in
    whatever order the two threads run, the client ends with an exit code, or, when [recv]
    fails or a checked build reads a broken frame, is aborted; every frame it sent is read
    by the broker as a message under the client's own name, or is refused for its
    size; the first is its registration, and when the exit code is 0 and it had connected it
    has unregistered. *)
Theorem client_main_outcome a e argc connected name rng inc fails l late :
  (forall n, 0 <= rng n < 2 ^ 64) ->
  match client_main a e argc connected name rng inc fails l late with
  | (Ret code, None) => code = 1 /\ (argc < 3 \/ connected = false)
  | (Ret code, Some c) =>
      (code = 0 \/ code = 1) /\ Forall (speaks e name) (outgoing c) /\
      client_running_ c = false /\ receiver_thread_ c = false /\
      (outgoing c = [] /\ code = 1 \/
       exists reg, head (outgoing c) = Some reg /\
         client_Serialize e (mkMessage MT_Register FlagNone 0 name EmptyString []) = Ret reg) /\
      (code = 0 -> exists unreg, unreg ∈ outgoing c /\
         client_Serialize e (mkMessage MT_Unregister FlagNone 0 name EmptyString []) = Ret unreg)
  | (Throw _, _) => False
  | (Stuck f, _) => (f = Terminate /\ None ∈ inc) \/ (f = AssertionFailed /\ a = true)
  end.
Proof.
  intros Hrng. unfold client_main. destruct (Z.ltb_spec argc 3); [by split; [|left]|].
  destruct connected; cbn [UniversalClient]; [|by split; [|right]].
  set (c := mkClient name true false rng ∅ false inc fails []).
  assert (mine e name (bool_decide (None ∉ inc)) [] c) as Hc.
  { split; try done; [by exists []|]. apply bool_decide_eq_true_1. }
  pose proof (run_outcome a e name _ l late c Hc eq_refl) as Ho. revert Ho.
  unfold wp, finally. destruct ((client_Run a e l ;;; poll_late a e late) c) as [[u|ex|f] c'];
    rewrite ?client_Stop_eq.
  - intros [[[=] _]|[(reg & rest & Hout & Hs & Hr) Hu]]. cbn. rewrite Hout in *.
    split; [by left|]. do 3 (split; [done|]). split; [right; by exists reg|]. intros _. by apply Hu.
  - intros [[_ Hout]|[(reg & rest & Hout & Hs & Hr) _]]; cbn; rewrite Hout.
    + split; [by right|]. do 3 (split; [done|]). split; [by left|done].
    + split; [by right|]. do 3 (split; [done|]). split; [right; by exists reg|done].
  - intros [[-> Hb]|[-> ->]]; [|by right]. left. split; [done|].
    by apply bool_decide_eq_false in Hb; apply dec_stable.
Qed.

(** C28. Where the client leaves the protocol: it does not check the size of a payload, and the
    broker refuses every message with more than 65535 bytes of it.  A request the
    broker delivers can be too long for the answer: [HandleMessage] puts 15 bytes before its
    payload, so that what it sends for a request of more than 65520 bytes is an ACK, if one
    was asked for, and a reply that the broker refuses. *)
Theorem client_oversize e name m data :
  wf_message m -> str_size name <= 255 -> Serialize e m = Ret data ->
  65520 < Z.of_nat (length (payload_ m)) ->
  exists reply, client_Serialize e (reply_of name m) = Ret reply /\
    Deserialize false e reply = Throw mismatch /\ is_stuck (Serialize e (reply_of name m)) = false /\
    (forall d, Serialize e (reply_of name m) <> Ret d) /\
    forall c, client_name_ c = name -> type_ m = MT_Message -> NeedsReply m = true ->
      failing c = [] -> pending_mutex_ c = false ->
      exists acks, HandleMessage e m c =
                     (Ret tt, set_outgoing [] (outgoing c ++ acks ++ [reply]) c) /\
        Forall (fun d => Deserialize false e d = Ret (ack_of name m)) acks.
Proof.
  intros Hwf Hn [(Hs & _ & Hp) _]%Serialize_Ret Hlong.
  assert (65535 < Z.of_nat (length (payload_ (reply_of name m)))) as Hr.
  { cbn. lia. }
  assert (names_fit (reply_of name m)) as Hfit by done.
  assert (wf_message (reply_of name m)) as Hwf' by (apply own_message; [done..|apply Hwf]).
  pose proof (client_Serialize_fits e _ Hfit) as Hc. eexists. split; [exact Hc|].
  rewrite (broker_reads e _ _ Hwf' Hc). rewrite (proj2 (Z.leb_gt _ _)) by done.
  split; [done|]. split; [unfold Serialize; by repeat case_match|]. split.
  { intros d [(_ & _ & Hd) _]%Serialize_Ret. lia. }
  intros c <- Ht Hrep Hf Hm. rewrite HandleMessage_ok by done.
  unfold answered, answers_to. rewrite Ht, Hrep, map_app, Hf. cbn [decide].
  rewrite decide_False by done. eexists. split; [by destruct c|].
  assert (names_fit (ack_of (client_name_ c) m)) as Ha by done.
  destruct (NeedsAck m); repeat constructor. rewrite (broker_reads e (ack_of (client_name_ c) m)); [done| |].
  - apply own_message; [done..|apply Hwf].
  - by apply client_Serialize_fits.
Qed.

(** C22. Delivery: the frames [ProcessPendingSends] puts on the wire for a message, less the
    identity the ROUTER socket takes off, make the client skip the delimiter and handle the
    message: it answers with an ACK if the message asks for one and then with a reply
    if it asks for one, to its sender and under its correlation id, and nothing else; a
    reply settles the request of its correlation id; and the broker reads each answer, or
    refuses one whose payload is over 65535 bytes ([client_oversize]). *)
Theorem client_delivery e (s : PendingSend) m rest c :
  wf_message m -> Serialize e m = Ret (data s) -> str_size (client_name_ c) <= 255 ->
  incoming c = map (Some ∘ frame_bytes) (tail (frames_of s)) ++ rest ->
  failing c = [] -> pending_mutex_ c = false ->
  (receiver_turn false e ;;; receiver_turn false e) c =
    (Ret tt, answered e m (set_incoming rest c)) /\
  Forall (fun r => Deserialize false e (header e r ++ body r) =
                     if Z.of_nat (length (payload_ r)) <=? 65535 then Ret r else Throw mismatch)
    (answers_to (client_name_ c) m).
Proof.
  intros Hwf Hser Hn Hin Hf Hm. pose proof (Serialize_Ret _ _ _ Hser) as [(Hs & _ & _) Hdata].
  split.
  - unfold bind. rewrite (receiver_turn_delimiter e (Some (data s) :: rest)) by done.
    rewrite (receiver_turn_data e m (data s) rest); try done.
    apply client_Deserialize_Ret. rewrite Hdata. apply Deserialize_Serialize_fits; [done|].
    by apply Serialize_Ret in Hser as [? _].
  - assert (forall r, names_fit r -> wf_message r ->
      Deserialize false e (header e r ++ body r) =
        if Z.of_nat (length (payload_ r)) <=? 65535 then Ret r else Throw mismatch) as Hr.
    { intros r Hr Hw. apply broker_reads; [done|]. by apply client_Serialize_fits. }
    apply wf_correlation_ in Hwf. unfold answers_to. destruct (type_ m); try constructor.
    destruct (NeedsAck m), (NeedsReply m); repeat constructor; apply Hr; done.
Qed.

(** C27. The command lines do what the help says: a [send], [send_ack], [request] or [reply]
    line is sent as the one message it names, which the broker reads with the words and
    the text of the line, spaces included; a request is remembered under its id before it
    is sent, and a reply can name any id the client prints. *)
Theorem client_commands e cmd c :
  command_ok cmd -> failing c = [] -> pending_mutex_ c = false ->
  str_size (client_name_ c) <= 255 -> 0 <= rng_ c 0%nat < 2 ^ 64 ->
  exists data c', ProcessCommand e (command_line cmd) c = (Ret tt, c') /\
    outgoing c' = outgoing c ++ [data] /\
    Deserialize false e data = Ret (meaning (client_name_ c) (rng_ c 0%nat) cmd) /\
    pending_requests_ c' = requests_after (rng_ c 0%nat) cmd (pending_requests_ c) /\
    client_running_ c' = client_running_ c.
Proof.
  intros Hok Hf Hm Hn Hr. eexists _, _. split; [by apply ProcessCommand_eq|].
  unfold commanded. split; [by destruct cmd|]. split; [|by destruct cmd as [[]|]].
  destruct Hok as (Ht & Hl & Hok).
  destruct cmd as [r a d t|i t]; apply Deserialize_Serialize_fits.
  - apply own_message; [done| |done]. by destruct r, a.
  - split_and!; cbn; [done|by apply Hok|by rewrite length_bytes_of_string].
  - by apply own_message.
  - split_and!; cbn; [done|done|by rewrite length_bytes_of_string].
Qed.

(** ** Runs *)
Definition draw : nat -> Z := fun _ => 7.
Definition alice : Client := mkClient "alice" true true draw ∅ false [] [] [].
Definition to_alice : Message := mkMessage MT_Message 3 9 "bob" "alice" [x68; x69].

(** Frames in, commands in, frames out, as the broker reads them. *)
Definition run_alice (inc : list (option (list byte))) (l : list activity) :=
  let '(r, oc) := client_main false LittleEndian 3 true "alice" draw inc [] l 1 in
  (r, option_map (fun c => map (Deserialize false LittleEndian) (outgoing c)) oc,
   option_map (fun c => map_to_list (pending_requests_ c)) oc).

Definition bare (t : MessageType) : Message := mkMessage t 0 0 "alice" "" [].

Definition wire_to_alice : list byte :=
  match Serialize LittleEndian to_alice with Ret d => d | _ => [] end.

Example client_session :
  run_alice [Some []; Some wire_to_alice]
    [Polled; Polled; Typed "request bob  hi "; Typed ""; Typed "send bob"; Polled; Typed "quit"] =
    (Ret 0,
     Some (map Ret [bare MT_Register; ack_of "alice" to_alice; reply_of "alice" to_alice;
                    mkMessage MT_Message 1 7 "alice" "bob" [x20; x68; x69; x20];
                    bare MT_Unregister]),
     Some [(7, "bob"%string)]).
Proof. vm_compute. reflexivity. Qed.

(** A [recv] that fails ends the process. *)
Example client_recv_fails :
  fst (fst (run_alice [None] [Polled])) = Stuck Terminate.
Proof. vm_compute. reflexivity. Qed.

(** A [reply] whose id is not a number, or a name that is too long, ends the client, and it
    does not unregister. *)
Example bad_command_ends_client :
  run_alice [] [Typed "reply 1x2 ok"; Typed "reply x2 ok"; Typed "send bob hi"] =
    (Ret 1, Some (map Ret [bare MT_Register; mkMessage MT_Reply 0 1 "alice" "" [x6f; x6b]]),
     Some []).
Proof. vm_compute. reflexivity. Qed.

Lemma client_codec_agrees_witness :
  client_Serialize LittleEndian to_alice = Serialize LittleEndian to_alice.
Proof.
  pose proof (proj1 (proj2 (client_codec_agrees false LittleEndian to_alice [])) ltac:(cbn; lia)) as H.
  revert H. unfold same_result. vm_compute. exact (fun H => H).
Defined.

Lemma client_main_outcome_witness :
  exists c, client_main false LittleEndian 3 true "alice" draw [] [] [Typed "send bob hi"] 0 =
              (Ret 0, Some c) /\ length (outgoing c) = 3%nat /\
            Forall (speaks LittleEndian "alice") (outgoing c).
Proof.
  assert (forall n, 0 <= draw n < 2 ^ 64) as Hd by (intros n; unfold draw; lia).
  pose proof (client_main_outcome false LittleEndian 3 true "alice" draw [] [] [Typed "send bob hi"] 0 Hd)
    as H.
  eexists. split; [vm_compute; reflexivity|]. split; [vm_compute; reflexivity|].
  match type of H with match ?o with _ => _ end => destruct o as [[code|ex|f] [c'|]] eqn:E end;
    vm_compute in E; try discriminate E.
  injection E as <- <-. destruct H as (_ & H & _). exact H.
Defined.

Definition long : Message := mkMessage MT_Message 3 9 "bob" "alice" (replicate 65521 x61).

Lemma client_oversize_witness :
  exists reply, client_Serialize LittleEndian (reply_of "alice" long) = Ret reply /\
    Deserialize false LittleEndian reply = Throw mismatch /\
    exists acks, outgoing (snd (HandleMessage LittleEndian long alice)) =
                   outgoing alice ++ acks ++ [reply] /\
      Forall (fun d => Deserialize false LittleEndian d = Ret (ack_of "alice" long)) acks.
Proof.
  assert (wf_message long) as Hw by (by apply (own_message "bob")).
  assert (fits long) as Hf by (apply (bool_decide_eq_true_1 (fits long)); vm_compute; reflexivity).
  assert (65520 < Z.of_nat (length (payload_ long))) as Hl by (vm_compute; reflexivity).
  assert (str_size "alice" <= 255) as Hn by by vm_compute.
  destruct (client_oversize LittleEndian "alice" long _ Hw Hn (Serialize_fits _ _ Hf) Hl)
    as (reply & Hs & Hd & _ & _ & Hh).
  exists reply. split; [exact Hs|]. split; [exact Hd|].
  destruct (Hh alice eq_refl eq_refl eq_refl eq_refl eq_refl) as (acks & -> & Ha).
  exists acks. split; [reflexivity|exact Ha].
Defined.

Lemma client_delivery_witness :
  let s := mkSend "id" wire_to_alice None in
  let c := set_incoming [Some []; Some wire_to_alice] alice in
  (receiver_turn false LittleEndian ;;; receiver_turn false LittleEndian) c =
    (Ret tt, answered LittleEndian to_alice alice) /\
  map payload_ (answers_to "alice" to_alice) = [[]; bytes_of_string "Auto-reply to: hi"].
Proof.
  cbv zeta. split; [|vm_compute; reflexivity].
  exact (proj1 (client_delivery LittleEndian (mkSend "id" wire_to_alice None) to_alice []
    (set_incoming [Some []; Some wire_to_alice] alice)
    ltac:(by apply (own_message "bob")) ltac:(vm_compute; reflexivity) ltac:(by vm_compute)
    eq_refl eq_refl eq_refl)).
Defined.

Lemma client_commands_witness :
  let cmd := CmdSend true false "bob" " hi  there" in
  command_line cmd = "request bob  hi  there"%string /\
  exists data c', ProcessCommand LittleEndian (command_line cmd) alice = (Ret tt, c') /\
    Deserialize false LittleEndian data = Ret (meaning "alice" 7 cmd) /\
    pending_requests_ c' = {[7 := "bob"%string]}.
Proof.
  cbv zeta. set (cmd := CmdSend true false "bob" " hi  there"). split; [vm_compute; reflexivity|].
  assert (command_ok cmd) as Hok by (split_and!; by vm_compute).
  destruct (client_commands LittleEndian cmd alice Hok eq_refl eq_refl ltac:(by vm_compute)
    ltac:(cbn; unfold draw; lia)) as (data & c' & Hp & _ & Hd & Hr & _).
  exists data, c'. split; [exact Hp|]. split; [exact Hd|exact Hr].
Defined.
