(* ===== verification/Scenarios.v ===== *)
(** The broker run on concrete inputs: the whole model, from frames on the socket to rows
    in the tables, over [Storage] with a database that sorts by merging, on a
    little-endian host.

    The worlds reached here instantiate the theorems of the other files (the
    [_witness] lemmas); the last section is the behaviours that go wrong, each shown by
    a run. *)
From Stdlib Require Import ZArith Lia Strings.Byte.
From S2P Require Import Prelude Words Message Interfaces Storage StorageSpec StorageHealth Config.
From S2P Require Import Metrics Session World Router RouterSpec Handlers HandlersSpec.
From S2P Require Import Cleanup Routing Replies Acks Offline Server ServerSpec EventLoop Main.
From S2P Require Import Client ClientSpec Concurrency Registration Idle Redelivery Forward.
From S2P Require Import Startup Reachable Typed.
Open Scope Z_scope.
Open Scope broker_scope.

#[local] Existing Instance little_host.

#[local] Instance map_order : HashOrder :=
  {| hash_order := fun A m => map_to_list m; hash_order_perm := fun A m => reflexivity _ |}.

(** ** Worlds *)
Definition socket_of (l : list (list byte)) : Socket := mkSocket l [] [] [] true.

(** A server that has started, with nothing registered and an empty database. *)
Definition fresh (metrics : option Metrics) : World Storage :=
  set_metrics metrics (Server_ctor Config_default true empty_storage 1000).

Lemma fresh_ok mt : rok [] (fresh mt).
Proof.
  split; try done; cbn.
  - by intros i Hi%elem_of_nil.
  - by intros i [s Hs].
Qed.

Fixpoint route (l : list (Message * string)) : M (World Storage) unit :=
  match l with
  | [] => ret tt
  | (m, a) :: l' => RouteMessage m a ;;; route l'
  end.

Definition register (n : string) : Message := SetSender n (SetType MT_Register Message_default).

Definition reached (l : list (Message * string)) (mt : option Metrics) : World Storage :=
  snd (route l (fresh mt)).

Lemma keeps_route l : keeps (rok []) only_terminate (route l).
Proof.
  induction l as [|[m a] l IH]; [apply keeps_pure|]. cbn [route].
  apply keeps_bind; [apply ok_RouteMessage|]. by intros _.
Qed.

Lemma reached_ok l mt : is_stuck (fst (route l (fresh mt))) = false -> rok [] (reached l mt).
Proof.
  unfold reached. intros Hs. pose proof (keeps_route l (fresh mt) (fresh_ok mt)) as Hk.
  unfold wp in Hk. by destruct (route l (fresh mt)) as [[]?].
Qed.

(** alice and bob are registered and online. *)
Definition both : list (Message * string) :=
  [(register "alice", "id-a"); (register "bob", "id-b")]%string.
Definition demo : World Storage := reached both (Some MetricsManager_ctor).

Lemma demo_ok : rok [] demo.
Proof. apply reached_ok. vm_compute. reflexivity. Qed.

(** ... then bob goes away and alice sends him a message that asks for an ACK. *)
Definition away : World Storage :=
  reached (both ++ [(SetSender "bob" (SetType MT_Unregister Message_default), "id-b"%string);
                    (hello, "id-a"%string)]) (Some MetricsManager_ctor).

Lemma away_ok : rok [] away.
Proof. apply reached_ok. vm_compute. reflexivity. Qed.

(** ... or stays, so that the message is on its way. *)
Definition sent : World Storage :=
  reached (both ++ [(hello, "id-a"%string)]) (Some MetricsManager_ctor).

Lemma sent_ok : rok [] sent.
Proof. apply reached_ok. vm_compute. reflexivity. Qed.

Example sent_row : rows (sview sent) !! 1 = Some (hello, STATUS_SENT).
Proof. vm_compute. reflexivity. Qed.

Example away_row : rows (sview away) !! 1 = Some (hello, STATUS_PENDING).
Proof. vm_compute. reflexivity. Qed.

(** ** Checks of the hypotheses on a concrete world *)
Definition all_idle (w : World Storage) : bool :=
  forallb (fun p => match outgoing_queue_ (snd p) with [] => true | _ => false end)
    (map_to_list (sessions w)).

Lemma idle_check w : all_idle w = true -> idle w.
Proof.
  intros Hc i s Hs. unfold all_idle in Hc. rewrite forallb_forall in Hc.
  specialize (Hc (i, s)). cbn in Hc. destruct (outgoing_queue_ s); [done|].
  assert (false = true) by (apply Hc, list_elem_of_In, elem_of_map_to_list; exact Hs). done.
Qed.

Definition all_alive (w : World Storage) : bool :=
  forallb (fun s => match callback s with
                    | Some c => bool_decide (is_Some (sessions w !! cb_this c))
                    | None => true
                    end) (pending_sends_ w).

Lemma alive_check w : all_alive w = true -> Forall (callback_alive w) (pending_sends_ w).
Proof.
  unfold all_alive. rewrite forallb_forall. intros Hc. apply Forall_forall. intros s Hs c Ec.
  apply list_elem_of_In in Hs. specialize (Hc s Hs). rewrite Ec in Hc.
  by apply bool_decide_eq_true in Hc.
Qed.

Definition measured (w : World Storage) : bool :=
  match metrics_ w with Some _ => true | None => false end.

Lemma measured_check w : measured w = true -> metrics_ w <> None.
Proof. unfold measured. by destruct (metrics_ w). Qed.

Definition online_at (n : string) (i : nat) (s : Session) (w : World Storage) : Prop :=
  active_clients_ w !! n = Some i /\ sessions w !! i = Some s /\ is_online_ s = true.

Lemma online_check n i s w : online_at n i s w -> Online n i s w.
Proof. by intros (? & ? & ?). Qed.

(** The storage of [w] is well and has room for [n] more rows. *)
Definition well_for (n : nat) (w : World Storage) : bool :=
  match faults (storage_ w) with [] => true | _ => false end &&
  (messages_seq (storage_ w) + Z.of_nat n <? 2 ^ 63) &&
  (correlations_seq (storage_ w) + Z.of_nat n <? 2 ^ 63).

Lemma well_check n w : well_for n w = true -> st_well n (storage_ w).
Proof.
  unfold well_for. intros [[Hf Hm]%andb_true_iff Hc]%andb_true_iff.
  apply Z.ltb_lt in Hm, Hc. split; [by destruct (faults (storage_ w))|]. by split.
Qed.

Lemma set_clock_ok P t w : rok P w -> rok P (set_clock t w).
Proof. intros Hw. by apply (wok_sessions _ _ _ w). Qed.

(** A minute and a second later. *)
Definition later (w : World Storage) : World Storage := set_clock (clock_ w + 61 * 10 ^ 9) w.

(** ** Witnesses *)
Lemma RouteMessage_safe_witness :
  exists w', RouteMessage hello "id-a" demo = (Ret tt, w') /\ rok [] w'.
Proof.
  pose proof (RouteMessage_safe hello "id-a" demo demo_ok) as Hs.
  assert (fst (RouteMessage hello "id-a" demo) = Ret tt) as Er by (vm_compute; reflexivity).
  destruct (RouteMessage hello "id-a" demo) as [r w']. cbn in Er. subst r.
  exists w'. split; [reflexivity|exact Hs].
Defined.

Lemma RouteMessage_quiet_witness :
  idle demo /\ exists w', RouteMessage hello "id-a" demo = (Ret tt, w') /\ idle w'.
Proof.
  assert (idle demo) as Hi by (apply idle_check; vm_compute; reflexivity). split; [exact Hi|].
  pose proof (RouteMessage_quiet hello "id-a" demo demo_ok Hi) as Hs.
  assert (fst (RouteMessage hello "id-a" demo) = Ret tt) as Er by (vm_compute; reflexivity).
  destruct (RouteMessage hello "id-a" demo) as [r w']. cbn in Er. subst r.
  exists w'. split; [reflexivity|exact (proj2 Hs)].
Defined.

Lemma cleanup_deadlock_witness :
  inactive_at (SessionTimeout (config_ (later demo))) (later demo) 0 = true /\
  fst (CleanupInactiveSessions (later demo)) = Stuck Deadlock.
Proof.
  assert (inactive_at (SessionTimeout (config_ (later demo))) (later demo) 0 = true) as Hi
    by (vm_compute; reflexivity).
  split; [exact Hi|]. apply (cleanup_deadlock (later demo) "alice" 0); [| | | |exact Hi].
  - apply set_clock_ok, demo_ok.
  - apply idle_check. vm_compute. reflexivity.
  - apply measured_check. vm_compute. reflexivity.
  - vm_compute. reflexivity.
Defined.

Definition demo_plain : World Storage := reached both None.

Lemma cleanup_exact_witness :
  exists w', CleanupInactiveSessions (later demo_plain) = (Ret tt, w') /\
    active_clients_ w' !! "alice"%string = None.
Proof.
  destruct (cleanup_exact (later demo_plain)) as (w' & Hr & _ & Ha).
  - apply set_clock_ok, reached_ok. vm_compute. reflexivity.
  - apply idle_check. vm_compute. reflexivity.
  - vm_compute. reflexivity.
  - exists w'. split; [exact Hr|]. specialize (Ha "alice"%string).
    destruct (active_clients_ w' !! "alice"%string) as [i|]; [|reflexivity].
    destruct (proj1 (Ha i) eq_refl) as [H1 H2].
    assert (active_clients_ (later demo_plain) !! "alice"%string = Some 0%nat) as H0
      by (vm_compute; reflexivity).
    assert (i = 0%nat) as -> by congruence.
    assert (inactive_at (SessionTimeout (config_ (later demo_plain))) (later demo_plain) 0 = true)
      as H3 by (vm_compute; reflexivity).
    congruence.
Defined.

Lemma MessageHandler_outcome_witness :
  exists w', MessageHandler_Handle hello demo = (Ret tt, w') /\ message_outcome hello demo w' /\
    length (pending_sends_ w') = 1%nat.
Proof.
  destruct (MessageHandler_outcome hello demo demo_ok) as (w' & Hr & Ho).
  exists w'. split; [exact Hr|]. split; [exact Ho|].
  assert (length (pending_sends_ (snd (MessageHandler_Handle hello demo))) = 1%nat) as Hl
    by (vm_compute; reflexivity).
  rewrite Hr in Hl. exact Hl.
Defined.

(** The bytes of a message. *)
Definition wire_of (m : Message) : list byte :=
  match Serialize LittleEndian m with Ret b => b | _ => [] end.

(** bob's answer, and his acknowledgement. *)
Definition answer : Message :=
  mkMessage MT_Reply FlagNone 42 "bob" "alice" (bytes_of_string "hi").
Definition acknowledgement : Message := mkMessage MT_Ack FlagNone 42 "bob" "" [].

Lemma ReplyHandler_outcome_witness :
  exists w', ReplyHandler_Handle answer sent = (Ret tt, w') /\ reply_outcome answer sent w' /\
    replied answer sent w' /\ rows (sview w') !! 2 = Some (answer, STATUS_DELIVERED).
Proof.
  destruct (ReplyHandler_outcome answer sent sent_ok) as (w' & Hr & Ho & Hw).
  exists w'. split; [exact Hr|]. split; [exact Ho|]. split.
  { apply (Hw 0%nat). apply well_check. vm_compute. reflexivity. }
  assert (rows (sview (snd (ReplyHandler_Handle answer sent))) !! 2 =
            Some (answer, STATUS_DELIVERED)) as Hl by (vm_compute; reflexivity).
  rewrite Hr in Hl. exact Hl.
Defined.

Lemma AckHandler_outcome_witness :
  exists w', AckHandler_Handle acknowledgement sent = (Ret tt, w') /\
    acked acknowledgement sent w' /\ rows (sview w') !! 1 = Some (hello, STATUS_DELIVERED).
Proof.
  pose proof (AckHandler_outcome acknowledgement sent sent_ok) as [_ Ho].
  destruct (Ho 0%nat) as (w' & Hr & Ha & _); [apply well_check; vm_compute; reflexivity|].
  exists w'. split; [exact Hr|]. split; [exact Ha|].
  assert (rows (sview (snd (AckHandler_Handle acknowledgement sent))) !! 1 =
            Some (hello, STATUS_DELIVERED)) as Hl by (vm_compute; reflexivity).
  rewrite Hr in Hl. exact Hl.
Defined.

(** The one correlation of [sent] is that of alice's message. *)
Lemma sent_owner : only_owner 1 42 "alice" (sview sent).
Proof.
  assert (elements (corrs (sview sent)) = [(1, 42, "alice"%string)]) as He
    by (vm_compute; reflexivity).
  split.
  - apply elem_of_elements. rewrite He. by left.
  - intros k o Hk. apply elem_of_elements in Hk. rewrite He in Hk.
    apply list_elem_of_singleton in Hk. clear He. injection Hk as -> ->. split; reflexivity.
Qed.

Lemma reply_loses_ack_witness :
  rows (sview (snd (AckHandler_Handle acknowledgement sent))) !! 1 =
    Some (hello, STATUS_DELIVERED) /\
  rows (sview (snd ((ReplyHandler_Handle answer ;;;
    for_each [acknowledgement; acknowledgement]
      (fun a => AckHandler_Handle a ;;; ret Continue)) sent))) !! 1 = Some (hello, STATUS_SENT).
Proof.
  destruct (reply_loses_ack answer [acknowledgement; acknowledgement] 1 "alice" hello sent 0)
    as [Hack (w' & Hr & Hs)].
  - exact sent_ok.
  - apply well_check. vm_compute. reflexivity.
  - discriminate.
  - intros a Ha. by repeat (apply elem_of_cons in Ha as [->|Ha]; [reflexivity|]); apply elem_of_nil in Ha.
  - exact sent_owner.
  - discriminate.
  - vm_compute. reflexivity.
  - lia.
  - exact sent_row.
  - vm_compute. reflexivity.
  - split.
    + destruct (Hack acknowledgement eq_refl) as (w1 & E & H1). rewrite E. exact H1.
    + rewrite Hr. exact Hs.
Defined.

(** bob is there and his message waits in the store. *)
Definition waiting_for_bob : World Storage := set_storage (storage_ away) demo.

Lemma waiting_for_bob_ok : rok [] waiting_for_bob.
Proof.
  assert (forall w s, rok [] w -> st_ok s -> rok [] (set_storage s w)) as Hs
    by (intros w s [] Hs; by split).
  apply Hs; [exact demo_ok|]. exact (wok_store _ _ _ _ away_ok).
Qed.

Definition bob_session : Session :=
  match sessions waiting_for_bob !! 1%nat with Some s => s | None => bob end.

Lemma bob_online : Online "bob" 1 bob_session waiting_for_bob.
Proof. apply online_check. unfold online_at. split; [|split]; vm_compute; reflexivity. Qed.

Lemma DeliverOfflineMessages_outcome_witness :
  exists w', DeliverOfflineMessages "bob" waiting_for_bob = (Ret tt, w') /\
    offline_outcome "bob" 1 bob_session waiting_for_bob (Ret tt, w') /\
    (exists l, fst (iLoadPendingMessagesOnly "bob" (storage_ waiting_for_bob)) = Ret l /\
       all_rows (fun _ => waiting_for "bob") l (sview waiting_for_bob)) /\
    rows (sview w') !! 1 = Some (hello, STATUS_SENT).
Proof.
  assert (outgoing_queue_ bob_session = []) as Hq by (vm_compute; reflexivity).
  destruct (DeliverOfflineMessages_outcome "bob" 1 bob_session waiting_for_bob
              waiting_for_bob_ok bob_online Hq) as [Ho Hk].
  destruct (Hk 0%nat) as (Er & _ & Hl); [apply well_check; vm_compute; reflexivity|].
  assert (rows (sview (snd (DeliverOfflineMessages "bob" waiting_for_bob))) !! 1 =
            Some (hello, STATUS_SENT)) as Es by (vm_compute; reflexivity).
  destruct (DeliverOfflineMessages "bob" waiting_for_bob) as [r w']. cbn in Er, Es. subst r.
  exists w'. split; [reflexivity|]. split; [exact Ho|]. split; [exact Hl|exact Es].
Defined.




Lemma ProcessPendingSends_outcome_witness :
  exists fs w', ProcessPendingSends sent = (Ret tt, w') /\ length fs = 3%nat /\
    wire (socket w') = wire (socket sent) ++ fs.
Proof.
  destruct (ProcessPendingSends_outcome sent) as (ts & fs & rs & _ & _ & _ & Hfs & Ho).
  - exact (wok_sends _ _ _ _ sent_ok).
  - assert (fst (ProcessPendingSends sent) = Ret tt) as Er by (vm_compute; reflexivity).
    destruct (ProcessPendingSends sent) as [r w']. cbn in Er. subst r.
    destruct Ho as (_ & _ & Hwire & _). exists fs, w'. split; [reflexivity|]. split; [|exact Hwire].
    rewrite (proj2 (Hfs ltac:(vm_compute; reflexivity) ltac:(vm_compute; reflexivity))).
    vm_compute. reflexivity.
Defined.

Lemma uninterrupted_pass_witness :
  let n := mkNet (pending_sends_ sent) false 0 true false [Idle; Taking] [] [] [] in
  length (queue n) = 1%nat /\
  exists tr n' fs, run_trace tr n = Some n' /\ frames n' = fs /\
    wire (socket (snd (ProcessPendingSends sent))) = wire (socket sent) ++ fs /\
    workers n' = [Idle; Idle].
Proof.
  cbv zeta. set (n := mkNet _ _ _ _ _ _ _ _ _). split; [vm_compute; reflexivity|].
  destruct (uninterrupted_pass sent n 1) as (tr & n' & fs & w' & Htr & Hp & Hf & Hw & _ & _ & Hwk).
  - exact (wok_sends _ _ _ _ sent_ok).
  - apply alive_check. vm_compute. reflexivity.
  - reflexivity.
  - reflexivity.
  - exists tr, n', fs. rewrite Hp. split; [exact Htr|]. split; [exact Hf|]. split; [exact Hw|].
    exact Hwk.
Defined.

(** alice's client comes back under a new identity. *)
Lemma RegisterHandler_outcome_witness :
  let w' := snd (RegisterHandler_Handle (register "alice") "id-a2" demo) in
  registered "alice" "id-a2" demo w' /\
  active_clients_ demo !! "alice"%string = Some 0%nat /\ sessions w' !! 0%nat = None /\
  identity_to_name_ w' !! "id-a"%string = None.
Proof.
  cbv zeta. assert (sender_ (register "alice") <> EmptyString) as Hn by discriminate.
  assert (idle demo) as Hi by (apply idle_check; vm_compute; reflexivity).
  pose proof (RegisterHandler_outcome (register "alice") "id-a2" demo Hn demo_ok Hi) as Ho.
  assert (is_stuck (fst (RegisterHandler_Handle (register "alice") "id-a2" demo)) = false /\
          identity_to_name_ (snd (RegisterHandler_Handle (register "alice") "id-a2" demo))
            !! "id-a"%string = None) as [_ Hid] by (split; vm_compute; reflexivity).
  destruct (RegisterHandler_Handle (register "alice") "id-a2" demo) as [[u|e|f] w'];
    [| |contradiction]; destruct Ho as [_ Hr]; cbn [snd] in *;
    (split; [exact Hr|]; split; [vm_compute; reflexivity|]; split; [|exact Hid];
     apply (rg_old _ _ _ _ Hr); vm_compute; reflexivity).
Defined.

Lemma UnregisterHandler_outcome_witness :
  let m := SetSender "bob" (SetType MT_Unregister Message_default) in
  exists w', UnregisterHandler_Handle m demo = (Ret tt, w') /\
    active_clients_ w' !! "bob"%string = None /\ sessions w' = delete 1%nat (sessions demo) /\
    pending_sends_ w' = pending_sends_ demo.
Proof.
  cbv zeta. set (m := SetSender "bob" _).
  assert (idle demo) as Hi by (apply idle_check; vm_compute; reflexivity).
  destruct (UnregisterHandler_outcome m demo demo_ok Hi) as (w' & Hr & _ & Ha & _ & Hs & Hb).
  exists w'. split; [exact Hr|]. split; [rewrite Ha; apply lookup_delete_eq|].
  split; [|exact (be_sends _ _ Hb)]. rewrite Hs.
  assert (active_clients_ demo !! sender_ m = Some 1%nat) as -> by (vm_compute; reflexivity).
  reflexivity.
Defined.

Lemma Stop_outcome_witness :
  length (pending_sends_ sent) = 1%nat /\ Stop sent = (Ret tt, stopped sent).
Proof.
  split; [vm_compute; reflexivity|].
  assert (Forall (callback_alive sent) (pending_sends_ sent)) as Ha
    by (apply alive_check; vm_compute; reflexivity).
  pose proof (Stop_outcome sent Ha) as Ho.
  assert (running_ sent = true) as Er by (vm_compute; reflexivity).
  assert (pending_sends_mutex_ sent = false) as Em by (vm_compute; reflexivity).
  rewrite Er, Em in Ho. exact (proj1 Ho).
Defined.

(** The frames of two clients, and one more, at the socket. *)
Definition at_socket (l : list (list byte)) (w : World Storage) : World Storage :=
  set_socket (socket_of l) w.

Lemma at_socket_ok P l w : rok P w -> rok P (at_socket l w).
Proof. intros Hw. by apply (wok_sessions _ _ _ w). Qed.

Definition arriving : World Storage :=
  at_socket [bytes_of_string "id-a"; wire_of hello; bytes_of_string "id-b"; wire_of acknowledgement;
             bytes_of_string "id-c"] demo.

Lemma receive_loop_routed_witness :
  receive_loop arriving = routed (inbox (socket arriving)) arriving /\
  rows (sview (snd (receive_loop arriving))) !! 1 = Some (hello, STATUS_DELIVERED).
Proof.
  split; [apply receive_loop_routed|]; vm_compute; reflexivity.
Defined.

Lemma OnZmqEvent_outcome_witness :
  exists w', OnZmqEvent no_error arriving = (Ret tt, w') /\ inbox (socket w') = [] /\
    waiting w' = true.
Proof.
  assert (rok [] arriving) as Hw by (apply at_socket_ok, demo_ok).
  assert (running_ arriving = true) as Hr by (vm_compute; reflexivity).
  assert (socket_open (socket arriving) = true) as Hs by (vm_compute; reflexivity).
  pose proof (OnZmqEvent_outcome arriving Hw Hr Hs) as Ho.
  assert (fst (OnZmqEvent no_error arriving) = Ret tt) as Er by (vm_compute; reflexivity).
  destruct (OnZmqEvent no_error arriving) as [r w']. cbn in Er. subst r.
  destruct Ho as (_ & _ & _ & Hi & Hwt & _).
  exists w'. split; [reflexivity|]. split; [exact Hi|exact Hwt].
Defined.

(** alice was away when bob answered, and her session is back. *)
Definition answered_away : World Storage :=
  reached (both ++ [(hello, "id-a"%string);
                    (SetSender "alice" (SetType MT_Unregister Message_default), "id-a"%string);
                    (answer, "id-b"%string)]) (Some MetricsManager_ctor).

Lemma set_storage_ok P w s : rok P w -> st_ok s -> rok P (set_storage s w).
Proof. intros [] Hs. by split. Qed.

Definition answer_waits : World Storage := set_storage (storage_ answered_away) demo.

Lemma answer_waits_ok : rok [] answer_waits.
Proof.
  apply set_storage_ok; [exact demo_ok|]. apply (wok_store false [] None), reached_ok.
  vm_compute. reflexivity.
Qed.

Definition alice_session : Session :=
  match sessions answer_waits !! 0%nat with Some s => s | None => bob end.

Lemma alice_online : Online "alice" 0 alice_session answer_waits.
Proof. apply online_check. unfold online_at. split; [|split]; vm_compute; reflexivity. Qed.

Lemma DeliverPendingReplies_outcome_witness :
  exists w', DeliverPendingReplies "alice" answer_waits = (Ret tt, w') /\
    replies_outcome "alice" 0 alice_session answer_waits (Ret tt, w') /\
    (exists l, fst (iLoadPendingRepliesForSenderOnly "alice" (storage_ answer_waits)) = Ret l /\
       all_rows (fun _ p => reply_for_sender "alice" p (sview answer_waits)) l
         (sview answer_waits)) /\
    rows (sview w') !! 2 = Some (answer, STATUS_DELIVERED).
Proof.
  assert (outgoing_queue_ alice_session = []) as Hq by (vm_compute; reflexivity).
  destruct (DeliverPendingReplies_outcome "alice" 0 alice_session answer_waits
              answer_waits_ok alice_online Hq) as [Ho Hk].
  destruct (Hk 0%nat) as (Er & _ & Hl); [apply well_check; vm_compute; reflexivity|].
  assert (rows (sview (snd (DeliverPendingReplies "alice" answer_waits))) !! 2 =
            Some (answer, STATUS_DELIVERED)) as Es by (vm_compute; reflexivity).
  destruct (DeliverPendingReplies "alice" answer_waits) as [r w']. cbn in Er, Es. subst r.
  exists w'. split; [reflexivity|]. split; [exact Ho|]. split; [exact Hl|exact Es].
Defined.

(** A day passes for the database, and a minute for the server. *)
Definition day_later (w : World Storage) : World Storage :=
  set_storage (Storage.set_clock (Storage.clock (storage_ w) + 86400) (storage_ w)) (later w).

Lemma day_later_ok w : rok [] w -> rok [] (day_later w).
Proof.
  intros Hw. apply set_storage_ok; [by apply set_clock_ok|]. pose proof (wok_store _ _ _ _ Hw) as [].
  by split.
Qed.

Lemma CheckExpiredAcks_outcome_witness :
  let w := day_later sent in
  let t := AckTimeout (config_ w) in
  exists w', CheckExpiredAcks w = (Ret tt, w') /\ expired_outcome t w (Ret tt, w') /\
    (exists l, fst (iLoadExpiredSent t (storage_ w)) = Ret l /\
       all_rows (fun i p => snd p = STATUS_SENT /\ st_expired t (storage_ w) i) l (sview w)) /\
    map data (pending_sends_ w') = [wire_of hello; wire_of hello].
Proof.
  cbv zeta. pose proof (CheckExpiredAcks_outcome (day_later sent) (day_later_ok sent sent_ok)) as Ho.
  cbv zeta in Ho.
  assert ((AckTimeout (config_ (day_later sent)) <=? 0) = false) as Et
    by (vm_compute; reflexivity).
  rewrite Et in Ho. destruct Ho as [Ho Hk].
  destruct (Hk 0%nat) as (Er & _ & Hl); [apply well_check; vm_compute; reflexivity|].
  assert (map data (pending_sends_ (snd (CheckExpiredAcks (day_later sent)))) =
            [wire_of hello; wire_of hello]) as Es by (vm_compute; reflexivity).
  destruct (CheckExpiredAcks (day_later sent)) as [r w']. cbn in Er, Es. subst r.
  exists w'. split; [reflexivity|]. split; [exact Ho|]. split; [exact Hl|exact Es].
Defined.

Lemma SignalHandler_outcome_witness :
  let p := mkProcess false false true sent 0 in
  SignalHandler p = (Ret tt, signalled p) /\ running_ (server (signalled p)) = false.
Proof.
  cbv zeta. set (p := mkProcess false false true sent 0).
  assert (running_ sent = true) as Hr by (vm_compute; reflexivity).
  assert (Forall (callback_alive sent) (pending_sends_ sent)) as Ha
    by (apply alive_check; vm_compute; reflexivity).
  assert (pending_sends_mutex_ sent = false) as Hm by (vm_compute; reflexivity).
  pose proof (SignalHandler_outcome p Hr Ha) as Ho.
  unfold p in Ho. cbn [g_shutdown_mutex g_shutdown_requested g_server_ptr server andb] in Ho.
  rewrite Hm in Ho. split; [exact (proj1 Ho)|]. vm_compute. reflexivity.
Defined.

(** ** Behaviours that go wrong

    Each theorem is a run of the whole model. *)

Definition row_status (i : Z) (w : World Storage) : option Z :=
  option_map snd (rows (sview w) !! i).

(** The statuses of a message through the exchanges [l], its sender and destination being
    online. *)
Definition exchanged (l : list (Message * string)) : World Storage :=
  reached (both ++ (hello, "id-a"%string) :: l) (Some MetricsManager_ctor).

(** A reply costs its request the ACK ([Acks.reply_loses_ack]): the message that stays SENT
    is sent to bob again by a later [CheckExpiredAcks]. *)
Example reply_loses_ack_run :
  row_status 1 (exchanged [(acknowledgement, "id-b"%string)]) = Some STATUS_DELIVERED /\
  row_status 1 (exchanged [(answer, "id-b"%string); (acknowledgement, "id-b"%string)]) =
    Some STATUS_SENT /\
  map data (pending_sends_ (snd (CheckExpiredAcks (day_later
    (exchanged [(answer, "id-b"%string); (acknowledgement, "id-b"%string)]))))) =
    [wire_of hello; wire_of answer; wire_of hello].
Proof. split; [|split]; vm_compute; reflexivity. Qed.

(** Nothing catches what a read of the socket throws: an error of [recv] ends the process. *)
Example read_error_ends_process :
  fst (serve [Read_errors [true]; Socket_ready no_error] demo) = Stuck Terminate /\
  fst (serve [Read_errors [false]; Socket_ready no_error] demo) = Ret tt.
Proof. split; vm_compute; reflexivity. Qed.

(** The callback of a send holds a bare [this]: alice's client registers again under a
    new identity while a message to the old one is in the send queue; the old session is
    destroyed with the registration, and the send that then fails marks it offline. *)
Lemma callback_outlives_session :
  let w := at_socket [bytes_of_string "id-b"; wire_of (mkMessage MT_Message FlagNone 7 "bob" "alice" []);
                      bytes_of_string "id-a2"; wire_of (register "alice")] demo in
  let o := OnZmqEvent no_error w in
  fst o = Ret tt /\
  fst (posted_handler (set_socket (mkSocket [] [] [SendAgain] [] true) (snd o))) =
    Stuck UseAfterFree.
Proof. cbv zeta. split; vm_compute; reflexivity. Qed.

(** A message of three frames, as a REQ client sends it, shifts the pairing of the
    frames: its data is taken for an identity and the identity of the next client for a
    message, so that the next client's registration is lost. *)
Example odd_frames_shift_pairs :
  let id_c := bytes_of_string "id-c" in
  let run l := snd (OnZmqEvent no_error (at_socket l demo)) in
  active_clients_ (run [id_c; wire_of (register "carol")]) !! "carol"%string = Some 2%nat /\
  active_clients_ (run [bytes_of_string "id-a"; []; wire_of hello; id_c; wire_of (register "carol")])
    !! "carol"%string = None.
Proof. cbv zeta. split; vm_compute; reflexivity. Qed.

(** A reply that asks for an ACK and was stored while its destination was away is
    DELIVERED as soon as it is given to the sender, unlike a message, which waits as
    SENT: nothing sends it again if it is lost. *)
Example stored_reply_is_not_acknowledged :
  let gone := [(SetSender "bob" (SetType MT_Unregister Message_default), "id-b"%string)] in
  let back := [(register "bob", "id-b"%string)] in
  let to_bob t := mkMessage t FlagNeedsAck 5 "alice" "bob" [] in
  let run t := reached (both ++ gone ++ [(to_bob t, "id-a"%string)] ++ back)
                 (Some MetricsManager_ctor) in
  row_status 1 (run MT_Message) = Some STATUS_SENT /\
  row_status 1 (run MT_Reply) = Some STATUS_DELIVERED.
Proof. cbv zeta. split; vm_compute; reflexivity. Qed.

(** [AckHandler] does not ask who acknowledges: the ACK of a client that never saw the
    message, under its correlation id, makes it DELIVERED, and alice is told so. *)
Example stranger_acknowledges :
  let w := exchanged [(register "carol", "id-c"%string);
                      (SetSender "carol" acknowledgement, "id-c"%string)] in
  row_status 1 w = Some STATUS_DELIVERED /\
  map identity (pending_sends_ w) = ["id-b"; "id-a"]%string.
Proof. cbv zeta. split; vm_compute; reflexivity. Qed.

(** [MessageHandler::Handle] with the step of another worker between its two [try]
    blocks. *)
Definition interrupted (other : M (World Storage) unit) (m : Message) : M (World Storage) unit :=
  scoped (FindSession (destination_ m)) (fun session =>
    can_deliver_immediately <- session_online session ;;
    message_id <- store_message m can_deliver_immediately ;;
    other ;;;
    match message_id, session with
    | Some message_id, Some i => send_message m i message_id
    | _, _ => ret tt
    end).

Lemma interrupted_by_nothing m : interrupted (ret tt) m = MessageHandler_Handle m.
Proof. reflexivity. Qed.

(** The handler has found bob online; another worker's send to him fails; the handler goes
    on, and the message is queued in the session. *)
Definition queued_by_race : World Storage :=
  snd (interrupted ProcessPendingSends hello
         (set_socket (mkSocket [] [] [SendAgain] [] true) (exchanged [(answer, "id-a"%string)]))).

(** [~Server] destroys the storage before the router: a session that still holds a
    message then saves it into a destroyed storage.  The message is the one a race
    between a failing send and [MessageHandler] leaves in the queue, marked SENT. *)
Example shutdown_after_race :
  row_status 3 queued_by_race = Some STATUS_SENT /\
  option_map (fun s => length (outgoing_queue_ s)) (sessions queued_by_race !! 1%nat) =
    Some 1%nat /\
  fst (Server_dtor queued_by_race) = Stuck UseAfterFree /\
  fst (Server_dtor sent) = Ret tt.
Proof. split; [|split; [|split]]; vm_compute; reflexivity. Qed.

(** No handler of the timers catches what the storage throws: the update of a status
    that fails while expired messages are retried ends the process, where the same
    failure while a message is routed is caught and counted. *)
Lemma failed_update_ends_process :
  let faulty l w := set_storage (set_faults l (storage_ w)) w in
  fst (handler (on_ack_timer no_error) (faulty [None; Some 0%nat] (day_later sent))) =
    Stuck Terminate /\
  fst (handler (on_ack_timer no_error) (day_later sent)) = Ret tt /\
  fst (MessageHandler_Handle hello (faulty [Some 0%nat] sent)) = Ret tt.
Proof. cbv zeta. split; [|split]; vm_compute; reflexivity. Qed.

(** ** The broker and its clients

    What the ROUTER socket delivers to the client [name]: the frames after its identity. *)
Fixpoint addressed (name : string) (l : list frame) : list (option (list byte)) :=
  match l with
  | i :: d :: x :: l' =>
      (if bool_decide (frame_bytes i = bytes_of_string name)
       then [Some (frame_bytes d); Some (frame_bytes x)] else []) ++ addressed name l'
  | _ => []
  end.

(** The broker hears [l] from the client [name], and the posted handler runs. *)
Definition hears (name : string) (l : list (list byte)) (w : World Storage) : World Storage :=
  let inbox := flat_map (fun d => [bytes_of_string name; d]) l in
  snd (posted_handler (snd (OnZmqEvent no_error
    (set_socket (mkSocket inbox [] [] (wire (socket w)) true) w)))).

(** A client that is sent [inc] and does [l]. *)
Definition client_does (name : string) (inc : list (option (list byte))) (l : list activity) : Client :=
  snd (interact false LittleEndian l (mkClient name true true draw ∅ false inc [] [])).

Definition registration (name : string) : list (list byte) :=
  outgoing (snd (client_Register LittleEndian (mkClient name true false draw ∅ false [] [] []))).

(** Both clients register, alice's sends a message that asks for an ACK, bob's gets it from
    the broker and acknowledges it; the broker marks it DELIVERED and tells alice's. *)
Definition registered_both : World Storage :=
  hears "bob" (registration "bob") (hears "alice" (registration "alice") (fresh None)).
Definition asked : World Storage :=
  hears "alice" (outgoing (client_does "alice" [] [Typed "send_ack bob hi"])) registered_both.
Definition bob_client : Client :=
  client_does "bob" (addressed "bob" (wire (socket asked))) [Polled; Polled].
Definition closed_loop : World Storage := hears "bob" (outgoing bob_client) asked.

Example acknowledged_end_to_end :
  row_status 1 asked = Some STATUS_SENT /\ length (outgoing bob_client) = 1%nat /\
  row_status 1 closed_loop = Some STATUS_DELIVERED /\
  map (fun d => match d with
                | Some d => match Deserialize false LittleEndian d with
                            | Ret m => Some (type_ m, correlation_id_ m) | _ => None end
                | None => None
                end) (addressed "alice" (wire (socket closed_loop))) = [None; Some (MT_Ack, 7)].
Proof. split; [|split; [|split]]; vm_compute; reflexivity. Qed.

(** ** The whole process *)
Definition platform : Platform Storage :=
  mkPlatform Storage 8 (Ret tt) (fun _ => Ret tt) (fun _ => Ret empty_storage) (fun _ => true)
    (fun _ _ => true) 7 (fun _ c flags => match c with F_GETFL => 2 | F_SETFL => 0 end) 2048 1000.

Definition conversation : list (Message * string) := both ++ [(hello, "id-a"%string)].

(** alice and bob register, alice writes to bob, and the operator presses ^C before the
    message has left the send queue. *)
Definition evening : M (Process Storage) unit :=
  of_server (route conversation) ;;; SignalHandler.

Definition started : World Storage :=
  Server_ctor (set_Threads 8 (set_Port 77 Config_default)) true empty_storage 1000.

Lemma started_ok : rok [] started.
Proof.
  split; try done; cbn.
  - by intros i Hi%elem_of_nil.
  - by intros i [s Hs].
Qed.

Lemma talked_at_rest : at_rest (snd (route conversation started)).
Proof.
  apply rok_at_rest.
  - pose proof (keeps_route conversation started started_ok) as Hk. revert Hk. unfold wp.
    assert (fst (route conversation started) = Ret tt) as E by (vm_compute; reflexivity).
    destruct (route conversation started) as [r w]. cbn in *. by subst.
  - apply idle_check. vm_compute. reflexivity.
  - intros _. apply alive_check. vm_compute. reflexivity.
Qed.

Lemma evening_spent :
  evening (mkProcess false false true started 0) =
  (Ret tt, signalled (mkProcess false false true (snd (route conversation started)) 0)).
Proof.
  unfold evening, bind.
  rewrite (of_server_eq _ _ tt (snd (route conversation started))).
  - apply SignalHandler_first; try (vm_compute; reflexivity).
    apply (re_callbacks _ talked_at_rest). vm_compute. reflexivity.
  - cbn [server]. assert (fst (route conversation started) = Ret tt) as E by (vm_compute; reflexivity).
    rewrite <- E. by destruct (route conversation started).
Qed.

Lemma evening_ends : main platform ["broker"; "--port"; "77"]%string evening = Ret 0.
Proof.
  rewrite (main_outcome platform ["broker"; "--port"; "77"]%string evening); [reflexivity| |].
  { split; [done..|]. intros path st. cbn. intros [= <-]. exact empty_storage_ok. }
  intros config w Ea Em. assert (config = set_Threads 8 (set_Port 77 Config_default)) as ->
    by (revert Ea; vm_compute; by intros [= <-]).
  assert (w = started) as -> by (revert Em; vm_compute; by intros [= <-]).
  eexists. split; [exact evening_spent|]. apply at_rest_stopped, talked_at_rest.
Defined.

(** ** A day of the server

    Both clients register, alice's message for bob asks for an ACK, the ACK timer finds it
    expired, the socket refuses a frame to bob, and a broken message arrives. *)
Definition frames (name : string) (l : list (list byte)) : list (list byte) :=
  flat_map (fun d => [bytes_of_string name; d]) l.

Definition day : list (server_event Storage) :=
  [ Arrives (frames "alice" (registration "alice")); Socket_ready no_error;
    Arrives (frames "bob" (registration "bob")); Socket_ready no_error;
    Arrives (frames "alice" (outgoing (client_does "alice" [] [Typed "send_ack bob hi"])));
    Socket_ready no_error; Posted_runs; Passes (60 * 10 ^ 9) (fun s => Storage.set_clock (Storage.clock s + 86400) s); Ack_timer_fires no_error;
    Answers [SendOk; SendAgain]; Posted_runs;
    Read_errors [false; false]; Arrives (frames "mallory" [bytes_of_string "not a message"]); Socket_ready no_error ].

Lemma day_ticks : Forall tick_ok day.
Proof.
  unfold day. repeat (apply Forall_cons_2; [try exact I|]); [|exact (Forall_nil_2 _)].
  intros s []. by split.
Qed.

Lemma serve_typed_witness :
  typed (snd (serve day (fresh None))) /\
  map sndmore (wire (socket (snd (serve day (fresh None))))) = [true; true; false; true].
Proof.
  split; [|vm_compute; reflexivity]. apply (serve_typed day (fresh None) day_ticks).
  split; [exact empty_storage_ok| | |exact (Forall_nil_2 _)|exact (Forall_nil_2 _)].
  - intros i m st. assert (rows (view (storage_ (fresh None))) = ∅) as -> by (vm_compute; reflexivity).
    by rewrite lookup_empty.
  - intros i s Hi. cbn in Hi. by rewrite lookup_empty in Hi.
Defined.

Lemma serve_outcome_witness :
  exists w', serve day (fresh None) = (Ret tt, w') /\ rok [] w' /\ idle w' /\
    row_status 1 w' = Some STATUS_SENT.
Proof.
  assert (idle (fresh None)) as Hi by (apply idle_check; vm_compute; reflexivity).
  destruct (serve_outcome day (fresh None) day_ticks (fresh_ok None) Hi) as [_ Hs]; [reflexivity|].
  assert (fst (serve day (fresh None)) = Ret tt) as E by (vm_compute; reflexivity).
  assert (row_status 1 (snd (serve day (fresh None))) = Some STATUS_SENT) as R
    by (vm_compute; reflexivity).
  destruct (serve day (fresh None)) as [r w']. cbn in E, R. subst r. destruct Hs as (H1 & H2 & _).
  exists w'. by split_and!.
Defined.

(** The process whose server has that day. *)
Lemma main_serves_witness :
  main platform ["broker"; "--port"; "77"]%string (run_and_signal day) = Ret 0 /\
  exit_status platform ["broker"; "--port"; "77"]%string = 0.
Proof.
  assert (platform_ok platform) as Hp.
  { split; [done..|]. intros path st. cbn. intros [= <-]. exact empty_storage_ok. }
  pose proof (main_serves platform ["broker"; "--port"; "77"]%string day Hp day_ticks) as Hm.
  assert (main platform ["broker"; "--port"; "77"]%string (run_and_signal day) = Ret 0) as E
    by (vm_compute; reflexivity).
  rewrite E in Hm. by split.
Defined.
